(* ===== verification/_CoqProject ===== *)
-Q . S2P
Prelude.v
Bytes.v
Page.v
SlottedPage.v
SlottedPageSpec.v
SlottedPageOps.v
SlottedPageCompact.v
SlottedPageRefine.v
SlottedPageProps.v
Evictor.v
RustStr.v
SlottedPageTests.v
Schema.v
SchemaProps.v
SchemaTests.v
Ordering.v
OrderedFloat.v
FloatText.v
DataModel.v
DataModelProps.v
DataText.v
DataModelTests.v
Serializer.v
SerializerLayout.v
SerializerRoundtrip.v
SerializerKey.v
SerializerErrors.v
SerializerTests.v
LeafNode.v
LeafNodeSpec.v
LeafNodeOps.v
LeafNodeProps.v
LeafNodeHistory.v
LeafNodeMerge.v
LeafNodeSplit.v
LeafNodeTests.v
FileSystem.v
FileSystemProps.v
FileSystemTests.v
DiskManager.v
DiskManagerSpec.v
DiskManagerProps.v
DiskManagerAlloc.v
DiskManagerTests.v
PageStore.v
Prog.v
ProgLogic.v
Frame.v
Broadcast.v
BufferPool.v
BufferPoolTests.v
BufferPoolSpec.v
BufferPoolSteps.v
BufferPoolCore.v
BufferPoolFetch.v
BufferPoolMethods.v
BufferPoolCreate.v
BufferPoolProps.v
BufferPoolHistory.v
BufferPoolLost.v
BufferPoolErrors.v
BufferPoolRace.v
BufferPoolStandstill.v
BufferPoolAccounts.v
BufferPoolOwned.v
BufferPoolThreads.v
