(* ===== verification/Prelude.v ===== *)
(** * rarmdb: a verification development

    rarmdb is the storage layer of a relational database: typed records are
    serialized to bytes, kept in slotted 8192-byte pages, arranged in the leaves
    of a B-tree, cached in frames by a buffer pool, and stored by a disk manager
    in one file per table.  This library models that code ([src/crates]),
    one definition per function, and proves what each part promises to the next.

    ** The program's parts and where they are

    - Schemas ([schema_def/src]): [Schema], [SchemaProps], [SchemaTests]: column
      types and their text form, columns, constraints, tables.  Texts are UTF-8
      bytes, with the parts of [str] and integer formatting that the code uses in
      [RustStr].
    - Values ([data_model/src]): [Ordering] ([Ord] and its laws), [OrderedFloat]
      (total order on [f64]), [FloatText] (its [Display]), [DataModel] (values,
      keys, records), [DataModelProps], [DataText] ([Display] and [Hash]),
      [DataModelTests].
    - Records as bytes ([storage/src/record_serializer.rs]): [Serializer],
      [SerializerLayout], [SerializerRoundtrip], [SerializerKey],
      [SerializerErrors], [SerializerTests].
    - Pages ([page.rs], [page_id.rs], [slot.rs], [slotted_page_view.rs]):
      [Bytes] (buffers, slices, little-endian integers), [Page], [SlottedPage],
      its specification and refinement [SlottedPageSpec], [SlottedPageOps],
      [SlottedPageCompact], [SlottedPageRefine], the properties in
      [SlottedPageProps], [SlottedPageTests].
    - Leaves ([btree/]): [LeafNode], its specification [LeafNodeSpec],
      [LeafNodeOps], [LeafNodeProps], [LeafNodeHistory], [LeafNodeMerge],
      [LeafNodeSplit], [LeafNodeTests].
    - Files ([file_system.rs]): [FileSystem], [FileSystemProps],
      [FileSystemTests].
    - The disk manager ([disk_manager.rs]): [DiskManager], [DiskManagerSpec],
      [DiskManagerProps], [DiskManagerAlloc], [DiskManagerTests].
    - The clock replacer ([evictor.rs]): [Evictor].
    - The buffer pool ([buffer_pool_manager.rs], [page_processing_map.rs],
      [bpm_error.rs], [frame.rs], [page_guard.rs]): [Prog] (programs that can be
      interleaved, mutexes), [Frame], [Broadcast], [PageStore], [BufferPool],
      [BufferPoolTests]; for a single caller [BufferPoolSpec], [BufferPoolSteps],
      [BufferPoolCore], [BufferPoolFetch], [BufferPoolMethods],
      [BufferPoolCreate], [BufferPoolProps], [BufferPoolHistory],
      [BufferPoolLost] (a frame that a failed read has left behind),
      [BufferPoolErrors]; for several threads [BufferPoolRace],
      [BufferPoolStandstill], and [ProgLogic], [BufferPoolAccounts],
      [BufferPoolOwned], [BufferPoolThreads].

    ** How the parts fit together

    A leaf is a slotted page whose records are serialized rows; its theorems are
    proved from the lemmas on pages ([SlottedPageOps]) and on keys read from
    bytes ([SerializerKey]).  Where one component calls another through a trait
    or across a crate, a class states what is promised:
    - [Evictor.EvictorLaws]: a set of eligible frames within a capacity; the
      clock replacer is an instance, the buffer pool is proved against the class;
    - [FileSystem.FileSystemLaws]: the contract of the two traits of
      [file_system.rs], of which the implementation on [tokio::fs] is an instance
      given its documented behaviour, [FileSystem.TokioFsLaws], and the
      assumption [FileSystem.TokioWritesLand]; the disk manager is proved against
      it;
    - [PageStore.PageStoreLaws]: allocate, read and write of pages, of which the
      disk manager is an instance; the buffer pool is proved against it;
    - [Broadcast.BroadcastLaws], [DataModel.DecimalLaws]: the channels of [tokio]
      and the crate [rust_decimal], which are not part of the repository.
    Each class has an executable instance, on which the unit tests of the
    repository are run as closed statements and the witnesses are evaluated.

    ** How the code is represented

    A fallible function returns an [outcome]: a value, an error of its [Result],
    or a panic (a slice out of range, an [unwrap], an underflow).  A method with
    [&mut self] is a [stateM]: the state survives an error.  Machine integers are
    [Z] with wrap-around and overflow written out; a page is a [list Z] of bytes.
    A method of the buffer pool, which threads share, is a [prog]: a tree of
    atomic accesses to the state, one for each access to an atomic field, each
    lock taken or released and each call of the evictor, of a channel or of the
    disk manager.  [run] takes a program to its end alone, [None] if it would
    wait for ever; [interleave] steps a list of programs in any order.  What holds
    in every interleaving is proved thread by thread: [ProgLogic.safe] says which
    tokens (a mutex held, a pin, the lock of a guard) a program takes and gives
    back whatever the others own, and an account ties the tokens of all threads
    to the shared state.

    ** What the theorems show

    - Refinement of an abstract specification by any history of operations: a
      slotted page is a list of records with a count of fragmented bytes
      ([page_history_refines]); a leaf is a sorted list of keys
      ([leaf_history_refines]); the clock replacer is a set
      ([clock_history_is_set]); the buffer pool shows each page as it was last
      written, whatever was evicted ([pool_history]).  There a page is what it
      shows and, for one created in a used frame, the zeros it lapses to when it
      is evicted unwritten ([BufferPoolSpec.Known]); an error of a call is the one
      of its own allocation, read or flush ([fetch_error], [create_error]).
    - Each operation on each branch: insert, update, delete, compact and
      initialize of a page; insert, update, find, split and merge of leaves;
      creating tables and pages; building schemas.
    - Round trips: records through bytes, column types through text, pages
      through the disk.  Layout: what each byte of a serialized record is.
    - Orders: floats, values and keys are totally ordered, consistently with
      equality and hashing.
    - Termination: the victim search of the clock replacer ends within two turns.
      Bounds: the wrap-around of the page counter, the decimal digits of a
      compatible value.
    - Concurrency: any interleaving of page allocations ([concurrent_allocation]);
      any interleaving of any callers of the buffer pool, after which mutexes,
      frame locks, guards and pins add up ([pool_interleavings]); and, for any
      full pool, an interleaving that loses a write ([guard_drop_race]) and one
      that comes to a standstill ([eviction_standstill]), where the same calls in
      turn do neither.
    - Errors: where the code panics, reports the wrong error, hangs or loses data
      ([serialize_mismatch], [split_and_insert_overflow],
      [split_and_insert_lopsided], [initialize_clobbers_parent],
      [create_page_spec], [fetch_error_hangs]).

    ** Fuel and bounds

    Loops over a range are folds over it.  The binary search has as fuel the
    number of records and one, and [find_key_spec] shows that it ends; the clock
    hand goes round twice, as in the source, and [clock_victim_policy] shows that
    it finds a victim when there is one; a 128-bit logarithm has 39 digits; an integer has at most 20, the
    text of a float 24 powers of ten to try.  [prog] is well founded: its loops
    are those of the source, which has none in the methods of the buffer pool.

    ** What is assumed, and what is not modelled

    - [tokio::fs] is assumed to behave as documented ([TokioFsLaws]).  That the
      data of a [write_all] that returned [Ok] is in the file is not documented,
      since the write goes on in the background; the code relies on it, so it is a
      class of its own ([TokioWritesLand]) and recorded as a finding.  What is
      proved of the contents of pages on the disk rests on it.
    - A read within a file is assumed to fill its buffer where the contents of
      pages are followed through the disk ([PageStore.FullReads]); a short read
      is a finding.
    - A call of the disk manager is one atomic step of the buffer pool
      ([BufferPool.on_disk]), although it suspends inside; its own suspension
      points are modelled for [allocate_page] only.  So the interleavings of the
      buffer pool are those between such calls.
    - An [RwLock] is its readers, its writer or poisoned; which waiter is served
      first is left open.  A lock that a thread would wait for cannot be taken;
      that blocking in a task holds up the other tasks of its executor is not
      modelled.
    - The memory orderings of the atomics are all sequentially consistent in the
      code, so an access is one step of the interleaving.
    - [btree_node.rs] dispatches on the page type; an internal node has no
      operation in the source.
    - Capacities and allocation of vectors, [serde] derives, [Debug] texts, and
      the texts of I/O errors (a parameter) are not modelled.
    - The crates [sql], [network], [common], [client] and [server] are the stubs
      that [cargo new] writes; there is nothing in them to verify. *)
From Stdlib Require Export ZArith Lia.
From stdpp Require Export prelude numbers countable list.

#[global] Open Scope Z_scope.

(** * Outcomes

    A Rust function either returns a value, returns an error of its [Result]
    type, or panics (an index out of range, a failed [unwrap], an arithmetic
    overflow in a build with overflow checks). *)
Inductive outcome (E A : Type) : Type :=
| Ok (a : A)
| Err (e : E)
| Panic.
Arguments Ok {E A} a.
Arguments Err {E A} e.
Arguments Panic {E A}.

#[export] Instance outcome_ret {E} : MRet (outcome E) := fun _ a => Ok a.
#[export] Instance outcome_bind {E} : MBind (outcome E) := fun _ _ f m =>
  match m with
  | Ok a => f a
  | Err e => Err e
  | Panic => Panic
  end.
#[export] Instance outcome_fmap {E} : FMap (outcome E) := fun _ _ f m =>
  match m with
  | Ok a => Ok (f a)
  | Err e => Err e
  | Panic => Panic
  end.
#[export] Instance outcome_eq_dec {E A} `{EqDecision E, EqDecision A} :
  EqDecision (outcome E A).
Proof. solve_decision. Defined.

(** [opt.unwrap()] / [opt.expect(..)]. *)
Definition unwrap_opt {E A} (o : option A) : outcome E A :=
  match o with Some a => Ok a | None => Panic end.

(** [res.unwrap()] on a [Result]: an error becomes a panic, so the caller's
    error type is free. *)
Definition unwrap_res {E E' A} (m : outcome E A) : outcome E' A :=
  match m with Ok a => Ok a | Err _ => Panic | Panic => Panic end.

Definition is_ok {E A} (m : outcome E A) : bool :=
  match m with Ok _ => true | _ => false end.

(** Unsigned subtraction: underflow panics. *)
Definition usub {E} (a b : Z) : outcome E Z :=
  if b <=? a then Ok (a - b) else Panic.

(** Unsigned [w]-bit addition: overflow panics. *)
Definition uadd {E} (w a b : Z) : outcome E Z :=
  if a + b <? 2 ^ w then Ok (a + b) else Panic.

(** [x as u8], [x as u16], [x as i32]: truncating casts. *)
Definition wrap (w x : Z) : Z := x mod 2 ^ w.
Definition to_signed (w x : Z) : Z :=
  if x <? 2 ^ (w - 1) then x else x - 2 ^ w.

(** A [for] loop whose body may fail, over an accumulator. *)
Fixpoint ofold {E A B} (f : A -> B -> outcome E A) (a : A) (l : list B) : outcome E A :=
  match l with
  | [] => Ok a
  | b :: l => a' ← f a b; ofold f a' l
  end.

(** [for i in lo..hi] on integers. *)
Definition range (lo hi : Z) : list Z := seqZ lo (hi - lo).

(** * Methods with [&mut self]

    The state survives an error return, so that a partial update before an
    [Err] is visible. *)
Definition stateM (S E A : Type) : Type := S -> outcome E A * S.

#[export] Instance stateM_ret {S E} : MRet (stateM S E) := fun _ a s => (Ok a, s).
#[export] Instance stateM_bind {S E} : MBind (stateM S E) := fun _ _ f m s =>
  match m s with
  | (Ok a, s') => f a s'
  | (Err e, s') => (Err e, s')
  | (Panic, s') => (Panic, s')
  end.

Definition sret {S E A} (a : A) : stateM S E A := fun s => (Ok a, s).
Definition sfail {S E A} (e : E) : stateM S E A := fun s => (Err e, s).
Definition sget {S E A} (f : S -> outcome E A) : stateM S E A := fun s => (f s, s).
Definition slift {S E A} (m : outcome E A) : stateM S E A := fun s => (m, s).
Definition smodify {S E} (f : S -> S) : stateM S E unit := fun s => (Ok tt, f s).

(** A [for] loop over a body that updates the state. *)
Fixpoint sfor {S E B} (l : list B) (f : B -> stateM S E unit) : stateM S E unit :=
  match l with
  | [] => sret tt
  | b :: l => f b ≫= fun _ => sfor l f
  end.

(** A [for] loop that also threads local variables of type [A]. *)
Fixpoint sfold {S E A B} (f : A -> B -> stateM S E A) (a : A) (l : list B) : stateM S E A :=
  match l with
  | [] => sret a
  | b :: l => f a b ≫= fun a' => sfold f a' l
  end.

(** * Automation *)

Create HintDb rarm.
Create Rewrite HintDb rarm.

(** Split a boolean comparison in the goal or in a hypothesis into its two
    arithmetic cases. *)
Ltac case_bool :=
  match goal with
  | |- context [?a <=? ?b] => destruct (Z.leb_spec a b)
  | |- context [?a <? ?b] => destruct (Z.ltb_spec a b)
  | |- context [?a =? ?b] => destruct (Z.eqb_spec a b)
  | H : context [?a <=? ?b] |- _ => destruct (Z.leb_spec a b)
  | H : context [?a <? ?b] |- _ => destruct (Z.ltb_spec a b)
  | H : context [?a =? ?b] |- _ => destruct (Z.eqb_spec a b)
  end.

(** Decide a comparison by arithmetic and simplify the test away. *)
Ltac zbool :=
  repeat match goal with
  | |- context [?a <=? ?b] =>
      first [ rewrite (proj2 (Z.leb_le a b)) by lia | rewrite (proj2 (Z.leb_gt a b)) by lia ]
  | |- context [?a <? ?b] =>
      first [ rewrite (proj2 (Z.ltb_lt a b)) by lia | rewrite (proj2 (Z.ltb_ge a b)) by lia ]
  | |- context [?a =? ?b] =>
      first [ rewrite (proj2 (Z.eqb_eq a b)) by lia | rewrite (proj2 (Z.eqb_neq a b)) by lia ]
  end.

(** * Generic lemmas *)

Lemma usub_ok {E} a b : b <= a -> @usub E a b = Ok (a - b).
Proof. intros. unfold usub. by zbool. Qed.

Lemma uadd_ok {E} w a b : a + b < 2 ^ w -> @uadd E w a b = Ok (a + b).
Proof. intros. unfold uadd. by zbool. Qed.

Lemma wrap_small w x : 0 <= x < 2 ^ w -> wrap w x = x.
Proof. intros. by apply Z.mod_small. Qed.

Lemma wrap_range w x : 0 <= w -> 0 <= wrap w x < 2 ^ w.
Proof. intros. apply Z.mod_pos_bound, Z.pow_pos_nonneg; lia. Qed.

(** Casting a signed value to its two's complement and back. *)
Lemma to_signed_wrap w x :
  0 < w -> - 2 ^ (w - 1) <= x < 2 ^ (w - 1) -> to_signed w (wrap w x) = x.
Proof.
  intros Hw Hx. unfold to_signed, wrap.
  assert (2 ^ w = 2 * 2 ^ (w - 1)) as Hp
    by (rewrite <- Z.pow_succ_r by lia; f_equal; lia).
  destruct (Z.le_gt_cases 0 x).
  - rewrite Z.mod_small by lia. by zbool.
  - rewrite <- (Z.mod_add x 1) by lia. rewrite Z.mod_small by lia. zbool. lia.
Qed.

Lemma ofold_app {E A B} (f : A -> B -> outcome E A) a l1 l2 :
  ofold f a (l1 ++ l2) = (a' ← ofold f a l1; ofold f a' l2).
Proof.
  revert a. induction l1 as [|b l1 IH]; intros a; simpl; [done|].
  destruct (f a b); simpl; [apply IH|done|done].
Qed.

(** A loop whose body never fails is a fold. *)
Lemma ofold_ok {E A B} (f : A -> B -> outcome E A) (g : A -> B -> A) a l :
  (forall a b, b ∈ l -> f a b = Ok (g a b)) -> ofold f a l = Ok (fold_left g l a).
Proof.
  revert a. induction l as [|b l IH]; intros a Hf; simpl; [done|].
  rewrite Hf by set_solver. simpl. apply IH. intros. apply Hf. set_solver.
Qed.

Lemma bind_ok {E A B} (f : A -> outcome E B) a : (Ok a ≫= f) = f a.
Proof. done. Qed.

Lemma bind_ok_inv {E A B} (m : outcome E A) (f : A -> outcome E B) b :
  (m ≫= f) = Ok b -> exists a, m = Ok a /\ f a = Ok b.
Proof. destruct m; simpl; intros; try discriminate. eauto. Qed.

(** One step of a function body: the statement in front returns [a]. *)
Lemma obind_step {E A B} (m : outcome E A) (f : A -> outcome E B) a r :
  m = Ok a -> f a = r -> (m ≫= f) = r.
Proof. by intros -> <-. Qed.

Lemma sget_step {S E A B} (g : S -> outcome E A) (f : A -> stateM S E B) s a r :
  g s = Ok a -> f a s = r -> (sget g ≫= f) s = r.
Proof. intros H <-. unfold mbind, stateM_bind, sget. by rewrite H. Qed.

Lemma slift_step {S E A B} (m : outcome E A) (f : A -> stateM S E B) s a r :
  m = Ok a -> f a s = r -> (slift m ≫= f) s = r.
Proof. by intros -> <-. Qed.

Lemma sbind_step {S E A B} (m : stateM S E A) (f : A -> stateM S E B) s a s' r :
  m s = (Ok a, s') -> f a s' = r -> (m ≫= f) s = r.
Proof. intros H <-. unfold mbind, stateM_bind. by rewrite H. Qed.

Tactic Notation "ostep" uconstr(l) "by" tactic3(t) :=
  eapply obind_step; [eapply l; t | cbv beta].
Tactic Notation "gstep" uconstr(l) "by" tactic3(t) :=
  eapply sget_step; [eapply l; t | cbv beta].
Tactic Notation "lstep" uconstr(l) "by" tactic3(t) :=
  eapply slift_step; [eapply l; t | cbv beta].
Tactic Notation "sstep" uconstr(l) "by" tactic3(t) :=
  eapply sbind_step; [eapply l; t | cbv beta].

Lemma sbind_ok {S E A B} (m : stateM S E A) (f : A -> stateM S E B) s a s' :
  m s = (Ok a, s') -> (m ≫= f) s = f a s'.
Proof. intros H. unfold mbind, stateM_bind. by rewrite H. Qed.

Lemma sbind_err {S E A B} (m : stateM S E A) (f : A -> stateM S E B) s e s' :
  m s = (Err e, s') -> (m ≫= f) s = (Err e, s').
Proof. intros H. unfold mbind, stateM_bind. by rewrite H. Qed.

Lemma sfor_app {S E B} (l1 l2 : list B) (f : B -> stateM S E unit) s :
  sfor (l1 ++ l2) f s = (sfor l1 f ≫= fun _ => sfor l2 f) s.
Proof.
  revert s. induction l1 as [|b l1 IH]; intros s; simpl; [done|].
  unfold mbind, stateM_bind in *. destruct (f b s) as [[a|e|] s']; auto.
Qed.

Lemma range_nil lo hi : hi <= lo -> range lo hi = [].
Proof. intros. unfold range. apply seqZ_nil. lia. Qed.

Lemma range_cons lo hi : lo < hi -> range lo hi = lo :: range (lo + 1) hi.
Proof.
  intros. unfold range. rewrite seqZ_cons by lia.
  replace (Z.succ lo) with (lo + 1) by lia. do 2 f_equal. lia.
Qed.

Lemma range_snoc lo hi : lo <= hi -> range lo (hi + 1) = range lo hi ++ [hi].
Proof.
  intros. unfold range. replace (hi + 1 - lo) with ((hi - lo) + 1) by lia.
  rewrite seqZ_app by lia. f_equal.
  replace (lo + (hi - lo)) with hi by lia. done.
Qed.

Lemma elem_of_range lo hi i : i ∈ range lo hi <-> lo <= i < hi.
Proof. unfold range. rewrite elem_of_seqZ. lia. Qed.

#[export] Hint Rewrite @bind_ok : rarm.
