(* ===== verification/Bytes.v ===== *)
(** Byte buffers: slices, overwrites of a region, little-endian integers.

    A buffer is a list of bytes, a byte an integer in [0, 256).  Offsets are
    integers, as in the code, and a slice out of range panics. *)
From S2P Require Import Prelude.

Definition zlen {A} (l : list A) : Z := Z.of_nat (length l).

Definition is_byte (b : Z) : Prop := 0 <= b < 256.
Abbreviation bytes_ok := (Forall is_byte).

(** The [n] elements from offset [off]: [l[off..off + n]] when in range. *)
Definition sub {A} (off n : Z) (l : list A) : list A :=
  take (Z.to_nat n) (drop (Z.to_nat off) l).

(** [l] with the region from [off] overwritten by [bs].  Every use is guarded
    by a range check; cutting [bs] at the end of [l] makes the length of the
    result the length of [l] with no side condition. *)
Definition splice {A} (off : Z) (bs l : list A) : list A :=
  take (Z.to_nat off) l
  ++ take (length l - Z.to_nat off) bs
  ++ drop (Z.to_nat off + length bs) l.

(** [&l[lo..hi]]. *)
Definition slice {E A} (lo hi : Z) (l : list A) : outcome E (list A) :=
  if (0 <=? lo) && (lo <=? hi) && (hi <=? zlen l) then Ok (sub lo (hi - lo) l) else Panic.

(** [&l[lo..]]. *)
Definition slice_from {E A} (lo : Z) (l : list A) : outcome E (list A) :=
  slice lo (zlen l) l.

(** [l[i]]. *)
Definition index {E A} (i : Z) (l : list A) : outcome E A :=
  if 0 <=? i then unwrap_opt (l !! Z.to_nat i) else Panic.

(** [l[lo..hi].copy_from_slice(src)]: panics unless the lengths agree. *)
Definition copy_from_slice {E A} (lo hi : Z) (src l : list A) : outcome E (list A) :=
  if (0 <=? lo) && (lo <=? hi) && (hi <=? zlen l) && (zlen src =? hi - lo)
  then Ok (splice lo src l) else Panic.

(** [l[i] = x]. *)
Definition store {E A} (i : Z) (x : A) (l : list A) : outcome E (list A) :=
  if (0 <=? i) && (i <? zlen l) then Ok (splice i [x] l) else Panic.

(** [l.copy_within(lo..hi, dst)]. *)
Definition copy_within {E A} (lo hi dst : Z) (l : list A) : outcome E (list A) :=
  if (0 <=? lo) && (lo <=? hi) && (hi <=? zlen l) && (0 <=? dst) && (dst <=? zlen l - (hi - lo))
  then Ok (splice dst (sub lo (hi - lo) l) l) else Panic.

(** [vec![x; n]]. *)
Definition fill {A} (x : A) (n : Z) : list A := replicate (Z.to_nat n) x.

(** [v.to_le_bytes()] of an [n]-byte integer, signed or not, and back. *)
Fixpoint le_bytes (n : nat) (v : Z) : list Z :=
  match n with
  | O => []
  | S n => v mod 256 :: le_bytes n (v / 256)
  end.

Fixpoint le_val (bs : list Z) : Z :=
  match bs with
  | [] => 0
  | b :: bs => b + 256 * le_val bs
  end.

(** [T::from_le_bytes(bs.try_into().unwrap())] for an [n]-byte unsigned and
    signed [T]: a slice of another length panics. *)
Definition from_le_u {E} (n : Z) (bs : list Z) : outcome E Z :=
  if zlen bs =? n then Ok (le_val bs) else Panic.
Definition from_le_i {E} (n : Z) (bs : list Z) : outcome E Z :=
  if zlen bs =? n then Ok (to_signed (8 * n) (le_val bs)) else Panic.

(** * Lengths *)

Lemma zlen_nonneg {A} (l : list A) : 0 <= zlen l.
Proof. unfold zlen. lia. Qed.
#[export] Hint Resolve zlen_nonneg : rarm.

Lemma zlen_nil {A} : zlen (@nil A) = 0. Proof. done. Qed.
Lemma zlen_cons {A} (x : A) l : zlen (x :: l) = 1 + zlen l.
Proof. unfold zlen. simpl. lia. Qed.
Lemma zlen_app {A} (l1 l2 : list A) : zlen (l1 ++ l2) = zlen l1 + zlen l2.
Proof. unfold zlen. rewrite length_app. lia. Qed.
Lemma zlen_fill {A} (x : A) n : 0 <= n -> zlen (fill x n) = n.
Proof. intros. unfold zlen, fill. rewrite length_replicate. lia. Qed.
Lemma zlen_0_nil {A} (l : list A) : zlen l = 0 -> l = [].
Proof. unfold zlen. destruct l; simpl; [done|lia]. Qed.
Lemma zlen_sub {A} off n (l : list A) :
  0 <= off -> 0 <= n -> off + n <= zlen l -> zlen (sub off n l) = n.
Proof. unfold zlen, sub. intros. rewrite length_take, length_drop. lia. Qed.
Lemma zlen_splice {A} off (bs l : list A) : zlen (splice off bs l) = zlen l.
Proof.
  unfold zlen, splice. rewrite !length_app, !length_take, length_drop. lia.
Qed.
Lemma zlen_le_bytes n v : zlen (le_bytes n v) = Z.of_nat n.
Proof.
  unfold zlen. revert v. induction n; intros; [done|]. cbn [le_bytes length].
  specialize (IHn (v / 256)). lia.
Qed.
#[export] Hint Rewrite @zlen_nil @zlen_cons @zlen_app @zlen_le_bytes @zlen_splice : rarm.

(** Simplify the lengths in the goal, then decide it by arithmetic. *)
Ltac len :=
  autorewrite with rarm;
  repeat ((rewrite zlen_sub by len_side) || (rewrite zlen_fill by len_side));
  try lia
with len_side := autorewrite with rarm; lia.

(** * Slices of an overwritten buffer *)

Lemma lookup_sub {A} off n (l : list A) (i : nat) :
  0 <= off -> sub off n l !! i =
  if decide (Z.of_nat i < n) then l !! (Z.to_nat off + i)%nat else None.
Proof.
  intros. unfold sub. case_decide.
  - rewrite lookup_take_lt by lia. by rewrite lookup_drop.
  - apply lookup_take_ge. lia.
Qed.

Lemma lookup_splice {A} off (bs l : list A) (i : nat) :
  0 <= off -> off + zlen bs <= zlen l ->
  splice off bs l !! i =
  if decide (off <= Z.of_nat i < off + zlen bs) then bs !! (i - Z.to_nat off)%nat else l !! i.
Proof.
  unfold zlen, splice. intros Ho Hl.
  assert (length (take (Z.to_nat off) l) = Z.to_nat off) as Ht by (rewrite length_take; lia).
  rewrite (firstn_all2 bs) by lia.
  case_decide.
  - rewrite lookup_app_r by lia. rewrite Ht. apply lookup_app_l. lia.
  - destruct (decide (Z.of_nat i < off)).
    + rewrite lookup_app_l by lia. apply lookup_take_lt. lia.
    + rewrite lookup_app_r by lia. rewrite Ht. rewrite lookup_app_r by lia.
      rewrite lookup_drop. f_equal. lia.
Qed.

(** Two buffers are compared position by position. *)
Ltac buf_ext :=
  apply list_eq; intros ?i;
  repeat ((rewrite lookup_sub by len) || (rewrite lookup_splice by len));
  repeat case_decide; try lia; try done; try (f_equal; lia).

Lemma sub_splice_eq {A} off (bs l : list A) :
  0 <= off -> off + zlen bs <= zlen l -> sub off (zlen bs) (splice off bs l) = bs.
Proof.
  intros. apply list_eq. intros i. rewrite lookup_sub, lookup_splice by lia.
  case_decide.
  - case_decide; [|lia]. f_equal. lia.
  - symmetry. apply lookup_ge_None. unfold zlen in *. lia.
Qed.

Lemma sub_splice_ne {A} a n off (bs l : list A) :
  0 <= a -> 0 <= off -> off + zlen bs <= zlen l ->
  a + n <= off \/ off + zlen bs <= a ->
  sub a n (splice off bs l) = sub a n l.
Proof. intros. buf_ext. Qed.

(** A slice that covers the overwritten region. *)
Lemma sub_splice_cover {A} a n off (bs l : list A) :
  0 <= a -> a <= off -> off + zlen bs <= a + n -> a + n <= zlen l ->
  sub a n (splice off bs l) = splice (off - a) bs (sub a n l).
Proof. intros. pose proof (zlen_nonneg bs). buf_ext. Qed.

(** A slice inside the overwritten region. *)
Lemma sub_splice_in {A} a n off (bs l : list A) :
  0 <= off -> off <= a -> 0 <= n -> a + n <= off + zlen bs -> off + zlen bs <= zlen l ->
  sub a n (splice off bs l) = sub (a - off) n bs.
Proof. intros. buf_ext. Qed.

Lemma sub_add {A} a n m (l : list A) :
  0 <= a -> 0 <= n -> 0 <= m -> sub a (n + m) l = sub a n l ++ sub (a + n) m l.
Proof.
  intros. unfold sub.
  replace (Z.to_nat (n + m)) with (Z.to_nat n + Z.to_nat m)%nat by lia.
  rewrite <- take_take_drop, drop_drop. do 3 f_equal. lia.
Qed.

Lemma sub_sub {A} a n b m (l : list A) :
  0 <= a -> 0 <= b -> 0 <= m -> b + m <= n -> sub b m (sub a n l) = sub (a + b) m l.
Proof. intros. buf_ext. Qed.

Lemma sub_0 {A} a (l : list A) : sub a 0 l = [].
Proof. done. Qed.

Lemma sub_all {A} (l : list A) : sub 0 (zlen l) l = l.
Proof. unfold sub, zlen. rewrite drop_0. apply firstn_all2. lia. Qed.

Lemma sub_whole {A} a n (l : list A) : a = 0 -> n = zlen l -> sub a n l = l.
Proof. intros -> ->. apply sub_all. Qed.

Lemma sub_app_l {A} a n (l1 l2 : list A) :
  0 <= a -> a + n <= zlen l1 -> sub a n (l1 ++ l2) = sub a n l1.
Proof.
  intros. apply list_eq. intros i. rewrite !lookup_sub by lia.
  case_decide; [|done]. apply lookup_app_l. unfold zlen in *. lia.
Qed.

Lemma sub_app_r {A} a n (l1 l2 : list A) :
  zlen l1 <= a -> sub a n (l1 ++ l2) = sub (a - zlen l1) n l2.
Proof.
  intros. pose proof (zlen_nonneg l1). apply list_eq. intros i. rewrite !lookup_sub by lia.
  case_decide; [|done]. unfold zlen in *. rewrite lookup_app_r by lia. f_equal. lia.
Qed.

Lemma splice_splice_eq {A} off (b1 b2 l : list A) :
  0 <= off -> off + zlen b1 <= zlen l -> zlen b1 = zlen b2 ->
  splice off b2 (splice off b1 l) = splice off b2 l.
Proof. intros. buf_ext. Qed.

Lemma splice_sub_id {A} off n (l : list A) :
  0 <= off -> 0 <= n -> off + n <= zlen l -> splice off (sub off n l) l = l.
Proof.
  intros. apply list_eq. intros i. rewrite lookup_splice by (len).
  case_decide as Hd; [|done]. rewrite zlen_sub in Hd by lia.
  rewrite lookup_sub by lia. case_decide; [|lia]. f_equal. lia.
Qed.

Lemma splice_in {A} off (bs l : list A) :
  0 <= off -> off + zlen bs <= zlen l ->
  splice off bs l = take (Z.to_nat off) l ++ bs ++ drop (Z.to_nat off + length bs) l.
Proof. unfold splice, zlen. intros. by rewrite (firstn_all2 bs) by lia. Qed.

Lemma splice_app_l {A} off (bs l1 l2 : list A) :
  0 <= off -> off + zlen bs <= zlen l1 -> splice off bs (l1 ++ l2) = splice off bs l1 ++ l2.
Proof.
  intros. pose proof (zlen_nonneg l2). rewrite !splice_in by len.
  rewrite take_app_le, drop_app_le by (unfold zlen in *; lia).
  by rewrite <- !app_assoc.
Qed.

Lemma splice_app_r {A} off (bs l1 l2 : list A) :
  zlen l1 <= off -> off + zlen bs <= zlen l1 + zlen l2 ->
  splice off bs (l1 ++ l2) = l1 ++ splice (off - zlen l1) bs l2.
Proof.
  intros. pose proof (zlen_nonneg l1). rewrite !splice_in by len. unfold zlen in *.
  rewrite take_app_ge, drop_app_ge by lia. rewrite <- app_assoc.
  replace (Z.to_nat (off - Z.of_nat (length l1))) with (Z.to_nat off - length l1)%nat by lia.
  do 5 f_equal. lia.
Qed.

(** Overwriting the head of a zeroed tail: how a buffer is filled from left
    to right. *)
Lemma splice_head {A} (bs l1 l2 : list A) :
  zlen bs = zlen l1 -> splice 0 bs (l1 ++ l2) = bs ++ l2.
Proof.
  intros. rewrite splice_app_l by lia. rewrite splice_in by lia. unfold zlen in *. simpl.
  rewrite drop_ge by lia. by rewrite app_nil_r.
Qed.

(** Two adjacent writes are one. *)
Lemma splice_splice_adj {A} off (b1 b2 l : list A) :
  0 <= off -> off + zlen b1 + zlen b2 <= zlen l ->
  splice (off + zlen b1) b2 (splice off b1 l) = splice off (b1 ++ b2) l.
Proof.
  intros. pose proof (zlen_nonneg b1). pose proof (zlen_nonneg b2).
  apply list_eq. intros i. rewrite !lookup_splice by len. autorewrite with rarm.
  repeat case_decide; try lia; try done.
  - rewrite lookup_app_r by (unfold zlen in *; lia). f_equal. unfold zlen. lia.
  - rewrite lookup_app_l by (unfold zlen in *; lia). done.
Qed.

Lemma splice_nil {A} off (l : list A) : 0 <= off <= zlen l -> splice off [] l = l.
Proof. intros. rewrite splice_in by len. simpl. rewrite Nat.add_0_r. apply take_drop. Qed.

(** Writing a shifted copy of the block that follows. *)
Lemma splice_cons_shift {A} off k (h t l : list A) :
  zlen h = k -> 0 <= off -> 0 <= k -> off + k + zlen t <= zlen l ->
  splice off h (splice (off + k) t l) = splice off (h ++ t) l.
Proof.
  intros. pose proof (zlen_nonneg t). apply list_eq. intros i.
  rewrite !lookup_splice by len. autorewrite with rarm.
  repeat case_decide; try lia; try done.
  - rewrite lookup_app_l by (unfold zlen in *; lia). done.
  - rewrite lookup_app_r by (unfold zlen in *; lia). f_equal. unfold zlen in *. lia.
Qed.

Lemma fill_add {A} (x : A) n m : 0 <= n -> 0 <= m -> fill x (n + m) = fill x n ++ fill x m.
Proof. intros. unfold fill. rewrite Z2Nat.inj_add by lia. by rewrite replicate_add. Qed.

(** * Bytes stay bytes *)

Lemma bytes_ok_sub off n bs : bytes_ok bs -> bytes_ok (sub off n bs).
Proof. intros. unfold sub. by apply Forall_take, Forall_drop. Qed.

Lemma bytes_ok_splice off bs l : bytes_ok bs -> bytes_ok l -> bytes_ok (splice off bs l).
Proof.
  intros. unfold splice. rewrite !Forall_app. split_and!; auto using Forall_take, Forall_drop.
Qed.

Lemma bytes_ok_fill n : bytes_ok (fill 0 n).
Proof. apply Forall_replicate. unfold is_byte. lia. Qed.

Lemma bytes_ok_le_bytes n v : bytes_ok (le_bytes n v).
Proof.
  revert v. induction n; intros; constructor; [|apply IHn].
  unfold is_byte. apply Z.mod_pos_bound. lia.
Qed.
#[export] Hint Resolve bytes_ok_sub bytes_ok_splice bytes_ok_fill bytes_ok_le_bytes : rarm.

(** * Little-endian integers *)

Lemma le_val_le_bytes n v : le_val (le_bytes n v) = v mod 2 ^ (8 * Z.of_nat n).
Proof.
  revert v. induction n as [|n IH]; intros v; cbn [le_bytes le_val].
  - by rewrite Z.mul_0_r, Z.mod_1_r.
  - rewrite IH. replace (8 * Z.of_nat (S n)) with (8 + 8 * Z.of_nat n) by lia.
    rewrite Z.pow_add_r by lia. change (2 ^ 8) with 256.
    assert (0 < 2 ^ (8 * Z.of_nat n)) by (apply Z.pow_pos_nonneg; lia).
    by rewrite Z.rem_mul_r by lia.
Qed.

Lemma le_val_app l k : le_val (l ++ k) = le_val l + 2 ^ (8 * zlen l) * le_val k.
Proof.
  induction l as [|x l IH].
  - change (2 ^ (8 * zlen [])) with 1. cbn [app le_val]. lia.
  - rewrite zlen_cons. replace (8 * (1 + zlen l)) with (8 + 8 * zlen l) by lia.
    pose proof (zlen_nonneg l). rewrite Z.pow_add_r by lia. cbn [app le_val]. rewrite IH.
    change (2 ^ 8) with 256. lia.
Qed.

Lemma le_val_range bs : bytes_ok bs -> 0 <= le_val bs < 2 ^ (8 * zlen bs).
Proof.
  induction 1 as [|b bs Hb _ IH]; [by cbn|].
  cbn [le_val]. rewrite zlen_cons. replace (8 * (1 + zlen bs)) with (8 + 8 * zlen bs) by lia.
  pose proof (zlen_nonneg bs). rewrite Z.pow_add_r by lia. change (2 ^ 8) with 256.
  unfold is_byte in Hb. lia.
Qed.

Lemma le_bytes_le_val bs : bytes_ok bs -> le_bytes (length bs) (le_val bs) = bs.
Proof.
  induction 1 as [|b bs Hb _ IH]; [done|]. cbn [le_val length le_bytes].
  unfold is_byte in Hb. f_equal.
  - rewrite Z.mul_comm, Z.mod_add by lia. apply Z.mod_small. lia.
  - rewrite Z.mul_comm, Z.div_add, Z.div_small by lia. done.
Qed.

Lemma from_le_u_ok {E} n bs : zlen bs = n -> @from_le_u E n bs = Ok (le_val bs).
Proof. intros <-. unfold from_le_u. by rewrite Z.eqb_refl. Qed.

Lemma from_le_i_ok {E} n bs :
  zlen bs = n -> @from_le_i E n bs = Ok (to_signed (8 * n) (le_val bs)).
Proof. intros <-. unfold from_le_i. by rewrite Z.eqb_refl. Qed.

Lemma from_le_u_le_bytes {E} (n : nat) v :
  0 <= v < 2 ^ (8 * Z.of_nat n) -> @from_le_u E (Z.of_nat n) (le_bytes n v) = Ok v.
Proof.
  intros. unfold from_le_u. rewrite zlen_le_bytes, Z.eqb_refl, le_val_le_bytes.
  by rewrite Z.mod_small.
Qed.

Lemma from_le_i_le_bytes {E} (n : nat) v :
  (0 < n)%nat ->
  - 2 ^ (8 * Z.of_nat n - 1) <= v < 2 ^ (8 * Z.of_nat n - 1) ->
  @from_le_i E (Z.of_nat n) (le_bytes n v) = Ok v.
Proof.
  intros. unfold from_le_i. rewrite zlen_le_bytes, Z.eqb_refl, le_val_le_bytes.
  f_equal. apply (to_signed_wrap (8 * Z.of_nat n)); lia.
Qed.

(** * Checked accesses in range *)

Lemma slice_ok {E A} lo hi (l : list A) :
  0 <= lo <= hi -> hi <= zlen l -> @slice E A lo hi l = Ok (sub lo (hi - lo) l).
Proof. intros. unfold slice. by zbool. Qed.

Lemma copy_from_slice_ok {E A} lo hi (src l : list A) :
  0 <= lo <= hi -> hi <= zlen l -> zlen src = hi - lo ->
  @copy_from_slice E A lo hi src l = Ok (splice lo src l).
Proof. intros. unfold copy_from_slice. by zbool. Qed.

Lemma copy_within_ok {E A} lo hi dst (l : list A) :
  0 <= lo <= hi -> hi <= zlen l -> 0 <= dst <= zlen l - (hi - lo) ->
  @copy_within E A lo hi dst l = Ok (splice dst (sub lo (hi - lo) l) l).
Proof. intros. unfold copy_within. by zbool. Qed.

Lemma index_ok {E A} i (l : list A) x :
  0 <= i -> l !! Z.to_nat i = Some x -> @index E A i l = Ok x.
Proof. intros ? H. unfold index. zbool. by rewrite H. Qed.

Lemma store_ok {E A} i (x : A) (l : list A) :
  0 <= i < zlen l -> @store E A i x l = Ok (splice i [x] l).
Proof. intros. unfold store. by zbool. Qed.

(** A one-element slice is an element. *)
Lemma sub_1_lookup {A} i (l : list A) x : 0 <= i -> sub i 1 l = [x] -> l !! Z.to_nat i = Some x.
Proof.
  intros Hi H. apply (f_equal (fun k => k !! 0%nat)) in H. rewrite lookup_sub in H by done.
  rewrite decide_True, Nat.add_0_r in H by lia. exact H.
Qed.
