(* ===== verification/Page.v ===== *)
(** Page identifiers, the page header layout, slots and the storage errors
    ([page_id.rs], [page.rs], [slot.rs], [storage_error.rs]). *)
From S2P Require Import Prelude Bytes.

Definition PAGE_SIZE : Z := 8192.

Record PageId := mkPageId { table_id : Z; page_index : Z }.

#[export] Instance PageId_eq_dec : EqDecision PageId.
Proof. solve_decision. Defined.

#[export] Instance PageId_countable : Countable PageId.
Proof.
  refine (inj_countable' (fun p => (table_id p, page_index p))
                         (fun '(t, i) => mkPageId t i) _).
  by intros [].
Defined.

Definition PAGE_HEADER_SIZE : Z := 32.
Definition PAGE_HEADER_LSN_OFFSET : Z := 0.
Definition PAGE_HEADER_PARENT_INDEX_OFFSET : Z := 8.
Definition PAGE_HEADER_ROOT_PAGE_OFFSET : Z := 12.
Definition PAGE_HEADER_RIGHTMOST_CHILD_POINTER_OFFSET : Z := 12.
Definition PAGE_HEADER_PREV_SIBLING_LEAF_PAGE_INDEX_OFFSET : Z := 12.
Definition PAGE_HEADER_NEXT_SIBLING_LEAF_PAGE_INDEX_OFFSET : Z := 16.
Definition PAGE_HEADER_ITEM_COUNT_OFFSET : Z := 20.
Definition PAGE_HEADER_DATA_HEAP_END_OFFSET_OFFSET : Z := 22.
Definition PAGE_HEADER_PAGE_TYPE_OFFSET : Z := 24.

(** [u32::MAX]. *)
Definition INVALID_PAGE_INDEX : Z := 2 ^ 32 - 1.
(** [u64::MAX]. *)
Definition U64_MAX : Z := 2 ^ 64 - 1.

(** [size_of::<u16>() + size_of::<u16>()]. *)
Definition SLOT_SIZE : Z := 2 + 2.

Inductive PageType := Invalid | LeafNode | InternalNode | TableHeader.

#[export] Instance PageType_eq_dec : EqDecision PageType.
Proof. solve_decision. Defined.

(** [page_type as u8]. *)
Definition page_type_as_u8 (t : PageType) : Z :=
  match t with Invalid => 0 | LeafNode => 1 | InternalNode => 2 | TableHeader => 3 end.

(** [PageType::from(value)]. *)
Definition page_type_from (value : Z) : PageType :=
  match value with
  | 1 => LeafNode
  | 2 => InternalNode
  | 3 => TableHeader
  | _ => Invalid
  end.

Inductive StorageError :=
| DuplicateKey
| KeyNotFound
| InsertRecordFailed
| InsufficientSpaceForMerge
| InvalidSlotIndex
| NewRightSiblingNotEmpty
| PageFull.

#[export] Instance StorageError_eq_dec : EqDecision StorageError.
Proof. solve_decision. Defined.

Lemma page_type_roundtrip t : page_type_from (page_type_as_u8 t) = t.
Proof. by destruct t. Qed.

(** Unfold the layout constants, then decide by arithmetic. *)
Ltac layout :=
  unfold PAGE_SIZE, PAGE_HEADER_SIZE, SLOT_SIZE, PAGE_HEADER_ITEM_COUNT_OFFSET,
    PAGE_HEADER_DATA_HEAP_END_OFFSET_OFFSET, PAGE_HEADER_PAGE_TYPE_OFFSET,
    PAGE_HEADER_PARENT_INDEX_OFFSET, PAGE_HEADER_RIGHTMOST_CHILD_POINTER_OFFSET,
    PAGE_HEADER_NEXT_SIBLING_LEAF_PAGE_INDEX_OFFSET,
    PAGE_HEADER_PREV_SIBLING_LEAF_PAGE_INDEX_OFFSET, INVALID_PAGE_INDEX, U64_MAX in *.
Ltac pg := first [ assumption | layout; lia ].
