(* ===== verification/SlottedPage.v ===== *)
(** The slotted page ([slotted_page_view.rs]): one definition per method of
    [SlottedPageView], on the 8192-byte buffer it borrows.

    Page layout: header (32 bytes), slot array growing up, free space, data
    heap growing down from the end of the page.  A method taking [&self] is a
    function of the buffer; a method taking [&mut self] is a [stateM] over it. *)
From S2P Require Import Prelude Bytes Page.

Abbreviation page := (list Z).

Section Accessors.
Context {E : Type}.

(** Run a fallible update of the buffer. *)
Definition supd (f : page -> outcome E page) : stateM page E unit := fun b =>
  match f b with
  | Ok b' => (Ok tt, b')
  | Err e => (Err e, b)
  | Panic => (Panic, b)
  end.

Definition get_page_header_u8_value (offset : Z) (b : page) : outcome E Z :=
  s ← slice offset (offset + 1) b; from_le_u 1 s.

Definition get_page_header_u16_value (offset : Z) (b : page) : outcome E Z :=
  s ← slice offset (offset + 2) b; from_le_u 2 s.

Definition get_page_header_u32_value (offset : Z) (b : page) : outcome E Z :=
  s ← slice offset (offset + 4) b; from_le_u 4 s.

Definition get_page_header_u64_value (offset : Z) (b : page) : outcome E Z :=
  s ← slice offset (offset + 8) b; from_le_u 8 s.

Definition set_page_header_u16_value (offset value : Z) : stateM page E unit :=
  supd (copy_from_slice offset (offset + 2) (le_bytes 2 value)).

Definition set_page_header_u32_value (offset value : Z) : stateM page E unit :=
  supd (copy_from_slice offset (offset + 4) (le_bytes 4 value)).

Definition set_page_header_u64_value (offset value : Z) : stateM page E unit :=
  supd (copy_from_slice offset (offset + 8) (le_bytes 8 value)).

(** The record offset and the record size of slot [i]. *)
Definition get_slot (i : Z) (b : page) : outcome E (Z * Z) :=
  let slot_offset := PAGE_HEADER_SIZE + i * SLOT_SIZE in
  record_offset_bytes ← slice slot_offset (slot_offset + 2) b;
  record_offset ← from_le_u 2 record_offset_bytes;
  record_size_bytes ← slice (slot_offset + 2) (slot_offset + 4) b;
  record_size ← from_le_u 2 record_size_bytes;
  mret (record_offset, record_size).

Definition set_slot (i record_offset record_size : Z) : stateM page E unit :=
  let slot_offset := PAGE_HEADER_SIZE + i * SLOT_SIZE in
  supd (copy_from_slice slot_offset (slot_offset + 2) (le_bytes 2 record_offset));;
  supd (copy_from_slice (slot_offset + 2) (slot_offset + 4) (le_bytes 2 record_size)).

Definition get_item_count (b : page) : outcome E Z :=
  bytes ← slice PAGE_HEADER_ITEM_COUNT_OFFSET (PAGE_HEADER_ITEM_COUNT_OFFSET + 2) b;
  from_le_u 2 bytes.

Definition get_page_type (b : page) : outcome E PageType :=
  v ← index PAGE_HEADER_PAGE_TYPE_OFFSET b; mret (page_type_from v).

Definition get_data_start_offset (b : page) : outcome E Z :=
  get_page_header_u16_value PAGE_HEADER_DATA_HEAP_END_OFFSET_OFFSET b.

(** The block between the slot array and the data heap. *)
Definition get_free_space_contiguous (b : page) : outcome E Z :=
  item_count ← get_item_count b;
  let slot_array_size := item_count * SLOT_SIZE in
  data_heap_offset ← get_page_header_u16_value PAGE_HEADER_DATA_HEAP_END_OFFSET_OFFSET b;
  data_heap_size ← usub PAGE_SIZE data_heap_offset;
  without_slots ← usub (PAGE_SIZE - PAGE_HEADER_SIZE) slot_array_size;
  usub without_slots data_heap_size.

(** All the free space, fragments of the heap included. *)
Definition get_free_space (b : page) : outcome E Z :=
  item_count ← get_item_count b;
  let slot_array_size := item_count * SLOT_SIZE in
  data_heap_offset ← get_page_header_u16_value PAGE_HEADER_DATA_HEAP_END_OFFSET_OFFSET b;
  data_heap_size ← usub PAGE_SIZE data_heap_offset;
  without_slots ← usub (PAGE_SIZE - PAGE_HEADER_SIZE) slot_array_size;
  free_space_contiguous ← usub without_slots data_heap_size;
  total_used_data_space ←
    ofold (fun total i => s ← get_slot i b; mret (total + s.2)) 0 (range 0 item_count);
  fragmented ← usub data_heap_size total_used_data_space;
  mret (free_space_contiguous + fragmented).

Definition get_record (i : Z) (b : page) : outcome E (option (list Z)) :=
  item_count ← get_item_count b;
  if item_count <=? i then mret None
  else
    s ← get_slot i b;
    r ← slice s.1 (s.1 + s.2) b;
    mret (Some r).

Definition initialize (page_type : PageType) (parent_page_index : option Z) :
    stateM page E unit :=
  smodify (fun b => fill 0 (zlen b));;
  supd (store PAGE_HEADER_PAGE_TYPE_OFFSET (page_type_as_u8 page_type));;
  set_page_header_u16_value PAGE_HEADER_ITEM_COUNT_OFFSET 0;;
  let parent_index := match parent_page_index with Some i => i | None => U64_MAX end in
  set_page_header_u64_value PAGE_HEADER_PARENT_INDEX_OFFSET parent_index;;
  set_page_header_u32_value PAGE_HEADER_RIGHTMOST_CHILD_POINTER_OFFSET INVALID_PAGE_INDEX;;
  set_page_header_u32_value PAGE_HEADER_NEXT_SIBLING_LEAF_PAGE_INDEX_OFFSET INVALID_PAGE_INDEX;;
  set_page_header_u32_value PAGE_HEADER_PREV_SIBLING_LEAF_PAGE_INDEX_OFFSET INVALID_PAGE_INDEX;;
  supd (copy_from_slice PAGE_HEADER_DATA_HEAP_END_OFFSET_OFFSET
          (PAGE_HEADER_DATA_HEAP_END_OFFSET_OFFSET + 2) (le_bytes 2 (wrap 16 PAGE_SIZE))).

Definition delete_record (i : Z) : stateM page E unit :=
  item_count ← sget get_item_count;
  if item_count <=? i then mret tt
  else
    let slot_offset := PAGE_HEADER_SIZE + i * SLOT_SIZE in
    num_bytes_to_shift ← slift (usub (item_count * SLOT_SIZE) ((i + 1) * SLOT_SIZE));
    (if 0 <? num_bytes_to_shift then
       let source_offset := slot_offset + SLOT_SIZE in
       supd (copy_within source_offset (source_offset + num_bytes_to_shift) slot_offset)
     else mret tt);;
    new_count ← slift (usub item_count 1);
    set_page_header_u16_value PAGE_HEADER_ITEM_COUNT_OFFSET new_count.

(** The first loop of [compact]: the records, in slot order, as one block. *)
Definition collect_records (item_count : Z) (b : page) : outcome E (list Z) :=
  ofold (fun block i =>
           r ← get_record i b;
           record_data ← unwrap_opt r;
           mret (block ++ record_data)) [] (range 0 item_count).

(** One step of the second loop of [compact]: the next record of the block
    goes below the ones already written.  Threads the heap offset and the
    position in the block. *)
Definition compact_step (compacted_data_block : list Z) (offsets : Z * Z) (i : Z) :
    stateM page E (Z * Z) :=
  let '(current_data_heap_offset, current_data_buffer_offset) := offsets in
  s ← sget (get_slot i);
  let record_size := s.2 in
  record_data ← slift (slice current_data_buffer_offset
                         (current_data_buffer_offset + record_size) compacted_data_block);
  let current_data_buffer_offset := current_data_buffer_offset + record_size in
  current_data_heap_offset ← slift (usub current_data_heap_offset record_size);
  supd (copy_from_slice current_data_heap_offset (current_data_heap_offset + record_size)
          record_data);;
  set_slot i (wrap 16 current_data_heap_offset) (wrap 16 record_size);;
  mret (current_data_heap_offset, current_data_buffer_offset).

Definition compact : stateM page E unit :=
  free_space ← sget get_free_space;
  contiguous ← sget get_free_space_contiguous;
  if free_space =? contiguous then mret tt
  else
    item_count ← sget get_item_count;
    total_free_and_data_space ←
      slift (usub (PAGE_SIZE - PAGE_HEADER_SIZE) (item_count * SLOT_SIZE));
    total_data_heap_size ← slift (usub total_free_and_data_space free_space);
    compacted_data_block ← sget (collect_records item_count);
    offsets ← sfold (compact_step compacted_data_block) (PAGE_SIZE, 0) (range 0 item_count);
    let free_space_offset := PAGE_HEADER_SIZE + item_count * SLOT_SIZE in
    supd (copy_from_slice free_space_offset (free_space_offset + free_space)
            (fill 0 free_space));;
    set_page_header_u16_value PAGE_HEADER_DATA_HEAP_END_OFFSET_OFFSET
      (wrap 16 offsets.1).
End Accessors.

Definition try_insert_record (i : Z) (record_data : list Z) : stateM page StorageError Z :=
  free_space ← sget get_free_space_contiguous;
  if free_space <? zlen record_data + SLOT_SIZE then sfail PageFull
  else
    initial_item_count ← sget get_item_count;
    if initial_item_count <? i then sfail InvalidSlotIndex
    else
      let record_size := zlen record_data in
      data_heap_offset ←
        sget (get_page_header_u16_value PAGE_HEADER_DATA_HEAP_END_OFFSET_OFFSET);
      new_data_heap_offset ← slift (usub data_heap_offset (wrap 16 record_size));
      supd (copy_from_slice new_data_heap_offset (new_data_heap_offset + record_size)
              record_data);;
      set_page_header_u16_value PAGE_HEADER_DATA_HEAP_END_OFFSET_OFFSET new_data_heap_offset;;
      let slot_insertion_offset := PAGE_HEADER_SIZE + SLOT_SIZE * i in
      slots_to_shift ← slift (usub initial_item_count i);
      (if 0 <? slots_to_shift then
         let source_offset := slot_insertion_offset in
         let destination_offset := source_offset + SLOT_SIZE in
         let slot_block_length := slots_to_shift * SLOT_SIZE in
         supd (copy_within source_offset (source_offset + slot_block_length)
                 destination_offset)
       else mret tt);;
      supd (copy_from_slice slot_insertion_offset (slot_insertion_offset + 2)
              (le_bytes 2 new_data_heap_offset));;
      supd (copy_from_slice (slot_insertion_offset + 2) (slot_insertion_offset + 4)
              (le_bytes 2 (wrap 16 record_size)));;
      item_count ← slift (uadd 16 initial_item_count 1);
      set_page_header_u16_value PAGE_HEADER_ITEM_COUNT_OFFSET item_count;;
      mret i.

Definition try_update_record (i : Z) (record_data : list Z) : stateM page StorageError Z :=
  item_count ← sget get_item_count;
  if item_count <=? i then sfail InvalidSlotIndex
  else
    s ← sget (get_slot i);
    let '(record_offset, orig_record_size) := s in
    let updated_record_size := zlen record_data in
    (if updated_record_size <=? orig_record_size then
       supd (copy_from_slice record_offset (record_offset + updated_record_size) record_data);;
       if updated_record_size <? orig_record_size then
         set_slot i (wrap 16 record_offset) (wrap 16 updated_record_size)
       else mret tt
     else
       free_space ← sget get_free_space_contiguous;
       if free_space <? updated_record_size then sfail PageFull
       else
         data_heap_offset ←
           sget (get_page_header_u16_value PAGE_HEADER_DATA_HEAP_END_OFFSET_OFFSET);
         new_data_heap_offset ← slift (usub data_heap_offset (wrap 16 updated_record_size));
         supd (copy_from_slice new_data_heap_offset
                 (new_data_heap_offset + updated_record_size) record_data);;
         set_slot i new_data_heap_offset (wrap 16 updated_record_size);;
         set_page_header_u16_value PAGE_HEADER_DATA_HEAP_END_OFFSET_OFFSET
           new_data_heap_offset);;
    mret i.

(** A page buffer as it is before [initialize]. *)
Definition blank_page : page := fill 0 PAGE_SIZE.

(** A scenario: two inserts at slot 0, then both reads and the free space. *)
Definition insert_two : stateM page StorageError (option (list Z) * option (list Z) * Z) :=
  initialize LeafNode None;;
  try_insert_record 0 [1; 2; 3];;
  try_insert_record 0 [7; 8];;
  a ← sget (get_record 0);
  c ← sget (get_record 1);
  f ← sget get_free_space;
  mret (a, c, f).

Example insert_two_runs :
  (insert_two blank_page).1 = Ok (Some [7; 8], Some [1; 2; 3], 8192 - 32 - 8 - 5).
Proof. vm_compute. reflexivity. Qed.
