(* ===== verification/SlottedPageSpec.v ===== *)
(** The slotted page: the view of a buffer as slots and records, the
    well-formedness invariant, and the exact result of each method on a
    well-formed page.

    The abstract page [APage] is a list of records and a count of fragmented
    bytes; [abs] reads it off a buffer. *)
From S2P Require Import Prelude Bytes Page SlottedPage.

(** * The view of a buffer *)

Definition n_items (b : page) : Z := le_val (sub PAGE_HEADER_ITEM_COUNT_OFFSET 2 b).
Definition heap_end (b : page) : Z := le_val (sub PAGE_HEADER_DATA_HEAP_END_OFFSET_OFFSET 2 b).

(** A slot on its four bytes. *)
Definition enc_slot (s : Z * Z) : list Z := le_bytes 2 s.1 ++ le_bytes 2 s.2.
Definition dec_slot (c : list Z) : Z * Z := (le_val (sub 0 2 c), le_val (sub 2 2 c)).

Definition slot_pos (i : Z) : Z := PAGE_HEADER_SIZE + i * SLOT_SIZE.
Definition slot_at (b : page) (i : Z) : Z * Z := dec_slot (sub (slot_pos i) SLOT_SIZE b).
Definition slots (b : page) : list (Z * Z) := slot_at b <$> range 0 (n_items b).

(** The bytes a slot points to. *)
Definition contents (b : page) (s : Z * Z) : list Z := sub s.1 s.2 b.
Definition records (b : page) : list (list Z) := contents b <$> slots b.

Definition used (ss : list (Z * Z)) : Z := foldr (fun s acc => s.2 + acc) 0 ss.
Definition total_len (rs : list (list Z)) : Z := foldr (fun r acc => zlen r + acc) 0 rs.

(** The header bytes no record operation writes: pointers, page type, padding. *)
Definition header (b : page) : list Z * list Z := (sub 0 20 b, sub 24 8 b).

(** * Well-formed pages *)

Definition disjoint_slots (s t : Z * Z) : Prop := s.1 + s.2 <= t.1 \/ t.1 + t.2 <= s.1.
Definition in_heap (lo : Z) (s : Z * Z) : Prop := lo <= s.1 /\ 0 <= s.2 /\ s.1 + s.2 <= PAGE_SIZE.

Record wf (b : page) : Prop := {
  wf_len : zlen b = PAGE_SIZE;
  wf_bytes : bytes_ok b;
  wf_room : slot_pos (n_items b) <= heap_end b;
  wf_top : heap_end b <= PAGE_SIZE;
  wf_heap : Forall (in_heap (heap_end b)) (slots b);
  wf_disjoint : ForallOrdPairs disjoint_slots (slots b);
  wf_used : used (slots b) <= PAGE_SIZE - heap_end b;
}.

(** * The abstract page *)

Record APage := mkAPage { arecs : list (list Z); agarbage : Z }.

Definition abs (b : page) : APage :=
  mkAPage (records b) (PAGE_SIZE - heap_end b - used (slots b)).

(** Bytes free in all, and bytes free in one block. *)
Definition afree (a : APage) : Z :=
  PAGE_SIZE - PAGE_HEADER_SIZE - SLOT_SIZE * zlen (arecs a) - total_len (arecs a).
Definition acontig (a : APage) : Z := afree a - agarbage a.

Definition ainsert (i : Z) (r : list Z) (a : APage) : outcome StorageError Z * APage :=
  if acontig a <? zlen r + SLOT_SIZE then (Err PageFull, a)
  else if zlen (arecs a) <? i then (Err InvalidSlotIndex, a)
  else (Ok i, mkAPage (take (Z.to_nat i) (arecs a) ++ r :: drop (Z.to_nat i) (arecs a))
                      (agarbage a)).

Definition aupdate (i : Z) (r : list Z) (a : APage) : outcome StorageError Z * APage :=
  match arecs a !! Z.to_nat i with
  | None => (Err InvalidSlotIndex, a)
  | Some old =>
      let a' g := mkAPage (<[Z.to_nat i := r]> (arecs a)) g in
      if zlen r <=? zlen old then (Ok i, a' (agarbage a + (zlen old - zlen r)))
      else if acontig a <? zlen r then (Err PageFull, a)
      else (Ok i, a' (agarbage a + zlen old))
  end.

Definition adelete (i : Z) (a : APage) : APage :=
  match arecs a !! Z.to_nat i with
  | None => a
  | Some old => mkAPage (delete (Z.to_nat i) (arecs a)) (agarbage a + zlen old)
  end.

Definition acompact (a : APage) : APage := mkAPage (arecs a) 0.

(** * Facts on slots and on the view *)

Lemma zlen_enc_slot s : zlen (enc_slot s) = 4.
Proof. done. Qed.
#[export] Hint Rewrite zlen_enc_slot : rarm.

Definition slot_ok (s : Z * Z) : Prop := 0 <= s.1 < 2 ^ 16 /\ 0 <= s.2 < 2 ^ 16.

Lemma dec_enc_slot s : slot_ok s -> dec_slot (enc_slot s) = s.
Proof.
  destruct s as [o l]. intros [Ho Hl]. unfold dec_slot, enc_slot; cbn [fst snd] in *.
  rewrite sub_app_l, sub_app_r by len. rewrite !sub_whole by len.
  rewrite !le_val_le_bytes, !Z.mod_small by lia. done.
Qed.

Lemma le_val_2_range b off :
  zlen b = PAGE_SIZE -> bytes_ok b -> 0 <= off -> off + 2 <= PAGE_SIZE ->
  0 <= le_val (sub off 2 b) < 2 ^ 16.
Proof.
  intros Hl Hb ? ?. pose proof (le_val_range (sub off 2 b)) as Hr.
  rewrite zlen_sub in Hr by lia. apply Hr. auto with rarm.
Qed.

Lemma n_items_range b : zlen b = PAGE_SIZE -> bytes_ok b -> 0 <= n_items b < 2 ^ 16.
Proof. intros. apply le_val_2_range; pg. Qed.

Lemma heap_end_range b : zlen b = PAGE_SIZE -> bytes_ok b -> 0 <= heap_end b < 2 ^ 16.
Proof. intros. apply le_val_2_range; pg. Qed.

Lemma slot_at_2 b i :
  0 <= i -> slot_at b i = (le_val (sub (slot_pos i) 2 b), le_val (sub (slot_pos i + 2) 2 b)).
Proof.
  intros. unfold slot_at, dec_slot, slot_pos. rewrite !sub_sub by pg.
  do 3 f_equal; pg.
Qed.

Lemma slot_at_ok b i :
  zlen b = PAGE_SIZE -> bytes_ok b -> 0 <= i -> slot_pos (i + 1) <= PAGE_SIZE ->
  slot_ok (slot_at b i).
Proof.
  intros. rewrite slot_at_2 by done. unfold slot_pos in *.
  split; apply le_val_2_range; try done; pg.
Qed.

Lemma zlen_slots b : 0 <= n_items b -> zlen (slots b) = n_items b.
Proof.
  intros. unfold zlen, slots, range. rewrite length_fmap, length_seqZ. lia.
Qed.

Lemma zlen_records b : 0 <= n_items b -> zlen (records b) = n_items b.
Proof.
  intros. rewrite <- zlen_slots by done. unfold zlen, records. by rewrite length_fmap.
Qed.

Lemma lookup_slots b (i : nat) :
  slots b !! i = if decide (Z.of_nat i < n_items b) then Some (slot_at b (Z.of_nat i)) else None.
Proof.
  unfold slots, range. rewrite list_lookup_fmap. case_decide.
  - rewrite lookup_seqZ_lt by lia. done.
  - rewrite lookup_seqZ_ge by lia. done.
Qed.

(** A list of slots is determined by its length and its entries. *)
Lemma slots_eq b ss :
  n_items b = zlen ss ->
  (forall i : nat, Z.of_nat i < zlen ss -> ss !! i = Some (slot_at b (Z.of_nat i))) ->
  slots b = ss.
Proof.
  intros Hn Hss. apply list_eq. intros i. rewrite lookup_slots, Hn. case_decide.
  - by rewrite Hss.
  - symmetry. apply lookup_ge_None. unfold zlen in *. lia.
Qed.

Lemma slots_slot_ok b : wf b -> Forall slot_ok (slots b).
Proof.
  intros W. apply Forall_lookup. intros i s. rewrite lookup_slots.
  case_decide; intros; simplify_eq. apply slot_at_ok; [apply W|apply W|lia|].
  pose proof (wf_room _ W). pose proof (wf_top _ W). unfold slot_pos in *. pg.
Qed.

Lemma used_cons s ss : used (s :: ss) = s.2 + used ss.
Proof. done. Qed.
Lemma total_len_cons r rs : total_len (r :: rs) = zlen r + total_len rs.
Proof. done. Qed.
Lemma used_app s t : used (s ++ t) = used s + used t.
Proof. induction s; simpl; lia. Qed.
Lemma total_len_app s t : total_len (s ++ t) = total_len s + total_len t.
Proof. induction s; simpl; lia. Qed.
#[export] Hint Rewrite used_cons total_len_cons used_app total_len_app : rarm.

#[export] Instance used_perm : Proper (Permutation ==> eq) used.
Proof. induction 1; simpl; lia. Qed.
#[export] Instance total_len_perm : Proper (Permutation ==> eq) total_len.
Proof. induction 1; simpl; lia. Qed.

Lemma total_len_nonneg rs : 0 <= total_len rs.
Proof. induction rs as [|r rs IH]; simpl; [done|]. pose proof (zlen_nonneg r). lia. Qed.

(** A symmetric relation that holds between all pairs does so in any order. *)
Lemma FOP_perm {A} (R : A -> A -> Prop) `{!Symmetric R} l k :
  l ≡ₚ k -> ForallOrdPairs R l -> ForallOrdPairs R k.
Proof.
  induction 1 as [|x l k Hp IH|x y l|l m k _ IH1 _ IH2]; intros H; auto.
  - inversion_clear H. constructor; [by rewrite <- Hp|auto].
  - inversion_clear H as [|? ? Hy Hl]. inversion_clear Hl as [|? ? Hx Hl'].
    inversion_clear Hy. constructor; [constructor; [by symmetry|done]|by constructor].
Qed.

#[export] Instance disjoint_slots_sym : Symmetric disjoint_slots.
Proof. intros s t. unfold disjoint_slots. lia. Qed.

Lemma used_records b :
  zlen b = PAGE_SIZE -> forall ss, Forall (in_heap 0) ss ->
  total_len (contents b <$> ss) = used ss.
Proof.
  intros Hb. induction 1 as [|s ss [? [? ?]] _ IH]; [done|].
  unfold fmap in *. cbn [list_fmap total_len foldr used]. unfold contents at 1.
  rewrite zlen_sub by (unfold in_heap in *; pg). unfold total_len, used in IH. rewrite IH. done.
Qed.

Lemma in_heap_mono lo lo' s : lo' <= lo -> in_heap lo s -> in_heap lo' s.
Proof. unfold in_heap. lia. Qed.

(** * Reads *)

Section Reads.
Context {E : Type} (b : page) (Hlen : zlen b = PAGE_SIZE).
Implicit Types off i : Z.

Lemma get_u16_eq off :
  0 <= off -> off + 2 <= PAGE_SIZE ->
  @get_page_header_u16_value E off b = Ok (le_val (sub off 2 b)).
Proof.
  intros. unfold get_page_header_u16_value. rewrite slice_ok, bind_ok by lia.
  replace (off + 2 - off) with 2 by lia. by rewrite from_le_u_ok by len.
Qed.

Lemma get_u32_eq off :
  0 <= off -> off + 4 <= PAGE_SIZE ->
  @get_page_header_u32_value E off b = Ok (le_val (sub off 4 b)).
Proof.
  intros. unfold get_page_header_u32_value. rewrite slice_ok, bind_ok by lia.
  replace (off + 4 - off) with 4 by lia. by rewrite from_le_u_ok by len.
Qed.

Lemma get_u64_eq off :
  0 <= off -> off + 8 <= PAGE_SIZE ->
  @get_page_header_u64_value E off b = Ok (le_val (sub off 8 b)).
Proof.
  intros. unfold get_page_header_u64_value. rewrite slice_ok, bind_ok by lia.
  replace (off + 8 - off) with 8 by lia. by rewrite from_le_u_ok by len.
Qed.

Lemma get_item_count_eq : @get_item_count E b = Ok (n_items b).
Proof. apply get_u16_eq; pg. Qed.

Lemma get_heap_end_eq :
  @get_page_header_u16_value E PAGE_HEADER_DATA_HEAP_END_OFFSET_OFFSET b = Ok (heap_end b).
Proof. apply get_u16_eq; pg. Qed.

Lemma get_slot_eq i :
  0 <= i -> slot_pos (i + 1) <= PAGE_SIZE -> @get_slot E i b = Ok (slot_at b i).
Proof.
  intros. unfold slot_pos in *. unfold get_slot.
  ostep slice_ok by pg. ostep from_le_u_ok by (layout; len).
  ostep slice_ok by pg. ostep from_le_u_ok by (layout; len).
  rewrite slot_at_2 by done. unfold slot_pos, mret, outcome_ret. do 4 f_equal; f_equal; pg.
Qed.
End Reads.

Section WfReads.
Context {E : Type} (b : page) (W : wf b).

Lemma wf_items : 0 <= n_items b < 2 ^ 16.
Proof. apply n_items_range; apply W. Qed.

Lemma wf_heap_pos : 0 <= heap_end b < 2 ^ 16.
Proof. apply heap_end_range; apply W. Qed.

Lemma wf_slot_room i : i < n_items b -> slot_pos (i + 1) <= heap_end b.
Proof. pose proof (wf_room _ W). unfold slot_pos in *. pg. Qed.

Lemma wf_slot_in i : 0 <= i < n_items b -> in_heap (heap_end b) (slot_at b i).
Proof.
  intros. pose proof (wf_heap _ W) as Hh. rewrite Forall_lookup in Hh.
  apply (Hh (Z.to_nat i)). rewrite lookup_slots. rewrite decide_True by lia.
  do 2 f_equal. lia.
Qed.

Lemma wf_in_heap_0 : Forall (in_heap 0) (slots b).
Proof.
  pose proof wf_heap_pos. eapply Forall_impl; [apply (wf_heap _ W)|].
  intros s. apply in_heap_mono. lia.
Qed.

Lemma wf_total_len : total_len (records b) = used (slots b).
Proof. apply used_records; [apply W|apply wf_in_heap_0]. Qed.

(** The view of a page is within the page: sizes add up. *)
Lemma wf_afree :
  afree (abs b) = PAGE_SIZE - PAGE_HEADER_SIZE - SLOT_SIZE * n_items b - used (slots b).
Proof.
  unfold afree, abs; cbn [arecs]. rewrite wf_total_len, zlen_records; [done|apply wf_items].
Qed.

Lemma wf_acontig : acontig (abs b) = heap_end b - slot_pos (n_items b).
Proof. unfold acontig. rewrite wf_afree. unfold slot_pos, abs; cbn [agarbage]. pg. Qed.

Lemma wf_agarbage : 0 <= agarbage (abs b).
Proof. pose proof (wf_used _ W). unfold abs; cbn [agarbage]. lia. Qed.

Lemma wf_acontig_nonneg : 0 <= acontig (abs b).
Proof. rewrite wf_acontig. pose proof (wf_room _ W). lia. Qed.

Lemma get_slot_wf i : 0 <= i < n_items b -> @get_slot E i b = Ok (slot_at b i).
Proof.
  intros. pose proof (wf_slot_room i). pose proof (wf_top _ W).
  apply get_slot_eq; [apply W|lia|lia].
Qed.

Lemma records_lookup (i : nat) :
  records b !! i = if decide (Z.of_nat i < n_items b)
                   then Some (contents b (slot_at b (Z.of_nat i))) else None.
Proof.
  unfold records. rewrite list_lookup_fmap, lookup_slots. by case_decide.
Qed.

Lemma get_record_wf i : 0 <= i -> @get_record E i b = Ok (records b !! Z.to_nat i).
Proof.
  intros. unfold get_record. rewrite get_item_count_eq by apply W. rewrite bind_ok.
  rewrite records_lookup. rewrite Z2Nat.id by lia. case_bool.
  - by rewrite decide_False by lia.
  - rewrite decide_True by lia. rewrite get_slot_wf by lia. rewrite bind_ok.
    pose proof (wf_slot_in i) as [? [? ?]]; [lia|]. pose proof wf_heap_pos.
    pose proof (wf_len _ W). rewrite slice_ok by lia. rewrite bind_ok.
    unfold contents. do 3 f_equal. lia.
Qed.

Lemma sum_loop l acc :
  (forall i, i ∈ l -> 0 <= i < n_items b) ->
  ofold (fun total i => s ← @get_slot E i b; mret (total + s.2)) acc l
  = Ok (acc + used (slot_at b <$> l)).
Proof.
  revert acc. induction l as [|i l IH]; intros acc Hl; simpl.
  - f_equal. lia.
  - rewrite get_slot_wf by (apply Hl; set_solver). simpl.
    rewrite IH by set_solver. f_equal. unfold used, fmap. lia.
Qed.

Lemma get_free_space_contiguous_wf :
  @get_free_space_contiguous E b = Ok (acontig (abs b)).
Proof.
  pose proof (wf_room _ W). pose proof (wf_top _ W). unfold slot_pos in *.
  unfold get_free_space_contiguous.
  ostep get_item_count_eq by apply W. ostep get_heap_end_eq by apply W.
  ostep usub_ok by pg. ostep usub_ok by pg.
  rewrite usub_ok by pg. f_equal. rewrite wf_acontig. unfold slot_pos. pg.
Qed.

Lemma get_free_space_wf : @get_free_space E b = Ok (afree (abs b)).
Proof.
  pose proof (wf_room _ W). pose proof (wf_top _ W). pose proof (wf_used _ W).
  unfold get_free_space, slot_pos in *.
  ostep get_item_count_eq by apply W. ostep get_heap_end_eq by apply W.
  ostep usub_ok by pg. ostep usub_ok by pg. ostep usub_ok by pg.
  ostep sum_loop by (intros i; rewrite elem_of_range; lia).
  fold (slots b). ostep usub_ok by lia.
  unfold mret, outcome_ret. f_equal. rewrite wf_afree. pg.
Qed.
End WfReads.
