(* ===== verification/SlottedPageOps.v ===== *)
(** The slotted page: what each method does to a well-formed page, as one
    overwritten buffer, and the view of that buffer. *)
From S2P Require Import Prelude Bytes Page SlottedPage SlottedPageSpec.

(** * Running the updates *)

Lemma supd_ok {E} (f : page -> outcome E page) b b' : f b = Ok b' -> supd f b = (Ok tt, b').
Proof. intros H. unfold supd. by rewrite H. Qed.

Lemma supd_step {E A} (f : page -> outcome E page) (k : unit -> stateM page E A) b b' r :
  f b = Ok b' -> k tt b' = r -> (supd f ≫= k) b = r.
Proof. intros H <-. eapply sbind_step; [by apply supd_ok|done]. Qed.

Tactic Notation "ustep" uconstr(l) "by" tactic3(t) :=
  eapply supd_step; [eapply l; t | cbv beta].

(** Side conditions on offsets: compute lengths, unfold the layout. *)
Ltac side := unfold slot_pos in *; autorewrite with rarm; layout;
  repeat (rewrite zlen_sub by (autorewrite with rarm; lia)); first [assumption | lia].

(** Read through overwritten regions. *)
Ltac peek := repeat (rewrite sub_splice_ne by side).

Lemma set_u16_ok {E} off v b :
  zlen b = PAGE_SIZE -> 0 <= off -> off + 2 <= PAGE_SIZE ->
  @set_page_header_u16_value E off v b = (Ok tt, splice off (le_bytes 2 v) b).
Proof. intros. apply supd_ok, copy_from_slice_ok; side. Qed.

Lemma set_u32_ok {E} off v b :
  zlen b = PAGE_SIZE -> 0 <= off -> off + 4 <= PAGE_SIZE ->
  @set_page_header_u32_value E off v b = (Ok tt, splice off (le_bytes 4 v) b).
Proof. intros. apply supd_ok, copy_from_slice_ok; side. Qed.

Lemma set_u64_ok {E} off v b :
  zlen b = PAGE_SIZE -> 0 <= off -> off + 8 <= PAGE_SIZE ->
  @set_page_header_u64_value E off v b = (Ok tt, splice off (le_bytes 8 v) b).
Proof. intros. apply supd_ok, copy_from_slice_ok; side. Qed.

Lemma splice_enc_slot off o l (b : page) :
  0 <= off -> off + 4 <= zlen b ->
  splice (off + 2) (le_bytes 2 l) (splice off (le_bytes 2 o) b) = splice off (enc_slot (o, l)) b.
Proof. intros. apply (splice_splice_adj off (le_bytes 2 o) (le_bytes 2 l)); side. Qed.

Lemma set_slot_ok {E} i o l b :
  zlen b = PAGE_SIZE -> 0 <= i -> slot_pos (i + 1) <= PAGE_SIZE ->
  @set_slot E i o l b = (Ok tt, splice (slot_pos i) (enc_slot (o, l)) b).
Proof.
  intros. unfold set_slot. fold (slot_pos i).
  ustep copy_from_slice_ok by side. rewrite <- splice_enc_slot by side.
  apply supd_ok, copy_from_slice_ok; side.
Qed.

(** * The view of an overwritten page *)

Section View.
Context (b : page) (Hlen : zlen b = PAGE_SIZE).

Lemma slot_at_splice_ne off bs i :
  0 <= off -> off + zlen bs <= PAGE_SIZE -> 0 <= i ->
  off + zlen bs <= slot_pos i \/ slot_pos (i + 1) <= off ->
  slot_at (splice off bs b) i = slot_at b i.
Proof. intros. unfold slot_at. by peek. Qed.

Lemma slot_at_splice_eq s i :
  0 <= i -> slot_pos (i + 1) <= PAGE_SIZE -> slot_ok s ->
  slot_at (splice (slot_pos i) (enc_slot s) b) i = s.
Proof.
  intros. unfold slot_at. change SLOT_SIZE with (zlen (enc_slot s)).
  rewrite sub_splice_eq by side. by apply dec_enc_slot.
Qed.

Lemma contents_splice_ne off bs s :
  0 <= off -> off + zlen bs <= PAGE_SIZE -> 0 <= s.1 ->
  off + zlen bs <= s.1 \/ s.1 + s.2 <= off ->
  contents (splice off bs b) s = contents b s.
Proof. intros. unfold contents. by peek. Qed.

Lemma le_val_splice_2 off v :
  0 <= off -> off + 2 <= PAGE_SIZE -> 0 <= v < 2 ^ 16 ->
  le_val (sub off 2 (splice off (le_bytes 2 v) b)) = v.
Proof.
  intros. change 2 with (zlen (le_bytes 2 v)) at 1. rewrite sub_splice_eq by side.
  rewrite le_val_le_bytes. apply Z.mod_small. lia.
Qed.
End View.

(** * Initialize *)

(** The page after [initialize]. *)
Definition initialized (t : PageType) (parent : Z) : page :=
  splice PAGE_HEADER_DATA_HEAP_END_OFFSET_OFFSET (le_bytes 2 PAGE_SIZE)
    (splice PAGE_HEADER_PREV_SIBLING_LEAF_PAGE_INDEX_OFFSET (le_bytes 4 INVALID_PAGE_INDEX)
      (splice PAGE_HEADER_NEXT_SIBLING_LEAF_PAGE_INDEX_OFFSET (le_bytes 4 INVALID_PAGE_INDEX)
        (splice PAGE_HEADER_RIGHTMOST_CHILD_POINTER_OFFSET (le_bytes 4 INVALID_PAGE_INDEX)
          (splice PAGE_HEADER_PARENT_INDEX_OFFSET (le_bytes 8 parent)
            (splice PAGE_HEADER_ITEM_COUNT_OFFSET (le_bytes 2 0)
              (splice PAGE_HEADER_PAGE_TYPE_OFFSET [page_type_as_u8 t]
                (fill 0 PAGE_SIZE))))))).

Definition parent_or_max (parent : option Z) : Z :=
  match parent with Some i => i | None => U64_MAX end.

Lemma zlen_blank : zlen (fill 0 PAGE_SIZE) = PAGE_SIZE.
Proof. apply zlen_fill. pg. Qed.
#[export] Hint Rewrite zlen_blank : rarm.

Lemma initialize_eq {E} t parent b :
  zlen b = PAGE_SIZE ->
  @initialize E t parent b = (Ok tt, initialized t (parent_or_max parent)).
Proof.
  intros Hl. unfold initialize. eapply sbind_step; [done|]. cbv beta. rewrite Hl.
  ustep store_ok by (rewrite zlen_blank; pg).
  sstep set_u16_ok by side. sstep set_u64_ok by side. sstep set_u32_ok by side.
  sstep set_u32_ok by side. sstep set_u32_ok by side.
  rewrite (supd_ok _ _ (initialized t (parent_or_max parent))); [done|].
  apply copy_from_slice_ok; side.
Qed.

Lemma page_type_byte t : is_byte (page_type_as_u8 t).
Proof. unfold is_byte. destruct t; simpl; lia. Qed.

Lemma zlen_initialized t p : zlen (initialized t p) = PAGE_SIZE.
Proof. unfold initialized. by autorewrite with rarm. Qed.
#[export] Hint Rewrite zlen_initialized : rarm.

Lemma initialized_items t p : n_items (initialized t p) = 0.
Proof. unfold n_items, initialized. peek. apply le_val_splice_2; side. Qed.

Lemma initialized_heap t p : heap_end (initialized t p) = PAGE_SIZE.
Proof. unfold heap_end, initialized. apply le_val_splice_2; side. Qed.

Lemma initialized_slots t p : slots (initialized t p) = [].
Proof. unfold slots. by rewrite initialized_items. Qed.

Lemma initialized_wf t p : wf (initialized t p).
Proof.
  constructor; rewrite ?initialized_items, ?initialized_heap, ?initialized_slots;
    [ by autorewrite with rarm | | unfold slot_pos; simpl; pg | pg
    | constructor | constructor | simpl; pg ].
  unfold initialized. repeat apply bytes_ok_splice; auto using page_type_byte with rarm.
Qed.

(** The sibling pointers and the page type of a fresh page. *)
Lemma le_val_splice_4 (b : page) off v :
  zlen b = PAGE_SIZE -> 0 <= off -> off + 4 <= PAGE_SIZE -> 0 <= v < 2 ^ 32 ->
  le_val (sub off 4 (splice off (le_bytes 4 v) b)) = v.
Proof.
  intros. change 4 with (zlen (le_bytes 4 v)) at 1. rewrite sub_splice_eq by side.
  rewrite le_val_le_bytes. apply Z.mod_small. lia.
Qed.

Lemma initialized_next t p :
  le_val (sub PAGE_HEADER_NEXT_SIBLING_LEAF_PAGE_INDEX_OFFSET 4 (initialized t p))
  = INVALID_PAGE_INDEX.
Proof. unfold initialized. peek. apply le_val_splice_4; side. Qed.

Lemma initialized_prev t p :
  le_val (sub PAGE_HEADER_PREV_SIBLING_LEAF_PAGE_INDEX_OFFSET 4 (initialized t p))
  = INVALID_PAGE_INDEX.
Proof. unfold initialized. rewrite sub_splice_ne by side. apply le_val_splice_4; side. Qed.

Lemma initialized_type {E} t p : @get_page_type E (initialized t p) = Ok t.
Proof.
  unfold get_page_type. ostep (index_ok _ _ (page_type_as_u8 t)) by
    (first [ pg | apply sub_1_lookup; [pg|]; unfold initialized; peek;
             change 1 with (zlen [page_type_as_u8 t]); by rewrite sub_splice_eq by side ]).
  by rewrite page_type_roundtrip.
Qed.

Lemma initialized_abs t p : abs (initialized t p) = mkAPage [] 0.
Proof.
  unfold abs, records. rewrite initialized_slots, initialized_heap. done.
Qed.

(** * Insert *)

(** The page after a record [r] went in at slot [i]. *)
Definition inserted (i : Z) (r : list Z) (b : page) : page :=
  let heap := heap_end b - zlen r in
  splice PAGE_HEADER_ITEM_COUNT_OFFSET (le_bytes 2 (n_items b + 1))
    (splice (slot_pos i)
       (enc_slot (heap, zlen r) ++ sub (slot_pos i) (SLOT_SIZE * (n_items b - i)) b)
       (splice PAGE_HEADER_DATA_HEAP_END_OFFSET_OFFSET (le_bytes 2 heap)
          (splice heap r b))).

Section Insert.
Context (b : page) (W : wf b) (i : Z) (r : list Z).
Context (Hi : 0 <= i <= n_items b) (Hr : zlen r + SLOT_SIZE <= acontig (abs b)).

Let n := n_items b.
Let heap := heap_end b - zlen r.
Let b' := inserted i r b.

(** The arithmetic of a page with room for the record. *)
Lemma insert_room :
  zlen b = PAGE_SIZE /\ slot_pos (n + 1) <= heap /\ heap_end b <= PAGE_SIZE /\ 0 <= zlen r.
Proof.
  pose proof (wf_top _ W). rewrite wf_acontig in Hr by done. subst n heap.
  split_and!; [apply W|unfold slot_pos in *; pg|done|apply zlen_nonneg].
Qed.

Lemma try_insert_record_ok : try_insert_record i r b = (Ok i, b').
Proof.
  destruct insert_room as (Hl & Hh & Ht & Hz). subst n heap.
  unfold try_insert_record, slot_pos in *.
  gstep get_free_space_contiguous_wf by done. zbool.
  gstep get_item_count_eq by done. zbool. gstep get_heap_end_eq by done.
  rewrite wrap_small by (pg). lstep usub_ok by pg.
  ustep copy_from_slice_ok by side. sstep set_u16_ok by side. lstep usub_ok by lia.
  replace (PAGE_HEADER_SIZE + SLOT_SIZE * i) with (slot_pos i) by side.
  eapply (sbind_step _ _ _ tt (splice (slot_pos i + SLOT_SIZE)
    (sub (slot_pos i) (SLOT_SIZE * (n_items b - i)) b)
    (splice PAGE_HEADER_DATA_HEAP_END_OFFSET_OFFSET (le_bytes 2 (heap_end b - zlen r))
          (splice (heap_end b - zlen r) r b)))).
  { case_bool.
    - apply supd_ok. rewrite copy_within_ok by side. f_equal. f_equal. peek.
      f_equal. side.
    - replace (n_items b - i) with 0 by lia. rewrite Z.mul_0_r, sub_0, splice_nil by side.
      done. }
  cbv beta. ustep copy_from_slice_ok by side. ustep copy_from_slice_ok by side.
  lstep uadd_ok by pg. sstep set_u16_ok by side.
  unfold mret, stateM_ret. subst b'. unfold inserted. do 2 f_equal.
  rewrite <- (splice_cons_shift _ SLOT_SIZE) by side.
  apply splice_enc_slot; side.
Qed.

Lemma zlen_inserted : zlen b' = PAGE_SIZE.
Proof. subst b'. unfold inserted. autorewrite with rarm. apply W. Qed.

Ltac room := destruct insert_room as (Hl & Hh & Ht & Hz); subst n heap b'; unfold slot_pos in *.

Lemma inserted_items : n_items b' = n + 1.
Proof.
  room. unfold n_items at 1, inserted. apply le_val_splice_2; side.
Qed.

Lemma inserted_heap : heap_end b' = heap.
Proof.
  room. unfold heap_end at 1, inserted. peek. apply le_val_splice_2; side.
Qed.

Lemma inserted_header : header b' = header b.
Proof. room. unfold header, inserted. f_equal; by peek. Qed.

Lemma inserted_contents s : in_heap (heap_end b) s -> contents b' s = contents b s.
Proof. room. intros (? & ? & ?). unfold contents, inserted. by peek. Qed.

Lemma inserted_new : contents b' (heap, zlen r) = r.
Proof.
  room. unfold contents, inserted; cbn [fst snd]. peek. apply sub_splice_eq; side.
Qed.

Lemma inserted_slot_before j : 0 <= j < i -> slot_at b' j = slot_at b j.
Proof. room. intros. unfold slot_at, inserted. by peek. Qed.

Lemma inserted_slot_new : slot_at b' i = (heap, zlen r).
Proof.
  room. unfold slot_at, inserted. rewrite sub_splice_ne by side.
  rewrite sub_splice_in by side. rewrite sub_app_l by side. rewrite sub_whole by side.
  apply dec_enc_slot. unfold slot_ok; simpl. side.
Qed.

Lemma inserted_slot_after j : i <= j < n -> slot_at b' (j + 1) = slot_at b j.
Proof.
  room. intros. unfold slot_at, inserted. rewrite sub_splice_ne by side.
  rewrite sub_splice_in by side. rewrite sub_app_r by side.
  rewrite sub_sub by side. do 2 f_equal. side.
Qed.

Lemma inserted_slots :
  slots b' = take (Z.to_nat i) (slots b) ++ (heap, zlen r) :: drop (Z.to_nat i) (slots b).
Proof.
  assert (length (slots b) = Z.to_nat n) as Hn
    by (pose proof (zlen_slots b) as Hz; unfold zlen in Hz; subst n; lia).
  assert (length (take (Z.to_nat i) (slots b)) = Z.to_nat i) as Ht
    by (rewrite length_take; subst n; lia).
  apply slots_eq.
  - rewrite inserted_items. unfold zlen. rewrite length_app, Ht. simpl.
    rewrite length_drop, Hn. subst n. lia.
  - intros j Hj. destruct (decide (Z.of_nat j < i)).
    + rewrite lookup_app_l, lookup_take_lt, lookup_slots by lia.
      rewrite decide_True by lia. by rewrite inserted_slot_before by lia.
    + rewrite lookup_app_r by lia. rewrite Ht.
      destruct (j - Z.to_nat i)%nat as [|k] eqn:Hk.
      * replace (Z.of_nat j) with i by lia. by rewrite inserted_slot_new.
      * simpl. rewrite lookup_drop, lookup_slots.
        replace (Z.to_nat i + k)%nat with (j - 1)%nat by lia.
        unfold zlen in Hj. rewrite length_app, Ht in Hj. simpl in Hj.
        rewrite length_drop, Hn in Hj. rewrite decide_True by (subst n; lia).
        rewrite <- inserted_slot_after by (subst n; lia). do 2 f_equal. lia.
Qed.

Lemma inserted_perm : slots b' ≡ₚ (heap, zlen r) :: slots b.
Proof.
  rewrite inserted_slots, <- Permutation_middle. by rewrite take_drop.
Qed.

Lemma inserted_wf : bytes_ok r -> wf b'.
Proof.
  intros Hb. pose proof inserted_perm as Hp. pose proof (wf_used _ W).
  assert (Forall (in_heap heap) (slots b')) as Hheap.
  { rewrite Hp. constructor; [room; unfold in_heap; simpl; side|].
    eapply Forall_impl; [apply (wf_heap _ W)|]. intros s. apply in_heap_mono. room. lia. }
  constructor; rewrite ?inserted_items, ?inserted_heap.
  - apply zlen_inserted.
  - subst b'. unfold inserted, enc_slot.
    pose proof (wf_bytes _ W). repeat first [apply bytes_ok_splice | apply Forall_app_2 ];
      auto with rarm.
  - room. side.
  - room. lia.
  - done.
  - eapply FOP_perm; [apply _|by symmetry|]. constructor; [|apply W].
    eapply Forall_impl; [apply (wf_heap _ W)|]. intros s (? & ? & ?).
    left; simpl. subst heap. lia.
  - rewrite Hp. simpl. subst heap. lia.
Qed.

Lemma inserted_records :
  records b' = take (Z.to_nat i) (records b) ++ r :: drop (Z.to_nat i) (records b).
Proof.
  assert (forall l, Forall (in_heap (heap_end b)) l -> contents b' <$> l = contents b <$> l) as Hc.
  { induction 1; [done|]. unfold fmap in *; simpl. rewrite inserted_contents by done. by f_equal. }
  unfold records. rewrite inserted_slots, fmap_app, fmap_cons, inserted_new.
  rewrite !Hc by (try apply Forall_take; try apply Forall_drop; apply W).
  by rewrite fmap_take, fmap_drop.
Qed.

Lemma inserted_garbage : agarbage (abs b') = agarbage (abs b).
Proof.
  unfold abs; cbn [agarbage]. rewrite inserted_heap, inserted_perm. simpl. subst heap. lia.
Qed.
End Insert.

(** * Delete *)

Definition deleted (i : Z) (b : page) : page :=
  splice PAGE_HEADER_ITEM_COUNT_OFFSET (le_bytes 2 (n_items b - 1))
    (splice (slot_pos i) (sub (slot_pos (i + 1)) (SLOT_SIZE * (n_items b - 1 - i)) b) b).

Lemma delete_record_out {E} b i :
  wf b -> n_items b <= i -> @delete_record E i b = (Ok tt, b).
Proof.
  intros W Hi. unfold delete_record. gstep get_item_count_eq by apply W. by zbool.
Qed.

Section Delete.
Context (b : page) (W : wf b) (i : Z) (Hi : 0 <= i < n_items b).
Let n := n_items b.
Let b' := deleted i b.

Lemma delete_room : zlen b = PAGE_SIZE /\ slot_pos n <= heap_end b <= PAGE_SIZE.
Proof. split_and!; apply W. Qed.

Ltac room := destruct delete_room as (Hl & Hh & Ht); subst n b'; unfold slot_pos in *.

Lemma delete_record_ok {E} : @delete_record E i b = (Ok tt, b').
Proof.
  pose proof (n_items_range b (wf_len _ W) (wf_bytes _ W)). room.
  unfold delete_record. gstep get_item_count_eq by done. zbool.
  lstep usub_ok by side. fold (slot_pos i).
  eapply (sbind_step _ _ _ tt
    (splice (slot_pos i) (sub (slot_pos (i + 1)) (SLOT_SIZE * (n_items b - 1 - i)) b) b)).
  { case_bool.
    - apply supd_ok. rewrite copy_within_ok by side. f_equal. f_equal. f_equal; side.
    - replace (n_items b - 1 - i) with 0 by side. rewrite Z.mul_0_r, sub_0, splice_nil by side.
      done. }
  cbv beta. lstep usub_ok by lia. apply set_u16_ok; side.
Qed.

Lemma zlen_deleted : zlen b' = PAGE_SIZE.
Proof. subst b'. unfold deleted. autorewrite with rarm. apply W. Qed.

Lemma deleted_items : n_items b' = n - 1.
Proof.
  pose proof (n_items_range b (wf_len _ W) (wf_bytes _ W)).
  room. unfold n_items at 1, deleted. apply le_val_splice_2; side.
Qed.

Lemma deleted_heap : heap_end b' = heap_end b.
Proof. room. unfold heap_end, deleted. by peek. Qed.

Lemma deleted_header : header b' = header b.
Proof. room. unfold header, deleted. f_equal; by peek. Qed.

Lemma deleted_contents s : in_heap (heap_end b) s -> contents b' s = contents b s.
Proof. room. intros (? & ? & ?). unfold contents, deleted. by peek. Qed.

Lemma deleted_slot_before j : 0 <= j < i -> slot_at b' j = slot_at b j.
Proof. room. intros. unfold slot_at, deleted. by peek. Qed.

Lemma deleted_slot_after j : i <= j < n - 1 -> slot_at b' j = slot_at b (j + 1).
Proof.
  room. intros. unfold slot_at, deleted. rewrite sub_splice_ne by side.
  rewrite sub_splice_in by side. rewrite sub_sub by side. do 2 f_equal. side.
Qed.

Lemma deleted_slots : slots b' = delete (Z.to_nat i) (slots b).
Proof.
  assert (length (slots b) = Z.to_nat n) as Hn
    by (pose proof (zlen_slots b) as Hz; unfold zlen in Hz; subst n; lia).
  assert (zlen (delete (Z.to_nat i) (slots b)) = n - 1) as Hd.
  { unfold zlen. rewrite length_delete by (apply lookup_lt_is_Some_2; subst n; lia).
    subst n. lia. }
  apply slots_eq; [by rewrite deleted_items|].
  intros j Hj. rewrite Hd in Hj. destruct (decide (Z.of_nat j < i)).
  - rewrite list_lookup_delete_lt by lia. rewrite lookup_slots.
    rewrite decide_True by (subst n; lia). by rewrite deleted_slot_before by lia.
  - rewrite list_lookup_delete_ge by lia. rewrite lookup_slots.
    rewrite decide_True by (subst n; lia). rewrite deleted_slot_after by lia.
    do 2 f_equal. lia.
Qed.

Lemma deleted_perm : slots b ≡ₚ slot_at b i :: slots b'.
Proof.
  rewrite deleted_slots. apply delete_Permutation. rewrite lookup_slots.
  rewrite decide_True by (subst n; lia). do 2 f_equal. lia.
Qed.

Lemma deleted_wf : wf b'.
Proof.
  pose proof deleted_perm as Hp. pose proof (wf_used _ W) as Hu.
  pose proof (wf_heap _ W) as Hheap. rewrite Hp in Hheap. apply Forall_cons in Hheap as [Hs Hheap].
  constructor; rewrite ?deleted_items, ?deleted_heap.
  - apply zlen_deleted.
  - subst b'. unfold deleted. pose proof (wf_bytes _ W).
    repeat apply bytes_ok_splice; auto with rarm.
  - room. side.
  - room. done.
  - done.
  - pose proof (wf_disjoint _ W) as Hd. eapply FOP_perm in Hd; [|apply _|exact Hp].
    by inversion_clear Hd.
  - rewrite Hp, used_cons in Hu. destruct Hs as (? & ? & ?). lia.
Qed.

Lemma deleted_records : records b' = delete (Z.to_nat i) (records b).
Proof.
  transitivity (contents b <$> slots b').
  { pose proof (wf_heap _ W) as Hheap. rewrite deleted_perm in Hheap.
    apply Forall_cons in Hheap as [_ Hheap]. apply list_fmap_ext. intros j s Hs.
    apply deleted_contents. by eapply Forall_lookup_1. }
  rewrite deleted_slots. unfold records. by rewrite list_fmap_delete.
Qed.

Lemma deleted_garbage : agarbage (abs b') = agarbage (abs b) + (slot_at b i).2.
Proof.
  unfold abs; cbn [agarbage]. rewrite deleted_heap. rewrite deleted_perm, used_cons. lia.
Qed.
End Delete.

(** * Update *)

(** Record [r] stored at [o] and slot [i] pointing to it, the heap starting at
    [h]: the common shape of both branches of [try_update_record]. *)
Definition placed (i o h : Z) (r : list Z) (b : page) : page :=
  splice PAGE_HEADER_DATA_HEAP_END_OFFSET_OFFSET (le_bytes 2 h)
    (splice (slot_pos i) (enc_slot (o, zlen r)) (splice o r b)).

Lemma le_bytes_sub (b : page) off (n : nat) :
  bytes_ok b -> 0 <= off -> off + Z.of_nat n <= zlen b ->
  le_bytes n (le_val (sub off (Z.of_nat n) b)) = sub off (Z.of_nat n) b.
Proof.
  intros. assert (n = length (sub off (Z.of_nat n) b)) as Hn.
  { pose proof (zlen_sub off (Z.of_nat n) b). unfold zlen in *. lia. }
  rewrite Hn at 1. apply le_bytes_le_val. auto with rarm.
Qed.

(** Writing back the heap offset, or a slot, changes nothing. *)
Lemma splice_heap_id b :
  zlen b = PAGE_SIZE -> bytes_ok b ->
  splice PAGE_HEADER_DATA_HEAP_END_OFFSET_OFFSET (le_bytes 2 (heap_end b)) b = b.
Proof.
  intros Hl Hb. unfold heap_end. rewrite (le_bytes_sub b _ 2) by side. apply splice_sub_id; side.
Qed.

Lemma splice_slot_id b i :
  zlen b = PAGE_SIZE -> bytes_ok b -> 0 <= i -> slot_pos (i + 1) <= PAGE_SIZE ->
  splice (slot_pos i) (enc_slot (slot_at b i)) b = b.
Proof.
  intros Hl Hb Hi Hp. rewrite slot_at_2 by lia. unfold enc_slot; cbn [fst snd].
  rewrite !(le_bytes_sub b _ 2) by side. change (Z.of_nat 2) with 2.
  rewrite <- sub_add by side. apply splice_sub_id; side.
Qed.

Section Place.
Context (b : page) (W : wf b) (i o h : Z) (r : list Z).
Context (Hi : 0 <= i < n_items b) (Hb : bytes_ok r).
Context (Hroom : slot_pos (n_items b) <= h) (Hheap : h <= heap_end b).
Context (Ho : in_heap h (o, zlen r)).
Context (Hdis : forall j, 0 <= j < n_items b -> j <> i ->
                  disjoint_slots (o, zlen r) (slot_at b j)).
Context (Huse : used (slots b) - (slot_at b i).2 + zlen r <= PAGE_SIZE - h).
Let b' := placed i o h r b.

Lemma place_room :
  zlen b = PAGE_SIZE /\ 0 <= zlen r /\ h <= o /\ o + zlen r <= PAGE_SIZE /\ heap_end b <= PAGE_SIZE.
Proof. destruct Ho as (? & ? & ?). split_and!; try apply W; try done. Qed.

Ltac room := destruct place_room as (Hl & Hz & Ho1 & Ho2 & Ht); subst b'; unfold slot_pos in *.

Lemma zlen_placed : zlen b' = PAGE_SIZE.
Proof. subst b'. unfold placed. autorewrite with rarm. apply W. Qed.

Lemma placed_items : n_items b' = n_items b.
Proof. room. unfold n_items, placed. by peek. Qed.

Lemma placed_heap : heap_end b' = h.
Proof. room. unfold heap_end, placed. apply le_val_splice_2; side. Qed.

Lemma placed_header : header b' = header b.
Proof. room. unfold header, placed. f_equal; by peek. Qed.

Lemma placed_new : contents b' (o, zlen r) = r.
Proof.
  room. unfold contents, placed; cbn [fst snd]. peek. apply sub_splice_eq; side.
Qed.

Lemma placed_contents s :
  in_heap h s -> disjoint_slots (o, zlen r) s -> contents b' s = contents b s.
Proof.
  room. intros (? & ? & ?) [? | ?]; unfold contents, placed; cbn [fst snd] in *; by peek.
Qed.

Lemma placed_slot_new : slot_at b' i = (o, zlen r).
Proof.
  room. unfold placed. rewrite slot_at_splice_ne by side.
  apply slot_at_splice_eq; try side. unfold slot_ok; simpl. side.
Qed.

Lemma placed_slot_old j : 0 <= j < n_items b -> j <> i -> slot_at b' j = slot_at b j.
Proof. room. intros. unfold placed. by rewrite !slot_at_splice_ne by side. Qed.

Lemma placed_slots : slots b' = <[Z.to_nat i := (o, zlen r)]> (slots b).
Proof.
  assert (zlen (slots b) = n_items b) as Hn by (apply zlen_slots; lia).
  apply slots_eq; [rewrite placed_items; unfold zlen in *; by rewrite length_insert|].
  intros j Hj. unfold zlen in *. rewrite length_insert in Hj.
  destruct (decide (j = Z.to_nat i)) as [->|Hne].
  - rewrite list_lookup_insert_eq by lia. by rewrite Z2Nat.id, placed_slot_new by lia.
  - rewrite list_lookup_insert_ne by done. rewrite lookup_slots, decide_True by lia.
    by rewrite placed_slot_old by lia.
Qed.

Lemma lookup_slot_i : slots b !! Z.to_nat i = Some (slot_at b i).
Proof. rewrite lookup_slots, decide_True by lia. do 2 f_equal. lia. Qed.

Lemma placed_perm :
  slots b' ≡ₚ (o, zlen r) :: delete (Z.to_nat i) (slots b)
  /\ slots b ≡ₚ slot_at b i :: delete (Z.to_nat i) (slots b).
Proof.
  split; [|apply delete_Permutation, lookup_slot_i]. rewrite placed_slots.
  rewrite insert_take_drop by (by eapply lookup_lt_Some, lookup_slot_i).
  rewrite delete_take_drop. by rewrite <- Permutation_middle.
Qed.

(** The slots other than [i] stay clear of the new record. *)
Lemma placed_others :
  Forall (fun s => in_heap h s /\ disjoint_slots (o, zlen r) s) (delete (Z.to_nat i) (slots b)).
Proof.
  pose proof (wf_heap_pos _ W).
  apply Forall_lookup. intros k s Hk. rewrite list_lookup_delete in Hk.
  assert (exists j, 0 <= j < n_items b /\ j <> i /\ s = slot_at b j) as (j & Hj & Hne & ->).
  { case_decide as Hd; rewrite lookup_slots in Hk; case_decide; simplify_eq.
    - exists (Z.of_nat k). split_and!; [lia|lia|lia|done].
    - exists (Z.of_nat (S k)). split_and!; [lia|lia|lia|done]. }
  split; [|by apply Hdis]. eapply in_heap_mono; [exact Hheap|]. by apply wf_slot_in.
Qed.

Lemma placed_wf : wf b'.
Proof.
  destruct placed_perm as [Hp Hp0]. pose proof placed_others as Hoth.
  constructor; rewrite ?placed_items, ?placed_heap.
  - apply zlen_placed.
  - subst b'. unfold placed, enc_slot. pose proof (wf_bytes _ W).
    repeat first [apply bytes_ok_splice | apply Forall_app_2 ]; auto with rarm.
  - done.
  - room. lia.
  - rewrite Hp. constructor; [done|]. eapply Forall_impl; [exact Hoth|]. by intros s [? _].
  - eapply FOP_perm; [apply _|by symmetry|]. constructor.
    + eapply Forall_impl; [exact Hoth|]. by intros s [_ ?].
    + pose proof (wf_disjoint _ W) as Hd. eapply FOP_perm in Hd; [|apply _|exact Hp0].
      by inversion_clear Hd.
  - apply used_perm in Hp, Hp0. rewrite used_cons in Hp, Hp0. cbn [snd] in Hp. lia.
Qed.

Lemma placed_records : records b' = <[Z.to_nat i := r]> (records b).
Proof.
  apply list_eq. intros k. unfold records at 1. rewrite list_lookup_fmap, placed_slots.
  destruct (decide (k = Z.to_nat i)) as [->|Hne].
  - pose proof (lookup_lt_Some _ _ _ lookup_slot_i).
    rewrite !list_lookup_insert_eq by (unfold records; by rewrite ?length_fmap).
    simpl. by rewrite placed_new.
  - rewrite !list_lookup_insert_ne by done. unfold records. rewrite list_lookup_fmap.
    rewrite lookup_slots. case_decide; [|done]. simpl. f_equal. apply placed_contents.
    + eapply in_heap_mono; [exact Hheap|]. apply wf_slot_in; [done|lia].
    + apply Hdis; lia.
Qed.

Lemma placed_garbage :
  agarbage (abs b') = PAGE_SIZE - h - (used (slots b) - (slot_at b i).2 + zlen r).
Proof.
  destruct placed_perm as [Hp Hp0]. unfold abs; cbn [agarbage].
  apply used_perm in Hp, Hp0. rewrite used_cons in Hp, Hp0. cbn [snd] in Hp.
  rewrite placed_heap, Hp. lia.
Qed.
End Place.

Lemma FOP_lookup {A} (R : A -> A -> Prop) `{!Symmetric R} l i j x y :
  ForallOrdPairs R l -> l !! i = Some x -> l !! j = Some y -> i <> j -> R x y.
Proof.
  intros Hl. revert i j. induction Hl as [|z l Hz _ IH]; intros i j Hx Hy Hne; [done|].
  rewrite Forall_lookup in Hz.
  destruct i as [|i], j as [|j]; simplify_eq/=; [eauto|symmetry; eauto|eauto].
Qed.

Section Update.
Context (b : page) (W : wf b) (i : Z) (r : list Z).
Context (Hi : 0 <= i < n_items b) (Hb : bytes_ok r).
#[local] Abbreviation s := (slot_at b i).
#[local] Abbreviation heap := (heap_end b - zlen r).

Lemma wf_disjoint_at j : 0 <= j < n_items b -> j <> i -> disjoint_slots s (slot_at b j).
Proof.
  intros. eapply (FOP_lookup _ _ (Z.to_nat i) (Z.to_nat j)); [apply W| | |lia];
    rewrite lookup_slots, decide_True by lia; do 2 f_equal; lia.
Qed.

Lemma in_place_disjoint j :
  zlen r <= s.2 -> 0 <= j < n_items b -> j <> i ->
  disjoint_slots (s.1, zlen r) (slot_at b j).
Proof.
  intros ? ? Hne. pose proof (wf_disjoint_at j) as Hd. unfold disjoint_slots in *.
  cbn [fst snd]. lia.
Qed.

Lemma relocated_disjoint j :
  0 <= j < n_items b -> disjoint_slots (heap, zlen r) (slot_at b j).
Proof.
  intros. destruct (wf_slot_in _ W j) as (? & ? & ?); [done|].
  left. cbn [fst snd]. lia.
Qed.

Lemma update_in_place_wf : zlen r <= s.2 -> wf (placed i s.1 (heap_end b) r b).
Proof.
  intros. pose proof (wf_slot_in _ W i Hi) as (? & ? & ?).
  pose proof (zlen_nonneg r). pose proof (wf_used _ W).
  apply placed_wf; try done; try lia; [apply W|split_and!; cbn [fst snd]; lia|].
  intros. by apply in_place_disjoint.
Qed.

Lemma update_relocate_wf : zlen r <= acontig (abs b) -> wf (placed i heap heap r b).
Proof.
  intros Hr. rewrite wf_acontig in Hr by done. pose proof (zlen_nonneg r).
  pose proof (wf_used _ W). pose proof (wf_top _ W).
  pose proof (wf_slot_in _ W i Hi) as (? & ? & ?).
  apply placed_wf; try done; try lia.
  - split_and!; cbn [fst snd]; lia.
  - intros. by apply relocated_disjoint.
Qed.

Lemma try_update_in_place_ok :
  zlen r <= s.2 -> try_update_record i r b = (Ok i, placed i s.1 (heap_end b) r b).
Proof.
  intros Hr. pose proof (wf_len _ W) as Hl. pose proof (wf_slot_room _ W i) as Hs.
  pose proof (wf_top _ W). pose proof (wf_bytes _ W). pose proof (wf_slot_in _ W i Hi) as (? & ? & ?).
  pose proof (zlen_nonneg r). pose proof (wf_slot_room _ W (n_items b - 1)) as Hn.
  unfold try_update_record. gstep get_item_count_eq by done. zbool.
  gstep get_slot_wf by done. rewrite (surjective_pairing s). cbn [fst snd].
  zbool. eapply sbind_step; [|done].
  ustep copy_from_slice_ok by side. rewrite !wrap_small by side.
  assert (heap_end b = heap_end (splice (slot_pos i) (enc_slot (s.1, zlen r)) (splice s.1 r b)))
    as Hh by (unfold heap_end; by peek).
  unfold placed. rewrite Hh, splice_heap_id.
  - case_bool; [apply set_slot_ok; side|].
    replace (s.1, zlen r) with (slot_at (splice s.1 r b) i)
      by (rewrite slot_at_splice_ne by side; destruct s; simpl in *; f_equal; lia).
    rewrite splice_slot_id; try side; [done|by apply bytes_ok_splice].
  - side.
  - unfold enc_slot. repeat first [apply bytes_ok_splice | apply Forall_app_2]; auto with rarm.
Qed.

Lemma try_update_relocate_ok :
  s.2 < zlen r -> zlen r <= acontig (abs b) ->
  try_update_record i r b = (Ok i, placed i heap heap r b).
Proof.
  intros Hr Hc. pose proof (wf_len _ W) as Hl. pose proof (wf_slot_room _ W i) as Hs.
  pose proof (wf_top _ W). pose proof (wf_slot_in _ W i Hi) as (? & ? & ?).
  pose proof (zlen_nonneg r). pose proof (wf_slot_room _ W (n_items b - 1)) as Hn.
  pose proof Hc as Hc'. rewrite wf_acontig in Hc' by done.
  unfold try_update_record. gstep get_item_count_eq by done. zbool.
  gstep get_slot_wf by done. rewrite (surjective_pairing s). cbn [fst snd].
  zbool. eapply sbind_step; [|done].
  gstep get_free_space_contiguous_wf by done. zbool. gstep get_heap_end_eq by done.
  rewrite !wrap_small by side. lstep usub_ok by side.
  ustep copy_from_slice_ok by side.
  sstep set_slot_ok by side. apply set_u16_ok; side.
Qed.

Lemma try_update_full :
  s.2 < zlen r -> acontig (abs b) < zlen r -> try_update_record i r b = (Err PageFull, b).
Proof.
  intros Hr Hc. unfold try_update_record. gstep get_item_count_eq by apply W. zbool.
  gstep get_slot_wf by done. rewrite (surjective_pairing s). cbn [fst snd].
  zbool. rewrite (sbind_err _ _ b PageFull b); [done|].
  gstep get_free_space_contiguous_wf by done. by zbool.
Qed.
End Update.
