(* ===== verification/SlottedPageCompact.v ===== *)
(** The slotted page: [compact] rewrites the data heap as one block. *)
From S2P Require Import Prelude Bytes Page SlottedPage SlottedPageSpec SlottedPageOps.

(** The slots of records stored one below the other, from [top] down. *)
Fixpoint pack (top : Z) (rs : list (list Z)) : list (Z * Z) :=
  match rs with
  | [] => []
  | r :: rs => (top - zlen r, zlen r) :: pack (top - zlen r) rs
  end.

Lemma zlen_concat (rs : list (list Z)) : zlen (concat rs) = total_len rs.
Proof. induction rs; simpl; [done|]. rewrite zlen_app. unfold total_len in *. lia. Qed.

Lemma length_pack top rs : length (pack top rs) = length rs.
Proof. revert top. induction rs; intros; simpl; auto. Qed.

Lemma pack_snoc top rs r :
  pack top (rs ++ [r]) = pack top rs ++ [(top - total_len rs - zlen r, zlen r)].
Proof.
  revert top. induction rs as [|r0 rs IH]; intros top; simpl.
  - do 3 f_equal. lia.
  - rewrite IH. do 5 f_equal. unfold total_len. lia.
Qed.

Lemma used_pack top rs : used (pack top rs) = total_len rs.
Proof.
  revert top. induction rs as [|r rs IH]; intros top; [done|].
  cbn [pack]. rewrite used_cons, total_len_cons, IH. done.
Qed.

Lemma pack_below top rs : Forall (fun s => s.1 + s.2 <= top) (pack top rs).
Proof.
  revert top. induction rs as [|r rs IH]; intros top; constructor; [simpl; lia|].
  pose proof (zlen_nonneg r). eapply Forall_impl; [apply IH|]. simpl. lia.
Qed.

Lemma pack_in_heap top lo rs :
  top <= PAGE_SIZE -> lo <= top - total_len rs -> Forall (in_heap lo) (pack top rs).
Proof.
  revert top. induction rs as [|r rs IH]; intros top Ht Hlo; [constructor|].
  rewrite total_len_cons in Hlo. pose proof (zlen_nonneg r). pose proof (total_len_nonneg rs).
  constructor; [unfold in_heap; simpl; lia|]. apply IH; lia.
Qed.

Lemma pack_disjoint top rs : ForallOrdPairs disjoint_slots (pack top rs).
Proof.
  revert top. induction rs as [|r rs IH]; intros top; [constructor|].
  constructor; [|apply IH]. eapply Forall_impl; [apply pack_below|].
  intros s Hs. right. simpl in *. lia.
Qed.

(** A record of a list is a slice of the concatenation. *)
Lemma sub_concat (rs : list (list Z)) k r :
  rs !! k = Some r -> sub (total_len (take k rs)) (zlen r) (concat rs) = r.
Proof.
  intros Hk. rewrite <- (take_drop_middle rs k r Hk) at 2.
  rewrite concat_app. simpl. rewrite sub_app_r by (rewrite zlen_concat; lia).
  rewrite zlen_concat, Z.sub_diag, sub_app_l by lia. apply sub_all.
Qed.

Lemma total_len_take (rs : list (list Z)) k r :
  rs !! k = Some r -> total_len (take (S k) rs) = total_len (take k rs) + zlen r.
Proof.
  intros Hk. rewrite (take_S_r _ _ _ Hk), total_len_app, total_len_cons. simpl. lia.
Qed.

Lemma total_len_take_le (rs : list (list Z)) k : total_len (take k rs) <= total_len rs.
Proof.
  rewrite <- (take_drop k rs) at 2. rewrite total_len_app.
  pose proof (total_len_nonneg (drop k rs)). lia.
Qed.

(** Writing one slot of a page. *)
Lemma slots_set_slot b i s :
  zlen b = PAGE_SIZE -> 0 <= i < n_items b -> slot_pos (n_items b) <= PAGE_SIZE -> slot_ok s ->
  slots (splice (slot_pos i) (enc_slot s) b) = <[Z.to_nat i := s]> (slots b).
Proof.
  intros Hl Hi Hn Hs. assert (zlen (slots b) = n_items b) as Hz by (apply zlen_slots; lia).
  assert (n_items (splice (slot_pos i) (enc_slot s) b) = n_items b) as Hc
    by (unfold n_items; by peek).
  apply slots_eq; [rewrite Hc; unfold zlen in *; by rewrite length_insert|].
  intros j Hj. unfold zlen in *. rewrite length_insert in Hj.
  destruct (decide (j = Z.to_nat i)) as [->|Hne].
  - rewrite list_lookup_insert_eq by lia. rewrite Z2Nat.id by lia.
    rewrite slot_at_splice_eq by side. done.
  - rewrite list_lookup_insert_ne by done. rewrite lookup_slots, decide_True by lia.
    by rewrite slot_at_splice_ne by side.
Qed.

(** Writing below the slots' region leaves them all. *)
Lemma slots_splice_ne b off bs :
  zlen b = PAGE_SIZE -> 0 <= n_items b -> slot_pos (n_items b) <= off ->
  off + zlen bs <= PAGE_SIZE -> slots (splice off bs b) = slots b.
Proof.
  intros Hl Hn Ho Hs. pose proof (zlen_nonneg bs).
  assert (n_items (splice off bs b) = n_items b) as Hc by (unfold n_items; by peek).
  unfold slots. rewrite Hc. apply list_fmap_ext. intros k j Hk.
  apply list_elem_of_lookup_2, elem_of_range in Hk. by rewrite slot_at_splice_ne by side.
Qed.

Lemma collect_records_ok {E} b :
  wf b -> @collect_records E (n_items b) b = Ok (concat (records b)).
Proof.
  intros W. unfold collect_records. pose proof (wf_items _ W).
  assert (forall k acc, Z.of_nat k <= n_items b ->
    ofold (fun block i => r ← get_record i b; record_data ← unwrap_opt r;
                          mret (block ++ record_data)) acc
      (range (n_items b - Z.of_nat k) (n_items b))
    = Ok (E := E) (acc ++ concat (drop (Z.to_nat (n_items b) - k) (records b)))) as Hloop.
  { assert (length (records b) = Z.to_nat (n_items b)) as Hlen
      by (pose proof (zlen_records b) as Hz; unfold zlen in Hz; lia).
    induction k as [|k IH]; intros acc Hk.
    - rewrite range_nil by lia. simpl. rewrite drop_ge by lia. by rewrite app_nil_r.
    - rewrite range_cons by lia. simpl. rewrite get_record_wf by (done || lia).
      destruct (lookup_lt_is_Some_2 (records b) (Z.to_nat (n_items b) - S k)%nat) as [r Hr]; [lia|].
      replace (Z.to_nat (n_items b - Z.of_nat (S k))) with (Z.to_nat (n_items b) - S k)%nat by lia.
      rewrite Hr. simpl.
      replace (n_items b - Z.of_nat (S k) + 1) with (n_items b - Z.of_nat k) by lia.
      rewrite IH by lia. rewrite (drop_S _ _ _ Hr). simpl. rewrite app_assoc.
      do 4 f_equal. lia. }
  specialize (Hloop (Z.to_nat (n_items b)) [] ltac:(lia)).
  rewrite Z2Nat.id, !Z.sub_diag, Nat.sub_diag in Hloop by lia. by rewrite drop_0 in Hloop.
Qed.

(** * The second loop *)

Section Loop.
Context (b : page) (W : wf b).
#[local] Abbreviation recs := (records b).
#[local] Abbreviation pos k := (total_len (take k (records b))).

(** What holds before iteration [k]: the first [k] records are packed, the
    other slots are untouched. *)
Record packed_upto (k : nat) (bk : page) : Prop := {
  pk_len : zlen bk = PAGE_SIZE;
  pk_bytes : bytes_ok bk;
  pk_items : n_items bk = n_items b;
  pk_header : header bk = header b;
  pk_slots : slots bk = pack PAGE_SIZE (take k recs) ++ drop k (slots b);
  pk_recs : contents bk <$> pack PAGE_SIZE (take k recs) = take k recs;
}.

Lemma packed_start : packed_upto 0 b.
Proof. constructor; try apply W; done. Qed.

Lemma pack_room : slot_pos (n_items b) <= PAGE_SIZE - total_len recs.
Proof.
  rewrite wf_total_len by done. pose proof (wf_used _ W). pose proof (wf_room _ W). lia.
Qed.

Lemma record_at (k : nat) :
  Z.of_nat k < n_items b ->
  exists r, recs !! k = Some r /\ (slot_at b (Z.of_nat k)).2 = zlen r /\ bytes_ok r.
Proof.
  intros Hk. exists (contents b (slot_at b (Z.of_nat k))).
  rewrite (records_lookup b k), decide_True by lia.
  destruct (wf_slot_in _ W (Z.of_nat k)) as (? & ? & ?); [lia|].
  pose proof (wf_heap_pos _ W). pose proof (wf_len _ W).
  split_and!; [done|unfold contents; by rewrite zlen_sub by lia|].
  unfold contents. apply bytes_ok_sub, W.
Qed.

Lemma packed_slot_at k bk :
  packed_upto k bk -> Z.of_nat k < n_items b ->
  slot_at bk (Z.of_nat k) = slot_at b (Z.of_nat k).
Proof.
  intros P Hk.
  assert (slots bk !! k = slots b !! k) as Hs.
  { rewrite (pk_slots _ _ P). rewrite lookup_app_r by (rewrite length_pack, length_take; lia).
    rewrite length_pack, length_take, lookup_drop. f_equal.
    pose proof (zlen_records b) as Hz. unfold zlen in Hz. lia. }
  rewrite !lookup_slots, (pk_items _ _ P), !decide_True in Hs by lia. congruence.
Qed.

Lemma compact_step_ok {E} (k : nat) bk :
  packed_upto k bk -> Z.of_nat k < n_items b ->
  exists bk',
    @compact_step E (concat recs) (PAGE_SIZE - pos k, pos k) (Z.of_nat k) bk
    = (Ok (PAGE_SIZE - pos (S k), pos (S k)), bk')
    /\ packed_upto (S k) bk'.
Proof.
  intros P Hk. destruct (record_at k Hk) as (r & Hr & Hlen & Hb).
  pose proof (zlen_nonneg r) as Hz. pose proof pack_room as Hroom.
  pose proof (total_len_take recs k r Hr) as Hpos.
  pose proof (total_len_take_le recs (S k)) as Hle.
  pose proof (total_len_nonneg (take k recs)). pose proof (wf_items _ W).
  pose proof (pk_len _ _ P) as Hl.
  set (h := PAGE_SIZE - pos (S k)).
  exists (splice (slot_pos (Z.of_nat k)) (enc_slot (h, zlen r)) (splice h r bk)). split.
  - unfold compact_step. gstep get_slot_eq by side.
    rewrite packed_slot_at, Hlen by done.
    lstep slice_ok by (rewrite ?zlen_concat; lia).
    replace (pos k + zlen r - pos k) with (zlen r) by lia.
    rewrite (sub_concat _ _ _ Hr). lstep usub_ok by side.
    replace (PAGE_SIZE - pos k - zlen r) with h by (subst h; lia).
    ustep copy_from_slice_ok by (subst h; side).
    rewrite !wrap_small by (subst h; side). sstep set_slot_ok by (subst h; side).
    unfold mret, stateM_ret. do 3 f_equal. lia.
  - assert (length (pack PAGE_SIZE (take k recs)) = k) as Hpk.
    { rewrite length_pack, length_take. apply lookup_lt_Some in Hr. lia. }
    assert (n_items (splice h r bk) = n_items b) as Hn.
    { rewrite <- (pk_items _ _ P). unfold n_items. subst h. by peek. }
    assert (pack PAGE_SIZE (take (S k) recs)
            = pack PAGE_SIZE (take k recs) ++ [(h, zlen r)]) as Hpack.
    { rewrite (take_S_r _ _ _ Hr), pack_snoc.
      by replace (PAGE_SIZE - pos k - zlen r) with h by (subst h; lia). }
    constructor.
    + by autorewrite with rarm.
    + pose proof (pk_bytes _ _ P). unfold enc_slot.
      repeat first [apply bytes_ok_splice | apply Forall_app_2]; auto with rarm.
    + rewrite <- Hn. unfold n_items. subst h. by peek.
    + rewrite <- (pk_header _ _ P). unfold header. subst h. f_equal; by peek.
    + rewrite slots_set_slot; try (subst h; side).
      2: unfold slot_ok; subst h; cbn [fst snd]; side.
      rewrite slots_splice_ne by (rewrite ?(pk_items _ _ P); subst h; side).
      rewrite (pk_slots _ _ P), Hpack, Nat2Z.id.
      destruct (drop k (slots b)) as [|s0 rest] eqn:Hd.
      { exfalso. apply (f_equal length) in Hd. rewrite length_drop in Hd. simpl in Hd.
        pose proof (zlen_slots b) as Hs. unfold zlen in Hs. lia. }
      rewrite insert_app_r_alt by lia. rewrite Hpk, Nat.sub_diag. simpl.
      rewrite <- app_assoc. simpl. do 2 f_equal.
      replace (S k) with (k + 1)%nat by lia. by rewrite <- drop_drop, Hd.
    + rewrite Hpack, fmap_app, (take_S_r _ _ _ Hr). f_equal.
      * rewrite <- (pk_recs _ _ P) at 2. apply list_fmap_ext. intros j s Hs.
        assert (in_heap (PAGE_SIZE - pos k) s) as (? & ? & ?).
        { eapply (Forall_lookup_1 (in_heap _)); [|exact Hs]. apply pack_in_heap; lia. }
        unfold contents. subst h. by peek.
      * simpl. f_equal. unfold contents; cbn [fst snd]. subst h. peek.
        apply sub_splice_eq; side.
Qed.

Lemma compact_loop_ok {E} (m k : nat) bk :
  packed_upto k bk -> Z.of_nat k + Z.of_nat m = n_items b ->
  exists b2,
    sfold (@compact_step E (concat recs)) (PAGE_SIZE - pos k, pos k)
      (range (Z.of_nat k) (n_items b)) bk
    = (Ok (PAGE_SIZE - total_len recs, total_len recs), b2)
    /\ packed_upto (Z.to_nat (n_items b)) b2.
Proof.
  revert k bk. induction m as [|m IH]; intros k bk P Hm.
  - rewrite range_nil by lia. replace (Z.to_nat (n_items b)) with k by lia.
    exists bk. split; [|done]. simpl. unfold sret.
    assert (take k recs = recs) as ->; [|done]. apply firstn_all2.
    pose proof (zlen_records b) as Hz. unfold zlen in Hz. lia.
  - rewrite range_cons by lia. simpl.
    destruct (compact_step_ok (E := E) k bk P) as (bk' & Hs & P'); [lia|].
    destruct (IH (S k) bk' P') as (b2 & Hf & P2); [lia|]. exists b2. split; [|done].
    rewrite (sbind_ok _ _ _ _ _ Hs). replace (Z.of_nat k + 1) with (Z.of_nat (S k)) by lia.
    exact Hf.
Qed.
End Loop.

(** * The whole method *)

(** The last two writes of [compact]: zero the free block, record the offset. *)
Definition sealed (n free heap : Z) (b : page) : page :=
  splice PAGE_HEADER_DATA_HEAP_END_OFFSET_OFFSET (le_bytes 2 heap)
    (splice (slot_pos n) (fill 0 free) b).

Section Seal.
Context (b : page) (W : wf b) (b2 : page) (P : packed_upto b (Z.to_nat (n_items b)) b2).
#[local] Abbreviation recs := (records b).
#[local] Abbreviation heap := (PAGE_SIZE - total_len (records b)).
#[local] Abbreviation free := (afree (abs b)).
Let b' := sealed (n_items b) free heap b2.

Lemma seal_room :
  zlen b2 = PAGE_SIZE /\ 0 <= free /\ slot_pos (n_items b) + free = heap
  /\ 0 <= total_len recs /\ 0 <= n_items b.
Proof.
  pose proof (pack_room b W). pose proof (total_len_nonneg recs). pose proof (wf_items _ W).
  rewrite wf_afree by done. rewrite <- wf_total_len by done.
  split_and!; [apply P|unfold slot_pos in *; pg|unfold slot_pos; pg|done|lia].
Qed.

Lemma all_records : take (Z.to_nat (n_items b)) recs = recs.
Proof.
  apply firstn_all2. pose proof (zlen_records b) as Hz. pose proof (wf_items _ W).
  unfold zlen in Hz. lia.
Qed.

Lemma zlen_free : zlen (fill 0 free) = free.
Proof. apply zlen_fill, seal_room. Qed.

Ltac room := destruct seal_room as (Hl & Hf & Hs & Ht & Hn); pose proof zlen_free as Hzf;
  subst b'; unfold sealed.
Ltac seal_side := rewrite ?zlen_splice, ?zlen_free; unfold slot_pos in *; layout;
  rewrite ?zlen_le_bytes; lia.
Ltac seal_peek := repeat (rewrite sub_splice_ne by seal_side).

Lemma sealed_items : n_items b' = n_items b.
Proof.
  room. rewrite <- (pk_items _ _ _ P) at 2. unfold n_items at 1 3. by seal_peek.
Qed.

Lemma sealed_heap : heap_end b' = heap.
Proof.
  room. unfold heap_end. apply le_val_splice_2; [by rewrite zlen_splice|pg|pg|].
  unfold slot_pos in *. pg.
Qed.

Lemma sealed_header : header b' = header b.
Proof.
  room. rewrite <- (pk_header _ _ _ P). unfold header. f_equal; by seal_peek.
Qed.

Lemma sealed_slots : slots b' = pack PAGE_SIZE recs.
Proof.
  pose proof sealed_items as Hi.
  assert (slots b' = slots b2) as ->.
  { unfold slots. rewrite Hi, (pk_items _ _ _ P). apply list_fmap_ext. intros k j Hk.
    apply list_elem_of_lookup_2, elem_of_range in Hk. room. unfold slot_at. by seal_peek. }
  rewrite (pk_slots _ _ _ P), all_records, drop_ge; [apply app_nil_r|].
  pose proof (zlen_slots b) as Hz. pose proof (wf_items _ W). unfold zlen in Hz. lia.
Qed.

Lemma sealed_records : records b' = recs.
Proof.
  unfold records at 1. rewrite sealed_slots.
  pose proof (pk_recs _ _ _ P) as Hr. rewrite all_records in Hr. rewrite <- Hr at 2.
  apply list_fmap_ext. intros k s Hk. room.
  assert (in_heap heap s) as (? & ? & ?).
  { eapply (Forall_lookup_1 (in_heap _)); [|exact Hk]. apply pack_in_heap; lia. }
  unfold contents. by seal_peek.
Qed.

Lemma sealed_wf : wf b'.
Proof.
  constructor; rewrite ?sealed_items, ?sealed_heap, ?sealed_slots, ?used_pack.
  - room. by rewrite !zlen_splice.
  - room. pose proof (pk_bytes _ _ _ P). repeat apply bytes_ok_splice; auto with rarm.
  - room. lia.
  - room. lia.
  - room. apply pack_in_heap; lia.
  - apply pack_disjoint.
  - lia.
Qed.

Lemma sealed_abs : abs b' = acompact (abs b).
Proof.
  unfold abs at 1. rewrite sealed_records, sealed_heap, sealed_slots, used_pack.
  unfold acompact, abs; cbn [arecs]. f_equal. lia.
Qed.
End Seal.

Lemma compact_ok {E} b :
  wf b ->
  exists b', @compact E b = (Ok tt, b') /\ wf b' /\ abs b' = acompact (abs b)
             /\ header b' = header b.
Proof.
  intros W. pose proof (pack_room b W) as Hroom. pose proof (wf_items _ W).
  pose proof (total_len_nonneg (records b)). pose proof (wf_afree _ W) as Hfree.
  pose proof (wf_total_len _ W) as Ht.
  unfold compact.
  destruct (Z.eqb_spec (afree (abs b)) (acontig (abs b))) as [Heq|Hne].
  - exists b. split_and!; [|done| |done].
    + gstep get_free_space_wf by done. gstep get_free_space_contiguous_wf by done. by zbool.
    + unfold acontig, acompact in *. destruct (abs b) as [rs g]; cbn [arecs agarbage] in *. f_equal. lia.
  - destruct (compact_loop_ok b W (E := E) (Z.to_nat (n_items b)) 0 b (packed_start b W))
      as (b2 & Hloop & P2); [lia|].
    exists (sealed (n_items b) (afree (abs b)) (PAGE_SIZE - total_len (records b)) b2).
    split_and!; [|by apply sealed_wf|by apply sealed_abs|by apply sealed_header].
    destruct (seal_room b W b2 P2) as (Hl & Hf & Hs & _ & _).
    gstep get_free_space_wf by done. gstep get_free_space_contiguous_wf by done. zbool.
    gstep get_item_count_eq by apply W. unfold slot_pos in *. lstep usub_ok by pg.
    lstep usub_ok by pg. gstep collect_records_ok by done.
    eapply sbind_step; [exact Hloop|]. cbv beta. fold (slot_pos (n_items b)). cbn [fst].
    ustep copy_from_slice_ok by (rewrite ?zlen_fill by lia; unfold slot_pos in *; pg).
    rewrite wrap_small by pg. apply set_u16_ok; [by rewrite zlen_splice|pg|pg].
Qed.
