(* ===== verification/SlottedPageRefine.v ===== *)
(** The slotted page refines its specification: whatever is done to a page
    through its methods, it behaves as a list of records with a count of
    fragmented bytes. *)
From S2P Require Import Prelude Bytes Page SlottedPage SlottedPageSpec SlottedPageOps.
From S2P Require Import SlottedPageCompact.

(** * One operation *)

Lemma lookup_records_none b i : wf b -> n_items b <= i -> records b !! Z.to_nat i = None.
Proof. intros W ?. pose proof (wf_items _ W). rewrite records_lookup, decide_False by lia. done. Qed.

Lemma lookup_records_some b i :
  wf b -> 0 <= i < n_items b -> records b !! Z.to_nat i = Some (contents b (slot_at b i)).
Proof. intros. rewrite records_lookup, decide_True by lia. do 3 f_equal. lia. Qed.

Lemma zlen_contents b i :
  wf b -> 0 <= i < n_items b -> zlen (contents b (slot_at b i)) = (slot_at b i).2.
Proof.
  intros W Hi. destruct (wf_slot_in _ W i Hi) as (? & ? & ?). pose proof (wf_heap_pos _ W).
  pose proof (wf_len _ W). unfold contents. by rewrite zlen_sub by lia.
Qed.

Lemma insert_sim b i r :
  wf b -> bytes_ok r -> 0 <= i ->
  exists b', try_insert_record i r b = ((ainsert i r (abs b)).1, b')
             /\ wf b' /\ abs b' = (ainsert i r (abs b)).2 /\ header b' = header b.
Proof.
  intros W Hb Hi. pose proof (wf_items _ W) as Hn. unfold ainsert.
  assert (zlen (arecs (abs b)) = n_items b) as Hz by (apply zlen_records; lia).
  rewrite Hz. destruct (Z.ltb_spec (acontig (abs b)) (zlen r + SLOT_SIZE)).
  - exists b. split_and!; try done. unfold try_insert_record.
    gstep get_free_space_contiguous_wf by done. by zbool.
  - destruct (Z.ltb_spec (n_items b) i).
    + exists b. split_and!; try done. unfold try_insert_record.
      gstep get_free_space_contiguous_wf by done. zbool.
      gstep get_item_count_eq by apply W. by zbool.
    + exists (inserted i r b). split_and!; try done.
      * by apply try_insert_record_ok.
      * by apply inserted_wf.
      * unfold abs at 1. fold (agarbage (abs (inserted i r b))).
        pose proof (inserted_garbage b W i r ltac:(lia) ltac:(lia)) as Hg.
        unfold abs in Hg at 1; cbn [agarbage] in Hg. rewrite Hg.
        by rewrite inserted_records by (done || lia).
      * by apply inserted_header.
Qed.

Lemma abs_eq b rs g : records b = rs -> agarbage (abs b) = g -> abs b = mkAPage rs g.
Proof. intros <- <-. done. Qed.

Lemma update_sim b i r :
  wf b -> bytes_ok r -> 0 <= i ->
  exists b', try_update_record i r b = ((aupdate i r (abs b)).1, b')
             /\ wf b' /\ abs b' = (aupdate i r (abs b)).2 /\ header b' = header b
             /\ forall e, (aupdate i r (abs b)).1 = Err e -> b' = b.
Proof.
  intros W Hb Hi. pose proof (zlen_nonneg r) as Hz. unfold aupdate.
  change (arecs (abs b)) with (records b).
  destruct (Z.le_gt_cases (n_items b) i) as [Hge|Hlt].
  { rewrite lookup_records_none by done. exists b. split_and!; try done.
    unfold try_update_record. gstep get_item_count_eq by apply W. by zbool. }
  assert (0 <= i < n_items b) as Hin by lia.
  rewrite lookup_records_some by done. rewrite zlen_contents by done.
  pose proof (wf_slot_in _ W i Hin) as (? & ? & ?). pose proof (wf_used _ W).
  pose proof (wf_room _ W). pose proof (wf_top _ W). pose proof (wf_acontig _ W).
  destruct (Z.leb_spec (zlen r) (slot_at b i).2).
  - exists (placed i (slot_at b i).1 (heap_end b) r b). cbn [fst snd].
    split_and!; [by apply try_update_in_place_ok|by apply update_in_place_wf| | |done].
    + apply abs_eq; [apply placed_records|rewrite placed_garbage]; try done; try lia;
        try (split_and!; cbn [fst snd]; lia); try (intros; by apply in_place_disjoint).
      unfold abs; cbn [agarbage]. lia.
    + apply placed_header; try done; try lia; try (split_and!; cbn [fst snd]; lia);
        try (intros; by apply in_place_disjoint).
  - destruct (Z.ltb_spec (acontig (abs b)) (zlen r)).
    + exists b. split_and!; try done. by apply try_update_full.
    + exists (placed i (heap_end b - zlen r) (heap_end b - zlen r) r b). cbn [fst snd].
      split_and!; [by apply try_update_relocate_ok|by apply update_relocate_wf| | |done].
      * apply abs_eq; [apply placed_records|rewrite placed_garbage]; try done; try lia;
          try (split_and!; cbn [fst snd]; lia); try (intros; by apply relocated_disjoint).
        unfold abs; cbn [agarbage]. lia.
      * apply placed_header; try done; try lia; try (split_and!; cbn [fst snd]; lia);
          try (intros; by apply relocated_disjoint).
Qed.

(** Sizes after one record is replaced or removed. *)
Lemma total_len_insert (rs : list (list Z)) k old r :
  rs !! k = Some old -> total_len (<[k := r]> rs) = total_len rs - zlen old + zlen r.
Proof.
  intros Hk. rewrite insert_take_drop by (by eapply lookup_lt_Some).
  rewrite <- (take_drop_middle rs k old Hk) at 3.
  rewrite !total_len_app, !total_len_cons. lia.
Qed.

Lemma total_len_delete (rs : list (list Z)) k old :
  rs !! k = Some old -> total_len (delete k rs) = total_len rs - zlen old.
Proof.
  intros Hk. rewrite delete_take_drop. rewrite <- (take_drop_middle rs k old Hk) at 3.
  rewrite !total_len_app, !total_len_cons. lia.
Qed.

Lemma zlen_insert (rs : list (list Z)) k r : zlen (<[k := r]> rs) = zlen rs.
Proof. unfold zlen. by rewrite length_insert. Qed.

Lemma zlen_delete (rs : list (list Z)) k old :
  rs !! k = Some old -> zlen (delete k rs) = zlen rs - 1.
Proof.
  intros Hk. unfold zlen. pose proof (lookup_lt_Some _ _ _ Hk).
  rewrite length_delete by (by eexists). lia.
Qed.

Lemma delete_sim {E} b i :
  wf b -> 0 <= i ->
  exists b', @delete_record E i b = (Ok tt, b')
             /\ wf b' /\ abs b' = adelete i (abs b) /\ header b' = header b.
Proof.
  intros W Hi. unfold adelete. change (arecs (abs b)) with (records b).
  destruct (Z.le_gt_cases (n_items b) i) as [Hge|Hlt].
  - rewrite lookup_records_none by done. exists b. split_and!; try done.
    by apply delete_record_out.
  - assert (0 <= i < n_items b) as Hin by lia.
    rewrite lookup_records_some by done. rewrite zlen_contents by done.
    exists (deleted i b).
    split_and!; [by apply delete_record_ok|by apply deleted_wf| |by apply deleted_header].
    apply abs_eq; [by apply deleted_records|by apply deleted_garbage].
Qed.

(** * Histories of operations *)

Inductive PageOp :=
| OpInsert (i : Z) (r : list Z)
| OpUpdate (i : Z) (r : list Z)
| OpDelete (i : Z)
| OpCompact
| OpGet (i : Z).

Inductive PageOut := OutIndex (i : Z) | OutUnit | OutRecord (r : option (list Z)).

Definition run_op (op : PageOp) : stateM page StorageError PageOut :=
  match op with
  | OpInsert i r => j ← try_insert_record i r; mret (OutIndex j)
  | OpUpdate i r => j ← try_update_record i r; mret (OutIndex j)
  | OpDelete i => delete_record i;; mret OutUnit
  | OpCompact => compact;; mret OutUnit
  | OpGet i => r ← sget (get_record i); mret (OutRecord r)
  end.

Definition arun_op (op : PageOp) (a : APage) : outcome StorageError PageOut * APage :=
  match op with
  | OpInsert i r => let '(res, a') := ainsert i r a in (OutIndex <$> res, a')
  | OpUpdate i r => let '(res, a') := aupdate i r a in (OutIndex <$> res, a')
  | OpDelete i => (Ok OutUnit, adelete i a)
  | OpCompact => (Ok OutUnit, acompact a)
  | OpGet i => (Ok (OutRecord (arecs a !! Z.to_nat i)), a)
  end.

(** Run a list of operations, keeping each outcome: an error does not stop
    the caller. *)
Fixpoint run_ops {S A} (run : PageOp -> S -> outcome StorageError A * S) (ops : list PageOp)
    (s : S) : list (outcome StorageError A) * S :=
  match ops with
  | [] => ([], s)
  | op :: ops =>
      let '(o, s') := run op s in
      let '(os, s'') := run_ops run ops s' in
      (o :: os, s'')
  end.

(** Arguments the types of the code admit: [u16] indices, byte slices. *)
Definition op_ok (op : PageOp) : Prop :=
  match op with
  | OpInsert i r | OpUpdate i r => 0 <= i < 2 ^ 16 /\ bytes_ok r
  | OpDelete i | OpGet i => 0 <= i < 2 ^ 16
  | OpCompact => True
  end.

Lemma run_op_sim op b :
  wf b -> op_ok op ->
  exists b', run_op op b = ((arun_op op (abs b)).1, b')
             /\ wf b' /\ abs b' = (arun_op op (abs b)).2 /\ header b' = header b.
Proof.
  intros W Hop. destruct op as [i r|i r|i| |i]; cbn [op_ok run_op arun_op] in *.
  - destruct (insert_sim b i r) as (b' & He & ? & ? & ?); try tauto.
    exists b'. destruct (ainsert i r (abs b)) as [res a'] eqn:Ha. cbn [fst snd] in *.
    split_and!; try done. unfold mbind, stateM_bind. rewrite He. by destruct res.
  - destruct (update_sim b i r) as (b' & He & ? & ? & ? & _); try tauto.
    exists b'. destruct (aupdate i r (abs b)) as [res a'] eqn:Ha. cbn [fst snd] in *.
    split_and!; try done. unfold mbind, stateM_bind. rewrite He. by destruct res.
  - destruct (delete_sim (E := StorageError) b i) as (b' & He & ? & ? & ?); try tauto.
    exists b'. split_and!; try done. eapply sbind_step; [exact He|done].
  - destruct (compact_ok (E := StorageError) b) as (b' & He & ? & ? & ?); try tauto.
    exists b'. split_and!; try done. eapply sbind_step; [exact He|done].
  - exists b. split_and!; try done. gstep get_record_wf by (done || lia). done.
Qed.

Lemma run_ops_sim ops b :
  wf b -> Forall op_ok ops ->
  exists b', run_ops run_op ops b = ((run_ops arun_op ops (abs b)).1, b')
             /\ wf b' /\ abs b' = (run_ops arun_op ops (abs b)).2 /\ header b' = header b.
Proof.
  intros W Hops. revert b W. induction Hops as [|op ops Hop _ IH]; intros b W.
  - by exists b.
  - destruct (run_op_sim op b W Hop) as (b1 & H1 & W1 & A1 & E1).
    destruct (IH b1 W1) as (b2 & H2 & W2 & A2 & E2).
    exists b2. cbn [run_ops]. rewrite H1. rewrite A1 in H2, A2.
    destruct (arun_op op (abs b)) as [o a1]. cbn [fst snd] in *. rewrite H2.
    destruct (run_ops arun_op ops a1) as [os a2]. cbn [fst snd] in *.
    split_and!; [done|done|done|congruence].
Qed.
