(* ===== verification/SlottedPageProps.v ===== *)
(** The slotted page: its properties. *)
From S2P Require Import Prelude Bytes Page SlottedPage SlottedPageSpec SlottedPageOps.
From S2P Require Import SlottedPageCompact SlottedPageRefine.

(** * Shared by the properties *)

(** A page with one record [r], used by the concrete instances below. *)
Definition sample_page : page := initialized LeafNode U64_MAX.

Lemma sample_wf : wf sample_page.
Proof. apply initialized_wf. Qed.

(** The same page with the record [1; 2] in it. *)
Definition one_record : page := inserted 0 [1; 2] sample_page.

Lemma one_record_fits : 0 <= 0 <= n_items sample_page /\ 2 + SLOT_SIZE <= acontig (abs sample_page).
Proof. unfold sample_page. rewrite initialized_items, initialized_abs. split; [lia|by vm_compute]. Qed.

Lemma bytes_12 : bytes_ok [1; 2].
Proof. repeat constructor; unfold is_byte; lia. Qed.

Lemma one_record_wf : wf one_record.
Proof. apply inserted_wf; [apply sample_wf|apply one_record_fits..|apply bytes_12]. Qed.

Lemma one_record_abs : abs one_record = mkAPage [[1; 2]] 0.
Proof.
  pose proof one_record_fits as [Hi Hr]. apply abs_eq; unfold one_record.
  - rewrite inserted_records; [|apply sample_wf|exact Hi|exact Hr].
    unfold sample_page, records. by rewrite initialized_slots.
  - rewrite inserted_garbage; [|apply sample_wf|exact Hi|exact Hr].
    unfold sample_page. by rewrite initialized_abs.
Qed.

Lemma bytes_ok_dec bs : forallb (fun b => (0 <=? b) && (b <? 256)) bs = true -> bytes_ok bs.
Proof.
  intros H. apply Forall_forall. intros b Hb. rewrite forallb_forall in H.
  apply list_elem_of_In, H in Hb. unfold is_byte. lia.
Qed.

Lemma arun_op_total op a : (arun_op op a).1 <> Panic.
Proof.
  destruct op as [i r|i r|i| |i]; cbn [arun_op]; try done; unfold ainsert, aupdate;
    repeat case_match; simplify_eq; done.
Qed.

Lemma arun_ops_total ops a : Forall (fun o => o <> Panic) (run_ops arun_op ops a).1.
Proof.
  revert a. induction ops as [|op ops IH]; intros a; [constructor|]. cbn [run_ops].
  pose proof (arun_op_total op a). destruct (arun_op op a) as [o a1].
  specialize (IH a1). destruct (run_ops arun_op ops a1) as [os a2]. by constructor.
Qed.

Lemma abs_records b b' : abs b = abs b' -> records b = records b'.
Proof. intros H. by injection H. Qed.

(** [get_record] only depends on the records. *)
Lemma get_record_abs {E} b rs g j :
  wf b -> abs b = mkAPage rs g -> 0 <= j -> @get_record E j b = Ok (rs !! Z.to_nat j).
Proof. intros W H ?. injection H as <- _. by apply get_record_wf. Qed.

Lemma get_item_count_abs {E} b rs g :
  wf b -> abs b = mkAPage rs g -> @get_item_count E b = Ok (zlen rs).
Proof.
  intros W H. injection H as <- _. rewrite get_item_count_eq by apply W.
  rewrite zlen_records; [done|apply wf_items, W].
Qed.

Lemma lookup_insert_middle {A} (l : list A) (i j : nat) x :
  (i <= length l)%nat ->
  (take i l ++ x :: drop i l) !! j =
  if decide (j < i)%nat then l !! j else if decide (j = i) then Some x else l !! (j - 1)%nat.
Proof.
  intros Hi. assert (length (take i l) = i) as Ht by (rewrite length_take; lia).
  repeat case_decide.
  - rewrite lookup_app_l by lia. by rewrite lookup_take_lt.
  - subst. rewrite lookup_app_r by lia. by rewrite Ht, Nat.sub_diag.
  - rewrite lookup_app_r by lia. rewrite Ht. destruct (j - i)%nat as [|k] eqn:Hk; [lia|].
    simpl. rewrite lookup_drop. f_equal. lia.
Qed.

(** * Properties *)

(** C3: from [initialize] on, any sequence of inserts, updates, deletes,
    compactions and reads, whatever their indices and lengths, gives exactly the
    outcomes of the abstract page (a list of records with a count of fragmented
    bytes); the buffer stays well formed, and no call panics. *)
Theorem page_history_refines t parent b ops :
  zlen b = PAGE_SIZE -> Forall op_ok ops ->
  let start := (@initialize StorageError t parent b).2 in
  let '(outs, b') := run_ops run_op ops start in
  outs = (run_ops arun_op ops (mkAPage [] 0)).1
  /\ abs b' = (run_ops arun_op ops (mkAPage [] 0)).2
  /\ wf b' /\ Forall (fun o => o <> Panic) outs.
Proof.
  intros Hl Hops. cbv zeta. rewrite initialize_eq by done. cbn [snd].
  destruct (run_ops_sim ops _ (initialized_wf t (parent_or_max parent)) Hops)
    as (b' & -> & W & A & _).
  rewrite initialized_abs in *. split_and!; [done|done|done|apply arun_ops_total].
Qed.

Lemma page_history_refines_witness :
  let ops := [OpInsert 0 [1; 2]; OpInsert 0 [3]; OpUpdate 1 [4; 5; 6]; OpDelete 0; OpCompact;
              OpInsert 7 [9]; OpGet 0] in
  let '(outs, b') := run_ops run_op ops (@initialize StorageError LeafNode None blank_page).2 in
  outs = (run_ops arun_op ops (mkAPage [] 0)).1
  /\ abs b' = (run_ops arun_op ops (mkAPage [] 0)).2
  /\ wf b' /\ Forall (fun o => o <> Panic) outs.
Proof.
  apply page_history_refines; [apply zlen_blank|].
  repeat (constructor; [simpl; try split; try lia; try (apply bytes_ok_dec; reflexivity); auto|]).
  constructor.
Defined.

(** C25: [initialize] formats any buffer: it succeeds, the page is empty and
    well formed, has the requested type, no siblings, and a heap that starts at
    the end of the page. *)
Theorem initialize_formats {E} t parent b :
  zlen b = PAGE_SIZE ->
  exists b', @initialize E t parent b = (Ok tt, b') /\ wf b'
    /\ @get_item_count E b' = Ok 0 /\ @get_page_type E b' = Ok t
    /\ @get_data_start_offset E b' = Ok PAGE_SIZE
    /\ @get_page_header_u32_value E PAGE_HEADER_NEXT_SIBLING_LEAF_PAGE_INDEX_OFFSET b'
       = Ok INVALID_PAGE_INDEX
    /\ @get_page_header_u32_value E PAGE_HEADER_PREV_SIBLING_LEAF_PAGE_INDEX_OFFSET b'
       = Ok INVALID_PAGE_INDEX
    /\ @get_free_space E b' = Ok (PAGE_SIZE - PAGE_HEADER_SIZE).
Proof.
  intros Hl. exists (initialized t (parent_or_max parent)).
  set (b' := initialized t (parent_or_max parent)).
  assert (wf b') as W by apply initialized_wf.
  assert (zlen b' = PAGE_SIZE) as Hl' by apply zlen_initialized.
  split_and!; [by apply initialize_eq|done| | | | | |].
  - by rewrite (get_item_count_abs b' _ _ W (initialized_abs _ _)).
  - apply initialized_type.
  - unfold get_data_start_offset. rewrite get_heap_end_eq by done. subst b'.
    by rewrite initialized_heap.
  - rewrite get_u32_eq by pg. subst b'. by rewrite initialized_next.
  - rewrite get_u32_eq by pg. subst b'. by rewrite initialized_prev.
  - rewrite get_free_space_wf by done. subst b'. by rewrite initialized_abs.
Qed.

Lemma initialize_formats_witness :
  exists b', @initialize StorageError LeafNode None blank_page = (Ok tt, b') /\ wf b'
    /\ @get_item_count StorageError b' = Ok 0 /\ @get_page_type StorageError b' = Ok LeafNode
    /\ @get_data_start_offset StorageError b' = Ok PAGE_SIZE
    /\ @get_page_header_u32_value StorageError PAGE_HEADER_NEXT_SIBLING_LEAF_PAGE_INDEX_OFFSET b'
       = Ok INVALID_PAGE_INDEX
    /\ @get_page_header_u32_value StorageError PAGE_HEADER_PREV_SIBLING_LEAF_PAGE_INDEX_OFFSET b'
       = Ok INVALID_PAGE_INDEX
    /\ @get_free_space StorageError b' = Ok (PAGE_SIZE - PAGE_HEADER_SIZE).
Proof. apply (initialize_formats LeafNode None blank_page), zlen_blank. Defined.

(** C22: what [try_insert_record] answers and leaves behind, on every branch.
    Too little contiguous space is reported before a bad index, an error leaves
    the page as it was, and a success shifts the records from the index on by
    one slot, keeps the rest of the header and costs the record and its slot. *)
Theorem try_insert_record_spec b i r free n :
  wf b -> bytes_ok r -> 0 <= i ->
  @get_free_space_contiguous StorageError b = Ok free ->
  @get_item_count StorageError b = Ok n ->
  let '(res, b') := try_insert_record i r b in
  wf b' /\ header b' = header b /\
  if free <? zlen r + SLOT_SIZE then res = Err PageFull /\ b' = b
  else if n <? i then res = Err InvalidSlotIndex /\ b' = b
  else res = Ok i
       /\ @get_item_count StorageError b' = Ok (n + 1)
       /\ @get_free_space_contiguous StorageError b' = Ok (free - zlen r - SLOT_SIZE)
       /\ forall j, 0 <= j ->
          @get_record StorageError j b' =
          if j <? i then get_record j b
          else if j =? i then Ok (Some r) else get_record (j - 1) b.
Proof.
  intros W Hb Hi Hf Hn. rewrite get_free_space_contiguous_wf in Hf by done.
  rewrite get_item_count_eq in Hn by apply W. injection Hf as <-. injection Hn as <-.
  pose proof (wf_items _ W) as Hnb.
  assert (zlen (arecs (abs b)) = n_items b) as Hz by (apply zlen_records; lia).
  destruct (Z.ltb_spec (acontig (abs b)) (zlen r + SLOT_SIZE)) as [Hlt|Hge];
    [|destruct (Z.ltb_spec (n_items b) i) as [Hlt'|Hge']].
  - unfold try_insert_record.
    erewrite sget_step; [|by apply get_free_space_contiguous_wf|cbv beta; zbool; done]. done.
  - assert (try_insert_record i r b = (Err InvalidSlotIndex, b)) as ->; [|done].
    unfold try_insert_record. gstep get_free_space_contiguous_wf by done. zbool.
    gstep get_item_count_eq by apply W. by zbool.
  - rewrite (try_insert_record_ok b W i r) by lia.
    pose proof (inserted_wf b W i r ltac:(lia) ltac:(lia) Hb) as W'.
    pose proof (inserted_records b W i r ltac:(lia) ltac:(lia)) as Hr.
    split_and!; [done|by apply inserted_header|done| | |].
    + rewrite get_item_count_eq by apply W'. by rewrite inserted_items by (done || lia).
    + rewrite get_free_space_contiguous_wf, !wf_acontig by done. f_equal.
      rewrite inserted_items, inserted_heap by (done || lia). unfold slot_pos. pg.
    + intros j Hj. rewrite get_record_wf by done. rewrite Hr, lookup_insert_middle
        by (unfold zlen, abs in Hz; cbn [arecs] in Hz; lia).
      repeat case_bool; repeat case_decide; try lia; rewrite ?get_record_wf by (done || lia);
        [done|done|]. do 2 f_equal. lia.
Qed.

Lemma try_insert_record_spec_witness :
  let '(res, b') := try_insert_record 0 [1; 2] sample_page in
  wf b' /\ header b' = header sample_page /\
  if (PAGE_SIZE - PAGE_HEADER_SIZE) <? zlen [1; 2] + SLOT_SIZE
  then res = Err PageFull /\ b' = sample_page
  else if 0 <? 0 then res = Err InvalidSlotIndex /\ b' = sample_page
  else res = Ok 0
       /\ @get_item_count StorageError b' = Ok (0 + 1)
       /\ @get_free_space_contiguous StorageError b'
          = Ok (PAGE_SIZE - PAGE_HEADER_SIZE - zlen [1; 2] - SLOT_SIZE)
       /\ forall j, 0 <= j ->
          @get_record StorageError j b' =
          if j <? 0 then get_record j sample_page
          else if j =? 0 then Ok (Some [1; 2]) else get_record (j - 1) sample_page.
Proof.
  apply try_insert_record_spec.
  - apply sample_wf.
  - by apply bytes_ok_dec.
  - lia.
  - rewrite get_free_space_contiguous_wf by apply sample_wf.
    unfold sample_page. by rewrite initialized_abs.
  - apply (get_item_count_abs _ _ _ sample_wf (initialized_abs _ _)).
Defined.

(** C23: what [try_update_record] answers and leaves behind, on every branch: a
    bad index or a longer record that does not fit in the contiguous space is
    an error that leaves the page as it was; otherwise exactly record [i]
    changes, in place when the new one is not longer. *)
Theorem try_update_record_spec b i r free n :
  wf b -> bytes_ok r -> 0 <= i ->
  @get_free_space_contiguous StorageError b = Ok free ->
  @get_item_count StorageError b = Ok n ->
  let '(res, b') := try_update_record i r b in
  wf b' /\ header b' = header b /\
  match records b !! Z.to_nat i with
  | None => n <= i /\ res = Err InvalidSlotIndex /\ b' = b
  | Some old =>
      if (zlen old <? zlen r) && (free <? zlen r) then res = Err PageFull /\ b' = b
      else res = Ok i
           /\ @get_item_count StorageError b' = Ok n
           /\ @get_free_space_contiguous StorageError b'
              = Ok (if zlen r <=? zlen old then free else free - zlen r)
           /\ forall j, 0 <= j ->
              @get_record StorageError j b' = if j =? i then Ok (Some r) else get_record j b
  end.
Proof.
  intros W Hb Hi Hf Hn. rewrite get_free_space_contiguous_wf in Hf by done.
  rewrite get_item_count_eq in Hn by apply W. injection Hf as <-. injection Hn as <-.
  destruct (update_sim b i r W Hb Hi) as (b' & -> & W' & A & H & Herr).
  pose proof (wf_items _ W) as Hnb. pose proof (zlen_nonneg r) as Hz.
  assert (zlen (records b) = n_items b) as Hlen by (apply zlen_records; lia).
  split_and!; [done|done|]. unfold aupdate in *. change (arecs (abs b)) with (records b) in *.
  destruct (records b !! Z.to_nat i) as [old|] eqn:Hold.
  2:{ split_and!; [|done|by eapply Herr]. apply lookup_ge_None in Hold.
      unfold zlen in Hlen. lia. }
  assert (forall g, abs b' = mkAPage (<[Z.to_nat i:=r]> (records b)) g ->
    @get_item_count StorageError b' = Ok (n_items b)
    /\ @get_free_space_contiguous StorageError b'
       = Ok (acontig (abs b) + agarbage (abs b) + zlen old - zlen r - g)
    /\ forall j, 0 <= j ->
       @get_record StorageError j b' = if j =? i then Ok (Some r) else get_record j b) as Hview.
  { intros g Hg. split_and!.
    - rewrite (get_item_count_abs _ _ _ W' Hg), zlen_insert. by rewrite Hlen.
    - rewrite get_free_space_contiguous_wf, Hg by done. f_equal. unfold acontig, afree.
      cbn [arecs agarbage]. rewrite zlen_insert, (total_len_insert _ _ _ _ Hold).
      change (arecs (abs b)) with (records b). lia.
    - intros j Hj. rewrite (get_record_abs _ _ _ _ W' Hg Hj). case_bool.
      + subst j. by rewrite list_lookup_insert_eq by (by eapply lookup_lt_Some).
      + rewrite list_lookup_insert_ne by lia. by rewrite get_record_wf. }
  destruct (Z.leb_spec (zlen r) (zlen old)).
  - zbool. cbn [andb]. apply Hview in A as (? & Hc & ?). split_and!; try done.
    rewrite Hc. f_equal. lia.
  - destruct (Z.ltb_spec (acontig (abs b)) (zlen r)); zbool; cbn [andb].
    + split; [done|by eapply Herr].
    + apply Hview in A as (? & Hc & ?). split_and!; try done. rewrite Hc. f_equal. lia.
Qed.

Lemma try_update_record_spec_witness :
  let '(res, b') := try_update_record 0 [7; 8; 9] one_record in
  wf b' /\ header b' = header one_record /\
  match records one_record !! Z.to_nat 0 with
  | None => 1 <= 0 /\ res = Err InvalidSlotIndex /\ b' = one_record
  | Some old =>
      if (zlen old <? zlen [7; 8; 9]) && (8154 <? zlen [7; 8; 9])
      then res = Err PageFull /\ b' = one_record
      else res = Ok 0
           /\ @get_item_count StorageError b' = Ok 1
           /\ @get_free_space_contiguous StorageError b'
              = Ok (if zlen [7; 8; 9] <=? zlen old then 8154 else 8154 - zlen [7; 8; 9])
           /\ forall j, 0 <= j ->
              @get_record StorageError j b'
              = if j =? 0 then Ok (Some [7; 8; 9]) else get_record j one_record
  end.
Proof.
  apply try_update_record_spec.
  - apply one_record_wf.
  - by apply bytes_ok_dec.
  - lia.
  - rewrite get_free_space_contiguous_wf by apply one_record_wf. by rewrite one_record_abs.
  - apply (get_item_count_abs _ _ _ one_record_wf one_record_abs).
Defined.

(** C24: [delete_record] ignores an index out of range; otherwise the records
    after it move down one slot, the others keep their bytes, its slot becomes
    contiguous free space and its bytes are free but fragmented. *)
Theorem delete_record_spec {E} b i n free :
  wf b -> 0 <= i ->
  @get_item_count E b = Ok n -> @get_free_space E b = Ok free ->
  exists b', @delete_record E i b = (Ok tt, b') /\ wf b' /\ header b' = header b /\
  match records b !! Z.to_nat i with
  | None => n <= i /\ abs b' = abs b
  | Some old =>
      @get_item_count E b' = Ok (n - 1)
      /\ @get_free_space E b' = Ok (free + zlen old + SLOT_SIZE)
      /\ acontig (abs b') = acontig (abs b) + SLOT_SIZE
      /\ forall j, 0 <= j -> @get_record E j b' = get_record (if j <? i then j else j + 1) b
  end.
Proof.
  intros W Hi Hn Hf. rewrite get_free_space_wf in Hf by done.
  rewrite get_item_count_eq in Hn by apply W. injection Hf as <-. injection Hn as <-.
  destruct (delete_sim (E := E) b i W Hi) as (b' & He & W' & A & H).
  pose proof (wf_items _ W) as Hnb.
  assert (zlen (records b) = n_items b) as Hlen by (apply zlen_records; lia).
  exists b'. split_and!; [done..|]. unfold adelete in A.
  change (arecs (abs b)) with (records b) in A.
  destruct (records b !! Z.to_nat i) as [old|] eqn:Hold.
  - split_and!.
    + rewrite (get_item_count_abs _ _ _ W' A), (zlen_delete _ _ _ Hold). by rewrite Hlen.
    + rewrite get_free_space_wf, A by done. f_equal. unfold afree. cbn [arecs].
      rewrite (zlen_delete _ _ _ Hold), (total_len_delete _ _ _ Hold).
      change (arecs (abs b)) with (records b). lia.
    + rewrite A. unfold acontig, afree. cbn [arecs agarbage].
      rewrite (zlen_delete _ _ _ Hold), (total_len_delete _ _ _ Hold).
      change (arecs (abs b)) with (records b). lia.
    + intros j Hj. rewrite (get_record_abs _ _ _ _ W' A Hj). case_bool.
      * rewrite list_lookup_delete_lt by lia. by rewrite get_record_wf.
      * rewrite list_lookup_delete_ge by lia. rewrite get_record_wf by (done || lia).
        do 2 f_equal. lia.
  - split; [|done]. apply lookup_ge_None in Hold. unfold zlen in Hlen. lia.
Qed.

Lemma delete_record_spec_witness :
  exists b', @delete_record StorageError 0 one_record = (Ok tt, b') /\ wf b'
  /\ header b' = header one_record /\
  match records one_record !! Z.to_nat 0 with
  | None => 1 <= 0 /\ abs b' = abs one_record
  | Some old =>
      @get_item_count StorageError b' = Ok (1 - 1)
      /\ @get_free_space StorageError b' = Ok (8154 + zlen old + SLOT_SIZE)
      /\ acontig (abs b') = acontig (abs one_record) + SLOT_SIZE
      /\ forall j, 0 <= j -> @get_record StorageError j b'
           = get_record (if j <? 0 then j else j + 1) one_record
  end.
Proof.
  apply delete_record_spec.
  - apply one_record_wf.
  - lia.
  - apply (get_item_count_abs _ _ _ one_record_wf one_record_abs).
  - rewrite get_free_space_wf by apply one_record_wf. by rewrite one_record_abs.
Defined.

(** C21: [compact] succeeds on every well-formed page, keeps every record at its
    slot and the header, and makes all the free space contiguous. *)
Theorem compact_spec {E} b :
  wf b ->
  exists b', @compact E b = (Ok tt, b') /\ wf b' /\ header b' = header b
    /\ (forall j, 0 <= j -> @get_record E j b' = get_record j b)
    /\ @get_item_count E b' = get_item_count b
    /\ @get_free_space E b' = get_free_space b
    /\ @get_free_space_contiguous E b' = get_free_space b.
Proof.
  intros W. destruct (compact_ok (E := E) b W) as (b' & He & W' & A & H).
  exists b'. split_and!; [done..| | | |].
  - intros j Hj. by rewrite (get_record_abs _ _ _ _ W' A Hj), get_record_wf.
  - rewrite (get_item_count_abs _ _ _ W' A). symmetry. by eapply get_item_count_abs.
  - by rewrite !get_free_space_wf, A by done.
  - rewrite get_free_space_contiguous_wf, get_free_space_wf, A by done.
    unfold acontig, acompact. cbn [agarbage]. f_equal. unfold afree. cbn [arecs]. lia.
Qed.

Lemma compact_spec_witness :
  exists b', @compact StorageError one_record = (Ok tt, b') /\ wf b'
    /\ header b' = header one_record
    /\ (forall j, 0 <= j -> @get_record StorageError j b' = get_record j one_record)
    /\ @get_item_count StorageError b' = get_item_count one_record
    /\ @get_free_space StorageError b' = get_free_space one_record
    /\ @get_free_space_contiguous StorageError b' = get_free_space one_record.
Proof. apply compact_spec, one_record_wf. Defined.

(** C38: the parent pointer does not survive [initialize]: it is written as
    eight bytes at offset 8, and the rightmost-child and previous-sibling
    pointers, at offset 12, overwrite its upper half with ones.  Reading it
    back gives the parent's low 32 bits under 32 set bits. *)
Theorem initialize_clobbers_parent {E} t p b :
  zlen b = PAGE_SIZE -> 0 <= p < 2 ^ 64 ->
  @get_page_header_u64_value E PAGE_HEADER_PARENT_INDEX_OFFSET
    (@initialize E t (Some p) b).2
  = Ok (p mod 2 ^ 32 + 2 ^ 32 * INVALID_PAGE_INDEX).
Proof.
  intros Hl Hp. rewrite initialize_eq by done. cbn [snd].
  rewrite get_u64_eq by (rewrite ?zlen_initialized; pg). f_equal.
  change 8 with (4 + 4) at 1. rewrite sub_add by pg.
  rewrite le_val_app, zlen_sub by (rewrite ?zlen_initialized; pg).
  change (PAGE_HEADER_PARENT_INDEX_OFFSET + 4)
    with PAGE_HEADER_PREV_SIBLING_LEAF_PAGE_INDEX_OFFSET.
  rewrite initialized_prev. change (8 * 4) with 32. f_equal.
  unfold initialized, parent_or_max. peek.
  assert (forall l : page, zlen l = PAGE_SIZE ->
    sub PAGE_HEADER_PARENT_INDEX_OFFSET 4 (splice PAGE_HEADER_PARENT_INDEX_OFFSET (le_bytes 8 p) l)
    = le_bytes 4 p) as ->.
  { intros l Hl'. rewrite sub_splice_in by side. rewrite Z.sub_diag.
    change (le_bytes 8 p) with (le_bytes 4 p ++ le_bytes 4 (p / 256 / 256 / 256 / 256)).
    rewrite sub_app_l by len. apply sub_whole; len. }
  - apply (le_val_le_bytes 4).
  - side.
Qed.

Lemma initialize_clobbers_parent_witness :
  @get_page_header_u64_value StorageError PAGE_HEADER_PARENT_INDEX_OFFSET
    (@initialize StorageError LeafNode (Some 5) blank_page).2
  = Ok (5 mod 2 ^ 32 + 2 ^ 32 * INVALID_PAGE_INDEX).
Proof. apply (initialize_clobbers_parent LeafNode 5 blank_page); [apply zlen_blank|lia]. Defined.
