(* ===== verification/Evictor.v ===== *)
(** Page eviction ([evictor.rs]): the [Evictor] trait as a class with the laws
    its users rely on, and the clock replacer that implements it. *)
From stdpp Require Import gmap.
From S2P Require Import Prelude.

(** * The trait *)

(** The operations of the [Evictor] trait.  Its methods take [&self] and lock
    the state inside: each is one atomic step. *)
Class Evictor (S : Type) := {
  ev_add : forall {E}, nat -> stateM S E unit;
  ev_remove : forall {E}, nat -> stateM S E unit;
  ev_size : S -> nat;
  ev_victim : forall {E}, stateM S E (option nat);
}.

(** What an evictor promises: it is a set of frames out of a fixed number of
    frames, and a victim is taken out of the set whenever there is one. *)
Class EvictorLaws (S : Type) `{Evictor S} := {
  ev_inv : S -> Prop;
  ev_capacity : S -> nat;
  ev_eligible : S -> gset nat;
  ev_eligible_bound : forall s f, ev_inv s -> f ∈ ev_eligible s -> (f < ev_capacity s)%nat;
  ev_add_law : forall E s f, ev_inv s -> (f < ev_capacity s)%nat ->
    exists s', @ev_add _ _ E f s = (Ok tt, s') /\ ev_inv s' /\ ev_capacity s' = ev_capacity s
      /\ ev_eligible s' = {[f]} ∪ ev_eligible s;
  ev_remove_law : forall E s f, ev_inv s -> (f < ev_capacity s)%nat ->
    exists s', @ev_remove _ _ E f s = (Ok tt, s') /\ ev_inv s' /\ ev_capacity s' = ev_capacity s
      /\ ev_eligible s' = ev_eligible s ∖ {[f]};
  ev_size_law : forall s, ev_inv s -> ev_size s = size (ev_eligible s);
  ev_victim_law : forall E s, ev_inv s ->
    exists v s', @ev_victim _ _ E s = (Ok v, s') /\ ev_inv s' /\ ev_capacity s' = ev_capacity s
      /\ match v with
         | Some f => f ∈ ev_eligible s /\ ev_eligible s' = ev_eligible s ∖ {[f]}
         | None => ev_eligible s = ∅ /\ ev_eligible s' = ∅
         end;
}.

(** * The clock replacer *)

Record ClockEvictorState := mkClock {
  clock_hand_pos : nat;
  second_chances : list bool;
  is_in_evictor : list bool;
  clock_size : nat;
}.

(** [v[i]] and [v[i] = x] on a vector: out of range panics. *)
Definition vec_get {E A} (v : list A) (i : nat) : outcome E A := unwrap_opt (v !! i).
Definition vec_set {E A} (i : nat) (x : A) (v : list A) : outcome E (list A) :=
  if decide (i < length v)%nat then Ok (<[i := x]> v) else Panic.

Definition with_hand (h : nat) (s : ClockEvictorState) : ClockEvictorState :=
  mkClock h (second_chances s) (is_in_evictor s) (clock_size s).
Definition with_chances (v : list bool) (s : ClockEvictorState) : ClockEvictorState :=
  mkClock (clock_hand_pos s) v (is_in_evictor s) (clock_size s).
Definition with_members (v : list bool) (n : nat) (s : ClockEvictorState) : ClockEvictorState :=
  mkClock (clock_hand_pos s) (second_chances s) v n.

(** [ClockEvictor::new]. *)
Definition clock_new (pool_size : nat) : ClockEvictorState :=
  mkClock 0 (replicate pool_size false) (replicate pool_size false) 0.

Section Clock.
Context {E : Type}.

(** [state.size -= 1]: an underflow panics. *)
Definition size_pred (n : nat) : outcome E nat :=
  match n with O => Panic | S n => Ok n end.

Definition clock_add (frame_id : nat) : stateM ClockEvictorState E unit := fun st =>
  match
    (present ← vec_get (is_in_evictor st) frame_id;
     st ← (if present : bool then mret st
           else v ← vec_set frame_id true (is_in_evictor st);
                mret (with_members v (clock_size st + 1) st));
     v ← vec_set frame_id true (second_chances st);
     mret (with_chances v st))
  with
  | Ok st' => (Ok tt, st')
  | Err e => (Err e, st)
  | Panic => (Panic, st)
  end.

Definition clock_remove (frame_id : nat) : stateM ClockEvictorState E unit := fun st =>
  match
    (present ← vec_get (is_in_evictor st) frame_id;
     if present : bool then
       v ← vec_set frame_id false (is_in_evictor st);
       n ← size_pred (clock_size st);
       mret (with_members v n st)
     else mret st)
  with
  | Ok st' => (Ok tt, st')
  | Err e => (Err e, st)
  | Panic => (Panic, st)
  end.

(** One iteration of the sweep at position [i]: either the frame is the victim,
    or the hand moves on and an eligible frame loses its second chance. *)
Definition sweep_step (i len : nat) (st : ClockEvictorState) :
    outcome E (option nat * ClockEvictorState) :=
  present ← vec_get (is_in_evictor st) i;
  if present : bool then
    chance ← vec_get (second_chances st) i;
    if negb chance then
      v ← vec_set i false (is_in_evictor st);
      n ← size_pred (clock_size st);
      mret (Some i, with_hand ((i + 1) mod len)%nat (with_members v n st))
    else
      v ← vec_set i false (second_chances st);
      mret (None, with_chances v st)
  else mret (None, st).

(** [for _ in 0..fuel] with its early return. *)
Fixpoint sweep (fuel i len : nat) (st : ClockEvictorState) :
    outcome E (option nat) * ClockEvictorState :=
  match fuel with
  | O => (Ok None, with_hand i st)
  | S fuel =>
      match sweep_step i len st with
      | Ok (Some f, st') => (Ok (Some f), st')
      | Ok (None, st') => sweep fuel ((i + 1) mod len)%nat len st'
      | Err e => (Err e, st)
      | Panic => (Panic, st)
      end
  end.

Definition clock_victim : stateM ClockEvictorState E (option nat) := fun st =>
  let i := clock_hand_pos st in
  let len := length (is_in_evictor st) in
  sweep (len * 2) i len st.
End Clock.

#[export] Instance clock_evictor : Evictor ClockEvictorState := {
  ev_add := @clock_add;
  ev_remove := @clock_remove;
  ev_size := clock_size;
  ev_victim := @clock_victim;
}.

(** * The invariant and the set of eligible frames *)

Definition count_true (v : list bool) : nat := foldr (fun (b : bool) n => if b then S n else n) 0%nat v.

Record clock_inv (st : ClockEvictorState) : Prop := {
  ci_len : length (second_chances st) = length (is_in_evictor st);
  ci_size : clock_size st = count_true (is_in_evictor st);
  ci_hand : (clock_hand_pos st < length (is_in_evictor st))%nat \/ length (is_in_evictor st) = 0%nat;
}.

Definition member (st : ClockEvictorState) (f : nat) : Prop := is_in_evictor st !! f = Some true.
#[export] Instance member_dec st f : Decision (member st f).
Proof. unfold member. apply _. Defined.

Definition eligible (st : ClockEvictorState) : gset nat :=
  list_to_set (filter (member st) (seq 0 (length (is_in_evictor st)))).

Lemma elem_of_eligible st f : f ∈ eligible st <-> member st f.
Proof.
  unfold eligible. rewrite elem_of_list_to_set, list_elem_of_filter, elem_of_seq.
  split; [tauto|]. intros H. split; [done|]. apply lookup_lt_Some in H. lia.
Qed.

Lemma eligible_ext st' (X : gset nat) :
  (forall f, member st' f <-> f ∈ X) -> eligible st' = X.
Proof. intros H. apply set_eq. intros f. by rewrite elem_of_eligible. Qed.

Lemma count_true_app v1 v2 : count_true (v1 ++ v2) = (count_true v1 + count_true v2)%nat.
Proof. induction v1 as [|[] v1 IH]; simpl; unfold count_true in *; lia. Qed.

Lemma count_true_cons b v : count_true (b :: v) = if b then S (count_true v) else count_true v.
Proof. done. Qed.

Lemma count_true_insert v f b :
  v !! f = Some (negb b) ->
  count_true (<[f := b]> v) = if b then S (count_true v) else pred (count_true v).
Proof.
  intros (v1 & v2 & -> & ->)%list_elem_of_split_length.
  rewrite insert_app_r_alt, Nat.sub_diag by lia. simpl.
  rewrite !count_true_app, !count_true_cons. destruct b; simpl; lia.
Qed.

Lemma count_true_pos v f : v !! f = Some true -> (0 < count_true v)%nat.
Proof.
  intros (v1 & v2 & -> & _)%list_elem_of_split_length.
  rewrite count_true_app, count_true_cons. lia.
Qed.

Lemma clock_new_inv n : clock_inv (clock_new n) /\ eligible (clock_new n) = ∅.
Proof.
  split.
  - constructor; simpl; rewrite ?length_replicate; [done| |].
    + by induction n.
    + destruct n; [by right|left; lia].
  - apply eligible_ext. intros f. unfold member; simpl.
    rewrite lookup_replicate. set_solver.
Qed.

Lemma vec_get_ok {E A} (v : list A) i x : v !! i = Some x -> @vec_get E A v i = Ok x.
Proof. intros H. unfold vec_get. by rewrite H. Qed.

Lemma vec_set_ok {E A} i (x : A) v :
  (i < length v)%nat -> @vec_set E A i x v = Ok (<[i := x]> v).
Proof. intros. unfold vec_set. by rewrite decide_True. Qed.

Lemma lookup_bool (v : list bool) i : (i < length v)%nat -> v !! i = Some true \/ v !! i = Some false.
Proof. intros [[] ->]%lookup_lt_is_Some_2; auto. Qed.

(** * [add] and [remove] *)

Lemma clock_add_ok {E} st f :
  clock_inv st -> (f < length (is_in_evictor st))%nat ->
  exists st', @clock_add E f st = (Ok tt, st') /\ clock_inv st'
    /\ length (is_in_evictor st') = length (is_in_evictor st)
    /\ eligible st' = {[f]} ∪ eligible st
    /\ second_chances st' = <[f := true]> (second_chances st).
Proof.
  intros I Hf. destruct I as [Hl Hs Hh]. unfold clock_add.
  destruct (lookup_bool _ _ Hf) as [Hp|Hp]; rewrite (vec_get_ok _ _ _ Hp); simpl.
  - rewrite vec_set_ok by lia. simpl. eexists. split_and!; [done| | | |done].
    + constructor; simpl; rewrite ?length_insert; auto.
    + done.
    + apply eligible_ext. intros g. rewrite elem_of_union, elem_of_singleton, elem_of_eligible.
      unfold member; simpl. split; [by right|]. by intros [->|].
  - rewrite vec_set_ok by done. simpl. rewrite vec_set_ok by lia. simpl.
    eexists. split_and!; [done| | | |done].
    + constructor; simpl; rewrite ?length_insert; [done| |done].
      rewrite (count_true_insert _ _ true) by done. lia.
    + simpl. by rewrite length_insert.
    + apply eligible_ext. intros g. rewrite elem_of_union, elem_of_singleton, elem_of_eligible.
      unfold member; simpl. destruct (decide (g = f)) as [->|Hne].
      * rewrite list_lookup_insert_eq by done. naive_solver.
      * rewrite list_lookup_insert_ne by done. naive_solver.
Qed.

(** Taking one member out: shared by [remove] and [victim]. *)
Lemma take_out st f h :
  clock_inv st -> member st f ->
  (h < length (is_in_evictor st))%nat \/ length (is_in_evictor st) = 0%nat ->
  let st' := with_hand h (with_members (<[f := false]> (is_in_evictor st))
                            (pred (clock_size st)) st) in
  clock_inv st' /\ eligible st' = eligible st ∖ {[f]} /\ (0 < clock_size st)%nat.
Proof.
  intros [Hl Hs Hh] Hm Hh'. simpl. unfold member in Hm.
  pose proof (count_true_pos _ _ Hm). pose proof (lookup_lt_Some _ _ _ Hm).
  split_and!; [constructor; simpl; rewrite ?length_insert; auto| |lia].
  - rewrite (count_true_insert _ _ false) by done. lia.
  - apply eligible_ext. intros g. rewrite elem_of_difference, elem_of_singleton, elem_of_eligible.
    unfold member; simpl. destruct (decide (g = f)) as [->|Hne].
    + rewrite list_lookup_insert_eq by done. naive_solver.
    + rewrite list_lookup_insert_ne by done. naive_solver.
Qed.

Lemma size_pred_ok {E} n : (0 < n)%nat -> @size_pred E n = Ok (pred n).
Proof. by destruct n; [lia|]. Qed.

Lemma clock_remove_ok {E} st f :
  clock_inv st -> (f < length (is_in_evictor st))%nat ->
  exists st', @clock_remove E f st = (Ok tt, st') /\ clock_inv st'
    /\ length (is_in_evictor st') = length (is_in_evictor st)
    /\ eligible st' = eligible st ∖ {[f]}
    /\ second_chances st' = second_chances st.
Proof.
  intros I Hf. unfold clock_remove.
  destruct (lookup_bool _ _ Hf) as [Hp|Hp]; rewrite (vec_get_ok _ _ _ Hp); simpl.
  - destruct (take_out st f (clock_hand_pos st) I Hp (ci_hand _ I)) as (I' & Hel & Hpos).
    rewrite vec_set_ok by done. simpl. rewrite size_pred_ok by done. simpl.
    eexists. split_and!; [done|exact I'| |exact Hel|done]. simpl. by rewrite length_insert.
  - eexists. split_and!; [done|done|done| |done].
    apply eligible_ext. intros g. rewrite elem_of_difference, elem_of_singleton, elem_of_eligible.
    unfold member. naive_solver.
Qed.

(** * The sweep *)

(** The frames [m] iterations visit from [i], and one full turn. *)
Definition positions (i m len : nat) : list nat := (fun k => (i + k) mod len)%nat <$> seq 0 m.
Definition clock_order (i len : nat) : list nat := positions i len len.

(** The policy: the first eligible frame without a second chance, and when
    there is none, the first eligible frame. *)
Definition chance (st : ClockEvictorState) (f : nat) : Prop := second_chances st !! f = Some true.
#[export] Instance chance_dec st f : Decision (chance st f).
Proof. unfold chance. apply _. Defined.

Definition choose (st : ClockEvictorState) (order : list nat) : option nat :=
  match head (filter (fun f => member st f /\ ~ chance st f) order) with
  | Some f => Some f
  | None => head (filter (member st) order)
  end.

Lemma positions_S i m len :
  (i < len)%nat -> positions i (S m) len = i :: positions ((i + 1) mod len) m len.
Proof.
  intros Hi. unfold positions. cbn [seq fmap list_fmap]. f_equal.
  - rewrite Nat.add_0_r. by apply Nat.mod_small.
  - rewrite <- seq_shift, <- list_fmap_compose. apply list_fmap_ext. intros k x _.
    unfold compose. rewrite Nat.Div0.add_mod_idemp_l. f_equal. lia.
Qed.

Lemma elem_of_positions_bound i m len f : f ∈ positions i m len -> (0 < len)%nat -> (f < len)%nat.
Proof.
  unfold positions. rewrite list_elem_of_fmap. intros (k & -> & _) ?. by apply Nat.mod_upper_bound; lia.
Qed.

Definition cand (st : ClockEvictorState) (f : nat) : Prop := member st f /\ ~ chance st f.

#[export] Instance cand_dec st f : Decision (cand st f).
Proof. unfold cand. apply _. Defined.

(** The second chances after the frames [l] were passed over. *)
Definition passed (st : ClockEvictorState) (l : list nat) (sc : list bool) : Prop :=
  length sc = length (second_chances st) /\
  forall g, sc !! g = if decide (g ∈ l /\ member st g) then Some false
                      else second_chances st !! g.

Lemma passed_nil st : passed st [] (second_chances st).
Proof. split; [done|]. intros g. rewrite decide_False; [done|]. set_solver. Qed.

(** Passing over a frame that keeps its state, or that loses its chance. *)
Lemma passed_cons_skip st i l sc : ~ member st i -> passed st l sc -> passed st (i :: l) sc.
Proof.
  intros Hi [Hl Hg]. split; [done|]. intros g. rewrite Hg.
  repeat case_decide; set_solver.
Qed.

Lemma passed_cons_clear st i l sc :
  (i < length (second_chances st))%nat -> member st i ->
  passed (with_chances (<[i := false]> (second_chances st)) st) l sc -> passed st (i :: l) sc.
Proof.
  intros Hb Hi [Hl Hg]. cbn [second_chances with_chances] in *. rewrite length_insert in Hl.
  split; [done|]. intros g. rewrite Hg. change (member (with_chances _ st) g) with (member st g).
  destruct (decide (g = i)) as [->|Hne].
  - rewrite (decide_True (P := i ∈ i :: l /\ _)) by (split; [left|done]).
    rewrite list_lookup_insert_eq by done. by case_decide.
  - rewrite list_lookup_insert_ne by done. repeat case_decide; set_solver.
Qed.

Lemma head_filter_cons_no (P : nat -> Prop) `{forall x, Decision (P x)} x l :
  ~ P x -> head (filter P (x :: l)) = head (filter P l).
Proof. intros. by rewrite filter_cons_False. Qed.

Lemma head_filter_cons_yes (P : nat -> Prop) `{forall x, Decision (P x)} x l :
  P x -> head (filter P (x :: l)) = Some x.
Proof. intros. by rewrite filter_cons_True. Qed.

(** The candidates of a list do not depend on frames outside it. *)
Lemma cand_clear st i (l : list nat) :
  i ∉ l ->
  filter (cand (with_chances (<[i := false]> (second_chances st)) st)) l = filter (cand st) l.
Proof.
  intros Hi. induction l as [|g l IH]; [done|]. apply not_elem_of_cons in Hi as [Hne Hi].
  assert (cand (with_chances (<[i := false]> (second_chances st)) st) g <-> cand st g) as Hc.
  { unfold cand, chance, member; simpl. by rewrite list_lookup_insert_ne. }
  rewrite !filter_cons. repeat case_decide; try tauto; rewrite IH by done; done.
Qed.

Lemma positions_NoDup i len : (i < len)%nat -> NoDup (positions i len len).
Proof.
  intros Hi. apply NoDup_fmap_2_strong; [|apply NoDup_seq].
  intros k k' Hk Hk' Heq. apply elem_of_seq in Hk, Hk'.
  assert (forall a, (a < len)%nat -> ((i + a) mod len)%nat
            = if decide (i + a < len)%nat then (i + a)%nat else (i + a - len)%nat) as Hm.
  { intros a Ha. case_decide; [by apply Nat.mod_small|].
    replace (i + a)%nat with (i + a - len + 1 * len)%nat at 1 by lia.
    rewrite Nat.Div0.mod_add. apply Nat.mod_small. lia. }
  rewrite !Hm in Heq by lia. repeat case_decide; lia.
Qed.

Lemma positions_full i len f : (i < len)%nat -> (f < len)%nat -> f ∈ positions i len len.
Proof.
  intros Hi Hf. apply list_elem_of_fmap. exists ((f + len - i) mod len)%nat. split.
  - rewrite Nat.Div0.add_mod_idemp_r. replace (i + (f + len - i))%nat with (f + 1 * len)%nat by lia.
    rewrite Nat.Div0.mod_add. symmetry. by apply Nat.mod_small.
  - apply elem_of_seq. pose proof (Nat.mod_upper_bound (f + len - i) len). lia.
Qed.

Section Sweep.
Context {E : Type} (len : nat).

(** The state in which the frame [f] was taken, [sc] being the chances left. *)
Definition taken (f : nat) (sc : list bool) (st : ClockEvictorState) : ClockEvictorState :=
  with_hand ((f + 1) mod len) (with_members (<[f := false]> (is_in_evictor st))
    (pred (clock_size st)) (with_chances sc st)).

Lemma sweep_step_skip st i :
  (i < length (is_in_evictor st))%nat -> ~ member st i ->
  @sweep_step E i len st = Ok (None, st).
Proof.
  intros Hi Hm. unfold sweep_step. destruct (lookup_bool _ _ Hi) as [Hp|Hp]; [done|].
  by rewrite (vec_get_ok _ _ _ Hp).
Qed.

Lemma sweep_step_clear st i :
  member st i -> chance st i ->
  @sweep_step E i len st
  = Ok (None, with_chances (<[i := false]> (second_chances st)) st).
Proof.
  intros Hm Hc. unfold sweep_step. rewrite (vec_get_ok _ _ _ Hm). simpl.
  rewrite (vec_get_ok _ _ _ Hc). simpl. by rewrite vec_set_ok by (by eapply lookup_lt_Some).
Qed.

Lemma sweep_step_take st i :
  clock_inv st -> cand st i ->
  @sweep_step E i len st = Ok (Some i, taken i (second_chances st) st).
Proof.
  intros I [Hm Hc]. unfold sweep_step. rewrite (vec_get_ok _ _ _ Hm). simpl.
  pose proof (lookup_lt_Some _ _ _ Hm) as Hi.
  assert (i < length (second_chances st))%nat as Hi2 by (rewrite (ci_len _ I); done).
  destruct (lookup_bool _ _ Hi2) as [Hp|Hp]; [done|]. rewrite (vec_get_ok _ _ _ Hp). simpl.
  rewrite vec_set_ok by done. simpl. rewrite size_pred_ok; [done|].
  rewrite (ci_size _ I). by eapply count_true_pos.
Qed.

Lemma inv_with_chances st sc :
  clock_inv st -> length sc = length (second_chances st) -> clock_inv (with_chances sc st).
Proof. intros [Hl Hs Hh] Hsc. constructor; simpl; congruence. Qed.

(** One turn of the hand, or part of it: either it takes the first candidate it
    meets, having passed over the frames before it, or it passes over them all. *)
Lemma sweep_turn m n i st :
  clock_inv st -> length (is_in_evictor st) = len -> (i < len)%nat -> NoDup (positions i m len) ->
  match head (filter (cand st) (positions i m len)) with
  | Some f => exists k sc, positions i m len !! k = Some f
      /\ passed st (take k (positions i m len)) sc
      /\ @sweep E (m + n) i len st = (Ok (Some f), taken f sc st)
  | None => exists sc, passed st (positions i m len) sc
      /\ @sweep E (m + n) i len st
         = sweep n ((i + m) mod len) len (with_chances sc st)
  end.
Proof.
  intros I Hlen Hi. revert i st I Hlen Hi. induction m as [|m IH]; intros i st I Hlen Hi Hnd.
  { simpl. exists (second_chances st). split; [apply passed_nil|].
    rewrite Nat.add_0_r, Nat.mod_small by done. by destruct st. }
  rewrite positions_S in * by done. apply NoDup_cons in Hnd as [Hni Hnd].
  assert (((i + 1) mod len < len)%nat) as Hi' by (apply Nat.mod_upper_bound; lia).
  assert (((i + 1) mod len + m) mod len = (i + S m) mod len)%nat as Hmod
    by (rewrite Nat.Div0.add_mod_idemp_l; f_equal; lia).
  cbn [Nat.add sweep].
  destruct (decide (member st i)) as [Hm|Hm].
  - destruct (decide (chance st i)) as [Hc|Hc].
    + rewrite sweep_step_clear, head_filter_cons_no by (done || unfold cand; tauto).
      set (st1 := with_chances (<[i := false]> (second_chances st)) st).
      assert (clock_inv st1) as I1 by (apply inv_with_chances; [done|by rewrite length_insert]).
      assert (i < length (second_chances st))%nat by (by eapply lookup_lt_Some).
      specialize (IH _ st1 I1 Hlen Hi' Hnd). subst st1. rewrite cand_clear in IH by done.
      rewrite Hmod in IH. destruct (head _) as [f|].
      * destruct IH as (k & sc & Hk & Hp & Hs). exists (S k), sc.
        split_and!; [done| |exact Hs]. cbn [take]. by apply passed_cons_clear.
      * destruct IH as (sc & Hp & Hs). exists sc. split; [|exact Hs]. by apply passed_cons_clear.
    + rewrite sweep_step_take, head_filter_cons_yes by done.
      exists 0%nat, (second_chances st). split_and!; [done|apply passed_nil|done].
  - rewrite sweep_step_skip, head_filter_cons_no by (try lia; unfold cand; tauto).
    specialize (IH _ st I Hlen Hi' Hnd). rewrite Hmod in IH. destruct (head _) as [f|].
    + destruct IH as (k & sc & Hk & Hp & Hs). exists (S k), sc.
      split_and!; [done| |exact Hs]. cbn [take]. by apply passed_cons_skip.
    + destruct IH as (sc & Hp & Hs). exists sc. split; [|exact Hs]. by apply passed_cons_skip.
Qed.
End Sweep.

(** * The victim *)

Lemma head_filter_some (P : nat -> Prop) `{forall x, Decision (P x)} l f :
  head (filter P l) = Some f -> P f /\ f ∈ l.
Proof.
  intros H1. assert (f ∈ filter P l) as H2.
  { destruct (filter P l); simplify_eq/=. by left. }
  by apply list_elem_of_filter in H2.
Qed.

Lemma head_filter_none (P : nat -> Prop) `{forall x, Decision (P x)} l f :
  head (filter P l) = None -> f ∈ l -> ~ P f.
Proof.
  intros H1 Hl Hp. assert (f ∈ filter P l) as H2 by (by apply list_elem_of_filter).
  destruct (filter P l); simplify_eq/=. by apply not_elem_of_nil in H2.
Qed.

Lemma taken_ok st f sc :
  clock_inv st -> member st f -> length sc = length (second_chances st) ->
  let st' := taken (length (is_in_evictor st)) f sc st in
  clock_inv st' /\ eligible st' = eligible st ∖ {[f]}
  /\ length (is_in_evictor st') = length (is_in_evictor st).
Proof.
  intros I Hm Hsc. pose proof (lookup_lt_Some _ _ _ Hm) as Hf.
  assert (clock_inv (with_chances sc st)) as I' by (by apply inv_with_chances).
  destruct (take_out (with_chances sc st) f ((f + 1) mod length (is_in_evictor st)) I' Hm)
    as (I'' & Hel & _).
  { left. simpl. apply Nat.mod_upper_bound. lia. }
  split_and!; [exact I''|exact Hel|]. simpl. by rewrite length_insert.
Qed.

(** After a full turn that found no candidate, every eligible frame is one. *)
Lemma full_turn_cands st sc (i order : list nat) :
  (forall f, (f < length (is_in_evictor st))%nat -> f ∈ order) ->
  passed st order sc ->
  filter (cand (with_chances sc st)) i = filter (member st) i.
Proof.
  intros Hall [_ Hsc]. induction i as [|f l IH]; [done|].
  assert (cand (with_chances sc st) f <-> member st f) as Hc.
  { unfold cand. change (member (with_chances sc st) f) with (member st f).
    split; [tauto|]. intros Hm. split; [done|]. unfold chance; simpl. rewrite Hsc.
    rewrite decide_True; [done|]. split; [|done]. apply Hall. by eapply lookup_lt_Some. }
  rewrite !filter_cons. repeat case_decide; try tauto; by rewrite IH.
Qed.

(** The victim is the frame the clock policy chooses, in every state the
    replacer can be in. *)
Lemma clock_victim_ok {E} st :
  clock_inv st ->
  let len := length (is_in_evictor st) in
  let order := clock_order (clock_hand_pos st) len in
  match choose st order with
  | Some f => exists sc, length sc = len /\ @clock_victim E st = (Ok (Some f), taken len f sc st)
      /\ (forall g, sc !! g = Some true -> chance st g)
  | None => exists sc, length sc = len
      /\ @clock_victim E st = (Ok None, with_chances sc st) /\ eligible st = ∅
      /\ (forall g, sc !! g = Some true -> chance st g)
  end.
Proof.
  intros I. cbv zeta. unfold clock_victim.
  destruct (ci_hand _ I) as [Hi|H0]; [|].
  2:{ rewrite H0. unfold choose, clock_order; simpl. exists (second_chances st).
      split_and!; [by rewrite (ci_len _ I)|by destruct st| |done].
      apply eligible_ext. intros f. unfold member. apply length_zero_iff_nil in H0.
      rewrite H0. set_solver. }
  set (len := length (is_in_evictor st)) in *. set (i := clock_hand_pos st) in *.
  replace (len * 2)%nat with (len + (len + 0))%nat by lia.
  change (clock_order i len) with (positions i len len).
  pose proof (positions_NoDup i len Hi) as Hnd.
  pose proof (sweep_turn (E := E) len len (len + 0) i st I eq_refl Hi Hnd) as H1.
  unfold choose. fold (cand st). change (fun f => member st f /\ ~ chance st f) with (cand st).
  destruct (head (filter (cand st) (positions i len len))) as [f|] eqn:Hc1.
  { destruct H1 as (k & sc & _ & [Hl Hsc] & Hs). exists sc. rewrite Hl, (ci_len _ I).
    split_and!; [done|exact Hs|]. intros g. rewrite Hsc. by case_decide. }
  destruct H1 as (sc & Hp & Hs). assert (length sc = len) as Hl by (rewrite (proj1 Hp); apply I).
  assert ((i + len) mod len = i)%nat as Hmod.
  { replace (i + len)%nat with (i + 1 * len)%nat by lia. rewrite Nat.Div0.mod_add.
    by apply Nat.mod_small. }
  rewrite Hmod in Hs.
  assert (clock_inv (with_chances sc st)) as I2
    by (apply inv_with_chances; [done|by rewrite (proj1 Hp)]).
  pose proof (sweep_turn (E := E) len len 0 i _ I2 eq_refl Hi Hnd) as H2.
  rewrite (full_turn_cands st sc _ (positions i len len)) in H2
    by (done || intros; by apply positions_full).
  rewrite Hmod in H2.
  destruct (head (filter (member st) (positions i len len))) as [f|] eqn:Hc2.
  - destruct H2 as (k & sc2 & _ & [Hl2 Hsc2] & Hs2). exists sc2.
    cbn [second_chances with_chances] in Hl2. rewrite Hl2, Hl. split_and!; [done| |].
    + rewrite Hs, Hs2. done.
    + intros g. rewrite Hsc2. case_decide; [done|]. simpl. rewrite (proj2 Hp).
      by case_decide.
  - destruct H2 as (sc2 & [Hl2 Hsc2] & Hs2). exists sc2.
    cbn [second_chances with_chances] in Hl2. rewrite Hl2, Hl. split_and!; [done| | |].
    + rewrite Hs, Hs2. simpl. subst i. by destruct st.
    + apply eligible_ext. intros g. split; [|set_solver]. intros Hm. exfalso.
      eapply head_filter_none in Hc2; [by apply Hc2|]. apply positions_full; [done|].
      by eapply lookup_lt_Some.
    + intros g. rewrite Hsc2. case_decide; [done|]. simpl. rewrite (proj2 Hp). by case_decide.
Qed.

Lemma choose_member st order f : choose st order = Some f -> member st f.
Proof.
  unfold choose. destruct (head _) as [g|] eqn:Hg.
  - intros [= ->]. apply head_filter_some in Hg. tauto.
  - intros Hf. apply head_filter_some in Hf. tauto.
Qed.

Lemma list_filter_ext_in (P Q : nat -> Prop) `{!forall x, Decision (P x)} `{!forall x, Decision (Q x)}
    (l : list nat) :
  (forall x, x ∈ l -> P x <-> Q x) -> filter P l = filter Q l.
Proof.
  induction l as [|x l IH]; intros HPQ; [done|].
  assert (P x <-> Q x) by (apply HPQ; left).
  rewrite !filter_cons, IH by (intros y Hy; apply HPQ; by right).
  repeat case_decide; tauto.
Qed.

Lemma clock_size_eligible st : clock_inv st -> clock_size st = size (eligible st).
Proof.
  intros I. rewrite (ci_size _ I). unfold eligible.
  assert (forall v k, size (list_to_set (C := gset nat)
      (filter (fun f => v !! (f - k)%nat = Some true) (seq k (length v)))) = count_true v) as Hv.
  { clear. induction v as [|b v IH]; intros k; [done|]. cbn [length seq].
    assert (filter (fun f => (b :: v) !! (f - k)%nat = Some true) (seq (S k) (length v))
            = filter (fun f => v !! (f - S k)%nat = Some true) (seq (S k) (length v))) as Hf.
    { apply list_filter_ext_in. intros f Hf%elem_of_seq.
      replace (f - k)%nat with (S (f - S k))%nat by lia. done. }
    rewrite filter_cons, Nat.sub_diag. destruct b; simpl; [|by rewrite Hf, IH].
    rewrite Hf, size_union, IH, size_singleton; [done|].
    intros g. rewrite elem_of_singleton, elem_of_list_to_set, list_elem_of_filter, elem_of_seq.
    lia. }
  rewrite <- (Hv (is_in_evictor st) 0%nat). f_equal. f_equal. apply list_filter_ext_in.
  intros f _. unfold member. by rewrite Nat.sub_0_r.
Qed.

(** * The clock replacer keeps the trait's laws *)

Lemma clock_victim_set {E} st :
  clock_inv st ->
  exists v st', @clock_victim E st = (Ok v, st') /\ clock_inv st'
    /\ length (is_in_evictor st') = length (is_in_evictor st)
    /\ v = choose st (clock_order (clock_hand_pos st) (length (is_in_evictor st)))
    /\ match v with
       | Some f => f ∈ eligible st /\ eligible st' = eligible st ∖ {[f]}
       | None => eligible st = ∅ /\ eligible st' = ∅
       end.
Proof.
  intros I. pose proof (clock_victim_ok (E := E) st I) as Hv. cbv zeta in Hv.
  destruct (choose _ _) as [f|] eqn:Hc.
  - destruct Hv as (sc & Hl & Hv & _). pose proof (choose_member _ _ _ Hc) as Hm.
    destruct (taken_ok st f sc I Hm) as (I' & Hel & Hn); [by rewrite (ci_len _ I)|].
    exists (Some f), (taken (length (is_in_evictor st)) f sc st). by rewrite elem_of_eligible.
  - destruct Hv as (sc & Hl & Hv & Hel & _). exists None, (with_chances sc st).
    split_and!; [done| |done|done|done|exact Hel].
    apply inv_with_chances; [done|by rewrite (ci_len _ I)].
Qed.

#[export] Program Instance clock_evictor_laws : EvictorLaws ClockEvictorState := {
  ev_inv := clock_inv;
  ev_capacity st := length (is_in_evictor st);
  ev_eligible := eligible;
}.
Next Obligation. intros s f I Hf. apply elem_of_eligible in Hf. by eapply lookup_lt_Some. Qed.
Next Obligation.
  intros E s f I Hf. destruct (clock_add_ok (E := E) s f I Hf) as (s' & ? & ? & ? & ? & _). eauto.
Qed.
Next Obligation.
  intros E s f I Hf. destruct (clock_remove_ok (E := E) s f I Hf) as (s' & ? & ? & ? & ? & _). eauto.
Qed.
Next Obligation. intros s I. by apply clock_size_eligible. Qed.
Next Obligation.
  intros E s I. destruct (clock_victim_set (E := E) s I) as (v & s' & Hv & I' & Hn & _ & Hs).
  by exists v, s'.
Qed.

(** * Histories of an evictor *)

Inductive ev_op := OpAdd (f : nat) | OpRemove (f : nat) | OpSize | OpVictim.
Inductive ev_res := RUnit | RSize (n : nat) | RVictim (v : option nat).

Section History.
Context {S E : Type} `{EvictorLaws S}.

Definition run_ev_op (op : ev_op) : stateM S E ev_res :=
  match op with
  | OpAdd f => ev_add f ≫= fun _ => sret RUnit
  | OpRemove f => ev_remove f ≫= fun _ => sret RUnit
  | OpSize => sget (fun s => Ok (RSize (ev_size s)))
  | OpVictim => ev_victim ≫= fun v => sret (RVictim v)
  end.

(** The abstract evictor: a set of frames. *)
Inductive ev_spec : gset nat -> ev_op -> ev_res -> gset nat -> Prop :=
| spec_add X f : ev_spec X (OpAdd f) RUnit ({[f]} ∪ X)
| spec_remove X f : ev_spec X (OpRemove f) RUnit (X ∖ {[f]})
| spec_size X : ev_spec X OpSize (RSize (size X)) X
| spec_victim X f : f ∈ X -> ev_spec X OpVictim (RVictim (Some f)) (X ∖ {[f]})
| spec_no_victim : ev_spec ∅ OpVictim (RVictim None) ∅.

Inductive ev_trace : gset nat -> list (ev_op * ev_res) -> gset nat -> Prop :=
| trace_nil X : ev_trace X [] X
| trace_cons X op r Y l Z : ev_spec X op r Y -> ev_trace Y l Z -> ev_trace X ((op, r) :: l) Z.

Definition op_in_range (n : nat) (op : ev_op) : Prop :=
  match op with OpAdd f | OpRemove f => (f < n)%nat | _ => True end.

Fixpoint run_ev (ops : list ev_op) : stateM S E (list ev_res) :=
  match ops with
  | [] => sret []
  | op :: ops => run_ev_op op ≫= fun r => run_ev ops ≫= fun rs => sret (r :: rs)
  end.

Lemma run_ev_op_sim s op :
  ev_inv s -> op_in_range (ev_capacity s) op ->
  exists r s', run_ev_op op s = (Ok r, s') /\ ev_inv s' /\ ev_capacity s' = ev_capacity s
    /\ ev_spec (ev_eligible s) op r (ev_eligible s').
Proof.
  intros I Hop. destruct op as [f|f| |]; simpl in *; unfold mbind, stateM_bind.
  - destruct (ev_add_law E s f I Hop) as (s' & -> & I' & Hc & Hel).
    eexists _, s'. rewrite Hel. split_and!; [done|done|done|constructor].
  - destruct (ev_remove_law E s f I Hop) as (s' & -> & I' & Hc & Hel).
    eexists _, s'. rewrite Hel. split_and!; [done|done|done|constructor].
  - exists (RSize (ev_size s)), s. split_and!; [done..|].
    rewrite (ev_size_law _ I). constructor.
  - destruct (ev_victim_law E s I) as (v & s' & -> & I' & Hc & Hv).
    eexists _, s'. split_and!; [done|done|done|].
    destruct v as [f|]; destruct Hv as [Hv1 Hv2]; rewrite Hv2; [by constructor|].
    rewrite Hv1. constructor.
Qed.

Lemma run_ev_sim ops s :
  ev_inv s -> Forall (op_in_range (ev_capacity s)) ops ->
  exists rs s', run_ev ops s = (Ok rs, s') /\ ev_inv s' /\ ev_capacity s' = ev_capacity s
    /\ length rs = length ops /\ ev_trace (ev_eligible s) (zip ops rs) (ev_eligible s').
Proof.
  revert s. induction ops as [|op ops IH]; intros s I Hops.
  { exists [], s. split_and!; [done..|constructor]. }
  apply Forall_cons in Hops as [Hop Hops]. simpl.
  destruct (run_ev_op_sim s op I Hop) as (r & s1 & H1 & I1 & C1 & T1).
  destruct (IH s1 I1) as (rs & s2 & H2 & I2 & C2 & L2 & T2); [by rewrite C1|].
  exists (r :: rs), s2. unfold mbind, stateM_bind. rewrite H1, H2.
  split_and!; [done|done|congruence|simpl; congruence|]. by econstructor.
Qed.
End History.

(** * Properties *)

(** C9: Every history of [add], [remove], [size] and [victim] calls on a new
    clock evictor, with frame numbers below the pool size, returns without
    panicking and behaves as a set of frames: [add] and [remove] insert and
    delete, [size] is the number of eligible frames, [victim] takes one of
    them out and is [None] exactly when there is none. *)
Theorem clock_history_is_set {E} n ops :
  Forall (op_in_range n) ops ->
  exists rs st', @run_ev ClockEvictorState E _ ops (clock_new n) = (Ok rs, st')
    /\ length rs = length ops /\ ev_trace ∅ (zip ops rs) (eligible st').
Proof.
  intros Hops. destruct (clock_new_inv n) as [I He].
  destruct (run_ev_sim (E := E) ops (clock_new n)) as (rs & st' & Hr & _ & _ & Hl & Ht).
  - exact I.
  - simpl. by rewrite length_replicate.
  - exists rs, st'. simpl in Ht. by rewrite He in Ht.
Qed.

(** The scenario of [test_clock_evictor_second_chance_and_hand_position]. *)
Definition second_chance_scenario : list ev_op :=
  [OpAdd 0; OpAdd 1; OpAdd 2; OpVictim; OpAdd 2; OpVictim; OpVictim; OpVictim].

Lemma clock_history_is_set_witness :
  exists rs st', @run_ev ClockEvictorState () _ second_chance_scenario (clock_new 4) = (Ok rs, st')
    /\ length rs = length second_chance_scenario
    /\ ev_trace ∅ (zip second_chance_scenario rs) (eligible st').
Proof. apply (clock_history_is_set 4). unfold second_chance_scenario. repeat constructor. Defined.

(** C10: [victim] implements the clock policy and terminates within its two
    turns: in any state it can be in, the frame it returns is the first
    eligible frame, in the order of the hand, without a second chance; when
    every eligible frame has one, the first eligible frame; and [None] only
    when no frame is eligible.  The hand stops just past the victim. *)
Theorem clock_victim_policy {E} st :
  clock_inv st ->
  exists st', @clock_victim E st
    = (Ok (choose st (clock_order (clock_hand_pos st) (length (is_in_evictor st)))), st')
    /\ clock_inv st'
    /\ match choose st (clock_order (clock_hand_pos st) (length (is_in_evictor st))) with
       | Some f => member st f /\ eligible st' = eligible st ∖ {[f]}
                   /\ clock_hand_pos st' = ((f + 1) mod length (is_in_evictor st))%nat
       | None => eligible st = ∅ /\ clock_hand_pos st' = clock_hand_pos st
       end
    /\ (forall g, chance st' g -> chance st g).
Proof.
  intros I. pose proof (clock_victim_ok (E := E) st I) as Hv. cbv zeta in Hv.
  destruct (choose _ _) as [f|] eqn:Hc.
  - destruct Hv as (sc & Hl & Hv & Hsc). pose proof (choose_member _ _ _ Hc) as Hm.
    destruct (taken_ok st f sc I Hm) as (I' & Hel & Hn); [by rewrite (ci_len _ I)|].
    by exists (taken (length (is_in_evictor st)) f sc st).
  - destruct Hv as (sc & Hl & Hv & Hel & Hsc). exists (with_chances sc st).
    split_and!; [done| |done|done|exact Hsc].
    apply inv_with_chances; [done|by rewrite (ci_len _ I)].
Qed.

Lemma clock_victim_policy_witness :
  let st := (@run_ev ClockEvictorState () _ [OpAdd 0; OpAdd 1; OpAdd 2; OpVictim; OpAdd 2]
               (clock_new 4)).2 in
  exists st', @clock_victim () st
    = (Ok (choose st (clock_order (clock_hand_pos st) (length (is_in_evictor st)))), st')
    /\ clock_inv st'
    /\ match choose st (clock_order (clock_hand_pos st) (length (is_in_evictor st))) with
       | Some f => member st f /\ eligible st' = eligible st ∖ {[f]}
                   /\ clock_hand_pos st' = ((f + 1) mod length (is_in_evictor st))%nat
       | None => eligible st = ∅ /\ clock_hand_pos st' = clock_hand_pos st
       end
    /\ (forall g, chance st' g -> chance st g).
Proof. cbv zeta. apply clock_victim_policy. vm_compute. constructor; simpl; auto with lia. Defined.

(** * The unit tests of [evictor.rs] as scenarios

    Each is the sequence of calls of the test with the values it asserts. *)
Definition scenario_passes (n : nat) (l : list (ev_op * ev_res)) : Prop :=
  (@run_ev ClockEvictorState () _ l.*1 (clock_new n)).1 = Ok l.*2.

Definition test_clock_replacer_initializes_empty : list (ev_op * ev_res) :=
  [(OpSize, RSize 0); (OpVictim, RVictim None)].

Definition test_clock_evictor_unpin_and_sweep : list (ev_op * ev_res) :=
  [(OpAdd 0, RUnit); (OpSize, RSize 1); (OpAdd 0, RUnit); (OpSize, RSize 1);
   (OpVictim, RVictim (Some 0)); (OpSize, RSize 0); (OpVictim, RVictim None)]%nat.

Definition test_clock_evictor_second_chance_and_hand_position : list (ev_op * ev_res) :=
  [(OpAdd 0, RUnit); (OpAdd 1, RUnit); (OpAdd 2, RUnit); (OpVictim, RVictim (Some 0));
   (OpAdd 2, RUnit); (OpVictim, RVictim (Some 1)); (OpVictim, RVictim (Some 2));
   (OpVictim, RVictim None)]%nat.

Definition test_clock_evictor_pin_removes_from_evictor : list (ev_op * ev_res) :=
  [(OpAdd 0, RUnit); (OpAdd 1, RUnit); (OpAdd 2, RUnit); (OpSize, RSize 3);
   (OpRemove 1, RUnit); (OpSize, RSize 2); (OpVictim, RVictim (Some 0));
   (OpVictim, RVictim (Some 2)); (OpSize, RSize 0); (OpVictim, RVictim None)]%nat.

Example evictor_scenarios :
  scenario_passes 3 test_clock_replacer_initializes_empty /\
  scenario_passes 3 test_clock_evictor_unpin_and_sweep /\
  scenario_passes 4 test_clock_evictor_second_chance_and_hand_position /\
  scenario_passes 3 test_clock_evictor_pin_removes_from_evictor.
Proof. by vm_compute. Qed.
