(* ===== verification/RustStr.v ===== *)
(** The parts of Rust's [str] and integer formatting the program uses, on the
    UTF-8 bytes of a string: validity ([String::from_utf8]), [trim],
    [to_ascii_uppercase], [find], [ends_with], [split], [parse::<uN>] and the
    decimal [Display] of unsigned integers. *)
From Stdlib Require Import String Ascii.
From S2P Require Import Prelude.
From S2P Require Import Bytes.

(** A [String] or [&str] is the list of its UTF-8 bytes. *)
Definition rstr : Type := list Z.

(** A string literal. *)
Fixpoint str (s : string) : rstr :=
  match s with
  | EmptyString => []
  | String c s => Z.of_N (N_of_ascii c) :: str s
  end.
Arguments str s%_string.

(** * UTF-8 *)

Definition between (lo hi b : Z) : bool := (lo <=? b) && (b <=? hi).
Definition utf8_cont (b : Z) : bool := between 128 191 b.
Definition utf8_two (a : Z) : bool := between 194 223 a.
Definition utf8_three (a b : Z) : bool :=
  (a =? 224) && between 160 191 b
  || (between 225 236 a || between 238 239 a) && utf8_cont b
  || (a =? 237) && between 128 159 b.
Definition utf8_four (a b : Z) : bool :=
  (a =? 240) && between 144 191 b
  || between 241 243 a && utf8_cont b
  || (a =? 244) && between 128 143 b.

Fixpoint utf8_valid (l : rstr) : bool :=
  match l with
  | [] => true
  | a :: l1 =>
      if between 0 127 a then utf8_valid l1
      else match l1 with
      | [] => false
      | b :: l2 =>
          if utf8_two a && utf8_cont b then utf8_valid l2
          else match l2 with
          | [] => false
          | c :: l3 =>
              if utf8_three a b && utf8_cont c then utf8_valid l3
              else match l3 with
              | [] => false
              | d :: l4 => utf8_four a b && utf8_cont c && utf8_cont d && utf8_valid l4
              end
          end
      end
  end.

(** [String::from_utf8]. *)
Definition from_utf8 (bs : list Z) : option rstr := if utf8_valid bs then Some bs else None.

(** * [trim]: the characters with the Unicode property [White_Space] *)

Definition ws1 (a : Z) : bool := between 9 13 a || (a =? 32).
Definition ws2 (a b : Z) : bool := (a =? 194) && ((b =? 133) || (b =? 160)).
Definition ws3 (a b c : Z) : bool :=
  (a =? 225) && (b =? 154) && (c =? 128)
  || (a =? 226) && (b =? 128) && (between 128 138 c || (c =? 168) || (c =? 169) || (c =? 175))
  || (a =? 226) && (b =? 129) && (c =? 159)
  || (a =? 227) && (b =? 128) && (c =? 128).

Fixpoint trim_start (l : rstr) : rstr :=
  match l with
  | [] => []
  | a :: l1 =>
      if ws1 a then trim_start l1
      else match l1 with
      | [] => l
      | b :: l2 =>
          if ws2 a b then trim_start l2
          else match l2 with
          | [] => l
          | c :: l3 => if ws3 a b c then trim_start l3 else l
          end
      end
  end.

(** The same from the end, on the reversed bytes. *)
Fixpoint trim_rev (l : rstr) : rstr :=
  match l with
  | [] => []
  | a :: l1 =>
      if ws1 a then trim_rev l1
      else match l1 with
      | [] => l
      | b :: l2 =>
          if ws2 b a then trim_rev l2
          else match l2 with
          | [] => l
          | c :: l3 => if ws3 c b a then trim_rev l3 else l
          end
      end
  end.
Definition trim_end (l : rstr) : rstr := reverse (trim_rev (reverse l)).
Definition trim (l : rstr) : rstr := trim_end (trim_start l).

Definition is_empty {A} (l : list A) : bool := match l with [] => true | _ => false end.

(** * Case, search, split *)

Definition upper_byte (b : Z) : Z := if between 97 122 b then b - 32 else b.
Definition to_ascii_uppercase (l : rstr) : rstr := upper_byte <$> l.

(** [s.find(c)] for an ASCII character: the byte index. *)
Fixpoint find (c : Z) (l : rstr) : option Z :=
  match l with
  | [] => None
  | a :: l => if a =? c then Some 0 else (fun i => i + 1) <$> find c l
  end.

(** [s.ends_with(c)] for an ASCII character. *)
Definition ends_with (c : Z) (l : rstr) : bool :=
  match last l with Some a => a =? c | None => false end.

(** [s.split(c)] for an ASCII character: never empty. *)
Fixpoint split (c : Z) (l : rstr) : list rstr :=
  match l with
  | [] => [[]]
  | a :: l =>
      if a =? c then [] :: split c l
      else match split c l with
           | w :: ws => (a :: w) :: ws
           | [] => [[a]]
           end
  end.

(** * Decimal integers *)

(** [s.parse::<uN>()] with [N = w]: an optional plus sign, at least one digit,
    no overflow. *)
Definition digit_val (b : Z) : option Z := if between 48 57 b then Some (b - 48) else None.

Fixpoint parse_digits (w acc : Z) (l : rstr) : option Z :=
  match l with
  | [] => Some acc
  | b :: l =>
      d ← digit_val b;
      if acc * 10 + d <? 2 ^ w then parse_digits w (acc * 10 + d) l else None
  end.

Definition parse_unsigned (w : Z) (l : rstr) : option Z :=
  match l with
  | [] => None
  | b :: l' =>
      if b =? 43 then (if is_empty l' then None else parse_digits w 0 l')
      else parse_digits w 0 l
  end.

(** [Display] of an unsigned integer: its decimal digits.  [fuel] bounds their
    number. *)
Fixpoint show_digits (fuel : nat) (n : Z) : rstr :=
  match fuel with
  | O => []
  | S fuel => if n <? 10 then [48 + n] else show_digits fuel (n / 10) ++ [48 + n mod 10]
  end.

(** The largest integer type shown has 64 bits, 20 digits. *)
Definition show_unsigned (n : Z) : rstr := show_digits 20 n.

(** * Facts *)

Definition is_digit (b : Z) : Prop := 48 <= b <= 57.

Lemma between_spec lo hi b : between lo hi b = true <-> lo <= b <= hi.
Proof. unfold between. rewrite andb_true_iff, Z.leb_le, Z.leb_le. done. Qed.

Lemma between_false lo hi b : b < lo \/ hi < b -> between lo hi b = false.
Proof. intros. destruct (between lo hi b) eqn:H0; [|done]. apply between_spec in H0. lia. Qed.

(** A byte that is not part of any white space character. *)
Definition not_ws (b : Z) : Prop := 33 <= b <= 126.

Lemma ws_plain a : not_ws a ->
  ws1 a = false /\ (forall b, ws2 a b = false) /\ (forall b c, ws3 a b c = false)
  /\ (forall b, ws2 b a = false) /\ (forall b c, ws3 c b a = false).
Proof.
  unfold not_ws, ws1, ws2, ws3. intros Ha. split_and!; intros; rewrite ?between_false by lia.
  all: rewrite !(proj2 (Z.eqb_neq a _)) by lia; rewrite ?andb_false_l, ?andb_false_r; simpl;
    rewrite ?andb_false_l, ?andb_false_r; done.
Qed.

Lemma trim_start_plain a l : not_ws a -> trim_start (a :: l) = a :: l.
Proof.
  intros (H1 & H2 & H3 & _)%ws_plain. cbn [trim_start]. rewrite H1.
  destruct l as [|b [|c l]]; [done|by rewrite H2|by rewrite H2, H3].
Qed.

Lemma trim_rev_plain a l : not_ws a -> trim_rev (a :: l) = a :: l.
Proof.
  intros (H1 & _ & _ & H2 & H3)%ws_plain. cbn [trim_rev]. rewrite H1.
  destruct l as [|b [|c l]]; [done|by rewrite H2|by rewrite H2, H3].
Qed.

Lemma trim_end_plain l a : not_ws a -> trim_end (l ++ [a]) = l ++ [a].
Proof.
  intros Ha. unfold trim_end. rewrite reverse_snoc.
  rewrite trim_rev_plain, reverse_cons, reverse_involutive by done. done.
Qed.

Lemma trim_plain l : Forall not_ws l -> trim l = l.
Proof.
  intros Hl. unfold trim. destruct l as [|a l]; [done|].
  rewrite trim_start_plain by (by inversion Hl).
  destruct (exists_last (l := a :: l)) as (l' & z & Hz); [done|]. rewrite Hz in *.
  apply trim_end_plain. apply Forall_app in Hl as [_ Hl]. by inversion Hl.
Qed.

(** One leading space is trimmed. *)
Lemma trim_space l : trim (32 :: l) = trim l.
Proof. done. Qed.

Lemma upper_app l1 l2 :
  to_ascii_uppercase (l1 ++ l2) = to_ascii_uppercase l1 ++ to_ascii_uppercase l2.
Proof. apply fmap_app. Qed.

Lemma upper_digits l : Forall is_digit l -> to_ascii_uppercase l = l.
Proof.
  unfold to_ascii_uppercase. induction 1 as [|b l Hb _ IH]; [done|]. rewrite fmap_cons, IH. f_equal.
  unfold upper_byte, is_digit in *. by rewrite between_false by lia.
Qed.

Lemma digit_not_ws l : Forall is_digit l -> Forall not_ws l.
Proof. intros Hl. eapply Forall_impl; [exact Hl|]. unfold is_digit, not_ws. intros; simpl in *; lia. Qed.

Lemma find_app_not c l1 l2 :
  Forall (fun b => b <> c) l1 -> find c (l1 ++ l2) = (fun i => zlen l1 + i) <$> find c l2.
Proof.
  induction 1 as [|b l Hb _ IH]; simpl.
  - by destruct (find c l2).
  - rewrite (proj2 (Z.eqb_neq b c)) by done. rewrite IH. destruct (find c l2); simpl; [|done].
    rewrite zlen_cons. f_equal. lia.
Qed.

Lemma find_none c l : Forall (fun b => b <> c) l -> find c l = None.
Proof. intros H. rewrite <- (app_nil_r l), find_app_not by done. done. Qed.

Lemma find_Some c l i :
  find c l = Some i -> exists l1 l2, l = l1 ++ c :: l2 /\ zlen l1 = i.
Proof.
  revert i. induction l as [|a l IH]; intros i; simpl; [done|].
  destruct (Z.eqb_spec a c) as [->|Hne].
  - intros [= <-]. by exists [], l.
  - destruct (find c l) as [j|]; [|done]. intros [= <-].
    destruct (IH j eq_refl) as (l1 & l2 & -> & Hl). exists (a :: l1), l2.
    split; [done|]. rewrite zlen_cons. lia.
Qed.

Lemma ends_with_spec c l : ends_with c l = true <-> exists l', l = l' ++ [c].
Proof.
  unfold ends_with. split.
  - destruct (last l) as [a|] eqn:Hl; [|done]. intros ->%Z.eqb_eq.
    apply last_Some in Hl as [l' ->]. by exists l'.
  - intros [l' ->]. rewrite last_snoc. apply Z.eqb_refl.
Qed.

Lemma split_none c l : Forall (fun b => b <> c) l -> split c l = [l].
Proof.
  induction 1 as [|b l Hb _ IH]; simpl; [done|].
  rewrite (proj2 (Z.eqb_neq b c)) by done. by rewrite IH.
Qed.

Lemma split_app c l1 l2 :
  Forall (fun b => b <> c) l1 -> split c (l1 ++ c :: l2) = l1 :: split c l2.
Proof.
  induction 1 as [|b l Hb _ IH]; simpl; [by rewrite Z.eqb_refl|].
  rewrite (proj2 (Z.eqb_neq b c)) by done. by rewrite IH.
Qed.

Lemma show_digits_ok fuel n : 0 <= n -> Forall is_digit (show_digits fuel n).
Proof.
  revert n. induction fuel as [|fuel IH]; intros n Hn; simpl; [constructor|].
  unfold is_digit in *. case_bool; [constructor; [lia|constructor]|].
  pose proof (Z.mod_pos_bound n 10). apply Forall_app. split; [apply IH, Z.div_pos; lia|].
  constructor; [lia|constructor].
Qed.

Lemma show_digits_nonempty fuel n : show_digits (S fuel) n <> [].
Proof. simpl. case_bool; [done|]. by intros [_ ?]%app_eq_nil. Qed.

Lemma parse_digits_app w acc l1 l2 :
  parse_digits w acc (l1 ++ l2) = (a ← parse_digits w acc l1; parse_digits w a l2).
Proof.
  revert acc. induction l1 as [|b l1 IH]; intros acc; [done|]. simpl.
  destruct (digit_val b); simpl; [|done]. case_bool; [apply IH|done].
Qed.

Lemma digit_val_ok d : 0 <= d < 10 -> digit_val (48 + d) = Some d.
Proof.
  intros. unfold digit_val. rewrite (proj2 (between_spec 48 57 _)) by lia. f_equal. lia.
Qed.

Lemma parse_show_digits w fuel n :
  0 <= n < 2 ^ w -> n < 10 ^ Z.of_nat fuel -> parse_digits w 0 (show_digits fuel n) = Some n.
Proof.
  revert n. induction fuel as [|fuel IH]; intros n Hn Hf; simpl.
  - simpl in Hf. f_equal. lia.
  - case_bool.
    + cbn [parse_digits]. rewrite digit_val_ok by lia. simpl. by zbool.
    + rewrite Nat2Z.inj_succ, Z.pow_succ_r in Hf by lia.
      pose proof (Z.div_mod n 10). pose proof (Z.mod_pos_bound n 10).
      rewrite parse_digits_app, IH; [|split; [apply Z.div_pos; lia|]|apply Z.div_lt_upper_bound; lia].
      * cbn [mbind option_bind parse_digits]. rewrite digit_val_ok by lia. simpl.
        replace (n / 10 * 10 + n mod 10) with n by lia. by zbool.
      * apply Z.le_lt_trans with n; [apply Z.div_le_upper_bound; lia|lia].
Qed.

(** What [Display] prints, [parse] reads back. *)
Lemma parse_show_unsigned w n :
  0 <= w <= 64 -> 0 <= n < 2 ^ w -> parse_unsigned w (show_unsigned n) = Some n.
Proof.
  intros Hw Hn. unfold show_unsigned.
  assert (parse_digits w 0 (show_digits 20 n) = Some n) as Hp.
  { apply parse_show_digits; [done|]. apply Z.lt_le_trans with (2 ^ w); [lia|].
    transitivity (2 ^ 64); [apply Z.pow_le_mono_r; lia|]. by vm_compute. }
  assert (Forall is_digit (show_digits 20 n)) as Hd by (apply show_digits_ok; lia).
  pose proof (show_digits_nonempty 19 n) as Hne.
  destruct (show_digits 20 n) as [|b l]; [done|]. unfold parse_unsigned.
  inversion Hd; subst. unfold is_digit in *. zbool. done.
Qed.

Lemma utf8_valid_ascii l : Forall (between 0 127) l -> utf8_valid l = true.
Proof. induction 1 as [|b l Hb _ IH]; [done|]. simpl. apply Is_true_true in Hb. by rewrite Hb. Qed.
