(* ===== verification/SlottedPageTests.v ===== *)
(** The unit tests of [slotted_page_view.rs], as statements about the model: each
    definition says what the test of that name asserts. *)
From Stdlib Require Import String.
From S2P Require Import Prelude.
From S2P Require Import Bytes.
From S2P Require Import RustStr.
From S2P Require Import Page.
From S2P Require Import SlottedPage.

#[local] Abbreviation page_m := (stateM page StorageError).

(** * The tests' set-up *)

(** [m] on a zeroed buffer. *)
Definition on_blank {A} (m : page_m A) : outcome StorageError A := (m blank_page).1.

(** [m] after [page.initialize(PageType::LeafNode, None)]. *)
Definition on_leaf {A} (m : page_m A) : outcome StorageError A :=
  on_blank (initialize LeafNode None;; m).

(** A call whose result the test looks at. *)
Definition attempt {A} (m : page_m A) : page_m (outcome StorageError A) :=
  fun b => let '(r, b') := m b in (Ok r, b').

Definition insert (i : Z) (data : rstr) : page_m Z := try_insert_record i data.
Definition update (i : Z) (data : rstr) : page_m Z := try_update_record i data.
Definition record (i : Z) : page_m (option rstr) := sget (get_record i).
Definition items : page_m Z := sget get_item_count.
Definition contiguous : page_m Z := sget get_free_space_contiguous.
Definition free_space : page_m Z := sget get_free_space.
Definition data_start : page_m Z := sget get_data_start_offset.

(** The records a page shows from slot 0 on, [n] of them. *)
Definition records (n : Z) : page_m (list (option rstr)) :=
  sfold (fun l i => r ← record i; mret (l ++ [r])) [] (range 0 n).

(** The same from the bytes of the buffer. *)
Definition raw_slot (i : Z) : page_m (Z * Z * rstr) :=
  let slot_start := PAGE_HEADER_SIZE + i * SLOT_SIZE in
  offset ← sget (fun b => s ← slice slot_start (slot_start + 2) b; from_le_u 2 s);
  len ← sget (fun b => s ← slice (slot_start + 2) (slot_start + 4) b; from_le_u 2 s);
  data ← sget (slice offset (offset + len));
  mret (offset, len, data).

Definition record_0 : rstr := str "Record 0".
Definition record_1 : rstr := str "Record 1".
Definition record_2 : rstr := str "Record 2".

(** * Inserting and reading *)

Definition test_initialize_sets_correct_defaults : Prop :=
  on_leaf (t ← sget get_page_type; n ← items; d ← data_start; c ← contiguous; mret (t, n, d, c))
    = Ok (LeafNode, 0, wrap 16 PAGE_SIZE, PAGE_SIZE - PAGE_HEADER_SIZE)
  /\ on_blank (initialize InternalNode None;; sget get_page_type) = Ok InternalNode.

Definition test_add_record_verify_buffer_directly : Prop :=
  let data := str "Hello Slotted Page" in
  on_leaf (insert 0 data;; n ← items; s ← raw_slot 0; mret (n, s))
  = Ok (1, (PAGE_SIZE - zlen data, zlen data, data)).

Definition test_insert_record_at_index_with_shifting : Prop :=
  let r0 := record_0 in let r1 := record_1 in let r2 := record_2 in
  on_leaf
    (insert 0 r0;; insert 1 r2;; insert 1 r1;;
     n ← items; c ← contiguous; a ← raw_slot 0; b ← raw_slot 1; d ← raw_slot 2;
     mret (n, [a.2; b.2; d.2], c))
  = Ok (3, [r0; r1; r2],
        PAGE_SIZE - PAGE_HEADER_SIZE - (zlen r0 + zlen r1 + zlen r2 + 3 * SLOT_SIZE)).

Definition test_insert_at_invalid_index_fails : Prop :=
  on_leaf (insert 1 (str "data")) = Err InvalidSlotIndex.

Definition test_page_full_returns_error : Prop :=
  let max_data_size := PAGE_SIZE - PAGE_HEADER_SIZE - SLOT_SIZE in
  on_leaf (insert 0 (fill 0 max_data_size);; c ← contiguous; r ← attempt (insert 1 (str "extra")); mret (c, r))
  = Ok (0, Err PageFull).

Definition test_get_record_retrieves_correct_data : Prop :=
  let rec0 := str "Alpha" in let rec1 := str "Beta" in
  on_leaf (insert 0 rec0;; insert 1 rec1;; records 3) = Ok [Some rec0; Some rec1; None].

(** * Updating *)

Definition test_update_record_in_place : Prop :=
  on_leaf (insert 0 (str "Old Data");; c ← contiguous;
           r ← attempt (update 0 (str "New Data")); v ← record 0; c' ← contiguous;
           mret (is_ok r, v, c' - c))
  = Ok (true, Some (str "New Data"), 0).

Definition test_update_record_relocates_when_larger : Prop :=
  let new_data := str "Much Larger Record Data" in
  on_leaf (insert 0 (str "Small");; c ← contiguous;
           r ← attempt (update 0 new_data); v ← record 0; c' ← contiguous;
           mret (is_ok r, v, c - c'))
  = Ok (true, Some new_data, zlen new_data).

Definition test_update_record_fails_when_relocation_exceeds_space : Prop :=
  on_leaf (insert 0 (str "Small");; c ← contiguous;
           insert 1 (fill 0 (c - SLOT_SIZE - 10));; c ← contiguous;
           r ← attempt (update 0 (fill 0 20)); v ← record 0; mret (c, r, v))
  = Ok (10, Err PageFull, Some (str "Small")).

Definition test_update_record_at_exact_remaining_space_limit : Prop :=
  on_leaf (insert 0 (str "A");; c ← contiguous;
           insert 1 (fill 0 (c - SLOT_SIZE - 20));; free_before ← contiguous;
           r ← attempt (update 0 (fill 1 20)); c ← contiguous; v ← record 0;
           mret (free_before, is_ok r, c, v))
  = Ok (20, true, 0, Some (fill 1 20)).

Definition test_update_record_fails_one_byte_over_limit : Prop :=
  on_leaf (insert 0 (str "Data");; free ← contiguous; update 0 (fill 0 (free + 1))) = Err PageFull.

Definition test_update_record_smaller_size_updates_slot_length : Prop :=
  let new_data := str "Abcd" in
  on_leaf (insert 0 (str "0123456789");; c ← contiguous; update 0 new_data;;
           v ← record 0; s ← sget (get_slot 0); c' ← contiguous; mret (v, s.2, c' - c))
  = Ok (Some new_data, 4, 0).

Definition test_update_record_invalid_index_returns_error : Prop :=
  on_leaf (insert 0 (str "Original");; update 1 (str "New Data")) = Err InvalidSlotIndex.

(** * Deleting *)

Definition test_delete_record_shifts_slots_left : Prop :=
  let record_a := str "Record A" in let record_b := str "Record B" in let record_c := str "Record C" in
  on_leaf (insert 0 record_a;; insert 1 record_b;; insert 2 record_c;; c ← contiguous;
           delete_record 1;; n ← items; c' ← contiguous; l ← records 3; mret (n, c' - c, l))
  = Ok (2, SLOT_SIZE, [Some record_a; Some record_c; None]).

Definition test_delete_first_record_shifts_all_others : Prop :=
  on_leaf (insert 0 record_0;; insert 1 record_1;; insert 2 record_2;;
           delete_record 0;; n ← items; l ← records 3; mret (n, l))
  = Ok (2, [Some record_1; Some record_2; None]).

Definition test_delete_record_invalid_index_is_noop : Prop :=
  on_leaf (insert 0 (str "Stay");; c ← contiguous;
           delete_record 1;; n ← items; c' ← contiguous; v ← record 0; mret (n, c' - c, v))
  = Ok (1, 0, Some (str "Stay")).

Definition test_interleaved_inserts_and_deletes : Prop :=
  on_leaf
    (insert 0 (str "A");; insert 1 (str "B");; insert 2 (str "C");;
     delete_record 1;; n1 ← items; l1 ← records 2;
     insert 1 (str "D");; n2 ← items; l2 ← records 3;
     update 2 (str "CCC");; v ← record 2;
     delete_record 0;; delete_record 0;; delete_record 0;; n3 ← items; w ← record 0;
     mret (n1, l1, (n2, l2), v, (n3, w)))
  = Ok (2, [Some (str "A"); Some (str "C")],
        (3, [Some (str "A"); Some (str "D"); Some (str "C")]), Some (str "CCC"), (0, None)).

(** * Fragments and compaction *)

Definition test_get_total_free_space_with_fragmentation : Prop :=
  let data := str "0123456789" in
  on_leaf
    (insert 0 data;; insert 1 data;; insert 2 data;; c ← contiguous;
     delete_record 1;; c' ← contiguous; f ← free_space;
     update 0 (fill 1 20);; f' ← free_space; mret (c' - c, f, f'))
  = Ok (SLOT_SIZE, PAGE_SIZE - PAGE_HEADER_SIZE - 2 * SLOT_SIZE - 2 * 10,
        PAGE_SIZE - PAGE_HEADER_SIZE - 2 * SLOT_SIZE - (10 + 20)).

Definition test_compact_reclaims_fragmented_space : Prop :=
  on_leaf
    (insert 0 record_0;; insert 1 record_1;; insert 2 record_2;; delete_record 1;;
     f ← free_space; c ← contiguous; compact;; f' ← free_space; c' ← contiguous;
     l ← records 3; d ← data_start;
     mret (c <? f, f' =? c', l, d))
  = Ok (true, true, [Some record_0; Some record_2; None], wrap 16 (PAGE_SIZE - 16)).

Definition test_compact_reclaims_space_after_relocation_updates : Prop :=
  on_leaf
    (insert 0 (str "Original");; initial_total_free ← free_space; update 0 (fill 1 20);;
     f ← free_space; c ← contiguous; compact;; f' ← free_space; c' ← contiguous; v ← record 0;
     mret (c <? f, f' =? c', initial_total_free - c', v))
  = Ok (true, true, 20 - 8, Some (fill 1 20)).

Definition test_compact_after_all_records_deleted_resets_heap : Prop :=
  on_leaf
    (insert 0 (str "Data A");; insert 1 (str "Data B");; delete_record 0;; delete_record 0;;
     n ← items; d ← data_start; compact;; d' ← data_start; c ← contiguous;
     mret (n, d <? wrap 16 PAGE_SIZE, d', c))
  = Ok (0, true, wrap 16 PAGE_SIZE, PAGE_SIZE - PAGE_HEADER_SIZE).

Definition test_compact_on_already_contiguous_page_is_noop : Prop :=
  on_leaf (insert 0 (str "Contiguous");; d ← data_start; c ← contiguous;
           compact;; d' ← data_start; c' ← contiguous; mret (d' - d, c' - c))
  = Ok (0, 0).

(** * All of them hold *)

Example slotted_insert_tests :
  test_initialize_sets_correct_defaults /\ test_add_record_verify_buffer_directly
  /\ test_insert_record_at_index_with_shifting /\ test_insert_at_invalid_index_fails
  /\ test_page_full_returns_error /\ test_get_record_retrieves_correct_data.
Proof. by vm_compute. Qed.

Example slotted_update_tests :
  test_update_record_in_place /\ test_update_record_relocates_when_larger
  /\ test_update_record_fails_when_relocation_exceeds_space
  /\ test_update_record_at_exact_remaining_space_limit
  /\ test_update_record_fails_one_byte_over_limit
  /\ test_update_record_smaller_size_updates_slot_length
  /\ test_update_record_invalid_index_returns_error.
Proof. by vm_compute. Qed.

Example slotted_delete_tests :
  test_delete_record_shifts_slots_left /\ test_delete_first_record_shifts_all_others
  /\ test_delete_record_invalid_index_is_noop /\ test_interleaved_inserts_and_deletes.
Proof. by vm_compute. Qed.

Example slotted_compact_tests :
  test_get_total_free_space_with_fragmentation /\ test_compact_reclaims_fragmented_space
  /\ test_compact_reclaims_space_after_relocation_updates
  /\ test_compact_after_all_records_deleted_resets_heap
  /\ test_compact_on_already_contiguous_page_is_noop.
Proof. by vm_compute. Qed.
