(* ===== verification/Schema.v ===== *)
(** The schema crate ([schema_def]): column types with their text form
    ([primitive_data_type.rs]), columns ([column_definition.rs]), constraints
    ([constraint.rs]) and tables ([table_definition.rs]). *)
From Stdlib Require Import String.
From S2P Require Import Prelude.
From S2P Require Import Bytes.
From S2P Require Import RustStr.

(** * Errors ([schema_error.rs]) *)

Inductive SchemaError :=
| ArgumentMismatch (type_name expected : rstr) (found : Z)
| EmptyDefaultValue
| EmptyInput
| InvalidColumnName
| InvalidForeignKey (msg : rstr)
| InvalidFormat (msg : rstr)
| InvalidKeyName
| InvalidNumber (s : rstr)
| InvalidTableName (msg : rstr)
| InvalidScale (precision scale : Z)
| UnknownType (name : rstr).

#[export] Instance SchemaError_eq_dec : EqDecision SchemaError.
Proof. solve_decision. Defined.

(** * Column types ([primitive_data_type.rs]) *)

Inductive PrimitiveDataType :=
| TUnknown
| TInt
| TBigInt
| TVarchar (len : Z)
| TBoolean
| TDecimal (precision scale : Z)
| TDateTime
| TFloat
| TBlob (len : Z).

#[export] Instance PrimitiveDataType_eq_dec : EqDecision PrimitiveDataType.
Proof. solve_decision. Defined.

(** The widths of the fields: [u16], [u8] and [u32]. *)
Definition type_ok (t : PrimitiveDataType) : Prop :=
  match t with
  | TVarchar n => 0 <= n < 2 ^ 16
  | TDecimal p s => 0 <= p < 2 ^ 8 /\ 0 <= s < 2 ^ 8
  | TBlob n => 0 <= n < 2 ^ 32
  | _ => True
  end.

(** [PrimitiveDataType::decimal]. *)
Definition decimal (precision scale : Z) : outcome SchemaError PrimitiveDataType :=
  if precision <? scale then Err (InvalidScale precision scale)
  else Ok (TDecimal precision scale).

Definition is_fixed_size (t : PrimitiveDataType) : bool :=
  match t with TBlob _ | TVarchar _ | TUnknown => false | _ => true end.

Definition get_fixed_size (t : PrimitiveDataType) : option Z :=
  match t with
  | TInt => Some 4
  | TBigInt => Some 8
  | TBoolean => Some 1
  | TDecimal _ _ => Some 16
  | TFloat => Some 8
  | TDateTime => Some 8
  | _ => None
  end.

(** [Display]. *)
Definition type_to_string (t : PrimitiveDataType) : rstr :=
  match t with
  | TUnknown => str "UNKNOWN"
  | TInt => str "INT"
  | TBigInt => str "BIGINT"
  | TVarchar len => str "VARCHAR(" ++ show_unsigned len ++ str ")"
  | TBoolean => str "BOOLEAN"
  | TDecimal p s => str "DECIMAL(" ++ show_unsigned p ++ str ", " ++ show_unsigned s ++ str ")"
  | TDateTime => str "DATETIME"
  | TFloat => str "FLOAT"
  | TBlob len => str "BLOB(" ++ show_unsigned len ++ str ")"
  end.

Definition LPAREN : Z := 40.
Definition RPAREN : Z := 41.
Definition COMMA : Z := 44.

(** The arguments between the parentheses, trimmed. *)
Definition split_args (args_str : option rstr) : list rstr :=
  match args_str with
  | Some s => if negb (is_empty (trim s)) then trim <$> split COMMA s else []
  | None => []
  end.

(** The name and the text between the parentheses. *)
Definition split_name (input normalized : rstr) : outcome SchemaError (rstr * option rstr) :=
  match find LPAREN normalized with
  | Some open_idx =>
      if negb (ends_with RPAREN normalized)
      then Err (InvalidFormat (str "Missing closing parenthesis in '" ++ input ++ str "'"))
      else
        name ← slice 0 open_idx normalized;
        last ← usub (zlen normalized) 1;
        args ← slice (open_idx + 1) last normalized;
        Ok (trim name, Some args)
  | None => Ok (normalized, None)
  end.

Definition no_args (name : rstr) (args : list rstr) (t : PrimitiveDataType) :
    outcome SchemaError PrimitiveDataType :=
  if negb (is_empty args) then Err (ArgumentMismatch name (str "0") (zlen args)) else Ok t.

(** [args[i].parse::<uW>().map_err(InvalidNumber)]. *)
Definition parse_arg (w : Z) (arg : rstr) : outcome SchemaError Z :=
  match parse_unsigned w arg with Some n => Ok n | None => Err (InvalidNumber arg) end.

(** A type with one length argument of width [w]. *)
Definition one_arg (name : rstr) (w : Z) (args : list rstr) (mk : Z -> PrimitiveDataType) :
    outcome SchemaError PrimitiveDataType :=
  if negb (zlen args =? 1) then Err (ArgumentMismatch name (str "1") (zlen args))
  else
    arg ← index 0 args;
    len ← parse_arg w arg;
    Ok (mk len).

Definition decimal_args (args : list rstr) : outcome SchemaError PrimitiveDataType :=
  if is_empty args then Ok (TDecimal 18 0)
  else if zlen args =? 2 then
    a0 ← index 0 args;
    p ← parse_arg 8 a0;
    a1 ← index 1 args;
    s ← parse_arg 8 a1;
    decimal p s
  else Err (ArgumentMismatch (str "DECIMAL") (str "0 or 2") (zlen args)).

(** [PrimitiveDataType::from_str]. *)
Definition from_str (input : rstr) : outcome SchemaError PrimitiveDataType :=
  let input := trim input in
  if is_empty input then Err EmptyInput
  else
    let normalized := to_ascii_uppercase input in
    '(type_name, args_str) ← split_name input normalized;
    let args := split_args args_str in
    let named s := bool_decide (type_name = s) in
    if named (str "INT") || named (str "INTEGER") then no_args (str "INT") args TInt
    else if named (str "BIGINT") then no_args (str "BIGINT") args TBigInt
    else if named (str "VARCHAR") then one_arg (str "VARCHAR") 16 args TVarchar
    else if named (str "BOOLEAN") || named (str "BOOL") then no_args (str "BOOLEAN") args TBoolean
    else if named (str "DECIMAL") then decimal_args args
    else if named (str "DATETIME") then no_args (str "DATETIME") args TDateTime
    else if named (str "FLOAT") || named (str "DOUBLE") then no_args (str "FLOAT") args TFloat
    else if named (str "BLOB") then one_arg (str "BLOB") 32 args TBlob
    else Err (UnknownType type_name).

(** * Columns ([column_definition.rs]) *)

Record ColumnDefinition := mkColumn {
  col_name : rstr;
  data_type : PrimitiveDataType;
  is_nullable : bool;
  default_value : option rstr;
}.

#[export] Instance ColumnDefinition_eq_dec : EqDecision ColumnDefinition.
Proof. solve_decision. Defined.

Definition column_new (name : rstr) (data_type : PrimitiveDataType) (is_nullable : bool)
    (default_value : option rstr) : outcome SchemaError ColumnDefinition :=
  if is_empty (trim name) then Err InvalidColumnName
  else if (match default_value with Some val => is_empty (trim val) | None => false end)
  then Err EmptyDefaultValue
  else Ok (mkColumn name data_type is_nullable default_value).

Definition is_fixed_type (c : ColumnDefinition) : bool :=
  match data_type c with TBlob _ => false | TVarchar _ => false | _ => true end.

(** * Constraints ([referential_action.rs], [constraint.rs]) *)

Inductive ReferentialAction := NoAction | Cascade | SetNull | SetDefault.

#[export] Instance ReferentialAction_eq_dec : EqDecision ReferentialAction.
Proof. solve_decision. Defined.

Inductive Constraint :=
| ForeignKey (name : rstr) (on_update on_delete : ReferentialAction)
    (referencing_column_names : list rstr) (referenced_table_name : rstr)
    (referenced_column_names : list rstr)
| PrimaryKey (name : rstr) (column_names : list rstr)
| UniqueKey (name : rstr) (column_names : list rstr).

#[export] Instance Constraint_eq_dec : EqDecision Constraint.
Proof. solve_decision. Defined.

Definition col_names (c : Constraint) : option (list rstr) :=
  match c with
  | PrimaryKey _ column_names => Some column_names
  | UniqueKey _ column_names => Some column_names
  | _ => None
  end.

Definition constraint_name (c : Constraint) : rstr :=
  match c with
  | PrimaryKey name _ => name
  | UniqueKey name _ => name
  | ForeignKey name _ _ _ _ _ => name
  end.

Definition validate_columns (column_names : list rstr) : outcome SchemaError unit :=
  if is_empty column_names then Err InvalidColumnName
  else ofold (fun _ col => if is_empty (trim col) then Err InvalidColumnName else Ok tt)
         tt column_names.

Definition validate_key (name : rstr) (column_names : list rstr) : outcome SchemaError unit :=
  if is_empty (trim name) then Err InvalidKeyName
  else validate_columns column_names.

Definition primary_key (name : rstr) (column_names : list rstr) : outcome SchemaError Constraint :=
  _ ← validate_key name column_names; Ok (PrimaryKey name column_names).

Definition unique_key (name : rstr) (column_names : list rstr) : outcome SchemaError Constraint :=
  _ ← validate_key name column_names; Ok (UniqueKey name column_names).

Definition foreign_key (name : rstr) (referencing_column_names : list rstr)
    (referenced_table_name : rstr) (referenced_column_names : list rstr)
    (on_update on_delete : ReferentialAction) : outcome SchemaError Constraint :=
  if is_empty (trim name)
  then Err (InvalidForeignKey (str "Foreign key name cannot be empty!"))
  else if is_empty (trim referenced_table_name)
  then Err (InvalidForeignKey (str "Foreign key referenced table name cannot be empty!"))
  else if is_empty referenced_column_names
  then Err (InvalidForeignKey (str "Foreign key referenced column name list cannot be empty!"))
  else if is_empty referencing_column_names
  then Err (InvalidForeignKey (str "Foreign key referencing column name list cannot be empty!"))
  else
    _ ← validate_columns referenced_column_names;
    _ ← validate_columns referencing_column_names;
    if negb (zlen referenced_column_names =? zlen referencing_column_names)
    then Err (InvalidForeignKey
           (str "Foreign key referenced column names count must match referencing column names count!"))
    else Ok (ForeignKey name on_update on_delete referencing_column_names
               referenced_table_name referenced_column_names).

(** * Tables ([table_definition.rs]) *)

Record TableDefinition := mkTable {
  table_id : Z;
  table_name : rstr;
  columns : list ColumnDefinition;
  constraints : list Constraint;
}.

Definition table_new (name : rstr) : outcome SchemaError TableDefinition :=
  if is_empty (trim name)
  then Err (InvalidTableName (str "Table name cannot be empty or whitespace!"))
  else Ok (mkTable 0 name [] []).

Definition add_column (column_def : ColumnDefinition) (t : TableDefinition) : TableDefinition :=
  mkTable (table_id t) (table_name t) (columns t ++ [column_def]) (constraints t).

Definition add_constraint (c : Constraint) (t : TableDefinition) : TableDefinition :=
  mkTable (table_id t) (table_name t) (columns t) (constraints t ++ [c]).

(** [iter().find(p)]. *)
Definition find_first {A} (p : A -> bool) (l : list A) : option A := List.find p l.

Definition get_column (name : rstr) (t : TableDefinition) : option ColumnDefinition :=
  find_first (fun c => bool_decide (col_name c = name)) (columns t).

Definition get_constraint (name : rstr) (t : TableDefinition) : option Constraint :=
  find_first (fun c => bool_decide (constraint_name c = name)) (constraints t).

Definition is_primary_key (c : Constraint) : bool :=
  match c with PrimaryKey _ _ => true | _ => false end.
Definition is_foreign_key (c : Constraint) : bool :=
  match c with ForeignKey _ _ _ _ _ _ => true | _ => false end.
Definition is_unique_key (c : Constraint) : bool :=
  match c with UniqueKey _ _ => true | _ => false end.

Definition get_primary_key (t : TableDefinition) : option Constraint :=
  find_first is_primary_key (constraints t).

Definition get_foreign_keys (t : TableDefinition) : list Constraint :=
  List.filter is_foreign_key (constraints t).

Definition get_unique_keys (t : TableDefinition) : list Constraint :=
  List.filter is_unique_key (constraints t).

(** The [expect] panics when a key column is not a column of the table. *)
Definition get_primary_key_columns {E} (t : TableDefinition) :
    outcome E (option (list ColumnDefinition)) :=
  match get_primary_key t with
  | Some (PrimaryKey _ column_names) =>
      defs ← ofold (fun acc name => c ← unwrap_opt (get_column name t); Ok (acc ++ [c]))
               [] column_names;
      Ok (Some defs)
  | _ => Ok None
  end.
