(* ===== verification/SchemaProps.v ===== *)
(** Properties of the schema crate: the text form of column types round trips
    and its parser is total and sound; the smart constructors accept exactly
    the valid constraints; table look-ups. *)
From Stdlib Require Import String.
From S2P Require Import Prelude.
From S2P Require Import Bytes.
From S2P Require Import RustStr.
From S2P Require Import Schema.

(** * The parser on [NAME(args)] *)

Lemma trim_ends a l z : not_ws a -> not_ws z -> trim (a :: l ++ [z]) = a :: l ++ [z].
Proof.
  intros Ha Hz. unfold trim. rewrite trim_start_plain by done.
  exact (trim_end_plain (a :: l) z Hz).
Qed.

Lemma split_name_call i name args :
  Forall (fun b => b <> LPAREN) name ->
  split_name i (name ++ LPAREN :: args ++ [RPAREN]) = Ok (trim name, Some args).
Proof.
  intros Hn. unfold split_name. rewrite find_app_not by done. simpl.
  rewrite Z.add_0_r.
  rewrite (proj2 (ends_with_spec RPAREN _)) by (by exists (name ++ LPAREN :: args); rewrite <- app_assoc).
  cbn [negb]. pose proof (zlen_nonneg name). pose proof (zlen_nonneg args).
  ostep @slice_ok by len. ostep @usub_ok by len. ostep @slice_ok by len. do 2 f_equal.
  - f_equal. rewrite sub_app_l by len. apply sub_whole; len.
  - f_equal. rewrite sub_app_r by len.
    change (LPAREN :: args ++ [RPAREN]) with ([LPAREN] ++ args ++ [RPAREN]).
    rewrite sub_app_r by len. rewrite sub_app_l by len. apply sub_whole; len.
Qed.

Lemma split_args_one d :
  d <> [] -> Forall is_digit d -> split_args (Some d) = [d].
Proof.
  intros Hne Hd. unfold split_args. rewrite trim_plain by (by apply digit_not_ws).
  destruct d as [|b d]; [done|]. cbn [is_empty negb]. rewrite split_none.
  - simpl. by rewrite trim_plain by (by apply digit_not_ws).
  - eapply Forall_impl; [exact Hd|]. unfold is_digit, COMMA. intros; simpl in *; lia.
Qed.

Lemma split_args_two d1 d2 :
  d1 <> [] -> d2 <> [] -> Forall is_digit d1 -> Forall is_digit d2 ->
  split_args (Some (d1 ++ str ", " ++ d2)) = [d1; d2].
Proof.
  intros Hn1 Hn2 H1 H2. unfold split_args.
  assert (forall d, Forall is_digit d -> Forall (fun b => b <> COMMA) d) as Hc.
  { intros d Hd. eapply Forall_impl; [exact Hd|]. unfold is_digit, COMMA. intros; simpl in *; lia. }
  destruct d1 as [|b1 d1]; [done|].
  destruct (exists_last (l := d2)) as (d2' & z & Hz); [done|].
  assert (trim ((b1 :: d1) ++ str ", " ++ d2) = (b1 :: d1) ++ str ", " ++ d2) as ->.
  { rewrite Hz. replace ((b1 :: d1) ++ str ", " ++ d2' ++ [z])
      with (b1 :: (d1 ++ str ", " ++ d2') ++ [z]) by (simpl; by rewrite <- app_assoc).
    apply trim_ends.
    - apply digit_not_ws in H1. by inversion H1.
    - rewrite Hz in H2. apply digit_not_ws, Forall_app in H2 as [_ H2]. by inversion H2. }
  cbn [is_empty negb app].
  change (b1 :: d1 ++ str ", " ++ d2) with ((b1 :: d1) ++ COMMA :: 32 :: d2).
  rewrite split_app by (by apply Hc). rewrite split_none by (constructor; [done|by apply Hc]).
  cbn [fmap list_fmap]. rewrite trim_space, !trim_plain by (by apply digit_not_ws). done.
Qed.

Lemma one_arg_ok name w n mk :
  0 <= w <= 64 -> 0 <= n < 2 ^ w -> one_arg name w [show_unsigned n] mk = Ok (mk n).
Proof. intros Hw Hn. unfold one_arg, parse_arg; simpl. by rewrite parse_show_unsigned. Qed.

Lemma decimal_args_ok p s :
  0 <= p < 2 ^ 8 -> 0 <= s < 2 ^ 8 -> decimal_args [show_unsigned p; show_unsigned s] = decimal p s.
Proof. intros Hp Hs. unfold decimal_args, parse_arg; simpl. by rewrite !parse_show_unsigned. Qed.

Lemma show_unsigned_digits n : 0 <= n -> Forall is_digit (show_unsigned n) /\ show_unsigned n <> [].
Proof. split; [by apply show_digits_ok|apply show_digits_nonempty]. Qed.

(** [from_str] on the text of a type with arguments. *)
Lemma from_str_call a name args :
  not_ws a -> to_ascii_uppercase (a :: name) = a :: name -> to_ascii_uppercase args = args ->
  Forall (fun b => b <> LPAREN) (a :: name) ->
  let input := (a :: name) ++ LPAREN :: args ++ [RPAREN] in
  trim input = input /\ to_ascii_uppercase input = input
  /\ split_name input input = Ok (trim (a :: name), Some args).
Proof.
  intros Ha Hn Hargs Hp. cbv zeta. split_and!.
  - replace ((a :: name) ++ LPAREN :: args ++ [RPAREN])
      with (a :: (name ++ LPAREN :: args) ++ [RPAREN]) by (simpl; by rewrite <- app_assoc).
    by apply trim_ends.
  - rewrite upper_app, Hn. f_equal. unfold to_ascii_uppercase in *.
    by rewrite fmap_cons, fmap_app, Hargs.
  - by apply split_name_call.
Qed.

(** * Properties *)

(** C30: Round trip: parsing the text of a column type gives the type back, for
    every type but [Unknown] whose fields fit their widths and whose scale is
    at most its precision. *)
Theorem type_text_roundtrip t :
  type_ok t -> t <> TUnknown -> (forall p s, t = TDecimal p s -> s <= p) ->
  from_str (type_to_string t) = Ok t.
Proof.
  intros Ht Hu Hd. destruct t as [| | |n| |p s| | |n]; try done; unfold type_to_string.
  - destruct (show_unsigned_digits n) as [Hn1 Hn2]; [simpl in Ht; lia|].
    destruct (from_str_call 86 (str "ARCHAR") (show_unsigned n)) as (H1 & H2 & H3);
      [unfold not_ws; lia|done|by apply upper_digits|by apply (bool_decide_unpack _); vm_compute|].
    unfold from_str. change (str "VARCHAR(" ++ show_unsigned n ++ str ")")
      with ((86 :: str "ARCHAR") ++ LPAREN :: show_unsigned n ++ [RPAREN]).
    rewrite H1, H2, H3. cbn [is_empty app mbind outcome_bind].
    rewrite split_args_one by done. by apply one_arg_ok.
  - destruct Ht as [Hp Hs]. specialize (Hd p s eq_refl).
    destruct (show_unsigned_digits p) as [Hp1 Hp2]; [lia|].
    destruct (show_unsigned_digits s) as [Hs1 Hs2]; [lia|].
    destruct (from_str_call 68 (str "ECIMAL") (show_unsigned p ++ str ", " ++ show_unsigned s))
      as (H1 & H2 & H3);
      [unfold not_ws; lia|done| |by apply (bool_decide_unpack _); vm_compute|].
    { rewrite !upper_app, (upper_digits (show_unsigned p)), (upper_digits (show_unsigned s)) by done.
      done. }
    unfold from_str.
    replace (str "DECIMAL(" ++ show_unsigned p ++ str ", " ++ show_unsigned s ++ str ")")
      with ((68 :: str "ECIMAL") ++ LPAREN :: (show_unsigned p ++ str ", " ++ show_unsigned s) ++ [RPAREN])
      by (rewrite <- !app_assoc; done).
    rewrite H1, H2, H3. cbn [is_empty app mbind outcome_bind].
    rewrite split_args_two by done.
    change (decimal_args [show_unsigned p; show_unsigned s] = Ok (TDecimal p s)).
    rewrite decimal_args_ok by done. unfold decimal. by zbool.
  - destruct (show_unsigned_digits n) as [Hn1 Hn2]; [simpl in Ht; lia|].
    destruct (from_str_call 66 (str "LOB") (show_unsigned n)) as (H1 & H2 & H3);
      [unfold not_ws; lia|done|by apply upper_digits|by apply (bool_decide_unpack _); vm_compute|].
    unfold from_str. change (str "BLOB(" ++ show_unsigned n ++ str ")")
      with ((66 :: str "LOB") ++ LPAREN :: show_unsigned n ++ [RPAREN]).
    rewrite H1, H2, H3. cbn [is_empty app mbind outcome_bind].
    rewrite split_args_one by done. by apply one_arg_ok.
Qed.

Lemma type_text_roundtrip_witness : from_str (type_to_string (TDecimal 10 2)) = Ok (TDecimal 10 2).
Proof.
  apply (type_text_roundtrip (TDecimal 10 2)); [simpl; lia|done|].
  intros p s [= <- <-]. lia.
Defined.

(** * The parser is total and sound *)

Lemma slice_args_ok {E} i l :
  find LPAREN l = Some i -> ends_with RPAREN l = true ->
  exists name args, @slice E Z 0 i l = Ok name /\ 1 <= zlen l
    /\ @slice E Z (i + 1) (zlen l - 1) l = Ok args.
Proof.
  intros (l1 & l2 & -> & <-)%find_Some [l' Hl']%ends_with_spec.
  destruct (exists_last (l := LPAREN :: l2)) as (l2' & z & Hz); [done|].
  assert (z = RPAREN) as ->.
  { rewrite Hz, app_assoc in Hl'. by apply app_inj_tail in Hl' as [_ ->]. }
  destruct l2' as [|x l2']; [by injection Hz|]. injection Hz as <- ->.
  pose proof (zlen_nonneg l1). pose proof (zlen_nonneg l2').
  do 2 eexists. split_and!; [apply slice_ok; len|len|apply slice_ok; len].
Qed.

Lemma split_name_total i l : split_name i l <> Panic.
Proof.
  unfold split_name. destruct (find LPAREN l) as [k|] eqn:Hf; [|done].
  destruct (ends_with RPAREN l) eqn:He; [|done]. cbn [negb].
  destruct (slice_args_ok (E := SchemaError) k l Hf He) as (name & args & H1 & H2 & H3).
  rewrite H1. simpl. rewrite usub_ok by done. simpl. by rewrite H3.
Qed.

Lemma parse_digits_range w acc l n :
  0 <= acc < 2 ^ w -> parse_digits w acc l = Some n -> 0 <= n < 2 ^ w.
Proof.
  revert acc. induction l as [|b l IH]; intros acc Ha; cbn [parse_digits]; [naive_solver|].
  unfold digit_val. destruct (between 48 57 b) eqn:Hb; simpl; [|done].
  apply between_spec in Hb. case_bool; [|done]. apply IH. lia.
Qed.

Lemma parse_unsigned_range w l n : 0 <= w -> parse_unsigned w l = Some n -> 0 <= n < 2 ^ w.
Proof.
  intros Hw. assert (0 <= 0 < 2 ^ w) by (pose proof (Z.pow_pos_nonneg 2 w); lia).
  unfold parse_unsigned. destruct l as [|b l]; [done|].
  case_bool; [destruct (is_empty l); [done|]|]; by apply parse_digits_range.
Qed.

(** What a result of the parser looks like. *)
Definition parsed_ok (t : PrimitiveDataType) : Prop :=
  type_ok t /\ t <> TUnknown /\ forall p s, t = TDecimal p s -> s <= p.

Definition parser_result (m : outcome SchemaError PrimitiveDataType) : Prop :=
  match m with Ok t => parsed_ok t | Err _ => True | Panic => False end.

Lemma parsed_ok_decimal p s :
  0 <= p < 2 ^ 8 -> 0 <= s < 2 ^ 8 -> s <= p -> parsed_ok (TDecimal p s).
Proof. intros. split; [by split|]. split; [done|]. by intros ?? [= <- <-]. Qed.

Lemma parsed_ok_other t :
  type_ok t -> match t with TUnknown | TDecimal _ _ => False | _ => True end -> parsed_ok t.
Proof. by destruct t. Qed.

Lemma no_args_result name args t : parsed_ok t -> parser_result (no_args name args t).
Proof. intros. unfold no_args. by case_match. Qed.

Lemma one_arg_result name w args mk :
  0 <= w -> (forall n, 0 <= n < 2 ^ w -> parsed_ok (mk n)) -> parser_result (one_arg name w args mk).
Proof.
  intros Hw Hmk. unfold one_arg. destruct args as [|a [|b args]]; [done| |].
  - simpl. unfold parse_arg. destruct (parse_unsigned w a) eqn:Hp; simpl; [|done].
    eapply Hmk, parse_unsigned_range; done.
  - rewrite !zlen_cons. pose proof (zlen_nonneg args). by zbool.
Qed.

Lemma decimal_args_result args : parser_result (decimal_args args).
Proof.
  unfold decimal_args. destruct args as [|a [|b [|c args]]].
  - apply parsed_ok_decimal; lia.
  - done.
  - simpl. unfold parse_arg. destruct (parse_unsigned 8 a) as [p|] eqn:Hp; simpl; [|done].
    destruct (parse_unsigned 8 b) as [s|] eqn:Hs; simpl; [|done].
    apply parse_unsigned_range in Hp, Hs; [|lia..]. unfold decimal. case_bool; [done|].
    by apply parsed_ok_decimal.
  - cbn [is_empty]. rewrite !zlen_cons. pose proof (zlen_nonneg args). by zbool.
Qed.

(** C31: The parser is total and sound: on any input [from_str] returns a type
    or a [SchemaError] and never panics (its slices at the parentheses are in
    range), and a type it returns fits its widths, is not [Unknown] and has its
    scale at most its precision. *)
Theorem from_str_sound s : parser_result (from_str s).
Proof.
  unfold from_str. destruct (is_empty (trim s)); [done|].
  pose proof (split_name_total (trim s) (to_ascii_uppercase (trim s))) as Hp.
  destruct (split_name _ _) as [[name args]|e|]; [|done|done]. cbn [mbind outcome_bind].
  repeat case_match; try done.
  all: first [apply decimal_args_result | apply no_args_result; by apply parsed_ok_other
    | apply one_arg_result; [lia|intros; by apply parsed_ok_other]].
Qed.

(** * Letter case and blanks around the text *)

Lemma upper_byte_cases b : upper_byte b = b \/ 97 <= b <= 122 /\ upper_byte b = b - 32.
Proof. unfold upper_byte. destruct (between 97 122 b) eqn:H; [right|by left]. by apply between_spec in H. Qed.

Lemma between_upper lo hi b :
  (hi < 65 \/ 122 < lo) -> between lo hi (upper_byte b) = between lo hi b.
Proof.
  intros H. destruct (upper_byte_cases b) as [->|[Hb ->]]; [done|].
  rewrite !between_false by lia. done.
Qed.

Lemma eqb_upper c b : (c < 65 \/ 122 < c) -> (upper_byte b =? c) = (b =? c).
Proof.
  intros H. destruct (upper_byte_cases b) as [->|[Hb ->]]; [done|]. by zbool.
Qed.

Lemma ws1_upper a : ws1 (upper_byte a) = ws1 a.
Proof. unfold ws1. by rewrite between_upper, eqb_upper by lia. Qed.
Lemma ws2_upper a b : ws2 (upper_byte a) (upper_byte b) = ws2 a b.
Proof. unfold ws2. by rewrite !eqb_upper by lia. Qed.
Lemma ws3_upper a b c : ws3 (upper_byte a) (upper_byte b) (upper_byte c) = ws3 a b c.
Proof. unfold ws3. by rewrite between_upper, !eqb_upper by lia. Qed.

Lemma upper_byte_idemp b : upper_byte (upper_byte b) = upper_byte b.
Proof.
  destruct (upper_byte_cases b) as [E|[Hb ->]]; [by rewrite !E|].
  unfold upper_byte. by rewrite between_false by lia.
Qed.

Lemma upper_idemp l : to_ascii_uppercase (to_ascii_uppercase l) = to_ascii_uppercase l.
Proof.
  unfold to_ascii_uppercase. rewrite <- list_fmap_compose. apply list_fmap_ext.
  intros _ b _. apply upper_byte_idemp.
Qed.

Lemma list_ind3 {A} (P : list A -> Prop) :
  P [] -> (forall a l, (forall l', (length l' <= length l)%nat -> P l') -> P (a :: l)) ->
  forall l, P l.
Proof.
  intros H0 HS l. assert (forall n l, (length l <= n)%nat -> P l) as H.
  { induction n as [|n IH]; intros [|a l'] Hl; simpl in Hl; try lia; auto.
    apply HS. intros l'' Hl''. apply IH. lia. }
  by apply (H (length l)).
Qed.

Lemma trim_start_upper l : trim_start (to_ascii_uppercase l) = to_ascii_uppercase (trim_start l).
Proof.
  induction l as [|a l IH] using list_ind3; [done|]. unfold to_ascii_uppercase in *.
  rewrite fmap_cons. cbn [trim_start]. rewrite ws1_upper.
  destruct (ws1 a); [by apply IH|]. destruct l as [|b l]; [done|].
  rewrite fmap_cons, ws2_upper. destruct (ws2 a b); [apply IH; simpl; lia|].
  destruct l as [|c l]; [done|]. rewrite fmap_cons, ws3_upper.
  destruct (ws3 a b c); [apply IH; simpl; lia|done].
Qed.

Lemma trim_rev_upper l : trim_rev (to_ascii_uppercase l) = to_ascii_uppercase (trim_rev l).
Proof.
  induction l as [|a l IH] using list_ind3; [done|]. unfold to_ascii_uppercase in *.
  rewrite fmap_cons. cbn [trim_rev]. rewrite ws1_upper.
  destruct (ws1 a); [by apply IH|]. destruct l as [|b l]; [done|].
  rewrite fmap_cons, ws2_upper. destruct (ws2 b a); [apply IH; simpl; lia|].
  destruct l as [|c l]; [done|]. rewrite fmap_cons, ws3_upper.
  destruct (ws3 c b a); [apply IH; simpl; lia|done].
Qed.

Lemma reverse_upper l : reverse (to_ascii_uppercase l) = to_ascii_uppercase (reverse l).
Proof. unfold to_ascii_uppercase. by rewrite fmap_reverse. Qed.

Lemma trim_upper l : trim (to_ascii_uppercase l) = to_ascii_uppercase (trim l).
Proof.
  unfold trim, trim_end. by rewrite trim_start_upper, reverse_upper, trim_rev_upper, reverse_upper.
Qed.

Lemma split_name_input i j l : split_name i l = split_name j l \/
  exists e1 e2, split_name i l = Err e1 /\ split_name j l = Err e2.
Proof.
  unfold split_name. destruct (find LPAREN l); [|by left].
  destruct (ends_with RPAREN l); [by left|]. right. eauto.
Qed.

(** Parsing does not depend on the letter case of the input. *)
Theorem from_str_case_insensitive s t :
  from_str (to_ascii_uppercase s) = Ok t <-> from_str s = Ok t.
Proof.
  unfold from_str. rewrite trim_upper, upper_idemp. set (u := trim s).
  replace (is_empty (to_ascii_uppercase u)) with (is_empty u) by (by destruct u).
  destruct (is_empty u); [done|].
  destruct (split_name_input (to_ascii_uppercase u) u (to_ascii_uppercase u))
    as [->|(e1 & e2 & -> & ->)]; [done|].
  by split.
Qed.

(** * Constraints *)

Definition blank (s : rstr) : Prop := is_empty (trim s) = true.
Definition names_ok (l : list rstr) : Prop := l <> [] /\ Forall (fun n => ~ blank n) l.

#[export] Instance blank_dec s : Decision (blank s).
Proof. unfold blank. apply _. Defined.
#[export] Instance names_ok_dec l : Decision (names_ok l).
Proof. unfold names_ok. apply _. Defined.

Definition valid_constraint (c : Constraint) : Prop :=
  match c with
  | PrimaryKey name cols => ~ blank name /\ names_ok cols
  | UniqueKey name cols => ~ blank name /\ names_ok cols
  | ForeignKey name _ _ referencing table referenced =>
      ~ blank name /\ ~ blank table /\ names_ok referencing /\ names_ok referenced
      /\ length referencing = length referenced
  end.

(** The constructor of each variant, on the variant's fields. *)
Definition construct (c : Constraint) : outcome SchemaError Constraint :=
  match c with
  | PrimaryKey name cols => primary_key name cols
  | UniqueKey name cols => unique_key name cols
  | ForeignKey name upd del referencing table referenced =>
      foreign_key name referencing table referenced upd del
  end.

Lemma not_blank s : ~ blank s <-> is_empty (trim s) = false.
Proof. unfold blank. by rewrite not_true_iff_false. Qed.

Lemma validate_columns_spec l :
  validate_columns l = if decide (names_ok l) then Ok tt else Err InvalidColumnName.
Proof.
  unfold validate_columns, names_ok. destruct l as [|n l]; [done|]. cbn [is_empty].
  remember (n :: l) as l' eqn:Hl. assert (l' <> []) as Hne by (by subst). clear Hl n l.
  assert (ofold (fun _ col => if is_empty (trim col) then Err InvalidColumnName else Ok tt) tt l'
    = if decide (Forall (fun n => ~ blank n) l') then Ok tt else Err InvalidColumnName) as ->.
  { clear Hne. induction l' as [|n l IH]; [done|]. simpl. destruct (is_empty (trim n)) eqn:Hn.
    - simpl. rewrite decide_False; [done|]. intros H%Forall_cons. by apply H.
    - simpl. rewrite IH. apply not_blank in Hn. apply decide_ext.
      rewrite Forall_cons. tauto. }
  apply decide_ext. tauto.
Qed.

Lemma validate_key_spec n l :
  validate_key n l = Ok tt /\ ~ blank n /\ names_ok l
  \/ exists e, validate_key n l = Err e /\ ~ (~ blank n /\ names_ok l).
Proof.
  unfold validate_key. destruct (is_empty (trim n)) eqn:Hn.
  - right. exists InvalidKeyName. unfold blank. tauto.
  - apply not_blank in Hn. rewrite validate_columns_spec. case_decide; [by left|].
    right. exists InvalidColumnName. tauto.
Qed.

(** C39: The constraint constructors accept exactly the valid constraints
    (non-blank names, non-empty lists of non-blank columns and, for a foreign
    key, lists of the same length), store their arguments unchanged, and reject
    everything else with an error, never a panic. *)
Theorem constraint_constructors_exact c :
  (valid_constraint c /\ construct c = Ok c)
  \/ (~ valid_constraint c /\ exists e, construct c = Err e).
Proof.
  destruct c as [name upd del ring table red|name cols|name cols]; simpl.
  - unfold foreign_key. destruct (is_empty (trim name)) eqn:Hn.
    { right. split; [intros [H _]; by apply H|]. eauto. }
    destruct (is_empty (trim table)) eqn:Ht.
    { right. split; [intros (_ & H & _); by apply H|]. eauto. }
    apply not_blank in Hn, Ht.
    destruct (is_empty red) eqn:Hred.
    { right. destruct red; [|done]. split; [intros (_ & _ & _ & [H _] & _); by apply H|]. eauto. }
    destruct (is_empty ring) eqn:Hring.
    { right. destruct ring; [|done]. split; [intros (_ & _ & [H _] & _); by apply H|]. eauto. }
    rewrite !validate_columns_spec.
    destruct (decide (names_ok red)); [|right; simpl; split; [tauto|eauto]].
    destruct (decide (names_ok ring)); [|right; simpl; split; [tauto|eauto]]. simpl. unfold zlen.
    case_bool; simpl; [left|right].
    + split; [split_and!; (done || lia)|done].
    + split; [intros (_ & _ & _ & _ & ?); lia|eauto].
  - unfold primary_key. destruct (validate_key_spec name cols) as [[-> ?]|(e & -> & ?)]; simpl; eauto.
  - unfold unique_key. destruct (validate_key_spec name cols) as [[-> ?]|(e & -> & ?)]; simpl; eauto.
Qed.

(** * Tables *)

Lemma find_first_some {A} (p : A -> bool) l x : find_first p l = Some x -> x ∈ l /\ p x = true.
Proof. intros [H1 H2]%List.find_some. by rewrite list_elem_of_In. Qed.

Lemma find_first_none {A} (p : A -> bool) l x : find_first p l = None -> x ∈ l -> p x = false.
Proof. intros H1 H2. apply (List.find_none p l H1 x). by apply list_elem_of_In. Qed.

Lemma find_first_app {A} (p : A -> bool) l1 l2 :
  find_first p (l1 ++ l2) = match find_first p l1 with Some x => Some x | None => find_first p l2 end.
Proof. unfold find_first. induction l1 as [|x l IH]; [done|]. simpl. by destruct (p x). Qed.

Lemma get_column_some n t c : get_column n t = Some c -> col_name c = n /\ c ∈ columns t.
Proof. intros [? ?%bool_decide_eq_true]%find_first_some. done. Qed.

Lemma get_column_present n t :
  n ∈ col_name <$> columns t -> exists c, get_column n t = Some c.
Proof.
  intros (c & -> & Hc)%list_elem_of_fmap. destruct (get_column (col_name c) t) as [d|] eqn:Hg; [eauto|].
  eapply find_first_none in Hg; [|done]. by apply bool_decide_eq_false in Hg.
Qed.

Lemma lookup_columns {E} t names acc :
  (Forall (fun n => n ∈ col_name <$> columns t) names ->
   exists defs, ofold (fun acc name => c ← unwrap_opt (get_column name t); Ok (acc ++ [c])) acc names
     = @Ok E _ (acc ++ defs) /\ col_name <$> defs = names /\ Forall (fun c => c ∈ columns t) defs)
  /\ (~ Forall (fun n => n ∈ col_name <$> columns t) names ->
   ofold (fun acc name => c ← unwrap_opt (get_column name t); Ok (acc ++ [c])) acc names
     = @Panic E _).
Proof.
  revert acc. induction names as [|n names IH]; intros acc.
  { split; [|by intros []]. exists []. by rewrite app_nil_r. }
  simpl. destruct (get_column n t) as [c|] eqn:Hg; simpl.
  - destruct (get_column_some _ _ _ Hg) as [<- Hc]. destruct (IH (acc ++ [c])) as [IH1 IH2]. split.
    + intros [_ Hn]%Forall_cons. destruct (IH1 Hn) as (defs & -> & <- & Hd).
      exists (c :: defs). rewrite <- app_assoc. split_and!; [done|done|by constructor].
    + intros Hn. apply IH2. intros H. apply Hn. constructor; [by apply list_elem_of_fmap_2|done].
  - split; [|done]. intros [Hn _]%Forall_cons. apply get_column_present in Hn as [c Hn]. congruence.
Qed.

(** C40: [get_primary_key_columns] gives the definitions of the key's columns in
    the order of the key, all of them columns of the table; without a primary
    key it is [None]; it panics exactly when the key names a column the table
    does not have. *)
Theorem primary_key_columns_spec {E} t :
  match get_primary_key t with
  | Some c => exists name cols, c = PrimaryKey name cols /\ c ∈ constraints t
      /\ (Forall (fun n => n ∈ col_name <$> columns t) cols ->
          exists defs, @get_primary_key_columns E t = Ok (Some defs)
            /\ col_name <$> defs = cols /\ Forall (fun d => d ∈ columns t) defs)
      /\ (~ Forall (fun n => n ∈ col_name <$> columns t) cols ->
          @get_primary_key_columns E t = Panic)
  | None => @get_primary_key_columns E t = Ok None
      /\ Forall (fun c => is_primary_key c = false) (constraints t)
  end.
Proof.
  unfold get_primary_key_columns. destruct (get_primary_key t) as [c|] eqn:Hk.
  - apply find_first_some in Hk as [Hin Hp]. destruct c as [|name cols|]; try done.
    exists name, cols. destruct (lookup_columns (E := E) t cols []) as [H1 H2].
    split_and!; [done|done| |].
    + intros Hc. destruct (H1 Hc) as (defs & -> & Hd). exists defs. by simpl.
    + intros Hc. by rewrite (H2 Hc).
  - split; [done|]. apply Forall_forall. intros c Hc. by eapply find_first_none in Hk.
Qed.

(** A table under construction. *)
Definition build_table (t : TableDefinition) (cs : list ColumnDefinition) (ks : list Constraint) :
    TableDefinition :=
  fold_left (fun t k => add_constraint k t) ks (fold_left (fun t c => add_column c t) cs t).

Lemma build_table_fields t cs ks :
  build_table t cs ks = mkTable (table_id t) (table_name t) (columns t ++ cs) (constraints t ++ ks).
Proof.
  unfold build_table.
  assert (fold_left (fun t c => add_column c t) cs t
    = mkTable (table_id t) (table_name t) (columns t ++ cs) (constraints t)) as ->.
  { revert t. induction cs as [|c cs IH]; intros t; simpl.
    - rewrite app_nil_r. by destruct t.
    - rewrite IH. simpl. by rewrite <- app_assoc. }
  assert (forall t', fold_left (fun t k => add_constraint k t) ks t'
    = mkTable (table_id t') (table_name t') (columns t') (constraints t' ++ ks)) as H.
  { induction ks as [|k ks IH]; intros t'; simpl.
    - rewrite app_nil_r. by destruct t'.
    - rewrite IH. simpl. by rewrite <- app_assoc. }
  by rewrite H.
Qed.

(** A table built from a name by adding columns and constraints returns,
    for a name, the first column (constraint) added under it, and lists its
    foreign and unique keys in the order they were added. *)
Theorem table_built_lookup name t cs ks n :
  table_new name = Ok t ->
  ~ blank name /\ table_name (build_table t cs ks) = name
  /\ get_column n (build_table t cs ks) = find_first (fun c => bool_decide (col_name c = n)) cs
  /\ get_constraint n (build_table t cs ks)
     = find_first (fun c => bool_decide (constraint_name c = n)) ks
  /\ get_foreign_keys (build_table t cs ks) = List.filter is_foreign_key ks
  /\ get_unique_keys (build_table t cs ks) = List.filter is_unique_key ks
  /\ get_primary_key (build_table t cs ks) = find_first is_primary_key ks.
Proof.
  unfold table_new. destruct (is_empty (trim name)) eqn:Hn; [done|]. intros [= <-].
  rewrite build_table_fields. split; [by apply not_blank|]. by split_and!.
Qed.

Lemma table_built_lookup_witness :
  let t := mkTable 0 (str "users") [] [] in
  let cs := [mkColumn (str "id") TInt false None] in
  let ks := [PrimaryKey (str "pk") [str "id"]] in
  ~ blank (str "users") /\ table_name (build_table t cs ks) = str "users"
  /\ get_column (str "id") (build_table t cs ks)
     = find_first (fun c => bool_decide (col_name c = str "id")) cs
  /\ get_constraint (str "id") (build_table t cs ks)
     = find_first (fun c => bool_decide (constraint_name c = str "id")) ks
  /\ get_foreign_keys (build_table t cs ks) = List.filter is_foreign_key ks
  /\ get_unique_keys (build_table t cs ks) = List.filter is_unique_key ks
  /\ get_primary_key (build_table t cs ks) = find_first is_primary_key ks.
Proof. cbv zeta. apply (table_built_lookup (str "users")). vm_compute. reflexivity. Defined.
