(* ===== verification/SchemaTests.v ===== *)
(** The unit tests of the schema crate, as statements about the model: each
    definition is the conjunction of the assertions of the test of that name. *)
From Stdlib Require Import String.
From S2P Require Import Prelude.
From S2P Require Import Bytes.
From S2P Require Import RustStr.
From S2P Require Import Schema.

(** [assert!(x.is_err())], [assert!(matches!(x, Err(p)))]. *)
Definition fails {A} (m : outcome SchemaError A) : Prop := match m with Err _ => True | _ => False end.
Definition fails_as {A} (p : SchemaError -> bool) (m : outcome SchemaError A) : Prop :=
  match m with Err e => p e = true | _ => False end.
Definition ok_some {A} (o : option A) : bool := match o with Some _ => true | None => false end.

Definition is_mismatch (e : SchemaError) : bool :=
  match e with ArgumentMismatch _ _ _ => true | _ => false end.
Definition is_invalid_number (e : SchemaError) : bool :=
  match e with InvalidNumber _ => true | _ => false end.
Definition is_invalid_scale (e : SchemaError) : bool :=
  match e with InvalidScale _ _ => true | _ => false end.
Definition is_unknown_type (e : SchemaError) : bool :=
  match e with UnknownType _ => true | _ => false end.

(** * [primitive_data_type.rs] *)

Definition test_decimal_validation : Prop :=
  decimal 10 2 = Ok (TDecimal 10 2) /\ is_ok (decimal 5 5) = true
  /\ decimal 2 10 = Err (InvalidScale 2 10).

Definition test_fixed_sizes : Prop :=
  get_fixed_size TInt = Some 4 /\ get_fixed_size TBigInt = Some 8
  /\ get_fixed_size TFloat = Some 8 /\ get_fixed_size TBoolean = Some 1
  /\ get_fixed_size TDateTime = Some 8 /\ get_fixed_size (TDecimal 10 2) = Some 16
  /\ get_fixed_size (TVarchar 255) = None /\ get_fixed_size (TBlob 1024) = None.

Definition test_is_fixed_size : Prop :=
  is_fixed_size TInt = true /\ is_fixed_size TBigInt = true /\ is_fixed_size TFloat = true
  /\ is_fixed_size TBoolean = true /\ is_fixed_size TDateTime = true
  /\ is_fixed_size (TDecimal 10 2) = true /\ is_fixed_size (TVarchar 255) = false
  /\ is_fixed_size (TBlob 1024) = false /\ is_fixed_size TUnknown = false.

Definition test_to_string : Prop :=
  type_to_string TInt = str "INT" /\ type_to_string TBigInt = str "BIGINT"
  /\ type_to_string TBoolean = str "BOOLEAN" /\ type_to_string TDateTime = str "DATETIME"
  /\ type_to_string TFloat = str "FLOAT" /\ type_to_string TUnknown = str "UNKNOWN"
  /\ type_to_string (TVarchar 100) = str "VARCHAR(100)"
  /\ type_to_string (TBlob 2048) = str "BLOB(2048)"
  /\ type_to_string (TDecimal 10 2) = str "DECIMAL(10, 2)".

Definition test_from_str : Prop :=
  from_str (str "INT") = Ok TInt /\ from_str (str "integer") = Ok TInt
  /\ from_str (str "BIGINT") = Ok TBigInt /\ from_str (str "BOOLEAN") = Ok TBoolean
  /\ from_str (str "BOOL") = Ok TBoolean /\ from_str (str "DATETIME") = Ok TDateTime
  /\ from_str (str "FLOAT") = Ok TFloat
  /\ from_str (str "VARCHAR(100)") = Ok (TVarchar 100)
  /\ from_str (str "varchar( 255 )") = Ok (TVarchar 255)
  /\ from_str (str "BLOB(1024)") = Ok (TBlob 1024)
  /\ from_str (str "DECIMAL") = Ok (TDecimal 18 0)
  /\ from_str (str "DECIMAL(10, 2)") = Ok (TDecimal 10 2)
  /\ from_str (str "DECIMAL( 5 , 5 )") = Ok (TDecimal 5 5)
  /\ fails_as is_unknown_type (from_str (str "FOOBAR"))
  /\ fails_as is_mismatch (from_str (str "INT(10)"))
  /\ fails_as is_mismatch (from_str (str "VARCHAR"))
  /\ fails_as is_invalid_number (from_str (str "VARCHAR(ABC)"))
  /\ fails_as is_invalid_scale (from_str (str "DECIMAL(2, 10)")).

(** * [column_definition.rs] *)

Definition test_create_valid_column : Prop :=
  column_new (str "id") TInt false None = Ok (mkColumn (str "id") TInt false None).

Definition test_create_valid_column_with_default : Prop :=
  column_new (str "created_at") TDateTime false (Some (str "NOW()"))
  = Ok (mkColumn (str "created_at") TDateTime false (Some (str "NOW()"))).

Definition test_create_invalid_empty_name : Prop :=
  column_new (str "") TInt false None = Err InvalidColumnName.

Definition test_create_invalid_whitespace_name : Prop :=
  column_new (str "   ") TInt false None = Err InvalidColumnName.

Definition test_create_invalid_empty_default : Prop :=
  column_new (str "id") TInt false (Some (str "")) = Err EmptyDefaultValue.

Definition test_create_invalid_whitespace_default : Prop :=
  column_new (str "id") TInt false (Some (str "   ")) = Err EmptyDefaultValue.

(** * [constraint.rs] *)

Definition test_primary_key_valid : Prop :=
  primary_key (str "pk_users") [str "id"] = Ok (PrimaryKey (str "pk_users") [str "id"]).

Definition test_primary_key_invalid_empty_name : Prop :=
  primary_key (str "") [str "id"] = Err InvalidKeyName.

Definition test_primary_key_invalid_empty_columns : Prop := fails (primary_key (str "pk_users") []).

Definition test_unique_key_valid : Prop :=
  unique_key (str "uq_email") [str "email"] = Ok (UniqueKey (str "uq_email") [str "email"]).

Definition test_foreign_key_valid : Prop :=
  foreign_key (str "fk_user_role") [str "role_id"] (str "roles") [str "id"] Cascade NoAction
  = Ok (ForeignKey (str "fk_user_role") Cascade NoAction [str "role_id"] (str "roles") [str "id"]).

Definition test_foreign_key_invalid_mismatched_columns : Prop :=
  fails (foreign_key (str "fk_bad") [str "a"; str "b"] (str "other") [str "id"] NoAction NoAction).

Definition test_foreign_key_invalid_empty_referenced_table : Prop :=
  fails (foreign_key (str "fk_bad") [str "id"] (str "") [str "id"] NoAction NoAction).

Definition test_foreign_key_invalid_empty_columns : Prop :=
  fails (foreign_key (str "fk_bad") [] (str "other") [] NoAction NoAction).

Definition test_foreign_key_invalid_referencing_columns_content : Prop :=
  fails (foreign_key (str "fk_bad") [str "col1"; str ""] (str "other") [str "colA"; str "colB"]
           NoAction NoAction).

Definition test_foreign_key_invalid_referenced_columns_content : Prop :=
  fails (foreign_key (str "fk_bad") [str "col1"; str "col2"] (str "other") [str "colA"; str "   "]
           NoAction NoAction).

(** * [table_definition.rs]

    [x.unwrap()] of a constructor is the bind of its outcome. *)

Definition test_create_valid_table_definition : Prop :=
  table_new (str "users") = Ok (mkTable 0 (str "users") [] []).

Definition test_create_table_invalid_empty_name : Prop := fails (table_new (str "")).

Definition test_create_table_invalid_whitespace_name : Prop := fails (table_new (str "   ")).

Definition test_add_column : Prop :=
  match
    (table_def ← table_new (str "users");
     col ← column_new (str "id") TInt false None;
     Ok (add_column col table_def, col))
  with
  | Ok (t, col) => columns t = [col] /\ ok_some (get_column (str "id") t) = true
                   /\ get_column (str "missing") t = None
  | _ => False
  end.

Definition test_add_constraint : Prop :=
  match
    (table_def ← table_new (str "users");
     pk ← primary_key (str "pk_users") [str "id"];
     Ok (add_constraint pk table_def, pk))
  with
  | Ok (t, pk) => constraints t = [pk] /\ ok_some (get_constraint (str "pk_users") t) = true
                  /\ get_constraint (str "missing") t = None
  | _ => False
  end.

Definition test_kitchen_sink_table_definition : Prop :=
  match
    (table ← table_new (str "kitchen_sink");
     col_int ← column_new (str "col_int") TInt false None;
     col_str ← column_new (str "col_str") (TVarchar 100) true None;
     let table := add_column col_int table in
     let table := add_column col_str table in
     pk ← primary_key (str "pk_sink") [str "col_int"];
     Ok (add_constraint pk table))
  with
  | Ok t => zlen (columns t) = 2 /\ zlen (constraints t) = 1
      /\ get_column (str "col_str") t = Some (mkColumn (str "col_str") (TVarchar 100) true None)
      /\ get_constraint (str "pk_sink") t = Some (PrimaryKey (str "pk_sink") [str "col_int"])
  | _ => False
  end.

Definition test_get_primary_key : Prop :=
  match
    (table ← table_new (str "users");
     pk ← primary_key (str "pk_users") [str "id"];
     Ok (table, add_constraint pk table))
  with
  | Ok (t, t') => get_primary_key t = None
      /\ get_primary_key t' = Some (PrimaryKey (str "pk_users") [str "id"])
  | _ => False
  end.

Definition test_get_foreign_keys : Prop :=
  match
    (table ← table_new (str "orders");
     pk ← primary_key (str "pk_orders") [str "id"];
     let table := add_constraint pk table in
     fk1 ← foreign_key (str "fk_user") [str "user_id"] (str "users") [str "id"] NoAction NoAction;
     fk2 ← foreign_key (str "fk_product") [str "product_id"] (str "products") [str "id"]
             NoAction NoAction;
     let table := add_constraint fk1 table in
     let table := add_constraint fk2 table in
     Ok (get_foreign_keys table))
  with
  | Ok fks => constraint_name <$> fks = [str "fk_user"; str "fk_product"]
              /\ forallb is_foreign_key fks = true
  | _ => False
  end.

Definition test_get_unique_keys : Prop :=
  match
    (table ← table_new (str "users");
     pk ← primary_key (str "pk_users") [str "id"];
     let table := add_constraint pk table in
     uq1 ← unique_key (str "uq_email") [str "email"];
     uq2 ← unique_key (str "uq_username") [str "username"];
     let table := add_constraint uq1 table in
     let table := add_constraint uq2 table in
     Ok (get_unique_keys table))
  with
  | Ok uqs => constraint_name <$> uqs = [str "uq_email"; str "uq_username"]
              /\ forallb is_unique_key uqs = true
  | _ => False
  end.

Definition test_get_primary_key_columns : Prop :=
  match
    (table ← table_new (str "users");
     col1 ← column_new (str "id") TInt false None;
     col2 ← column_new (str "username") (TVarchar 50) false None;
     let table := add_column col1 table in
     let table := add_column col2 table in
     before ← get_primary_key_columns table;
     pk ← primary_key (str "pk_users") [str "id"];
     after ← get_primary_key_columns (add_constraint pk table);
     Ok (before, after))
  with
  | Ok (before, after) => before = None /\ after = Some [mkColumn (str "id") TInt false None]
  | _ => False
  end.

(** * All of them hold *)

Example data_type_tests :
  test_decimal_validation /\ test_fixed_sizes /\ test_is_fixed_size /\ test_to_string
  /\ test_from_str.
Proof. by vm_compute. Qed.

Example column_tests :
  test_create_valid_column /\ test_create_valid_column_with_default
  /\ test_create_invalid_empty_name /\ test_create_invalid_whitespace_name
  /\ test_create_invalid_empty_default /\ test_create_invalid_whitespace_default.
Proof. by vm_compute. Qed.

Example constraint_tests :
  test_primary_key_valid /\ test_primary_key_invalid_empty_name
  /\ test_primary_key_invalid_empty_columns /\ test_unique_key_valid /\ test_foreign_key_valid
  /\ test_foreign_key_invalid_mismatched_columns
  /\ test_foreign_key_invalid_empty_referenced_table /\ test_foreign_key_invalid_empty_columns
  /\ test_foreign_key_invalid_referencing_columns_content
  /\ test_foreign_key_invalid_referenced_columns_content.
Proof. by vm_compute. Qed.

Example table_tests :
  test_create_valid_table_definition /\ test_create_table_invalid_empty_name
  /\ test_create_table_invalid_whitespace_name /\ test_add_column /\ test_add_constraint
  /\ test_kitchen_sink_table_definition /\ test_get_primary_key /\ test_get_foreign_keys
  /\ test_get_unique_keys /\ test_get_primary_key_columns.
Proof. by vm_compute. Qed.
