(* ===== verification/Ordering.v ===== *)
(** Rust's [Ord]: three-way comparisons and their laws, as a class the ordered
    containers (keys, sorted pages) are proved against. *)
From S2P Require Import Prelude.

(** [Ordering] is [comparison]: [Less] is [Lt], [Equal] is [Eq], [Greater] is
    [Gt].  [cmp] is a total order up to [cmp a b = Eq]. *)
Class TotalOrd {A} (cmp : A -> A -> comparison) : Prop := {
  cmp_refl : forall a, cmp a a = Eq;
  cmp_sym : forall a b, cmp b a = CompOpp (cmp a b);
  cmp_trans : forall a b c, cmp a b = Lt -> cmp b c = Lt -> cmp a c = Lt;
  cmp_eq_l : forall a b c, cmp a b = Eq -> cmp a c = cmp b c;
}.

(** [Ordering::then_with]. *)
Definition then_cmp (c d : comparison) : comparison := match c with Eq => d | _ => c end.

(** The derived order of a pair of fields and of a slice: lexicographic. *)
Fixpoint lex_cmp {A} (cmp : A -> A -> comparison) (l1 l2 : list A) : comparison :=
  match l1, l2 with
  | [], [] => Eq
  | [], _ :: _ => Lt
  | _ :: _, [] => Gt
  | a :: l1, b :: l2 => then_cmp (cmp a b) (lex_cmp cmp l1 l2)
  end.

(** [bool]: [false < true]. *)
Definition bool_cmp (a b : bool) : comparison :=
  match a, b with
  | false, true => Lt
  | true, false => Gt
  | _, _ => Eq
  end.

Section Laws.
Context {A : Type} (cmp : A -> A -> comparison) `{!TotalOrd cmp}.
#[local] Abbreviation crefl := (@cmp_refl A cmp _).
#[local] Abbreviation csym := (@cmp_sym A cmp _).
#[local] Abbreviation ctrans := (@cmp_trans A cmp _).
#[local] Abbreviation ceql := (@cmp_eq_l A cmp _).

Lemma cmp_eq_sym a b : cmp a b = Eq -> cmp b a = Eq.
Proof. intros H. by rewrite (csym a b), H. Qed.

Lemma cmp_eq_r a b c : cmp a b = Eq -> cmp c a = cmp c b.
Proof. intros H. by rewrite (csym a c), (csym b c), (ceql a b c H). Qed.

Lemma cmp_eq_trans a b c : cmp a b = Eq -> cmp b c = Eq -> cmp a c = Eq.
Proof. intros H1 H2. by rewrite (ceql a b c H1). Qed.

Lemma cmp_gt_lt a b : cmp a b = Gt <-> cmp b a = Lt.
Proof. rewrite (csym a b). by destruct (cmp a b). Qed.

Lemma cmp_lt_irrefl a : cmp a a <> Lt.
Proof. by rewrite crefl. Qed.

Lemma cmp_lt_asym a b : cmp a b = Lt -> cmp b a <> Lt.
Proof. intros H. by rewrite (csym a b), H. Qed.

#[export] Instance lex_total : TotalOrd (lex_cmp cmp).
Proof.
  split.
  - induction a as [|a l IH]; simpl; [done|]. by rewrite crefl.
  - induction a as [|a l IH]; intros [|b l']; simpl; try done.
    rewrite (csym a b), IH. by destruct (cmp a b).
  - induction a as [|a l IH]; intros [|b l'] [|c l'']; simpl; try done.
    destruct (cmp a b) eqn:Hab; simpl; [| |done].
    + rewrite (ceql a b c Hab). destruct (cmp b c); simpl; eauto.
    + intros _. destruct (cmp b c) eqn:Hbc; simpl; [| |done]; intros _.
      * by rewrite <- (cmp_eq_r _ _ a Hbc), Hab.
      * by rewrite (ctrans _ _ _ Hab Hbc).
  - induction a as [|a l IH]; intros [|b l'] [|c l'']; simpl; try done.
    destruct (cmp a b) eqn:Hab; simpl; [|done|done]. intros H.
    rewrite (ceql a b c Hab). destruct (cmp b c); simpl; [by apply IH|done|done].
Qed.

(** An order pulled back along a projection. *)
Lemma total_via {B} (f : B -> A) : TotalOrd (fun x y => cmp (f x) (f y)).
Proof.
  split; intros.
  - apply crefl.
  - apply csym.
  - by eapply ctrans.
  - by apply ceql.
Qed.
End Laws.

#[export] Instance Z_total : TotalOrd Z.compare.
Proof.
  split; intros.
  - apply Z.compare_refl.
  - by rewrite Z.compare_antisym.
  - rewrite Z.compare_lt_iff in *. lia.
  - by apply Z.compare_eq in H as ->.
Qed.

#[export] Instance bool_total : TotalOrd bool_cmp.
Proof. split; [by intros []|by intros [] []|by intros [] [] []|by intros [] [] []]. Qed.

(** Two equal lists of elements for which [Eq] is equality are the same list. *)
Lemma lex_cmp_eq_leibniz {A} (cmp : A -> A -> comparison) l1 l2 :
  (forall a b, cmp a b = Eq -> a = b) -> lex_cmp cmp l1 l2 = Eq -> l1 = l2.
Proof.
  intros Hc. revert l2. induction l1 as [|a l1 IH]; intros [|b l2]; simpl; try done.
  destruct (cmp a b) eqn:Hab; simpl; [|done|done]. intros H. f_equal; auto.
Qed.
