(* ===== verification/OrderedFloat.v ===== *)
(** [ordered_float.rs]: the total order, equality and hash on [f64].

    An [f64] is its 64-bit pattern ([to_bits]); the comparison of two patterns
    is that of IEEE 754, given by the Standard Library's specification of
    floating-point numbers on the decoded values. *)
From Stdlib Require Import SpecFloat.
From S2P Require Import Prelude.
From S2P Require Import Ordering.

(** * [f64] *)

Definition f64_ok (b : Z) : Prop := 0 <= b < 2 ^ 64.

Definition f64_sign (b : Z) : bool := 2 ^ 63 <=? b.
Definition f64_magnitude (b : Z) : Z := b mod 2 ^ 63.
Definition f64_exponent (b : Z) : Z := f64_magnitude b / 2 ^ 52.
Definition f64_mantissa (b : Z) : Z := f64_magnitude b mod 2 ^ 52.

Definition f64_decode (b : Z) : spec_float :=
  let s := f64_sign b in
  let e := f64_exponent b in
  let m := f64_mantissa b in
  if e =? 2047 then (if m =? 0 then S754_infinity s else S754_nan)
  else if e =? 0 then (if m =? 0 then S754_zero s else S754_finite s (Z.to_pos m) (-1074))
  else S754_finite s (Z.to_pos (m + 2 ^ 52)) (e - 1075).

(** [f64::is_nan], [f64::partial_cmp], [f64 ==]. *)
Definition is_nan (b : Z) : bool := match f64_decode b with S754_nan => true | _ => false end.
Definition f64_partial_cmp (a b : Z) : option comparison := SFcompare (f64_decode a) (f64_decode b).
Definition f64_eq (a b : Z) : bool :=
  match f64_partial_cmp a b with Some Eq => true | _ => false end.

Definition F64_ZERO : Z := 0.
Definition F64_NEG_ZERO : Z := 2 ^ 63.
(** [f64::NAN]. *)
Definition F64_NAN : Z := 2047 * 2 ^ 52 + 2 ^ 51.

(** * [OrderedFloat] *)

Record OrderedFloat := mkFloat { float_bits : Z }.

#[export] Instance OrderedFloat_eq_dec : EqDecision OrderedFloat.
Proof. solve_decision. Defined.

(** [PartialEq::eq]. *)
Definition of_eq (x y : OrderedFloat) : bool :=
  if is_nan (float_bits x) && is_nan (float_bits y) then true
  else f64_eq (float_bits x) (float_bits y).

(** [Hash::hash]: the bits given to the hasher. *)
Definition of_hash_bits (x : OrderedFloat) : Z :=
  if f64_eq (float_bits x) F64_NEG_ZERO then F64_ZERO
  else if is_nan (float_bits x) then F64_NAN
  else float_bits x.

(** [Ord::cmp]. *)
Definition of_cmp (x y : OrderedFloat) : comparison :=
  match f64_partial_cmp (float_bits x) (float_bits y) with
  | Some ordering => ordering
  | None =>
      if is_nan (float_bits x) then
        (if is_nan (float_bits y) then Eq else Gt)
      else Lt
  end.

(** [PartialOrd::partial_cmp]. *)
Definition of_partial_cmp (x y : OrderedFloat) : option comparison := Some (of_cmp x y).

(** * The value behind a pattern

    IEEE 754 orders the patterns that are not NaN by sign and magnitude. *)
Definition f64_key (b : Z) : Z := if f64_sign b then - f64_magnitude b else f64_magnitude b.

(** A NaN is above every number. *)
Definition of_key (x : OrderedFloat) : Z :=
  if is_nan (float_bits x) then 2 ^ 63 else f64_key (float_bits x).

Lemma f64_fields b :
  let m := f64_mantissa b in let e := f64_exponent b in
  0 <= m < 2 ^ 52 /\ 0 <= e < 2 ^ 11 /\ f64_magnitude b = e * 2 ^ 52 + m.
Proof.
  cbv zeta. unfold f64_mantissa, f64_exponent. set (g := f64_magnitude b).
  assert (0 <= g < 2 ^ 63) by (apply Z.mod_pos_bound; lia).
  pose proof (Z.mod_pos_bound g (2 ^ 52)). pose proof (Z.div_mod g (2 ^ 52)).
  split_and!; lia.
Qed.

Lemma is_nan_spec b : is_nan b = (f64_exponent b =? 2047) && negb (f64_mantissa b =? 0).
Proof. unfold is_nan, f64_decode. repeat case_match; simplify_eq; try done. Qed.

Lemma f64_partial_cmp_nan a b :
  is_nan a || is_nan b = true -> f64_partial_cmp a b = None.
Proof.
  unfold is_nan, f64_partial_cmp. destruct (f64_decode a), (f64_decode b); done.
Qed.

(** Decide an equation between comparisons by the cases of each of them. *)
Ltac compare_cases :=
  repeat match goal with
  | |- context [?a ?= ?b] => destruct (Z.compare_spec a b)
  end; simpl; solve [done | exfalso; lia].

(** On numbers, the IEEE comparison is that of the keys. *)
Lemma f64_partial_cmp_key a b :
  is_nan a = false -> is_nan b = false ->
  f64_partial_cmp a b = Some (f64_key a ?= f64_key b).
Proof.
  rewrite !is_nan_spec. intros Ha Hb. unfold f64_partial_cmp, f64_key, f64_decode.
  destruct (f64_fields a) as (Ma & Ea & Ga), (f64_fields b) as (Mb & Eb & Gb).
  rewrite Ga, Gb. revert Ha Hb Ma Ea Mb Eb. clear Ga Gb.
  generalize (f64_mantissa a) (f64_exponent a) (f64_sign a).
  generalize (f64_mantissa b) (f64_exponent b) (f64_sign b).
  intros mb eb sb ma ea sa Ha Hb Ma Ea Mb Eb.
  destruct (Z.eqb_spec ea 2047), (Z.eqb_spec eb 2047), (Z.eqb_spec ea 0), (Z.eqb_spec eb 0),
    (Z.eqb_spec ma 0), (Z.eqb_spec mb 0), sa, sb; simpl in Ha, Hb; try discriminate; try lia.
  all: cbn [SFcompare]; change (Pos.compare_cont Eq) with Pos.compare;
    rewrite <- ?Z2Pos.inj_compare by lia; f_equal; symmetry.
  all: by compare_cases.
Qed.

Lemma f64_key_bound b : - 2 ^ 63 < f64_key b < 2 ^ 63.
Proof.
  unfold f64_key, f64_magnitude. pose proof (Z.mod_pos_bound b (2 ^ 63)). case_match; lia.
Qed.

Lemma of_cmp_key x y : of_cmp x y = (of_key x ?= of_key y).
Proof.
  unfold of_cmp, of_key.
  pose proof (f64_key_bound (float_bits x)). pose proof (f64_key_bound (float_bits y)).
  destruct (is_nan (float_bits x)) eqn:Hx, (is_nan (float_bits y)) eqn:Hy;
    rewrite ?f64_partial_cmp_nan by (rewrite Hx, Hy; done).
  1-3: symmetry; by compare_cases.
  by rewrite f64_partial_cmp_key.
Qed.

#[export] Instance of_total : TotalOrd of_cmp.
Proof.
  split; intros; rewrite !of_cmp_key in *.
  - apply cmp_refl.
  - apply cmp_sym.
  - by eapply cmp_trans.
  - by apply cmp_eq_l.
Qed.

Lemma f64_eq_key a b :
  f64_eq a b = negb (is_nan a) && negb (is_nan b) && (f64_key a =? f64_key b).
Proof.
  unfold f64_eq. destruct (is_nan a || is_nan b) eqn:Hn.
  - rewrite f64_partial_cmp_nan by done. by destruct (is_nan a), (is_nan b).
  - apply orb_false_iff in Hn as [Ha Hb]. rewrite f64_partial_cmp_key, Ha, Hb by done. simpl.
    destruct (Z.compare_spec (f64_key a) (f64_key b)), (Z.eqb_spec (f64_key a) (f64_key b));
      (done || lia).
Qed.

Lemma of_eq_key x y : of_eq x y = (of_key x =? of_key y).
Proof.
  unfold of_eq, of_key. rewrite f64_eq_key.
  pose proof (f64_key_bound (float_bits x)). pose proof (f64_key_bound (float_bits y)).
  destruct (is_nan (float_bits x)), (is_nan (float_bits y)); cbn [negb andb]; try done; symmetry;
    apply Z.eqb_neq; lia.
Qed.

Lemma f64_bits_of_key b :
  f64_ok b -> b = if f64_sign b then 2 ^ 63 - f64_key b else f64_key b.
Proof.
  unfold f64_ok, f64_key, f64_magnitude, f64_sign. intros Hb.
  destruct (Z.leb_spec (2 ^ 63) b).
  - replace b with (b - 2 ^ 63 + 1 * 2 ^ 63) at 2 by lia.
    rewrite Z.mod_add, Z.mod_small by lia. lia.
  - rewrite Z.mod_small by lia. lia.
Qed.

Lemma f64_key_inj a b :
  f64_ok a -> f64_ok b -> f64_key a = f64_key b -> f64_key a <> 0 -> a = b.
Proof.
  intros Ha Hb Hk H0. rewrite (f64_bits_of_key a Ha), (f64_bits_of_key b Hb).
  assert (f64_sign a = f64_sign b) as ->; [|by rewrite Hk].
  revert Hk H0. unfold f64_key, f64_magnitude.
  pose proof (Z.mod_pos_bound a (2 ^ 63)). pose proof (Z.mod_pos_bound b (2 ^ 63)).
  destruct (f64_sign a), (f64_sign b); (done || lia).
Qed.

(** Equal values are hashed from the same bits, and only they. *)
Lemma of_hash_bits_eq x y :
  f64_ok (float_bits x) -> f64_ok (float_bits y) ->
  of_eq x y = true <-> of_hash_bits x = of_hash_bits y.
Proof.
  intros Hx Hy. destruct x as [a], y as [b]. unfold of_eq, of_hash_bits. cbn [float_bits] in *.
  rewrite !f64_eq_key. change (is_nan F64_NEG_ZERO) with false.
  change (f64_key F64_NEG_ZERO) with 0.
  assert (is_nan F64_NAN = true) as Hnan by done. assert (is_nan F64_ZERO = false) as Hzero by done.
  destruct (is_nan a) eqn:Ha, (is_nan b) eqn:Hb; cbn [negb andb]; [done| | |].
  - destruct (Z.eqb_spec (f64_key b) 0); split; intros; congruence.
  - destruct (Z.eqb_spec (f64_key a) 0); split; intros; congruence.
  - assert (f64_key F64_ZERO = 0) as H0 by done. rewrite Z.eqb_eq.
    destruct (Z.eqb_spec (f64_key a) 0), (Z.eqb_spec (f64_key b) 0); split; intros; try congruence.
    by apply f64_key_inj.
Qed.

(** * Properties *)

(** C35: [OrderedFloat::cmp] is a total order that extends the IEEE comparison
    of numbers (so -0 and 0 are equal), with every NaN equal to every NaN and
    above every number. *)
Theorem ordered_float_order x y z :
  of_cmp x x = Eq
  /\ of_cmp y x = CompOpp (of_cmp x y)
  /\ (of_cmp x y = Lt -> of_cmp y z = Lt -> of_cmp x z = Lt)
  /\ (of_cmp x y = Eq -> of_cmp x z = of_cmp y z)
  /\ (is_nan (float_bits x) = false -> is_nan (float_bits y) = false ->
      f64_partial_cmp (float_bits x) (float_bits y) = Some (of_cmp x y))
  /\ (is_nan (float_bits y) = true ->
      of_cmp x y = if is_nan (float_bits x) then Eq else Lt).
Proof.
  split_and!; [apply cmp_refl|apply cmp_sym|apply cmp_trans|apply cmp_eq_l| |].
  - intros Hx Hy. rewrite of_cmp_key. unfold of_key. rewrite Hx, Hy. by apply f64_partial_cmp_key.
  - intros Hy. rewrite of_cmp_key. unfold of_key. rewrite Hy.
    pose proof (f64_key_bound (float_bits x)). destruct (is_nan (float_bits x)); by compare_cases.
Qed.

(** C36: Equality agrees with the order, and values are equal exactly when they
    are hashed from the same bits (both zeros as 0.0, every NaN as the
    canonical one), as hash containers need. *)
Theorem ordered_float_eq_hash x y :
  f64_ok (float_bits x) -> f64_ok (float_bits y) ->
  (of_eq x y = true <-> of_cmp x y = Eq)
  /\ (of_eq x y = true <-> of_hash_bits x = of_hash_bits y).
Proof.
  intros Hx Hy. split; [|by apply of_hash_bits_eq].
  rewrite of_eq_key, of_cmp_key, Z.eqb_eq, Z.compare_eq_iff. done.
Qed.

Lemma ordered_float_eq_hash_witness :
  (of_eq (mkFloat F64_ZERO) (mkFloat F64_NEG_ZERO) = true
   <-> of_cmp (mkFloat F64_ZERO) (mkFloat F64_NEG_ZERO) = Eq)
  /\ (of_eq (mkFloat F64_ZERO) (mkFloat F64_NEG_ZERO) = true
      <-> of_hash_bits (mkFloat F64_ZERO) = of_hash_bits (mkFloat F64_NEG_ZERO)).
Proof. apply ordered_float_eq_hash; unfold f64_ok, F64_ZERO, F64_NEG_ZERO; cbn [float_bits]; lia. Defined.
