(* ===== verification/FloatText.v ===== *)
(** The text of an [f64] ([Display]): the shortest decimal that is read back as
    the same number, the closest one when there are several, written without an
    exponent. *)
From Stdlib Require Import String.
From S2P Require Import Prelude.
From S2P Require Import Bytes.
From S2P Require Import RustStr.
From S2P Require Import OrderedFloat.

(** * The shortest decimal *)

(** The numbers that round to [m * 2 ^ e] are those between [lo] and [hi] times
    [2 ^ e / 4], the ends included when [m] is even. *)
Definition round_lo (m e : Z) : Z := if (m =? 2 ^ 52) && (-1074 <? e) then 4 * m - 1 else 4 * m - 2.
Definition round_hi (m : Z) : Z := 4 * m + 2.

(** [x * 2 ^ e / 4] is [scale_num x e p / scale_den e p] times [10 ^ p]. *)
Definition scale_num (x e p : Z) : Z := x * 2 ^ Z.max e 0 * 10 ^ Z.max (- p) 0.
Definition scale_den (e p : Z) : Z := 4 * 2 ^ Z.max (- e) 0 * 10 ^ Z.max p 0.

(** [q * 10 ^ p] rounds to [m * 2 ^ e]. *)
Definition rounds_to (m e p q : Z) : bool :=
  let d := q * scale_den e p in
  if Z.even m then (scale_num (round_lo m e) e p <=? d) && (d <=? scale_num (round_hi m) e p)
  else (scale_num (round_lo m e) e p <? d) && (d <? scale_num (round_hi m) e p).

(** The multiples of [10 ^ p] next to the number: the closer one of those that
    round to it. *)
Definition candidate (m e p : Z) : option Z :=
  let n := scale_num (4 * m) e p in
  let q := n / scale_den e p in
  let down := (0 <? q) && rounds_to m e p q in
  let up := rounds_to m e p (q + 1) in
  if down && up then
    if 2 * (n - q * scale_den e p) <? scale_den e p then Some q else Some (q + 1)
  else if down then Some q
  else if up then Some (q + 1)
  else None.

(** From the largest power of ten down.  A double is determined by 17 digits. *)
Fixpoint shortest_from (fuel : nat) (m e p : Z) : option (Z * Z) :=
  match fuel with
  | O => None
  | S fuel =>
      match candidate m e p with
      | Some q => Some (q, p)
      | None => shortest_from fuel m e (p - 1)
      end
  end.

(** A power of ten above [m * 2 ^ e]. *)
Definition top_power (m e : Z) : Z := (Z.log2 m + e + 1) * 30103 / 100000 + 2.

Definition shortest (m e : Z) : option (Z * Z) := shortest_from 24 m e (top_power m e).

Lemma candidate_rounds m e p q : candidate m e p = Some q -> rounds_to m e p q = true.
Proof.
  unfold candidate. intros H. repeat case_match; simplify_eq; rewrite ?andb_true_iff in *; naive_solver.
Qed.

(** What is printed is read back as the number. *)
Lemma shortest_rounds m e q p : shortest m e = Some (q, p) -> rounds_to m e p q = true.
Proof.
  unfold shortest. generalize (top_power m e) as p0. generalize 24%nat as fuel.
  induction fuel as [|fuel IH]; intros p0 H; [done|]. cbn [shortest_from] in H.
  destruct (candidate m e p0) as [q0|] eqn:Hc; [|by apply (IH (p0 - 1))].
  simplify_eq. by apply candidate_rounds.
Qed.

(** * The text *)

(** The digits of [q] with [10 ^ p] as the unit. *)
Definition show_decimal (q p : Z) : rstr :=
  let digits := show_unsigned q in
  if 0 <=? p then digits ++ fill 48 p
  else if - p <? zlen digits then
    sub 0 (zlen digits + p) digits ++ str "." ++ sub (zlen digits + p) (- p) digits
  else str "0." ++ fill 48 (- p - zlen digits) ++ digits.

Definition show_magnitude (m e : Z) : rstr :=
  match shortest m e with Some (q, p) => show_decimal q p | None => [] end.

(** [Display] of an [f64]. *)
Definition show_f64 (b : Z) : rstr :=
  match f64_decode b with
  | SpecFloat.S754_nan => str "NaN"
  | SpecFloat.S754_infinity s => (if s : bool then str "-inf" else str "inf")
  | SpecFloat.S754_zero s => (if s : bool then str "-0" else str "0")
  | SpecFloat.S754_finite s m e => (if s : bool then str "-" else []) ++ show_magnitude (Zpos m) e
  end.

(** 1, 1.5, -3.533, 0.1, 5e-324 and 1e21 in full; 2 ^ 53 and the next number. *)
Example show_f64_examples :
  show_f64 4607182418800017408 = str "1" /\ show_f64 4609434218613702656 = str "1.5"
  /\ show_f64 (2 ^ 63 + 4615138027541767389) = str "-3.533"
  /\ show_f64 4591870180066957722 = str "0.1"
  /\ show_f64 1 = str "0." ++ fill 48 323 ++ str "5"
  /\ show_f64 4921056587992461136 = str "1" ++ fill 48 21
  /\ show_f64 4845873199050653696 = str "9007199254740992"
  /\ show_f64 4845873199050653697 = str "9007199254740994"
  /\ show_f64 F64_NEG_ZERO = str "-0" /\ show_f64 F64_NAN = str "NaN".
Proof. by vm_compute. Qed.
