(* ===== verification/DataModel.v ===== *)
(** The data model crate: values ([data_value.rs]), keys ([key.rs]) and records
    ([record.rs]).  The decimal type comes from the crate [rust_decimal]: its
    operations are a class, its documented behaviour the laws of a second one. *)
From stdpp Require Import gmap.
From S2P Require Import Prelude.
From S2P Require Import Bytes.
From S2P Require Import RustStr.
From S2P Require Import Schema.
From S2P Require Import Ordering.
From S2P Require Import OrderedFloat.

(** * [rust_decimal::Decimal] *)

Class Decimal (D : Type) := {
  dec_scale : D -> Z;
  dec_mantissa : D -> Z;
  dec_trunc : D -> D;
  dec_abs : D -> D;
  dec_cmp : D -> D -> comparison;
  dec_eq : D -> D -> bool;
  dec_serialize : D -> list Z;
  dec_deserialize : list Z -> D;
}.

(** [dec_ok] are the values of the type (a 96-bit mantissa, a scale of at most
    28); [serialize] writes 16 bytes, [deserialize] reads them back. *)
Class DecimalLaws (D : Type) `{Decimal D} := {
  dec_ok : D -> Prop;
  dec_scale_range : forall d, 0 <= dec_scale d;
  dec_mantissa_range : forall d, dec_ok d -> Z.abs (dec_mantissa d) < 2 ^ 96;
  dec_trunc_mantissa : forall d,
    dec_mantissa (dec_trunc d) = Z.quot (dec_mantissa d) (10 ^ dec_scale d);
  dec_abs_mantissa : forall d, dec_mantissa (dec_abs d) = Z.abs (dec_mantissa d);
  dec_cmp_total :: TotalOrd dec_cmp;
  dec_eq_cmp : forall d e, dec_eq d e = true <-> dec_cmp d e = Eq;
  dec_serialize_length : forall d, zlen (dec_serialize d) = 16;
  dec_serialize_bytes : forall d, bytes_ok (dec_serialize d);
  dec_roundtrip : forall d, dec_ok d -> dec_deserialize (dec_serialize d) = d;
}.

(** * Values *)

Inductive DataValue (D : Type) :=
| VNull
| VInt (v : Z)
| VBigInt (v : Z)
| VBoolean (b : bool)
| VFloat (f : OrderedFloat)
| VText (s : rstr)
| VBlob (bs : list Z)
| VDateTime (v : Z)
| VDecimal (d : D).
Arguments VNull {D}.
Arguments VInt {D} v.
Arguments VBigInt {D} v.
Arguments VBoolean {D} b.
Arguments VFloat {D} f.
Arguments VText {D} s.
Arguments VBlob {D} bs.
Arguments VDateTime {D} v.
Arguments VDecimal {D} d.

#[export] Instance DataValue_eq_dec {D} `{EqDecision D} : EqDecision (DataValue D).
Proof. solve_decision. Defined.

(** [Key] and [Record] wrap a vector of values; both deref to it. *)
Definition Key (D : Type) : Type := list (DataValue D).
Definition DbRecord (D : Type) : Type := list (DataValue D).

Section Values.
Context {D : Type} `{Decimal D}.
#[local] Abbreviation DataValue := (DataValue D).

(** The position of the variant, for the derived order. *)
Definition variant (v : DataValue) : Z :=
  match v with
  | VNull => 0
  | VInt _ => 1
  | VBigInt _ => 2
  | VBoolean _ => 3
  | VFloat _ => 4
  | VText _ => 5
  | VBlob _ => 6
  | VDateTime _ => 7
  | VDecimal _ => 8
  end.

(** The derived [Ord]: by variant, then by the field.  Strings and byte vectors
    compare byte by byte. *)
Definition value_cmp (x y : DataValue) : comparison :=
  match x, y with
  | VInt a, VInt b => a ?= b
  | VBigInt a, VBigInt b => a ?= b
  | VBoolean a, VBoolean b => bool_cmp a b
  | VFloat a, VFloat b => of_cmp a b
  | VText a, VText b => lex_cmp Z.compare a b
  | VBlob a, VBlob b => lex_cmp Z.compare a b
  | VDateTime a, VDateTime b => a ?= b
  | VDecimal a, VDecimal b => dec_cmp a b
  | _, _ => variant x ?= variant y
  end.

(** The derived [PartialEq]. *)
Definition value_eq (x y : DataValue) : bool :=
  match x, y with
  | VNull, VNull => true
  | VInt a, VInt b => a =? b
  | VBigInt a, VBigInt b => a =? b
  | VBoolean a, VBoolean b => Bool.eqb a b
  | VFloat a, VFloat b => of_eq a b
  | VText a, VText b => bool_decide (a = b)
  | VBlob a, VBlob b => bool_decide (a = b)
  | VDateTime a, VDateTime b => a =? b
  | VDecimal a, VDecimal b => dec_eq a b
  | _, _ => false
  end.

(** [*v == DataValue::Null]. *)
Definition is_null (v : DataValue) : bool := value_eq v VNull.

(** [i128::checked_ilog10]: [None] unless positive; the argument has at most 39
    digits. *)
Fixpoint ilog10 (fuel : nat) (n : Z) : Z :=
  match fuel with
  | O => 0
  | S fuel => if n <? 10 then 0 else 1 + ilog10 fuel (n / 10)
  end.
Definition checked_ilog10 (n : Z) : option Z := if n <=? 0 then None else Some (ilog10 39 n).

(** [DataValue::is_compatible].  [p - s] is a subtraction of [u8]s. *)
Definition is_compatible {E} (v : DataValue) (schema_type : PrimitiveDataType) : outcome E bool :=
  match v, schema_type with
  | VNull, _ => Ok true
  | VInt _, TInt => Ok true
  | VInt _, TBigInt => Ok true
  | VBigInt _, TBigInt => Ok true
  | VBoolean _, TBoolean => Ok true
  | VFloat _, TFloat => Ok true
  | VText val, TVarchar max_len => Ok (zlen val <=? max_len)
  | VBlob val, TBlob max_len => Ok (zlen val <=? max_len)
  | VDateTime _, TDateTime => Ok true
  | VDecimal val, TDecimal p s =>
      let scale := dec_scale val in
      if s <? scale then Ok false
      else
        let integer_part := dec_mantissa (dec_abs (dec_trunc val)) in
        if integer_part =? 0 then Ok true
        else
          let integer_digit_count := default 0 (checked_ilog10 integer_part) + 1 in
          if scale <=? s then
            (max_digits ← usub p s; Ok (integer_digit_count <=? max_digits))
          else Ok false
  | _, _ => Ok false
  end.

(** The derived orders of [Key] and [Record]: that of slices. *)
Definition key_cmp : Key D -> Key D -> comparison := lex_cmp value_cmp.
Definition record_cmp : DbRecord D -> DbRecord D -> comparison := lex_cmp value_cmp.

(** The [From] conversions of keys and records. *)
Definition key_from_value (v : DataValue) : Key D := [v].
Definition key_from_vec (vs : list DataValue) : Key D := vs.
Definition record_from_value (v : DataValue) : DbRecord D := [v].
Definition record_from_vec (vs : list DataValue) : DbRecord D := vs.

(** * [Record::get_primary_key] *)

(** [Vec::insert]: panics beyond the length. *)
Definition vec_insert {E A} (i : Z) (x : A) (l : list A) : outcome E (list A) :=
  if (0 <=? i) && (i <=? zlen l) then Ok (sub 0 i l ++ x :: sub i (zlen l - i) l) else Panic.

(** [l.iter().enumerate()]. *)
Definition enumerate {A} (l : list A) : list (Z * A) := zip (range 0 (zlen l)) l.

(** The [HashMap] from a key column's name to its position in the key. *)
Definition pk_reverse_lookup (pk_cols : list rstr) : gmap rstr Z :=
  fold_left (fun m '(i, c) => <[c := i]> m) (enumerate pk_cols) ∅.

Definition get_primary_key_step {E : Type} (self : DbRecord D) (table_def : TableDefinition)
    (pk_cols : list rstr) (reverse_lookup : gmap rstr Z) (key_values : list DataValue) (i : Z) :
    outcome E (list DataValue) :=
  col ← index i (columns table_def);
  let current_col_name := col_name col in
  if bool_decide (current_col_name ∈ pk_cols) then
    key_col_index ← unwrap_opt (reverse_lookup !! current_col_name);
    v ← index i self;
    vec_insert key_col_index v key_values
  else Ok key_values.

Definition record_get_primary_key {E} (self : DbRecord D) (table_def : TableDefinition) :
    outcome E (Key D) :=
  constraint ← unwrap_opt (get_primary_key table_def);
  match col_names constraint with
  | Some pk_cols =>
      key_values ← ofold (get_primary_key_step self table_def pk_cols (pk_reverse_lookup pk_cols))
                     [] (range 0 (zlen (columns table_def)));
      Ok (key_from_vec key_values)
  | None => Ok (key_from_vec [])
  end.

(** * Well-formed values: fields within their machine types *)

Definition value_ok `{!DecimalLaws D} (v : DataValue) : Prop :=
  match v with
  | VInt v => - 2 ^ 31 <= v < 2 ^ 31
  | VBigInt v | VDateTime v => - 2 ^ 63 <= v < 2 ^ 63
  | VFloat f => f64_ok (float_bits f)
  | VText s => utf8_valid s = true /\ bytes_ok s
  | VBlob bs => bytes_ok bs
  | VDecimal d => dec_ok d
  | VNull | VBoolean _ => True
  end.
End Values.

(** * A decimal type for the examples

    A mantissa and a scale, compared by value; 16 bytes of text. *)
Record SimpleDecimal := mkDec { sd_mantissa : Z; sd_scale : N }.

#[export] Instance simple_decimal : Decimal SimpleDecimal := {
  dec_scale d := Z.of_N (sd_scale d);
  dec_mantissa := sd_mantissa;
  dec_trunc d := mkDec (Z.quot (sd_mantissa d) (10 ^ Z.of_N (sd_scale d))) 0;
  dec_abs d := mkDec (Z.abs (sd_mantissa d)) (sd_scale d);
  dec_cmp d e := sd_mantissa d * 10 ^ Z.of_N (sd_scale e)
                 ?= sd_mantissa e * 10 ^ Z.of_N (sd_scale d);
  dec_eq d e := sd_mantissa d * 10 ^ Z.of_N (sd_scale e)
                =? sd_mantissa e * 10 ^ Z.of_N (sd_scale d);
  dec_serialize d := le_bytes 1 (Z.of_N (sd_scale d)) ++ le_bytes 15 (wrap 120 (sd_mantissa d));
  dec_deserialize bs := mkDec (to_signed 120 (le_val (sub 1 15 bs))) (Z.to_N (le_val (sub 0 1 bs)));
}.

Lemma pow10_pos n : 0 < 10 ^ Z.of_N n.
Proof. apply Z.pow_pos_nonneg; lia. Qed.

#[export] Program Instance simple_decimal_laws : DecimalLaws SimpleDecimal := {
  dec_ok d := Z.abs (sd_mantissa d) < 2 ^ 96 /\ (sd_scale d <= 28)%N;
}.
Next Obligation. intros d. simpl. lia. Qed.
Next Obligation. intros d [Hd _]. done. Qed.
Next Obligation. done. Qed.
Next Obligation. done. Qed.
Next Obligation.
  split; simpl.
  - intros a. apply Z.compare_refl.
  - intros a b. apply Z.compare_antisym.
  - intros a b c. rewrite !Z.compare_lt_iff.
    pose proof (pow10_pos (sd_scale a)). pose proof (pow10_pos (sd_scale b)).
    pose proof (pow10_pos (sd_scale c)).
    remember (10 ^ Z.of_N (sd_scale a)) as z. remember (10 ^ Z.of_N (sd_scale b)) as y.
    remember (10 ^ Z.of_N (sd_scale c)) as x. intros Hab Hbc.
    apply (Z.mul_lt_mono_pos_r y); [done|]. nia.
  - intros a b c. rewrite Z.compare_eq_iff. intros Heq.
    pose proof (pow10_pos (sd_scale a)). pose proof (pow10_pos (sd_scale b)).
    pose proof (pow10_pos (sd_scale c)).
    remember (10 ^ Z.of_N (sd_scale a)) as z. remember (10 ^ Z.of_N (sd_scale b)) as y.
    remember (10 ^ Z.of_N (sd_scale c)) as x.
    rewrite (Zmult_compare_compat_r _ _ y) by lia.
    rewrite (Zmult_compare_compat_r (sd_mantissa b * x) _ z) by lia.
    f_equal; rewrite <- ?Z.mul_assoc, ?(Z.mul_comm x), ?(Z.mul_comm z), ?Z.mul_assoc; nia.
Qed.
Next Obligation. intros d e. simpl. by rewrite Z.eqb_eq, Z.compare_eq_iff. Qed.
Next Obligation. intros d. cbn [dec_serialize simple_decimal]. len. Qed.
Next Obligation. intros d. apply Forall_app. split; apply bytes_ok_le_bytes. Qed.
Next Obligation.
  intros [m s] [Hm Hs]. cbn [dec_serialize dec_deserialize simple_decimal sd_mantissa sd_scale] in *.
  rewrite sub_app_r by len. rewrite sub_app_l by len. rewrite !sub_whole by len.
  rewrite !le_val_le_bytes. f_equal.
  - unfold wrap. rewrite Z.mod_mod by lia. change (8 * Z.of_nat 15) with 120.
    apply to_signed_wrap; lia.
  - change (8 * Z.of_nat 1) with 8. rewrite Z.mod_small by lia. lia.
Qed.
