(* ===== verification/DataModelProps.v ===== *)
(** Properties of the data model: the order of values and keys, the decimal
    compatibility check, and the extraction of a record's primary key. *)
From stdpp Require Import gmap.
From S2P Require Import Prelude.
From S2P Require Import Bytes.
From S2P Require Import RustStr.
From S2P Require Import Schema.
From S2P Require Import Ordering.
From S2P Require Import OrderedFloat.
From S2P Require Import DataModel.

Section Order.
Context {D : Type} `{DecimalLaws D}.

#[export] Instance value_total : TotalOrd (@value_cmp D _).
Proof.
  split.
  - intros []; simpl; try done; apply cmp_refl.
  - intros [] []; simpl; try done; apply cmp_sym.
  - intros [] [] []; simpl; try done; apply cmp_trans.
  - intros [] [] []; simpl; try done; apply cmp_eq_l.
Qed.

#[export] Instance key_total : TotalOrd (@key_cmp D _).
Proof. unfold key_cmp. apply _. Qed.

Lemma compare_eqb_iff a b : (a =? b) = true <-> (a ?= b) = Eq.
Proof. by rewrite Z.eqb_eq, Z.compare_eq_iff. Qed.

Lemma bytes_eq_iff (a b : list Z) : bool_decide (a = b) = true <-> lex_cmp Z.compare a b = Eq.
Proof.
  rewrite bool_decide_eq_true. split; [intros ->; apply cmp_refl|].
  apply lex_cmp_eq_leibniz. intros ??. by rewrite Z.compare_eq_iff.
Qed.

Lemma value_eq_cmp (x y : DataValue D) : value_eq x y = true <-> value_cmp x y = Eq.
Proof.
  destruct x as [|a|a|a|a|a|a|a|a], y as [|b|b|b|b|b|b|b|b]; simpl; try done.
  - apply compare_eqb_iff.
  - apply compare_eqb_iff.
  - by destruct a, b.
  - rewrite of_eq_key, of_cmp_key. apply compare_eqb_iff.
  - apply bytes_eq_iff.
  - apply bytes_eq_iff.
  - apply compare_eqb_iff.
  - apply dec_eq_cmp.
Qed.

Lemma is_null_spec (v : DataValue D) : is_null v = true <-> v = VNull.
Proof. by destruct v. Qed.
End Order.

(** [==] on slices. *)
Fixpoint slice_eq {A} (eqb : A -> A -> bool) (l1 l2 : list A) : bool :=
  match l1, l2 with
  | [], [] => true
  | a :: l1, b :: l2 => eqb a b && slice_eq eqb l1 l2
  | _, _ => false
  end.

Lemma slice_eq_cmp {A} (eqb : A -> A -> bool) cmp l1 l2 :
  (forall a b, eqb a b = true <-> cmp a b = Eq) ->
  slice_eq eqb l1 l2 = true <-> lex_cmp cmp l1 l2 = Eq.
Proof.
  intros Heq. revert l2. induction l1 as [|a l1 IH]; intros [|b l2]; simpl; try done.
  rewrite andb_true_iff, Heq, IH. destruct (cmp a b); simpl; naive_solver.
Qed.

(** C17: The derived orders of values and keys are total orders that agree with
    the derived equality, for every decimal type with a total order: keys
    compare by their first unequal column, and a proper prefix comes first. *)
Theorem key_order_laws {D} `{DecimalLaws D} :
  TotalOrd (@value_cmp D _) /\ TotalOrd (@key_cmp D _)
  /\ (forall k1 k2 : Key D, slice_eq value_eq k1 k2 = true <-> key_cmp k1 k2 = Eq)
  /\ (forall (p k1 k2 : Key D), key_cmp (p ++ k1) (p ++ k2) = key_cmp k1 k2)
  /\ (forall x y (k1 k2 : Key D), value_cmp x y <> Eq -> key_cmp (x :: k1) (y :: k2) = value_cmp x y).
Proof.
  split_and!; [apply _|apply _| | |].
  - intros k1 k2. apply slice_eq_cmp, value_eq_cmp.
  - intros p k1 k2. induction p as [|v p IH]; [done|]. simpl. unfold key_cmp in *. simpl.
    by rewrite cmp_refl.
  - intros x y k1 k2 Hne. unfold key_cmp. simpl. by destruct (value_cmp x y).
Qed.

Lemma key_order_laws_witness :
  TotalOrd (@value_cmp SimpleDecimal _) /\ TotalOrd (@key_cmp SimpleDecimal _)
  /\ (forall k1 k2 : Key SimpleDecimal, slice_eq value_eq k1 k2 = true <-> key_cmp k1 k2 = Eq)
  /\ (forall (p k1 k2 : Key SimpleDecimal), key_cmp (p ++ k1) (p ++ k2) = key_cmp k1 k2)
  /\ (forall x y (k1 k2 : Key SimpleDecimal),
       value_cmp x y <> Eq -> key_cmp (x :: k1) (y :: k2) = value_cmp x y).
Proof. apply (@key_order_laws SimpleDecimal _ _). Defined.

(** * Decimal compatibility *)

Lemma ilog10_lt fuel n k :
  0 < n < 10 ^ Z.of_nat fuel -> 0 <= k -> (ilog10 fuel n < k <-> n < 10 ^ k).
Proof.
  revert n k. induction fuel as [|fuel IH]; intros n k Hn Hk; [simpl in Hn; lia|].
  rewrite Nat2Z.inj_succ, Z.pow_succ_r in Hn by lia. cbn [ilog10]. case_bool.
  - destruct (decide (k = 0)) as [->|]; [simpl; lia|]. split; [intros _|lia].
    apply Z.lt_le_trans with (10 ^ 1); [lia|]. apply Z.pow_le_mono_r; lia.
  - destruct (decide (k = 0)) as [->|].
    { assert (0 <= ilog10 fuel (n / 10)); [|simpl; lia].
      clear. generalize (n / 10). induction fuel as [|f IHf]; intros m; simpl; [lia|].
      case_bool; [lia|]. specialize (IHf (m / 10)). lia. }
    replace (10 ^ k) with (10 * 10 ^ (k - 1)) by (rewrite <- Z.pow_succ_r by lia; f_equal; lia).
    assert (0 < n / 10 < 10 ^ Z.of_nat fuel) as Hd.
    { split; [apply Z.div_str_pos; lia|apply Z.div_lt_upper_bound; lia]. }
    specialize (IH (n / 10) (k - 1) Hd). rewrite <- Z.lt_add_lt_sub_l in IH.
    rewrite IH by lia. split; intros Hlt.
    + pose proof (Z.div_mod n 10). pose proof (Z.mod_pos_bound n 10). lia.
    + apply Z.div_lt_upper_bound; lia.
Qed.

Lemma abs_quot_div a b : 0 < b -> Z.abs (Z.quot a b) = Z.abs a / b.
Proof. intros Hb. rewrite <- Z.quot_abs by lia. rewrite (Z.abs_eq b) by lia. apply Z.quot_div_nonneg; lia. Qed.

(** C29: A decimal is compatible with [DECIMAL(p, s)] exactly when it needs at
    most [s] fractional digits and its integer part at most [p - s] digits, for
    every type the smart constructor allows ([s <= p]); the digit count by
    logarithm has no off-by-one. *)
Theorem compatible_decimal_exact {D E} `{DecimalLaws D} (d : D) p s :
  dec_ok d -> 0 <= s <= p ->
  @is_compatible D _ E (VDecimal d) (TDecimal p s)
  = Ok (bool_decide (dec_scale d <= s /\ Z.abs (dec_mantissa d) < 10 ^ (dec_scale d + (p - s)))).
Proof.
  intros Hd Hps. simpl. pose proof (dec_scale_range d) as Hsc.
  destruct (Z.ltb_spec s (dec_scale d)).
  { by rewrite bool_decide_false by lia. }
  rewrite dec_abs_mantissa, dec_trunc_mantissa.
  assert (0 < 10 ^ dec_scale d) as Hpow by (apply Z.pow_pos_nonneg; lia).
  rewrite abs_quot_div by done. set (m := Z.abs (dec_mantissa d)).
  assert (m < 2 ^ 96) as Hm by (by apply dec_mantissa_range).
  assert (0 <= m) as Hm0 by (subst m; lia).
  assert (forall k, 0 <= k -> m / 10 ^ dec_scale d < 10 ^ k <-> m < 10 ^ (dec_scale d + k)) as Hfit.
  { intros k Hk. rewrite Z.pow_add_r by lia. split; intros Hlt.
    - destruct (Z.lt_ge_cases m (10 ^ dec_scale d * 10 ^ k)) as [|Hge]; [done|].
      apply Z.div_le_lower_bound in Hge; [lia|done].
    - by apply Z.div_lt_upper_bound. }
  destruct (Z.eqb_spec (m / 10 ^ dec_scale d) 0) as [Hz|Hz].
  { rewrite bool_decide_true; [done|]. split; [lia|]. apply Hfit; [lia|].
    rewrite Hz. apply Z.pow_pos_nonneg; lia. }
  assert (0 <= m / 10 ^ dec_scale d) by (apply Z.div_pos; lia).
  unfold checked_ilog10. zbool. cbn [default from_option id]. rewrite usub_ok by lia. cbn [mbind outcome_bind].
  pose proof (Hfit (p - s)) as Hfit0.
  assert (m / 10 ^ dec_scale d < 10 ^ 39) as H39.
  { apply Z.le_lt_trans with m; [|lia]. apply Z.div_le_upper_bound; [done|].
    rewrite <- (Z.mul_1_l m) at 1. apply Z.mul_le_mono_nonneg_r; lia. }
  pose proof (ilog10_lt 39 (m / 10 ^ dec_scale d) (p - s)) as Hlog.
  change (Z.of_nat 39) with 39 in Hlog. rewrite <- Hlog in Hfit0 by lia.
  f_equal. apply eq_bool_prop_intro. rewrite bool_decide_spec, Is_true_true, Z.leb_le.
  fold m. rewrite <- Hfit0 by lia. unfold id. generalize dependent (ilog10 39 (m / 10 ^ dec_scale d)). intros. lia.
Qed.

Lemma compatible_decimal_exact_witness :
  @is_compatible SimpleDecimal _ () (VDecimal (mkDec 10050 2)) (TDecimal 4 2)
  = Ok (bool_decide (dec_scale (mkDec 10050 2) <= 2
                     /\ Z.abs (dec_mantissa (mkDec 10050 2)) < 10 ^ (dec_scale (mkDec 10050 2) + (4 - 2)))).
Proof. apply (compatible_decimal_exact (mkDec 10050 2) 4 2); [simpl; lia|lia]. Defined.

(** * Primary keys of records *)

Lemma reverse_lookup_app (l : list rstr) (o : Z) (m : gmap rstr Z) (c : rstr) :
  c ∉ l -> fold_left (fun m '(i, c) => <[c := i]> m) (zip (range o (o + zlen l)) l) m !! c = m !! c.
Proof.
  revert o m. induction l as [|d l IH]; intros o m Hc.
  { by destruct (range _ _). }
  apply not_elem_of_cons in Hc as [Hne Hc]. rewrite zlen_cons.
  rewrite range_cons by (pose proof (zlen_nonneg l); lia). simpl.
  replace (o + (1 + zlen l)) with (o + 1 + zlen l) by lia. rewrite IH by done.
  by rewrite lookup_insert_ne.
Qed.

Lemma reverse_lookup_fold (l : list rstr) (o : Z) (m : gmap rstr Z) (c : rstr) (j : nat) :
  NoDup l -> l !! j = Some c ->
  fold_left (fun m '(i, c) => <[c := i]> m) (zip (range o (o + zlen l)) l) m !! c
  = Some (o + Z.of_nat j).
Proof.
  revert o m j. induction l as [|d l IH]; intros o m j Hnd Hj; [done|].
  apply NoDup_cons in Hnd as [Hd Hnd]. rewrite zlen_cons.
  rewrite range_cons by (pose proof (zlen_nonneg l); lia). simpl.
  replace (o + (1 + zlen l)) with (o + 1 + zlen l) by lia.
  destruct j as [|j]; simpl in Hj.
  - injection Hj as ->. rewrite reverse_lookup_app by done. rewrite lookup_insert_eq. f_equal. lia.
  - rewrite (IH _ _ j) by done. f_equal. lia.
Qed.

Lemma pk_reverse_lookup_ok pk c j :
  NoDup pk -> pk !! j = Some c -> pk_reverse_lookup pk !! c = Some (Z.of_nat j).
Proof. apply (reverse_lookup_fold pk 0 ∅). Qed.

Lemma vec_insert_end {E A} (x : A) l : @vec_insert E A (zlen l) x l = Ok (l ++ [x]).
Proof.
  unfold vec_insert. zbool. pose proof (zlen_nonneg l). zbool. cbn [andb].
  by rewrite sub_all, Z.sub_diag, sub_0.
Qed.

Lemma vec_insert_beyond {E A} i (x : A) l : zlen l < i -> @vec_insert E A i x l = Panic.
Proof. intros. unfold vec_insert. zbool. by rewrite andb_false_r. Qed.

Section PrimaryKey.
Context {D E : Type} `{Decimal D} (t : TableDefinition) (r : DbRecord D) (pk : list rstr).
#[local] Abbreviation names := (col_name <$> columns t).
Hypothesis Hnames : NoDup names.
Hypothesis Hpk : NoDup pk.
Hypothesis Hsub : forall c, c ∈ pk -> c ∈ names.
Hypothesis Hlen : (length names <= length r)%nat.

(** The value [v] of the record's column [c]. *)
Definition column_value (v : DataValue D) (c : rstr) : Prop :=
  exists i, names !! i = Some c /\ r !! i = Some v.

(** The key columns among [l], in the order of [l]. *)
Definition key_part (l : list rstr) : list rstr := filter (fun c => c ∈ pk) l.

Lemma key_part_length : length (key_part names) = length pk.
Proof.
  apply Permutation_length. apply NoDup_Permutation; [by apply NoDup_filter|done|].
  intros c. unfold key_part. rewrite list_elem_of_filter. naive_solver.
Qed.

#[local] Abbreviation step := (@get_primary_key_step D E r t pk (pk_reverse_lookup pk)).

(** The next key column of the table is next in the key, or the insert panics. *)
Lemma key_step_member i c ks acc :
  names !! i = Some c -> c ∈ pk -> key_part (take i names) = ks -> ks `prefix_of` pk ->
  Forall2 column_value acc ks ->
  (exists v, step acc (Z.of_nat i) = Ok (acc ++ [v]) /\ column_value v c
             /\ (ks ++ [c]) `prefix_of` pk)
  \/ (step acc (Z.of_nat i) = Panic /\ ~ (ks ++ [c]) `prefix_of` pk).
Proof.
  intros Hi Hc Hks Hpre Hacc. pose proof Hi as Hi'.
  apply list_lookup_fmap_Some in Hi as (col & -> & Hcol).
  assert (i < length r)%nat as Hir by (apply lookup_lt_Some in Hi'; lia).
  apply lookup_lt_is_Some_2 in Hir as [v Hv].
  apply list_elem_of_lookup in Hc as [j Hj].
  assert (step acc (Z.of_nat i) = vec_insert (Z.of_nat j) v acc) as ->.
  { unfold get_primary_key_step. rewrite (index_ok (Z.of_nat i) (columns t) col) by (lia || by rewrite Nat2Z.id).
    cbn [mbind outcome_bind].
    rewrite bool_decide_true by (by eapply list_elem_of_lookup_2).
    erewrite pk_reverse_lookup_ok by done. cbn [unwrap_opt mbind outcome_bind].
    by rewrite (index_ok (Z.of_nat i) r v) by (lia || by rewrite Nat2Z.id). }
  assert (length acc = length ks) as Hal by (by eapply Forall2_length).
  destruct (Nat.lt_trichotomy j (length ks)) as [Hlt|[Heq|Hgt]].
  - exfalso. assert (col_name col ∈ key_part (take i names)) as Hin.
    { rewrite Hks. destruct Hpre as [k ->]. rewrite lookup_app_l in Hj by done.
      by eapply list_elem_of_lookup_2. }
    apply list_elem_of_filter in Hin as [_ Hin]. apply list_elem_of_lookup in Hin as [i' Hi2].
    apply lookup_take_Some in Hi2 as [Hi2 Hlt']. pose proof (NoDup_lookup _ _ _ _ Hnames Hi2 Hi'). lia.
  - left. exists v. replace (Z.of_nat j) with (zlen acc) by (unfold zlen; lia).
    rewrite vec_insert_end. split_and!; [done|by exists i|].
    destruct Hpre as [k ->]. rewrite Heq, lookup_app_r, Nat.sub_diag in Hj by lia.
    destruct k as [|x k]; simpl in Hj; [done|]. injection Hj as ->. exists k.
    by rewrite <- app_assoc.
  - right. rewrite vec_insert_beyond by (unfold zlen; lia). split; [done|].
    intros [k Hk]. assert (pk !! length ks = Some (col_name col)) as Hj2.
    { rewrite Hk, <- app_assoc. cbn [app]. by rewrite list_lookup_middle. }
    pose proof (NoDup_lookup _ _ _ _ Hpk Hj Hj2). lia.
Qed.

Lemma key_step_other i c acc :
  names !! i = Some c -> c ∉ pk -> step acc (Z.of_nat i) = Ok acc.
Proof.
  intros Hi Hc. apply list_lookup_fmap_Some in Hi as (col & -> & Hcol).
  unfold get_primary_key_step. rewrite (index_ok (Z.of_nat i) (columns t) col) by (lia || by rewrite Nat2Z.id).
    cbn [mbind outcome_bind].
  by rewrite bool_decide_false.
Qed.

Lemma key_part_take_S i c :
  names !! i = Some c ->
  key_part (take (S i) names) = key_part (take i names) ++ (if decide (c ∈ pk) then [c] else []).
Proof.
  intros Hi. unfold key_part. rewrite (take_S_r _ _ c) by done. by rewrite filter_app.
Qed.

Lemma key_loop k i acc :
  (i + k = length names)%nat ->
  key_part (take i names) `prefix_of` pk ->
  Forall2 column_value acc (key_part (take i names)) ->
  (pk = key_part names ->
   exists key, ofold step acc (range (Z.of_nat i) (zlen (columns t))) = Ok key
     /\ Forall2 column_value key pk)
  /\ (pk <> key_part names ->
   ofold step acc (range (Z.of_nat i) (zlen (columns t))) = Panic).
Proof.
  assert (length names = length (columns t)) as Hln by apply length_fmap.
  revert i acc. induction k as [|k IH]; intros i acc Hik Hpre Hacc.
  - rewrite range_nil by (unfold zlen; lia).
    rewrite take_ge in Hpre, Hacc by lia.
    assert (pk = key_part names) as Hall.
    { destruct Hpre as [l Hl]. pose proof key_part_length as Hkl. rewrite Hl, length_app in Hkl.
      destruct l; [by rewrite app_nil_r in Hl|simpl in Hkl; lia]. }
    split; [|done]. intros _. exists acc. split; [done|]. by rewrite Hall.
  - assert (i < length names)%nat as Hi by lia. apply lookup_lt_is_Some_2 in Hi as [c Hi].
    rewrite range_cons by (unfold zlen; lia).
    replace (Z.of_nat i + 1) with (Z.of_nat (S i)) by lia. cbn [ofold].
    pose proof (key_part_take_S i c Hi) as HS. destruct (decide (c ∈ pk)) as [Hc|Hc].
    + destruct (key_step_member i c _ acc Hi Hc eq_refl Hpre Hacc) as [(v & -> & Hv & Hp)|[-> Hp]].
      * apply (IH (S i)); [lia|by rewrite HS|]. rewrite HS. apply Forall2_app; [done|].
        by constructor.
      * split; [|done]. intros Heq. exfalso. apply Hp. rewrite <- HS, Heq.
        exists (key_part (drop (S i) names)). unfold key_part. rewrite <- filter_app.
        by rewrite take_drop.
    + rewrite (key_step_other i c) by done. cbn [mbind outcome_bind].
      rewrite app_nil_r in HS. apply (IH (S i)); [lia|by rewrite HS|by rewrite HS].
Qed.
End PrimaryKey.

(** Both cases of [get_primary_key] come from the loop over all the columns. *)
Lemma primary_key_loop {D E} `{Decimal D} t (r : DbRecord D) name pk :
  get_primary_key t = Some (PrimaryKey name pk) ->
  NoDup (col_name <$> columns t) -> NoDup pk ->
  (forall c, c ∈ pk -> c ∈ col_name <$> columns t) ->
  (length (columns t) <= length r)%nat ->
  (pk = key_part pk (col_name <$> columns t) ->
   exists key, @record_get_primary_key D E r t = Ok key /\ Forall2 (column_value t r) key pk)
  /\ (pk <> key_part pk (col_name <$> columns t) -> @record_get_primary_key D E r t = Panic).
Proof.
  intros Hk Hn Hpk Hsub Hlen. unfold record_get_primary_key. rewrite Hk.
  cbn [unwrap_opt mbind outcome_bind col_names].
  destruct (key_loop (E := E) t r pk Hn Hpk Hsub) with (k := length (col_name <$> columns t))
    (i := 0%nat) (acc := @nil (DataValue D)) as [H1 H2].
  - by rewrite length_fmap.
  - lia.
  - rewrite take_0. apply prefix_nil.
  - rewrite take_0. constructor.
  - change (Z.of_nat 0) with 0 in *. split; [|intros Hne; by rewrite H2].
    intros Heq. destruct (H1 Heq) as (key & -> & Hv). by exists key.
Qed.

(** C28: For a table whose columns have distinct names and whose primary key
    names distinct columns of it, and a record with a value for each column:
    [get_primary_key] returns the values of the key's columns in the order of
    the key when that order is the order of the table's columns; when the key
    is declared in any other order, it panics (in [Vec::insert]). *)
Theorem record_primary_key_spec {D E} `{Decimal D} t (r : DbRecord D) name pk :
  get_primary_key t = Some (PrimaryKey name pk) ->
  NoDup (col_name <$> columns t) -> NoDup pk ->
  (forall c, c ∈ pk -> c ∈ col_name <$> columns t) ->
  (length (columns t) <= length r)%nat ->
  (pk = key_part pk (col_name <$> columns t) ->
   exists key, @record_get_primary_key D E r t = Ok key /\ Forall2 (column_value t r) key pk)
  /\ (pk <> key_part pk (col_name <$> columns t) -> @record_get_primary_key D E r t = Panic).
Proof. apply primary_key_loop. Qed.

(** A table [t (a, b)] whose primary key is declared as [(b, a)]. *)
Definition reordered_key_table : TableDefinition :=
  mkTable 0 [116] [mkColumn [97] TInt false None; mkColumn [98] TInt false None]
    [PrimaryKey [112] [[98]; [97]]].

Lemma record_primary_key_spec_witness :
  ([[98]; [97]] = key_part [[98]; [97]] (col_name <$> columns reordered_key_table) ->
   exists key, @record_get_primary_key SimpleDecimal () [VInt 1; VInt 2] reordered_key_table = Ok key
     /\ Forall2 (column_value reordered_key_table [VInt 1; VInt 2]) key [[98]; [97]])
  /\ ([[98]; [97]] <> key_part [[98]; [97]] (col_name <$> columns reordered_key_table) ->
   @record_get_primary_key SimpleDecimal () [VInt 1; VInt 2] reordered_key_table = Panic).
Proof.
  apply (record_primary_key_spec reordered_key_table _ [112]).
  - reflexivity.
  - apply (bool_decide_unpack _). vm_compute. exact I.
  - apply (bool_decide_unpack _). vm_compute. exact I.
  - intros c Hc. set_solver.
  - simpl. lia.
Defined.
