(* ===== verification/DataText.v ===== *)
(** The texts and the hashes of the data model: [Display] of values, keys and
    records, the derived [Hash], and the hash sets and sorting that rely on it
    and on the order. *)
From Stdlib Require Import String.
From S2P Require Import Prelude.
From S2P Require Import Bytes.
From S2P Require Import RustStr.
From S2P Require Import Ordering.
From S2P Require Import OrderedFloat.
From S2P Require Import FloatText.
From S2P Require Import DataModel.
From S2P Require Import DataModelProps.

(** * Hashing *)

(** The writes to a hasher. *)
Inductive HashWrite :=
| HIsize (v : Z)
| HI32 (v : Z)
| HI64 (v : Z)
| HU8 (v : Z)
| HU64 (v : Z)
| HUsize (v : Z)
| HBytes (bs : list Z).

#[export] Instance HashWrite_eq_dec : EqDecision HashWrite.
Proof. solve_decision. Defined.

(** [Display] and [Hash] of [rust_decimal::Decimal]; equal numbers have equal
    hashes. *)
Class DecimalText (D : Type) := {
  dec_show : D -> rstr;
  dec_hash : D -> list HashWrite;
}.
Class DecimalHashLaw (D : Type) `{DecimalLaws D, !DecimalText D} : Prop :=
  dec_hash_eq : forall d e, dec_ok d -> dec_ok e -> dec_eq d e = true -> dec_hash d = dec_hash e.

(** [OrderedFloat::hash] hashes the bits as a [u64]. *)
Definition of_hash (x : OrderedFloat) : list HashWrite := [HU64 (of_hash_bits x)].

(** [Display] of a signed integer. *)
Definition show_signed (n : Z) : rstr :=
  if n <? 0 then str "-" ++ show_unsigned (- n) else show_unsigned n.

Section Text.
Context {D : Type} `{Decimal D, !DecimalText D}.
#[local] Abbreviation DataValue := (DataValue D).

(** The derived [Hash]: the variant, then the field; a string ends with 0xff, a
    vector begins with its length. *)
Definition value_hash (v : DataValue) : list HashWrite :=
  HIsize (variant v) ::
  match v with
  | VNull => []
  | VInt v => [HI32 v]
  | VBigInt v | VDateTime v => [HI64 v]
  | VBoolean b => [HU8 (if b : bool then 1 else 0)]
  | VFloat f => of_hash f
  | VText s => [HBytes s; HU8 255]
  | VBlob bs => [HUsize (zlen bs); HBytes bs]
  | VDecimal d => dec_hash d
  end.

(** * [Display] *)

Definition value_fmt (v : DataValue) : rstr :=
  match v with
  | VBigInt val | VInt val | VDateTime val => show_signed val
  | VBlob val => str "<BLOB length=" ++ show_unsigned (zlen val) ++ str ">"
  | VBoolean val => if val : bool then str "true" else str "false"
  | VDecimal val => dec_show val
  | VFloat val => show_f64 (float_bits val)
  | VText val => val
  | VNull => str "NULL"
  end.

(** The loop over the values of a key or a record. *)
Definition fmt_step (out : rstr) (item : Z * DataValue) : rstr :=
  let '(i, val) := item in
  (if 0 <? i then out ++ str ", " else out) ++ value_fmt val.

Definition key_fmt (k : Key D) : rstr := fold_left fmt_step (enumerate k) (str "(") ++ str ")".
Definition record_fmt (r : DbRecord D) : rstr := fold_left fmt_step (enumerate r) (str "(") ++ str ")".
End Text.

(** ** The texts of a key, joined *)

Section Facts.
Context {D : Type} `{DecimalHashLaw D}.
#[local] Abbreviation DataValue := (DataValue D).

Lemma enumerate_cons {A} (x : A) l : enumerate (x :: l) = (0, x) :: zip (range 1 (1 + zlen l)) l.
Proof.
  unfold enumerate. rewrite zlen_cons. pose proof (zlen_nonneg l). rewrite range_cons by lia.
  done.
Qed.

Lemma fold_fmt_tail i (l : list DataValue) out : 0 < i ->
  fold_left fmt_step (zip (range i (i + zlen l)) l) out
  = out ++ mjoin ((fun v => str ", " ++ value_fmt v) <$> l).
Proof.
  revert i out. induction l as [|v l IH]; intros i out Hi.
  { rewrite range_nil by (unfold zlen; simpl; lia). by rewrite app_nil_r. }
  rewrite zlen_cons. pose proof (zlen_nonneg l). rewrite range_cons by lia.
  cbn [zip zip_with fold_left fmt_step]. zbool.
  replace (i + (1 + zlen l)) with (i + 1 + zlen l) by lia.
  rewrite IH by lia. cbn [fmap list_fmap mjoin list_join]. by rewrite <- !app_assoc.
Qed.

(** A key is printed as its values between parentheses, separated by commas. *)
Lemma key_fmt_cons v (k : Key D) :
  key_fmt (v :: k) = str "(" ++ value_fmt v ++ mjoin ((fun v => str ", " ++ value_fmt v) <$> k) ++ str ")".
Proof.
  unfold key_fmt. rewrite enumerate_cons. cbn [fold_left fmt_step]. zbool.
  rewrite fold_fmt_tail by lia. by rewrite <- !app_assoc.
Qed.

(** ** Equal values have equal hashes *)

Lemma of_hash_eq x y :
  f64_ok (float_bits x) -> f64_ok (float_bits y) -> of_eq x y = true -> of_hash x = of_hash y.
Proof. intros Hx Hy He. unfold of_hash. by rewrite (proj1 (of_hash_bits_eq x y Hx Hy) He). Qed.

Lemma value_eq_hash (x y : DataValue) :
  value_ok x -> value_ok y -> value_eq x y = true -> value_hash x = value_hash y.
Proof.
  unfold value_hash. destruct x, y; cbn [value_ok value_eq variant]; intros Hx Hy He; try done.
  - apply Z.eqb_eq in He. by subst.
  - apply Z.eqb_eq in He. by subst.
  - apply eqb_prop in He. by subst.
  - f_equal. by apply of_hash_eq.
  - apply bool_decide_eq_true in He. by subst.
  - apply bool_decide_eq_true in He. by subst.
  - apply Z.eqb_eq in He. by subst.
  - f_equal. by apply dec_hash_eq.
Qed.
End Facts.

(** * Hash sets

    A set of [std::collections] with some hasher: an item is looked for among
    those with its hash. *)
Section HashSet.
Context {A : Type} (hash : A -> list HashWrite) (eqb : A -> A -> bool) (hasher : list HashWrite -> Z).

Definition set_contains (s : list A) (x : A) : bool :=
  existsb (fun y => (hasher (hash y) =? hasher (hash x)) && eqb y x) s.
Definition set_insert (x : A) (s : list A) : list A := if set_contains s x then s else x :: s.

(** Whatever the hasher, a set finds what is equal to one of its items. *)
Lemma set_contains_spec (P : A -> Prop) s x :
  (forall y, P y -> eqb y x = true -> hash y = hash x) -> Forall P s ->
  set_contains s x = existsb (fun y => eqb y x) s.
Proof.
  intros Heq. unfold set_contains. induction 1 as [|y s Hy _ IH]; [done|]. cbn [existsb].
  rewrite IH. f_equal. destruct (eqb y x) eqn:E; [|by rewrite andb_false_r].
  by rewrite (Heq y Hy E), Z.eqb_refl.
Qed.
End HashSet.

(** * Sorting

    [slice::sort]: it is stable, so the order determines the result. *)
Section Sort.
Context {A : Type} (cmp : A -> A -> comparison).

Fixpoint sort_insert (x : A) (l : list A) : list A :=
  match l with
  | [] => [x]
  | y :: l' => match cmp x y with Gt => y :: sort_insert x l' | _ => x :: l end
  end.
Definition sort (l : list A) : list A := foldr sort_insert [] l.

Lemma sort_insert_perm x l : sort_insert x l ≡ₚ x :: l.
Proof.
  induction l as [|y l IH]; [done|]. cbn [sort_insert]. destruct (cmp x y); [done..|].
  rewrite IH. by apply Permutation_swap.
Qed.

Lemma sort_perm l : sort l ≡ₚ l.
Proof. induction l as [|x l IH]; [done|]. unfold sort in *. cbn [foldr]. by rewrite sort_insert_perm, IH. Qed.
End Sort.

(** * The example decimal type *)

#[export] Instance simple_decimal_text : DecimalText SimpleDecimal := {
  dec_show d :=
    let s := Z.of_N (sd_scale d) in
    let q := Z.abs (sd_mantissa d) / 10 ^ s in
    let r := Z.abs (sd_mantissa d) mod 10 ^ s in
    (if sd_mantissa d <? 0 then str "-" else []) ++ show_digits 39 q
    ++ (if s =? 0 then [] else str "." ++ fill 48 (s - zlen (show_digits 39 r)) ++ show_digits 39 r);
  dec_hash d := [HI64 (sd_mantissa d * 10 ^ (28 - Z.of_N (sd_scale d)))];
}.

#[export] Instance simple_decimal_hash : DecimalHashLaw SimpleDecimal.
Proof.
  intros [m s] [m' s'] [_ Hs] [_ Hs'] He. cbn in *. apply Z.eqb_eq in He. do 2 f_equal.
  assert (10 ^ 28 = 10 ^ Z.of_N s * 10 ^ (28 - Z.of_N s)) as H1 by (rewrite <- Z.pow_add_r by lia; f_equal; lia).
  assert (10 ^ 28 = 10 ^ Z.of_N s' * 10 ^ (28 - Z.of_N s')) as H2 by (rewrite <- Z.pow_add_r by lia; f_equal; lia).
  pose proof (pow10_pos s). pose proof (pow10_pos s').
  apply (Z.mul_cancel_r _ _ (10 ^ Z.of_N s * 10 ^ Z.of_N s')); [nia|].
  replace (m * 10 ^ (28 - Z.of_N s) * (10 ^ Z.of_N s * 10 ^ Z.of_N s'))
    with (m * 10 ^ Z.of_N s' * (10 ^ Z.of_N s * 10 ^ (28 - Z.of_N s))) by lia.
  replace (m' * 10 ^ (28 - Z.of_N s') * (10 ^ Z.of_N s * 10 ^ Z.of_N s'))
    with (m' * 10 ^ Z.of_N s * (10 ^ Z.of_N s' * 10 ^ (28 - Z.of_N s'))) by lia.
  rewrite <- H1, <- H2. by rewrite He.
Qed.
