(* ===== verification/DataModelTests.v ===== *)
(** The unit tests of the data model crate, as statements about the model: each
    definition is the conjunction of the assertions of the test of that name.
    Decimal literals are values of the example decimal type; the hasher of a
    hash container is any function. *)
From Stdlib Require Import String.
From S2P Require Import Prelude.
From S2P Require Import Bytes.
From S2P Require Import RustStr.
From S2P Require Import Schema.
From S2P Require Import Ordering.
From S2P Require Import OrderedFloat.
From S2P Require Import DataModel.
From S2P Require Import DataModelProps.
From S2P Require Import DataText.

#[local] Abbreviation V := (DataValue SimpleDecimal).

(** [a < b], [a > b], [a <= b], [a >= b] from a comparison. *)
Definition less (c : comparison) : bool := match c with Lt => true | _ => false end.
Definition greater (c : comparison) : bool := match c with Gt => true | _ => false end.
Definition at_most (c : comparison) : bool := negb (greater c).
Definition at_least (c : comparison) : bool := negb (less c).

(** * [ordered_float.rs]: bit patterns of the literals *)

Definition f_1_0 := mkFloat 4607182418800017408.
Definition f_1_5 := mkFloat 4609434218613702656.
Definition f_2_0 := mkFloat 4611686018427387904.
Definition f_3_533 := mkFloat 4615138027541767389.
Definition f_inf := mkFloat (2047 * 2 ^ 52).
Definition f_neg_inf := mkFloat (2 ^ 63 + 2047 * 2 ^ 52).
Definition f_nan := mkFloat F64_NAN.
Definition f_zero := mkFloat F64_ZERO.
Definition f_neg_zero := mkFloat F64_NEG_ZERO.

Definition test_equality_normal_numbers : Prop :=
  let a := f_1_5 in let b := f_1_5 in let c := f_2_0 in
  of_eq a b = true /\ of_eq a c = false.

Definition test_equality_nan : Prop :=
  let nan1 := f_nan in let nan2 := f_nan in let num := f_1_0 in
  of_eq nan1 nan2 = true /\ of_eq nan1 num = false.

Definition test_ordering_normal_numbers : Prop :=
  let a := f_1_0 in let b := f_2_0 in let c := f_1_0 in
  less (of_cmp a b) = true /\ greater (of_cmp b a) = true
  /\ at_most (of_cmp a c) = true /\ at_least (of_cmp a c) = true
  /\ of_cmp a b = Lt /\ of_cmp b a = Gt.

Definition test_ordering_nan : Prop :=
  let nan := f_nan in let inf := f_inf in let neg_inf := f_neg_inf in let zero := f_zero in
  greater (of_cmp nan inf) = true /\ greater (of_cmp nan zero) = true
  /\ greater (of_cmp nan neg_inf) = true
  /\ of_cmp nan inf = Gt /\ of_cmp inf nan = Lt.

Definition test_hash_zeros : Prop :=
  of_eq f_zero f_neg_zero = true /\ of_hash_bits f_zero = of_hash_bits f_neg_zero.

Definition test_hash_nan : Prop := of_hash_bits f_nan = of_hash_bits f_nan.

Definition f_neg_5 := mkFloat (2 ^ 63 + 4617315517961601024).

Definition test_sorting_vec : Prop :=
  sort of_cmp [f_1_0; f_nan; f_neg_inf; f_zero; f_inf; f_neg_5]
  = [f_neg_inf; f_neg_5; f_zero; f_1_0; f_inf; f_nan].

Definition test_hash_map_usage : Prop := forall hasher : list HashWrite -> Z,
  let contains := set_contains of_hash of_eq hasher in
  let insert := set_insert of_hash of_eq hasher in
  let set := insert f_1_5 (insert f_nan (insert f_zero [])) in
  contains set f_neg_zero = true /\ contains set f_nan = true
  /\ contains set f_1_5 = true /\ contains set f_2_0 = false.

(** * [data_value.rs] *)

Definition test_float_nan_equality : Prop := value_eq (VFloat f_nan : V) (VFloat f_nan) = true.

Definition test_blob_equality : Prop := value_eq (VBlob [1; 2; 3] : V) (VBlob [1; 2; 3]) = true.

Definition test_structural_ordering : Prop := less (value_cmp (VNull : V) (VInt 0)) = true.

Definition test_decimal_equality_normalization : Prop :=
  value_eq (VDecimal (mkDec 10 1)) (VDecimal (mkDec 100 2)) = true.

Definition test_hashing_capabilities : Prop := forall hasher : list HashWrite -> Z,
  let v1 := VInt 42 : V in
  let set := set_insert value_hash value_eq hasher v1 [] in
  set_contains value_hash value_eq hasher set v1 = true.

(** [v.is_compatible(&t)] returned [b]. *)
Definition compatible (v : V) (t : PrimitiveDataType) (b : bool) : Prop :=
  @is_compatible SimpleDecimal _ () v t = Ok b.

Definition test_type_compatibility_varchar : Prop :=
  compatible (VText (str "Hello")) (TVarchar 5) true
  /\ compatible (VText (str "Hello World")) (TVarchar 5) false.

Definition test_type_compatibility_blob : Prop :=
  compatible (VBlob [1; 2; 3; 4; 5]) (TBlob 5) true
  /\ compatible (VBlob []) (TBlob 5) true
  /\ compatible (VBlob [1; 2; 3; 4; 5; 6]) (TBlob 5) false.

Definition test_type_compatibility_mismatch : Prop :=
  compatible (VText (str "hello")) (TBlob 10) false
  /\ compatible (VBlob [1]) (TVarchar 10) false.

Definition test_type_compatibility_int : Prop :=
  compatible (VInt 100) TInt true /\ compatible (VInt 100) TBigInt true
  /\ compatible (VBigInt 100) TInt false.

Definition test_type_compatibility_decimal : Prop :=
  compatible (VDecimal (mkDec 1050 2)) (TDecimal 4 2) true
  /\ compatible (VDecimal (mkDec 11 1)) (TDecimal 4 2) true
  /\ compatible (VDecimal (mkDec 99 2)) (TDecimal 4 2) true
  /\ compatible (VDecimal (mkDec 10050 2)) (TDecimal 4 2) false
  /\ compatible (VDecimal (mkDec 1123 3)) (TDecimal 4 2) false.

(** * [key.rs] *)

Definition test_key_equality : Prop :=
  let k1 := [VInt 1 : V] in let k2 := [VInt 1 : V] in let k3 := [VInt 2 : V] in
  slice_eq value_eq k1 k2 = true /\ slice_eq value_eq k1 k3 = false.

Definition test_single_column_ordering : Prop :=
  let k1 := [VInt 10 : V] in let k2 := [VInt 20 : V] in
  less (key_cmp k1 k2) = true /\ key_cmp k1 k2 = Lt.

Definition test_composite_key_ordering : Prop :=
  let k1 := [VInt 1 : V; VInt 1] in let k2 := [VInt 1 : V; VInt 2] in
  let k3 := [VInt 2 : V; VInt 1] in
  less (key_cmp k1 k2) = true /\ less (key_cmp k2 k3) = true /\ less (key_cmp k1 k3) = true.

Definition test_mixed_type_ordering : Prop :=
  let k_int := [VInt 1 : V] in let k_text := [VText (str "1") : V] in
  less (key_cmp k_int k_text) || less (key_cmp k_text k_int) = true.

Definition test_from_conversions : Prop :=
  let k1 := key_from_value (VInt 100 : V) in
  let k2 := key_from_vec [VInt 1 : V; VInt 2] in
  zlen k1 = 1 /\ @index () _ 0 k1 = Ok (VInt 100) /\ zlen k2 = 2.

Definition test_len : Prop :=
  zlen (key_from_vec [VInt 1 : V]) = 1 /\ zlen (key_from_vec ([] : list V)) = 0.

Definition test_is_empty : Prop :=
  is_empty (key_from_vec ([] : list V)) = true /\ is_empty (key_from_value (VInt 1 : V)) = false.

Definition test_slice_behavior : Prop :=
  let v1 := VInt 10 : V in let v2 := VText (str "test") : V in
  let slice := key_from_vec [v1; v2] in
  zlen slice = 2 /\ @index () _ 0 slice = Ok v1 /\ @index () _ 1 slice = Ok v2.

Definition test_key_display : Prop :=
  let k1 := key_from_value (VInt 42 : V) in
  let k2 := key_from_vec [VInt 10 : V; VInt 20] in
  let k3 := key_from_vec [VInt 1 : V; VText (str "A"); VNull] in
  let k4 := key_from_vec ([] : list V) in
  key_fmt k1 = str "(42)" /\ key_fmt k2 = str "(10, 20)" /\ key_fmt k3 = str "(1, A, NULL)"
  /\ key_fmt k4 = str "()".

Definition test_complex_composite_key_ordering_mixed : Prop :=
  let k1 := key_from_vec [VInt 5 : V; VText (str "Abe"); VFloat f_3_533] in
  let k2 := key_from_vec [VInt 5 : V; VText (str "Bob"); VFloat f_3_533] in
  less (key_cmp k1 k2) = true /\ slice_eq value_eq k1 k2 = false.

(** * [record.rs] *)

Definition test_record_creation_and_access : Prop :=
  let values := [VInt 1 : V; VText (str "Alice"); VBoolean true] in
  let record := record_from_vec values in
  zlen record = 3 /\ is_empty record = false /\ head record = values !! 0%nat
  /\ record !! 1%nat = values !! 1%nat /\ record !! 2%nat = values !! 2%nat
  /\ record !! 3%nat = None /\ @index () _ 0 record = @index () _ 0 values.

Definition test_record_equality : Prop :=
  let r1 := record_from_vec [VInt 1 : V; VInt 2] in
  let r2 := record_from_vec [VInt 1 : V; VInt 2] in
  let r3 := record_from_vec [VInt 1 : V; VInt 3] in
  slice_eq value_eq r1 r2 = true /\ slice_eq value_eq r1 r3 = false.

Definition test_small_record_optimization : Prop :=
  zlen (record_from_vec [VInt 1 : V; VInt 2; VInt 3; VInt 4]) = 4.

Definition test_large_record_spill : Prop :=
  let large := record_from_vec [VInt 1 : V; VInt 2; VInt 3; VInt 4; VInt 5] in
  zlen large = 5 /\ large !! 4%nat = Some (VInt 5).

Definition test_record_display : Prop :=
  let r1 := record_from_value (VInt 42 : V) in
  let r2 := record_from_vec [VInt 1 : V; VText (str "Alice")] in
  let r3 := record_from_vec ([] : list V) in
  record_fmt r1 = str "(42)" /\ record_fmt r2 = str "(1, Alice)" /\ record_fmt r3 = str "()".

(** * All of them hold *)

Lemma floats_ok l : forallb (fun x => (0 <=? float_bits x) && (float_bits x <? 2 ^ 64)) l = true ->
  Forall (fun x => f64_ok (float_bits x)) l.
Proof.
  intros Hl. apply Forall_forall. intros x Hx. apply list_elem_of_In in Hx.
  rewrite forallb_forall in Hl. specialize (Hl x Hx). unfold f64_ok.
  apply andb_true_iff in Hl as [?%Z.leb_le ?%Z.ltb_lt]. done.
Qed.

(** A set of floats finds what is equal to one of its items. *)
Lemma float_set_contains hasher l x :
  Forall (fun x => f64_ok (float_bits x)) (x :: l) ->
  set_contains of_hash of_eq hasher l x = existsb (fun y => of_eq y x) l.
Proof.
  intros [Hx Hl]%Forall_cons. apply (set_contains_spec _ _ _ (fun y => f64_ok (float_bits y))); [|done].
  intros y Hy. by apply of_hash_eq.
Qed.

Lemma float_set_insert hasher l x :
  Forall (fun x => f64_ok (float_bits x)) (x :: l) -> existsb (fun y => of_eq y x) l = false ->
  set_insert of_hash of_eq hasher x l = x :: l.
Proof. intros Hok He. unfold set_insert. by rewrite float_set_contains, He. Qed.

Example hash_container_tests : test_hash_map_usage /\ test_hashing_capabilities.
Proof.
  split; intros hasher; [|cbn; by rewrite Z.eqb_refl].
  assert (forall x l, existsb (fun y => of_eq y x) l = false ->
    forallb (fun x => (0 <=? float_bits x) && (float_bits x <? 2 ^ 64)) (x :: l) = true ->
    set_insert of_hash of_eq hasher x l = x :: l) as Hins.
  { intros x l He Hok. apply float_set_insert; [by apply floats_ok|done]. }
  cbv zeta. rewrite (Hins f_zero []), (Hins f_nan), (Hins f_1_5) by (by vm_compute).
  split_and!; (rewrite float_set_contains; [by vm_compute|apply floats_ok; by vm_compute]).
Qed.

Example ordered_float_tests :
  test_equality_normal_numbers /\ test_equality_nan /\ test_ordering_normal_numbers
  /\ test_ordering_nan /\ test_hash_zeros /\ test_hash_nan /\ test_sorting_vec.
Proof. by vm_compute. Qed.

Example data_value_tests :
  test_float_nan_equality /\ test_blob_equality /\ test_structural_ordering
  /\ test_decimal_equality_normalization /\ test_type_compatibility_varchar
  /\ test_type_compatibility_blob /\ test_type_compatibility_mismatch
  /\ test_type_compatibility_int /\ test_type_compatibility_decimal.
Proof. by vm_compute. Qed.

Example key_tests :
  test_key_equality /\ test_single_column_ordering /\ test_composite_key_ordering
  /\ test_mixed_type_ordering /\ test_from_conversions /\ test_len /\ test_is_empty
  /\ test_slice_behavior /\ test_complex_composite_key_ordering_mixed /\ test_key_display.
Proof. by vm_compute. Qed.

Example record_tests :
  test_record_creation_and_access /\ test_record_equality /\ test_small_record_optimization
  /\ test_large_record_spill /\ test_record_display.
Proof. by vm_compute. Qed.
