(* ===== verification/Serializer.v ===== *)
(** The record serializer ([record_serializer.rs]): records as
    null bitmap, fixed-length data and variable-length data. *)
From S2P Require Import Prelude.
From S2P Require Import Bytes.
From S2P Require Import RustStr.
From S2P Require Import Schema.
From S2P Require Import OrderedFloat.
From S2P Require Import DataModel.

(** [serialization_error.rs]. *)
Inductive SerializationError :=
| DataTypeMismatch
| PrimaryKeyNotFound
| NullPrimaryKeyColumnValue
| NullValueForNonNullColumnFound.

#[export] Instance SerializationError_eq_dec : EqDecision SerializationError.
Proof. solve_decision. Defined.

(** [size_of::<i32>()]. *)
Definition SIZE_OF_I32 : Z := 4.

Definition get_null_bitmap_size (columns : list ColumnDefinition) : Z := (zlen columns + 7) / 8.

Definition is_col_value_null {E : Type} (null_bitmap : list Z) (i : Z) : outcome E bool :=
  null_bitmap_byte ← index (i / 8) null_bitmap;
  Ok (negb (Z.land null_bitmap_byte (Z.shiftl 1 (i mod 8)) =? 0)).

Definition variable_offset_step {E : Type} (null_bitmap : list Z) (offset : Z)
    (col : Z * ColumnDefinition) : outcome E Z :=
  let '(i, col_def) := col in
  is_null ← is_col_value_null null_bitmap i;
  if is_null : bool then Ok offset
  else if is_fixed_type col_def then
    size ← unwrap_opt (get_fixed_size (data_type col_def));
    Ok (offset + size)
  else Ok offset.

Definition get_variable_length_data_offset {E : Type} (columns : list ColumnDefinition)
    (null_bitmap : list Z) (null_bitmap_size : Z) : outcome E Z :=
  ofold (variable_offset_step null_bitmap) null_bitmap_size (enumerate columns).

Section Serializer.
Context {D : Type} `{Decimal D}.
#[local] Abbreviation DataValue := (DataValue D).
#[local] Abbreviation result := (outcome SerializationError).

(** * [serialize] *)

(** The accumulators of [calculate_serialized_record_size]. *)
Record Sizes := mkSizes {
  total_record_size : Z;
  fixed_length_size : Z;
  variable_length_sizes : list Z;
}.

Definition size_step (columns : list ColumnDefinition) (record : DbRecord D) (s : Sizes) (i : Z) :
    result Sizes :=
  row_value ← index i record;
  if is_null row_value then Ok s
  else
    col_def ← index i columns;
    match get_fixed_size (data_type col_def) with
    | Some fixed_size =>
        Ok (mkSizes (total_record_size s + fixed_size) (fixed_length_size s + fixed_size)
              (variable_length_sizes s))
    | None =>
        let total := total_record_size s + SIZE_OF_I32 in
        match row_value with
        | VBlob val => Ok (mkSizes (total + zlen val) (fixed_length_size s)
                             (variable_length_sizes s ++ [zlen val]))
        | VText val => Ok (mkSizes (total + zlen val) (fixed_length_size s)
                             (variable_length_sizes s ++ [zlen val]))
        | _ => Ok (mkSizes total (fixed_length_size s) (variable_length_sizes s))
        end
    end.

Definition calculate_serialized_record_size (columns : list ColumnDefinition)
    (record : DbRecord D) : result Sizes :=
  ofold (size_step columns record) (mkSizes (get_null_bitmap_size columns) 0 [])
    (range 0 (zlen columns)).

(** The local variables of the loop of [serialize]. *)
Record SerState := mkSer {
  ser_bytes : list Z;
  current_fixed_offset : Z;
  current_variable_offset : Z;
  variable_length_col_index : Z;
}.

(** [bytes[i] |= m]. *)
Definition or_at (i m : Z) (bytes : list Z) : result (list Z) :=
  b ← index i bytes; store i (Z.lor b m) bytes.

(** The bytes of a value in a fixed-length column. *)
Definition write_fixed (v : DataValue) (off fixed_size : Z) (bytes : list Z) : result (list Z) :=
  match v with
  | VBigInt val => copy_from_slice off (off + fixed_size) (le_bytes 8 val) bytes
  | VBoolean val => store off (if val then 1 else 0) bytes
  | VDateTime val => copy_from_slice off (off + fixed_size) (le_bytes 8 val) bytes
  | VDecimal val => copy_from_slice off (off + fixed_size) (dec_serialize val) bytes
  | VFloat val => copy_from_slice off (off + fixed_size) (le_bytes 8 (float_bits val)) bytes
  | VInt val => copy_from_slice off (off + fixed_size) (le_bytes 4 val) bytes
  | _ => Err DataTypeMismatch
  end.

Definition write_variable (v : DataValue) (off variable_length : Z) (bytes : list Z) :
    result (list Z) :=
  match v with
  | VBlob val =>
      bytes ← copy_from_slice off (off + SIZE_OF_I32) (le_bytes 4 variable_length) bytes;
      copy_from_slice (off + SIZE_OF_I32) (off + SIZE_OF_I32 + variable_length) val bytes
  | VText val =>
      bytes ← copy_from_slice off (off + SIZE_OF_I32) (le_bytes 4 variable_length) bytes;
      copy_from_slice (off + SIZE_OF_I32) (off + SIZE_OF_I32 + variable_length) val bytes
  | _ => Err DataTypeMismatch
  end.

Definition serialize_step (sizes : list Z) (s : SerState)
    (col : Z * (ColumnDefinition * DataValue)) : result SerState :=
  let '(i, (col_def, current_value)) := col in
  if is_null current_value then
    bytes ← or_at (i / 8) (Z.shiftl 1 (i mod 8)) (ser_bytes s);
    Ok (mkSer bytes (current_fixed_offset s) (current_variable_offset s)
          (variable_length_col_index s))
  else
    match get_fixed_size (data_type col_def) with
    | Some fixed_size =>
        bytes ← write_fixed current_value (current_fixed_offset s) fixed_size (ser_bytes s);
        Ok (mkSer bytes (current_fixed_offset s + fixed_size) (current_variable_offset s)
              (variable_length_col_index s))
    | None =>
        variable_length ← index (variable_length_col_index s) sizes;
        bytes ← write_variable current_value (current_variable_offset s) variable_length
                  (ser_bytes s);
        Ok (mkSer bytes (current_fixed_offset s)
              (current_variable_offset s + (SIZE_OF_I32 + variable_length))
              (variable_length_col_index s + 1))
    end.

Definition serialize (columns : list ColumnDefinition) (record : DbRecord D) : result (list Z) :=
  let null_bitmap_size := get_null_bitmap_size columns in
  sizes ← calculate_serialized_record_size columns record;
  s ← ofold (serialize_step (variable_length_sizes sizes))
        (mkSer (fill 0 (total_record_size sizes)) null_bitmap_size
           (null_bitmap_size + fixed_length_size sizes) 0)
        (enumerate (zip columns record));
  Ok (ser_bytes s).

(** * [deserialize] *)

(** [try_into().unwrap()] into a fixed-size array, then [from_le_bytes]. *)
Definition deserialize_fixed_sized_col_value (col_def : ColumnDefinition) (bytes : list Z)
    (offset data_size : Z) : result DataValue :=
  data_value ← slice offset (offset + data_size) bytes;
  match data_type col_def with
  | TBigInt => val ← from_le_i 8 data_value; Ok (VBigInt val)
  | TBoolean => val ← index 0 data_value; Ok (VBoolean (negb (val =? 0)))
  | TDateTime => val ← from_le_i 8 data_value; Ok (VDateTime val)
  | TDecimal _ _ =>
      if zlen data_value =? 16 then Ok (VDecimal (dec_deserialize data_value))
      else Err DataTypeMismatch
  | TFloat => val ← from_le_u 8 data_value; Ok (VFloat (mkFloat val))
  | TInt => val ← from_le_i 4 data_value; Ok (VInt val)
  | _ => Err DataTypeMismatch
  end.

(** [data_size as usize] of an [i32] sign-extends to 64 bits. *)
Definition deserialize_variable_sized_col_value (col_def : ColumnDefinition) (bytes : list Z)
    (data_size : Z) : result DataValue :=
  data_bytes ← slice 0 (wrap 64 data_size) bytes;
  match data_type col_def with
  | TBlob _ => Ok (VBlob data_bytes)
  | TVarchar _ => s ← unwrap_opt (from_utf8 data_bytes); Ok (VText s)
  | _ => Err DataTypeMismatch
  end.

(** [split_at(4)] on the bytes from an offset, and the length in front. *)
Definition read_variable_header (bytes : list Z) (offset : Z) : result (Z * list Z) :=
  variable_data_bytes ← slice_from offset bytes;
  data_size_bytes ← slice 0 SIZE_OF_I32 variable_data_bytes;
  rest ← slice_from SIZE_OF_I32 variable_data_bytes;
  data_size ← from_le_i 4 data_size_bytes;
  Ok (data_size, rest).

(** The value of a column and the advanced offsets. *)
Definition deserialize_col_value (col_def : ColumnDefinition) (bytes : list Z)
    (fixed_offset variable_offset : Z) : result (DataValue * Z * Z) :=
  if is_fixed_size (data_type col_def) then
    data_size ← unwrap_opt (get_fixed_size (data_type col_def));
    row_value ← unwrap_res (deserialize_fixed_sized_col_value col_def bytes fixed_offset data_size);
    Ok (row_value, fixed_offset + data_size, variable_offset)
  else
    '(data_size, rest) ← read_variable_header bytes variable_offset;
    row_value ← unwrap_res (deserialize_variable_sized_col_value col_def rest data_size);
    variable_offset ← uadd 64 (variable_offset + SIZE_OF_I32) (wrap 64 data_size);
    Ok (row_value, fixed_offset, variable_offset).

Definition deserialize_step (bytes null_bitmap : list Z) (s : list DataValue * Z * Z)
    (col : Z * ColumnDefinition) : result (list DataValue * Z * Z) :=
  let '(data_values, fixed_offset, variable_offset) := s in
  let '(i, col_def) := col in
  is_null ← is_col_value_null null_bitmap i;
  if is_null : bool then
    if negb (is_nullable col_def) then Err NullValueForNonNullColumnFound
    else
      data_values ← store i VNull data_values;
      Ok (data_values, fixed_offset, variable_offset)
  else
    '(v, fixed_offset, variable_offset) ←
      deserialize_col_value col_def bytes fixed_offset variable_offset;
    data_values ← store i v data_values;
    Ok (data_values, fixed_offset, variable_offset).

Definition deserialize (columns : list ColumnDefinition) (bytes : list Z) : result (DbRecord D) :=
  let data_values := replicate (length columns) VNull in
  let null_bitmap_size := get_null_bitmap_size columns in
  null_bitmap ← slice 0 null_bitmap_size bytes;
  variable_offset ← get_variable_length_data_offset columns null_bitmap null_bitmap_size;
  '(data_values, _, _) ← ofold (deserialize_step bytes null_bitmap)
                           (data_values, null_bitmap_size, variable_offset) (enumerate columns);
  Ok (record_from_vec data_values).

(** * [deserialize_key] *)

Record KeyState := mkKeyState {
  row_values : list DataValue;
  key_fixed_offset : Z;
  key_variable_offset : Z;
  key_cols_found : Z;
}.

(** [iter().position(|c| c.name == name)]. *)
Fixpoint position (name : rstr) (cols : list ColumnDefinition) : option Z :=
  match cols with
  | [] => None
  | c :: cols =>
      if decide (col_name c = name) then Some 0 else (fun i => i + 1) <$> position name cols
  end.

(** The bytes of one column, of the key or not. *)
Definition deserialize_key_col (col_def : ColumnDefinition) (record_bytes : list Z)
    (is_key_col : bool) (key_col_index : Z) (s : KeyState) : result KeyState :=
  if is_fixed_type col_def then
    data_size ← unwrap_opt (get_fixed_size (data_type col_def));
    row_values ←
      (if is_key_col then
         v ← unwrap_res (deserialize_fixed_sized_col_value col_def record_bytes
                           (key_fixed_offset s) data_size);
         store key_col_index v (row_values s)
       else Ok (row_values s));
    Ok (mkKeyState row_values (key_fixed_offset s + data_size) (key_variable_offset s)
          (key_cols_found s))
  else
    '(data_size, rest) ← read_variable_header record_bytes (key_variable_offset s);
    row_values ←
      (if is_key_col then
         v ← unwrap_res (deserialize_variable_sized_col_value col_def rest data_size);
         store key_col_index v (row_values s)
       else Ok (row_values s));
    variable_offset ← uadd 64 (key_variable_offset s + SIZE_OF_I32) (wrap 64 data_size);
    Ok (mkKeyState row_values (key_fixed_offset s) variable_offset (key_cols_found s)).

(** The loop over the columns, left once every key column is found. *)
Fixpoint deserialize_key_loop (key_cols : list ColumnDefinition) (record_bytes null_bitmap : list Z)
    (s : KeyState) (cols : list (Z * ColumnDefinition)) : result KeyState :=
  match cols with
  | [] => Ok s
  | (i, col_def) :: cols =>
      if zlen key_cols <=? key_cols_found s then Ok s
      else
        let is_key_col := existsb (fun c => bool_decide (col_name c = col_name col_def)) key_cols in
        key_col_index ← (if is_key_col then unwrap_opt (position (col_name col_def) key_cols)
                         else Ok 0);
        let s := if is_key_col
                 then mkKeyState (row_values s) (key_fixed_offset s) (key_variable_offset s)
                        (key_cols_found s + 1)
                 else s in
        is_null ← is_col_value_null null_bitmap i;
        if is_null : bool then
          if is_key_col then Err NullPrimaryKeyColumnValue
          else deserialize_key_loop key_cols record_bytes null_bitmap s cols
        else
          s ← deserialize_key_col col_def record_bytes is_key_col key_col_index s;
          deserialize_key_loop key_cols record_bytes null_bitmap s cols
  end.

Definition deserialize_key (record_cols key_cols : list ColumnDefinition) (record_bytes : list Z) :
    result (Key D) :=
  let null_values := replicate (length key_cols) VNull in
  let null_bitmap_size := (zlen record_cols + 7) / 8 in
  null_bitmap ← slice 0 null_bitmap_size record_bytes;
  variable_offset ← get_variable_length_data_offset record_cols null_bitmap null_bitmap_size;
  s ← deserialize_key_loop key_cols record_bytes null_bitmap
        (mkKeyState null_values null_bitmap_size variable_offset 0) (enumerate record_cols);
  Ok (key_from_vec (row_values s)).

Definition deserialize_primary_key (table_def : TableDefinition) (record_bytes : list Z) :
    result (Key D) :=
  key_cols ← get_primary_key_columns table_def;
  match key_cols with
  | Some key_cols => deserialize_key (columns table_def) key_cols record_bytes
  | None => Err PrimaryKeyNotFound
  end.
End Serializer.
Arguments KeyState : clear implicits.
