(* ===== verification/SerializerLayout.v ===== *)
(** The layout of a serialized record: what [serialize] writes for a record
    that fits its columns, and the lemmas on bits and bytes it rests on. *)
From S2P Require Import Prelude.
From S2P Require Import Bytes.
From S2P Require Import RustStr.
From S2P Require Import Schema.
From S2P Require Import OrderedFloat.
From S2P Require Import DataModel.
From S2P Require Import Serializer.

(** * Bits of the null bitmap *)

Definition bit_at (bm : list Z) (i : Z) : bool :=
  match bm !! Z.to_nat (i / 8) with Some b => Z.testbit b (i mod 8) | None => false end.

(** [bm] holds the flags [fl] in order, and zeros after them. *)
Definition bitmap_of (bm : list Z) (fl : list bool) : Prop :=
  bytes_ok bm /\ forall i, 0 <= i -> bit_at bm i = nth (Z.to_nat i) fl false.

Lemma land_bit b k : 0 <= k -> Z.land b (Z.shiftl 1 k) = if Z.testbit b k then 2 ^ k else 0.
Proof.
  intros Hk. rewrite Z.shiftl_1_l. apply Z.bits_inj'. intros n Hn. rewrite Z.land_spec.
  destruct (Z.eq_dec n k) as [->|Hne].
  - rewrite Z.pow2_bits_true by done. destruct (Z.testbit b k); simpl.
    + by rewrite Z.pow2_bits_true.
    + by rewrite Z.bits_0.
  - rewrite Z.pow2_bits_false, andb_false_r by done. destruct (Z.testbit b k).
    + by rewrite Z.pow2_bits_false.
    + by rewrite Z.bits_0.
Qed.

Lemma bitmap_index (bm : list Z) i : 0 <= i < 8 * zlen bm -> 0 <= i / 8 < zlen bm.
Proof. intros Hi. split; [apply Z.div_pos; lia|apply Z.div_lt_upper_bound; lia]. Qed.

Lemma is_col_value_null_ok {E : Type} bm i :
  0 <= i < 8 * zlen bm -> @is_col_value_null E bm i = Ok (bit_at bm i).
Proof.
  intros Hi. unfold is_col_value_null, bit_at.
  pose proof (bitmap_index bm i Hi).
  destruct (lookup_lt_is_Some_2 bm (Z.to_nat (i / 8))) as [b Hb]; [unfold zlen in *; lia|].
  rewrite (index_ok (i / 8) bm b) by (done || apply Z.div_pos; lia).
  cbn [mbind outcome_bind]. rewrite Hb, land_bit by (apply Z.mod_pos_bound; lia).
  destruct (Z.testbit b (i mod 8)); [|done].
  rewrite (proj2 (Z.eqb_neq _ _)); [done|].
  pose proof (Z.pow_pos_nonneg 2 (i mod 8)). pose proof (Z.mod_pos_bound i 8). lia.
Qed.

Lemma is_byte_spec b : is_byte b <-> 0 <= b < 2 ^ 8.
Proof. done. Qed.

Lemma lor_bit_byte b k : is_byte b -> 0 <= k < 8 -> is_byte (Z.lor b (Z.shiftl 1 k)).
Proof.
  intros Hb Hk. rewrite Z.shiftl_1_l.
  assert (0 <= 2 ^ k) by (apply Z.pow_nonneg; lia).
  assert (0 <= Z.lor b (2 ^ k)) as H0 by (apply Z.lor_nonneg; unfold is_byte in Hb; lia).
  split; [done|]. change 256 with (2 ^ 8). apply Z.log2_lt_cancel.
  rewrite Z.log2_lor by (unfold is_byte in Hb; lia). rewrite !Z.log2_pow2 by lia.
  destruct (Z.eq_dec b 0) as [->|]; [simpl; lia|].
  assert (Z.log2 b < 8); [|lia]. apply Z.log2_lt_pow2; unfold is_byte in Hb; lia.
Qed.

Lemma or_at_ok (bm rest : list Z) i :
  bytes_ok bm -> 0 <= i < 8 * zlen bm ->
  exists bm', or_at (i / 8) (Z.shiftl 1 (i mod 8)) (bm ++ rest) = Ok (bm' ++ rest)
    /\ zlen bm' = zlen bm /\ bytes_ok bm'
    /\ forall j, 0 <= j -> bit_at bm' j = (j =? i) || bit_at bm j.
Proof.
  intros Hbm Hi. unfold or_at. pose proof (Z.mod_pos_bound i 8) as Hm.
  pose proof (bitmap_index bm i Hi) as Hd.
  destruct (lookup_lt_is_Some_2 bm (Z.to_nat (i / 8))) as [b Hb]; [unfold zlen in Hd; lia|].
  assert (is_byte b) as Hbyte by (eapply Forall_lookup_1; done).
  rewrite (index_ok (i / 8) (bm ++ rest) b) by (lia || by apply lookup_app_l_Some).
  cbn [mbind outcome_bind]. rewrite store_ok by (rewrite zlen_app; pose proof (zlen_nonneg rest); lia). set (x := Z.lor b _).
  exists (<[Z.to_nat (i / 8) := x]> bm). split_and!.
  - f_equal. rewrite splice_app_l by len. f_equal. apply list_eq. intros n.
    rewrite lookup_splice by len. rewrite list_lookup_insert.
    unfold zlen in *. simpl. repeat case_decide; try lia; try done.
    replace (n - Z.to_nat (i / 8))%nat with 0%nat by lia. done.
  - unfold zlen. by rewrite length_insert.
  - apply Forall_insert; [done|]. apply lor_bit_byte; [done|lia].
  - intros j Hj. unfold bit_at. pose proof (Z.mod_pos_bound j 8) as Hmj.
    assert (0 <= j / 8) by (apply Z.div_pos; lia).
    destruct (decide (j / 8 = i / 8)) as [He|Hne].
    + rewrite He, list_lookup_insert_eq, Hb by (unfold zlen in *; lia). subst x.
      rewrite Z.lor_spec, Z.shiftl_1_l, orb_comm. f_equal.
      pose proof (Z.div_mod i 8). pose proof (Z.div_mod j 8).
      destruct (Z.eqb_spec j i) as [->|Hji].
      * apply Z.pow2_bits_true. lia.
      * apply Z.pow2_bits_false. lia.
    + rewrite list_lookup_insert_ne by lia. rewrite (proj2 (Z.eqb_neq j i)); [done|].
      by intros ->.
Qed.

Lemma nth_snoc_false fl i : nth i (fl ++ [false]) false = nth i fl false.
Proof.
  destruct (Nat.lt_ge_cases i (length fl)).
  - by rewrite app_nth1.
  - rewrite app_nth2 by done. rewrite (nth_overflow fl) by done.
    destruct (i - length fl)%nat as [|[|k]]; done.
Qed.

Lemma bitmap_snoc_false bm fl : bitmap_of bm fl -> bitmap_of bm (fl ++ [false]).
Proof. intros [Hb Hbit]. split; [done|]. intros i Hi. by rewrite nth_snoc_false, Hbit. Qed.

Lemma bitmap_snoc_true bm bm' fl :
  bitmap_of bm fl -> bytes_ok bm' ->
  (forall j, 0 <= j -> bit_at bm' j = (j =? zlen fl) || bit_at bm j) -> bitmap_of bm' (fl ++ [true]).
Proof.
  intros [Hb Hbit] Hb' Hj. split; [done|]. intros i Hi. rewrite Hj, Hbit by done.
  unfold zlen. destruct (Z.eqb_spec i (Z.of_nat (length fl))) as [->|Hne]; simpl.
  - rewrite Nat2Z.id, app_nth2 by lia. by rewrite Nat.sub_diag.
  - destruct (Nat.lt_ge_cases (Z.to_nat i) (length fl)).
    + by rewrite app_nth1.
    + rewrite app_nth2, (nth_overflow fl) by done.
      destruct (Z.to_nat i - length fl)%nat as [|[|k]] eqn:Hk; [lia|done|done].
Qed.

Lemma bitmap_zeros n : bitmap_of (fill 0 n) [].
Proof.
  split; [apply bytes_ok_fill|]. intros i Hi. unfold bit_at, fill.
  destruct (replicate _ _ !! _) as [b|] eqn:Hb.
  - apply lookup_replicate in Hb as [-> _]. rewrite Z.bits_0. by destruct (Z.to_nat i).
  - by destruct (Z.to_nat i).
Qed.

(** * Reading and writing in the middle of a buffer *)

Lemma index_middle {E A} (l1 l2 : list A) x : @index E A (zlen l1) (l1 ++ x :: l2) = Ok x.
Proof. apply index_ok; [apply zlen_nonneg|]. unfold zlen. rewrite Nat2Z.id. by apply list_lookup_middle. Qed.

Lemma copy_middle {E} (A R src : list Z) lo hi :
  lo = zlen A -> hi = zlen A + zlen src ->
  @copy_from_slice E Z lo hi src (A ++ fill 0 (zlen src) ++ R) = Ok (A ++ src ++ R).
Proof.
  intros -> ->. pose proof (zlen_nonneg A). pose proof (zlen_nonneg src). pose proof (zlen_nonneg R).
  rewrite copy_from_slice_ok by len. f_equal. rewrite splice_app_r by len. f_equal.
  rewrite Z.sub_diag. apply splice_head. len.
Qed.

Lemma store_middle {E} (A R : list Z) x i :
  i = zlen A -> @store E Z i x (A ++ fill 0 1 ++ R) = Ok (A ++ [x] ++ R).
Proof.
  intros ->. pose proof (zlen_nonneg A). pose proof (zlen_nonneg R).
  rewrite store_ok by len. f_equal. rewrite splice_app_r by len. f_equal.
  rewrite Z.sub_diag. apply splice_head. len.
Qed.

Lemma slice_middle {E} (A B R : list Z) lo hi :
  lo = zlen A -> hi = zlen A + zlen B -> @slice E Z lo hi (A ++ B ++ R) = Ok B.
Proof.
  intros -> ->. pose proof (zlen_nonneg A). pose proof (zlen_nonneg B). pose proof (zlen_nonneg R).
  rewrite slice_ok by len. f_equal. rewrite sub_app_r by len. rewrite sub_app_l by len.
  apply sub_whole; len.
Qed.

Lemma slice_from_middle {E} (A R : list Z) lo :
  lo = zlen A -> @slice_from E Z lo (A ++ R) = Ok R.
Proof.
  intros ->. unfold slice_from. pose proof (zlen_nonneg A). pose proof (zlen_nonneg R).
  rewrite slice_ok by len. f_equal. rewrite sub_app_r by len. apply sub_whole; len.
Qed.

(** * Loops over a list with its indices *)

Definition enum_from {A} (o : Z) (l : list A) : list (Z * A) := zip (range o (o + zlen l)) l.

Lemma enumerate_from {A} (l : list A) : enumerate l = enum_from 0 l.
Proof. done. Qed.

Lemma enum_from_nil {A} o : @enum_from A o [] = [].
Proof. unfold enum_from. by destruct (range _ _). Qed.

Lemma enum_from_cons {A} o (x : A) l : enum_from o (x :: l) = (o, x) :: enum_from (o + 1) l.
Proof.
  unfold enum_from. rewrite zlen_cons. rewrite range_cons by (pose proof (zlen_nonneg l); lia).
  simpl. by replace (o + (1 + zlen l)) with (o + 1 + zlen l) by lia.
Qed.

Lemma enum_from_app {A} o (l1 l2 : list A) :
  enum_from o (l1 ++ l2) = enum_from o l1 ++ enum_from (o + zlen l1) l2.
Proof.
  revert o. induction l1 as [|x l1 IH]; intros o.
  - rewrite enum_from_nil. cbn [app]. f_equal. rewrite zlen_nil. lia.
  - cbn [app]. rewrite !enum_from_cons, IH. cbn [app]. do 3 f_equal. rewrite zlen_cons. lia.
Qed.

(** * The bytes of a record *)

Section Layout.
Context {D : Type} `{DecimalLaws D}.
#[local] Abbreviation DataValue := (DataValue D).

(** The column stores this variant (or a null). *)
Definition stores (t : PrimitiveDataType) (v : DataValue) : Prop :=
  match v, t with
  | VNull, _ => True
  | VInt _, TInt | VBigInt _, TBigInt | VBoolean _, TBoolean | VFloat _, TFloat => True
  | VText _, TVarchar _ | VBlob _, TBlob _ | VDateTime _, TDateTime | VDecimal _, TDecimal _ _ => True
  | _, _ => False
  end.

Definition fits (columns : list ColumnDefinition) (record : DbRecord D) : Prop :=
  Forall2 (fun c v => stores (data_type c) v) columns record.

(** The bytes of a value in the fixed-length part, and in the variable-length
    part with its length in front. *)
Definition fixed_bytes (v : DataValue) : list Z :=
  match v with
  | VInt x => le_bytes 4 x
  | VBigInt x | VDateTime x => le_bytes 8 x
  | VBoolean b => [if b then 1 else 0]
  | VFloat f => le_bytes 8 (float_bits f)
  | VDecimal d => dec_serialize d
  | _ => []
  end.

Definition payload (v : DataValue) : option (list Z) :=
  match v with VText s => Some s | VBlob s => Some s | _ => None end.

Definition variable_bytes (v : DataValue) : list Z :=
  match payload v with Some s => le_bytes 4 (zlen s) ++ s | None => [] end.

Definition fixed_part (r : DbRecord D) : list Z := concat (fixed_bytes <$> r).
Definition variable_part (r : DbRecord D) : list Z := concat (variable_bytes <$> r).
Definition payload_sizes (r : DbRecord D) : list Z := zlen <$> omap payload r.

Lemma fixed_bytes_size v t n :
  stores t v -> is_null v = false -> get_fixed_size t = Some n ->
  zlen (fixed_bytes v) = n /\ variable_bytes v = [] /\ payload v = None.
Proof.
  destruct v, t; simpl; intros Hs Hn [= <-]; try done; split_and!; try done.
  apply dec_serialize_length.
Qed.

Lemma variable_stored v t :
  stores t v -> is_null v = false -> get_fixed_size t = None ->
  exists s, payload v = Some s /\ fixed_bytes v = []
    /\ variable_bytes v = le_bytes 4 (zlen s) ++ s.
Proof. destruct v, t; simpl; intros; try done; eauto. Qed.

Lemma null_bytes v : is_null v = true -> v = VNull.
Proof. by destruct v. Qed.

Definition add_sizes (s : Sizes) (r : DbRecord D) : Sizes :=
  mkSizes (total_record_size s + zlen (fixed_part r) + zlen (variable_part r))
    (fixed_length_size s + zlen (fixed_part r)) (variable_length_sizes s ++ payload_sizes r).

Lemma size_step_ok cs1 c cs2 (vs1 : DbRecord D) v vs2 s :
  length cs1 = length vs1 -> stores (data_type c) v ->
  size_step (cs1 ++ c :: cs2) (vs1 ++ v :: vs2) s (zlen cs1) = Ok (add_sizes s [v]).
Proof.
  intros Hl Hs. unfold size_step. replace (zlen cs1) with (zlen vs1) by (unfold zlen; lia).
  rewrite index_middle. cbn [mbind outcome_bind].
  replace (zlen vs1) with (zlen cs1) by (unfold zlen; lia). rewrite index_middle.
  cbn [mbind outcome_bind]. unfold add_sizes, fixed_part, variable_part, payload_sizes.
  destruct s as [tot fx vr]. cbn [fmap list_fmap concat omap list_omap].
  rewrite !app_nil_r. cbn [total_record_size fixed_length_size variable_length_sizes].
  destruct (is_null v) eqn:Hn.
  { apply null_bytes in Hn as ->. simpl. rewrite app_nil_r. do 2 f_equal; len. }
  destruct (get_fixed_size (data_type c)) as [n|] eqn:Hf.
  - destruct (fixed_bytes_size v _ n Hs Hn Hf) as (-> & -> & ->). rewrite app_nil_r.
    do 2 f_equal; len.
  - destruct (variable_stored v _ Hs Hn Hf) as (p & Hp & -> & ->). rewrite Hp.
    destruct v; simpl in Hp; simplify_eq; do 2 f_equal; unfold SIZE_OF_I32; len.
Qed.

Lemma add_sizes_cons s v r : add_sizes (add_sizes s [v]) r = add_sizes s (v :: r).
Proof.
  unfold add_sizes, fixed_part, variable_part, payload_sizes. cbn [fmap list_fmap concat].
  cbn [total_record_size fixed_length_size variable_length_sizes]. rewrite !app_nil_r, !zlen_app.
  rewrite <- app_assoc. change (omap payload (v :: r)) with (omap payload ([v] ++ r)).
  rewrite omap_app, fmap_app. f_equal; lia.
Qed.

Lemma sizes_loop cs1 vs1 columns (record : DbRecord D) cs2 vs2 s :
  fits columns record -> length cs1 = length vs1 ->
  ofold (size_step (cs1 ++ columns ++ cs2) (vs1 ++ record ++ vs2)) s
    (range (zlen cs1) (zlen (cs1 ++ columns)))
  = Ok (add_sizes s record).
Proof.
  intros Hf. revert cs1 vs1 s. induction Hf as [|c v cs vs Hs Hf IH]; intros cs1 vs1 s Hl.
  - rewrite app_nil_r, range_nil by lia. simpl. f_equal. unfold add_sizes; simpl.
    rewrite app_nil_r. destruct s; simpl. f_equal; len.
  - pose proof (zlen_nonneg cs). rewrite range_cons by len. cbn [ofold app].
    rewrite size_step_ok by done.
    cbn [mbind outcome_bind]. rewrite <- (add_sizes_cons s v vs), <- (IH (cs1 ++ [c]) (vs1 ++ [v])).
    + rewrite <- !app_assoc. cbn [app]. f_equal. f_equal; len.
    + by rewrite !length_app, Hl.
Qed.

Lemma sizes_ok columns (record : DbRecord D) :
  fits columns record ->
  calculate_serialized_record_size columns record
  = Ok (add_sizes (mkSizes (get_null_bitmap_size columns) 0 []) record).
Proof.
  intros Hf. pose proof (sizes_loop [] [] columns record [] []
    (mkSizes (get_null_bitmap_size columns) 0 []) Hf eq_refl) as Hr.
  cbn [app] in Hr. by rewrite !app_nil_r in Hr.
Qed.

Lemma write_fixed_ok v t n (A R : list Z) off :
  stores t v -> is_null v = false -> get_fixed_size t = Some n -> off = zlen A ->
  write_fixed v off n (A ++ fill 0 n ++ R) = Ok (A ++ fixed_bytes v ++ R).
Proof.
  intros Hs Hn Hf ->. destruct (fixed_bytes_size v t n Hs Hn Hf) as (Hz & _ & _).
  rewrite <- Hz.
  destruct v, t; simpl in Hs, Hf; try done; unfold write_fixed.
  3: by apply store_middle.
  all: apply copy_middle; [done|by f_equal].
Qed.

Lemma write_variable_ok v p (A R : list Z) off :
  payload v = Some p -> off = zlen A ->
  write_variable v off (zlen p) (A ++ fill 0 (4 + zlen p) ++ R) = Ok (A ++ variable_bytes v ++ R).
Proof.
  intros Hp ->. unfold variable_bytes. rewrite Hp. pose proof (zlen_nonneg p).
  rewrite fill_add, <- !app_assoc by lia.
  assert (forall R', @copy_from_slice SerializationError Z (zlen A) (zlen A + SIZE_OF_I32)
    (le_bytes 4 (zlen p)) (A ++ fill 0 4 ++ R') = Ok (A ++ le_bytes 4 (zlen p) ++ R')) as Hc1.
  { intros R'. apply (copy_middle A R' (le_bytes 4 (zlen p))); [done|]. by rewrite zlen_le_bytes. }
  assert (@copy_from_slice SerializationError Z (zlen A + SIZE_OF_I32) (zlen A + SIZE_OF_I32 + zlen p)
    p ((A ++ le_bytes 4 (zlen p)) ++ fill 0 (zlen p) ++ R)
    = Ok ((A ++ le_bytes 4 (zlen p)) ++ p ++ R)) as Hc2.
  { apply copy_middle; unfold SIZE_OF_I32; len. }
  rewrite <- !app_assoc in Hc2.
  destruct v; simpl in Hp; simplify_eq; unfold write_variable; rewrite Hc1;
    cbn [mbind outcome_bind]; exact Hc2.
Qed.

(** One iteration of the loop, by the kind of the column. *)
Lemma serialize_step_null sz bytes fo vo k i c v bytes' :
  is_null v = true -> or_at (i / 8) (Z.shiftl 1 (i mod 8)) bytes = Ok bytes' ->
  serialize_step sz (mkSer bytes fo vo k) (i, (c, v)) = Ok (mkSer bytes' fo vo k).
Proof. intros Hn Ho. unfold serialize_step. rewrite Hn. cbn [ser_bytes]. by rewrite Ho. Qed.

Lemma serialize_step_fixed sz A R fo vo k i c v n :
  is_null v = false -> stores (data_type c) v -> get_fixed_size (data_type c) = Some n ->
  fo = zlen A ->
  serialize_step sz (mkSer (A ++ fill 0 n ++ R) fo vo k) (i, (c, v))
  = Ok (mkSer (A ++ fixed_bytes v ++ R) (fo + n) vo k).
Proof.
  intros Hn Hs Hf Hfo. unfold serialize_step. rewrite Hn, Hf.
  cbn [ser_bytes current_fixed_offset]. by erewrite write_fixed_ok.
Qed.

Lemma serialize_step_variable sz1 sz2 A R fo vo k i c v p :
  is_null v = false -> get_fixed_size (data_type c) = None -> payload v = Some p ->
  vo = zlen A -> k = zlen sz1 ->
  serialize_step (sz1 ++ zlen p :: sz2) (mkSer (A ++ fill 0 (4 + zlen p) ++ R) fo vo k) (i, (c, v))
  = Ok (mkSer (A ++ variable_bytes v ++ R) fo (vo + (4 + zlen p)) (k + 1)).
Proof.
  intros Hn Hf Hp Hvo ->. unfold serialize_step. rewrite Hn, Hf.
  cbn [ser_bytes current_variable_offset variable_length_col_index current_fixed_offset].
  rewrite index_middle. cbn [mbind outcome_bind]. by rewrite write_variable_ok.
Qed.

Lemma fixed_part_cons v r : fixed_part (v :: r) = fixed_bytes v ++ fixed_part r.
Proof. done. Qed.
Lemma variable_part_cons v r : variable_part (v :: r) = variable_bytes v ++ variable_part r.
Proof. done. Qed.

Lemma serialize_loop cs (vs : DbRecord D) :
  fits cs vs -> forall bm fl A C T sz sz' fo vo k,
  bitmap_of bm fl -> zlen fl + zlen vs <= 8 * zlen bm ->
  fo = zlen bm + zlen A -> vo = zlen bm + zlen A + zlen (fixed_part vs) + zlen C -> k = zlen sz ->
  exists bm' s', zlen bm' = zlen bm /\ bitmap_of bm' (fl ++ (is_null <$> vs))
    /\ ofold (serialize_step (sz ++ payload_sizes vs ++ sz'))
         (mkSer (bm ++ A ++ fill 0 (zlen (fixed_part vs)) ++ C
                 ++ fill 0 (zlen (variable_part vs)) ++ T) fo vo k) (enum_from (zlen fl) (zip cs vs)) = Ok s'
    /\ ser_bytes s' = bm' ++ A ++ fixed_part vs ++ C ++ variable_part vs ++ T
    /\ current_fixed_offset s' = fo + zlen (fixed_part vs)
    /\ current_variable_offset s' = vo + zlen (variable_part vs).
Proof.
  intros Hf. induction Hf as [|c v cs vs Hs Hf IH]; intros bm fl A C T sz sz' fo vo k Hbm Hlen Hfo Hvo Hk.
  { exists bm. eexists. cbn [fmap list_fmap zip zip_with]. rewrite enum_from_nil, app_nil_r.
    split_and!; [done|done|reflexivity|reflexivity|symmetry; apply Z.add_0_r..]. }
  cbn [zip_with zip]. rewrite enum_from_cons. cbn [ofold]. rewrite zlen_cons in Hlen.
  pose proof (zlen_nonneg fl). pose proof (zlen_nonneg vs).
  rewrite fixed_part_cons, variable_part_cons in *. cbn [fmap list_fmap].
  replace (fl ++ is_null v :: (is_null <$> vs)) with ((fl ++ [is_null v]) ++ (is_null <$> vs))
    by (by rewrite <- app_assoc).
  replace (zlen fl + 1) with (zlen (fl ++ [is_null v])) by len.
  destruct (is_null v) eqn:Hn.
  - apply null_bytes in Hn as ->. cbn [fixed_bytes variable_bytes payload app] in *.
    destruct (or_at_ok bm (A ++ fill 0 (zlen (fixed_part vs)) ++ C
      ++ fill 0 (zlen (variable_part vs)) ++ T) (zlen fl)) as (bm1 & Ho & Hl1 & Hb1 & Hj1);
      [apply Hbm|lia|].
    rewrite (serialize_step_null _ _ _ _ _ _ _ VNull _ eq_refl Ho). cbn [mbind outcome_bind].
    rewrite <- Hl1. change (payload_sizes (VNull :: vs)) with (payload_sizes vs).
    apply IH; [by eapply bitmap_snoc_true|len|congruence|congruence|done].
  - apply bitmap_snoc_false in Hbm.
    destruct (get_fixed_size (data_type c)) as [n|] eqn:Hsz.
    + destruct (fixed_bytes_size v _ n Hs Hn Hsz) as (Hz & Hv & Hp).
      rewrite Hv in *. cbn [app] in *. rewrite (zlen_app (fixed_bytes v)), Hz in *.
      rewrite fill_add by (rewrite <- ?Hz; apply zlen_nonneg).
      replace (payload_sizes (v :: vs)) with (payload_sizes vs)
        by (unfold payload_sizes; simpl; by rewrite Hp).
      destruct (IH bm (fl ++ [false]) (A ++ fixed_bytes v) C T sz sz' (fo + n) vo k)
        as (bm' & s' & Hl & Hb & Hr & He & Hfo' & Hvo');
        [done|len|len|len|done|].
      exists bm', s'. split_and!; [done|done| |by rewrite <- !app_assoc in *|len|len].
      rewrite <- Hr, <- !app_assoc.
      rewrite (app_assoc bm A), (app_assoc bm A).
      by rewrite (serialize_step_fixed _ (bm ++ A) _ fo vo k _ c v n) by (done || len).
    + destruct (variable_stored v _ Hs Hn Hsz) as (p & Hp & Hfb & Hvb).
      assert (zlen (variable_bytes v) = 4 + zlen p) as Hz by (rewrite Hvb; len).
      rewrite Hfb in *. cbn [app] in *. rewrite (zlen_app (variable_bytes v)), Hz in *.
      pose proof (zlen_nonneg p). rewrite (fill_add 0 (4 + zlen p)) by (lia || apply zlen_nonneg).
      replace (payload_sizes (v :: vs)) with (zlen p :: payload_sizes vs)
        by (unfold payload_sizes; simpl; by rewrite Hp).
      destruct (IH bm (fl ++ [false]) A (C ++ variable_bytes v) T (sz ++ [zlen p]) sz' fo (vo + (4 + zlen p)) (k + 1))
        as (bm' & s' & Hl & Hb & Hr & He & Hfo' & Hvo'); [done|len|done|len|len|].
      exists bm', s'. split_and!; [done|done| |by rewrite <- !app_assoc in *|len|len].
      rewrite <- Hr, <- !app_assoc. cbn [app].
      set (F := fill 0 (zlen (fixed_part vs))). set (V := fill 0 (zlen (variable_part vs))).
      replace (bm ++ A ++ F ++ C ++ fill 0 (4 + zlen p) ++ V ++ T)
        with ((bm ++ A ++ F ++ C) ++ fill 0 (4 + zlen p) ++ V ++ T) by (by rewrite <- !app_assoc).
      rewrite (serialize_step_variable _ _ (bm ++ A ++ F ++ C) _ fo vo k _ c v p)
        by (done || (subst F; pose proof (zlen_nonneg (fixed_part vs)); len)).
      cbn [mbind outcome_bind]. by rewrite <- !app_assoc.
Qed.

Lemma null_bitmap_size_fits (columns : list ColumnDefinition) :
  zlen columns <= 8 * get_null_bitmap_size columns.
Proof.
  unfold get_null_bitmap_size. pose proof (Z.div_mod (zlen columns + 7) 8).
  pose proof (Z.mod_pos_bound (zlen columns + 7) 8). lia.
Qed.

Lemma null_bitmap_size_nonneg (columns : list ColumnDefinition) : 0 <= get_null_bitmap_size columns.
Proof. apply Z.div_pos; [|lia]. pose proof (zlen_nonneg columns). lia. Qed.

Lemma fits_zlen columns (record : DbRecord D) : fits columns record -> zlen columns = zlen record.
Proof. intros Hf. unfold zlen. by rewrite (Forall2_length _ _ _ Hf). Qed.

Lemma serialize_layout_ok columns (record : DbRecord D) :
  fits columns record ->
  exists bm, zlen bm = get_null_bitmap_size columns
    /\ bitmap_of bm (is_null <$> record)
    /\ serialize columns record = Ok (bm ++ fixed_part record ++ variable_part record).
Proof.
  intros Hf. unfold serialize. rewrite sizes_ok by done. cbn [mbind outcome_bind].
  unfold add_sizes. cbn [total_record_size fixed_length_size variable_length_sizes app].
  set (B := get_null_bitmap_size columns). pose proof (null_bitmap_size_nonneg columns) as HB.
  assert (zlen (fill 0 B) = B) as Hfill by (apply zlen_fill; done).
  pose proof (zlen_nonneg (fixed_part record)). pose proof (zlen_nonneg (variable_part record)).
  destruct (serialize_loop columns record Hf (fill 0 B) [] [] [] [] [] [] B (B + (0 + zlen (fixed_part record))) 0)
    as (bm & s' & Hl & Hbm & Hr & Hb & _).
  - apply bitmap_zeros.
  - rewrite Hfill, zlen_nil, <- (fits_zlen columns record) by done. apply null_bitmap_size_fits.
  - rewrite Hfill. len.
  - rewrite Hfill. len.
  - done.
  - exists bm. rewrite Hl, Hfill. split_and!; [done|done|].
    rewrite !fill_add by (fold B in HB; lia). rewrite <- app_assoc. cbn [app] in Hr.
    rewrite !app_nil_r in Hb. rewrite (app_nil_r (payload_sizes record)), (app_nil_r (fill 0 (zlen (variable_part record)))) in Hr.
    change (enum_from (zlen []) (zip columns record)) with (enumerate (zip columns record)) in Hr.
    rewrite Hr. cbn [mbind outcome_bind]. by rewrite Hb.
Qed.
End Layout.

(** C26: [serialize] of a record whose values are of its columns' variants (or
    null) succeeds, and writes exactly: the null bitmap, bit [i] of which is
    set when column [i] is null (with all further bits zero), the bytes of the
    non-null fixed-length values in column order, then for each non-null
    variable-length value its length as four bytes and its bytes.  A null
    occupies no space outside of the bitmap. *)
Theorem serialize_layout {D} `{DecimalLaws D} columns (record : DbRecord D) :
  fits columns record ->
  exists bm, zlen bm = (zlen columns + 7) / 8
    /\ bitmap_of bm (is_null <$> record)
    /\ serialize columns record = Ok (bm ++ fixed_part record ++ variable_part record).
Proof. apply serialize_layout_ok. Qed.

Lemma serialize_layout_witness :
  let columns := [mkColumn [105] TInt false None; mkColumn [110] (TVarchar 9) true None;
                  mkColumn [98] TBoolean true None] in
  let record : DbRecord SimpleDecimal := [VInt 7; VText [65; 66]; VNull] in
  exists bm, zlen bm = (zlen columns + 7) / 8
    /\ bitmap_of bm (is_null <$> record)
    /\ serialize columns record = Ok (bm ++ fixed_part record ++ variable_part record).
Proof. cbv zeta. apply serialize_layout. repeat constructor. Defined.
