(* ===== verification/SerializerRoundtrip.v ===== *)
(** Reading serialized records back: [deserialize] and [deserialize_key] on
    what [serialize] wrote. *)
From S2P Require Import Prelude.
From S2P Require Import Bytes.
From S2P Require Import RustStr.
From S2P Require Import Schema.
From S2P Require Import SchemaProps.
From S2P Require Import OrderedFloat.
From S2P Require Import DataModel.
From S2P Require Import DataModelProps.
From S2P Require Import Serializer.
From S2P Require Import SerializerLayout.

Lemma decide_ext_if {A} (P Q : Prop) `{!Decision P, !Decision Q} (x y : A) :
  (P <-> Q) -> (if decide P then x else y) = (if decide Q then x else y).
Proof. intros HPQ. destruct (decide P), (decide Q); tauto. Qed.

Section Read.
Context {D : Type} `{DecimalLaws D}.
#[local] Abbreviation DataValue := (DataValue D).
#[local] Abbreviation E := SerializationError.

(** The values of the program: fields in their machine types, payloads whose
    length fits the [i32] in front of them. *)
Definition storable (v : DataValue) : Prop :=
  value_ok v /\ match payload v with Some p => zlen p < 2 ^ 31 | None => True end.

(** * One value *)

Lemma from_le_i_bytes (n : nat) x :
  (0 < n)%nat -> - 2 ^ (8 * Z.of_nat n - 1) <= x < 2 ^ (8 * Z.of_nat n - 1) ->
  @from_le_i E (Z.of_nat n) (le_bytes n x) = Ok x.
Proof. apply from_le_i_le_bytes. Qed.

Lemma read_fixed_ok c v n (A R : list Z) off :
  stores (data_type c) v -> storable v -> is_null v = false ->
  get_fixed_size (data_type c) = Some n -> off = zlen A ->
  deserialize_fixed_sized_col_value c (A ++ fixed_bytes v ++ R) off n = Ok v.
Proof.
  intros Hs [Hv _] Hn Hf ->. unfold deserialize_fixed_sized_col_value.
  destruct (fixed_bytes_size v _ n Hs Hn Hf) as (Hz & _ & _). rewrite <- Hz.
  rewrite slice_middle by done. cbn [mbind outcome_bind].
  destruct v, (data_type c); simpl in Hs, Hv; try done; unfold fixed_bytes.
  - by rewrite (from_le_i_bytes 4) by (simpl; lia).
  - by rewrite (from_le_i_bytes 8) by (simpl; lia).
  - by destruct b.
  - rewrite (from_le_u_le_bytes 8) by exact Hv. by destruct f.
  - by rewrite (from_le_i_bytes 8) by (simpl; lia).
  - rewrite dec_serialize_length. simpl. by rewrite dec_roundtrip.
Qed.

Lemma read_header_ok p (A R : list Z) off :
  zlen p < 2 ^ 31 -> off = zlen A ->
  @read_variable_header (A ++ (le_bytes 4 (zlen p) ++ p) ++ R) off = Ok (zlen p, p ++ R).
Proof.
  intros Hp ->. unfold read_variable_header. pose proof (zlen_nonneg p).
  rewrite slice_from_middle by done. cbn [mbind outcome_bind]. rewrite <- app_assoc.
  rewrite (slice_middle [] (le_bytes 4 (zlen p)) (p ++ R)) by done. cbn [mbind outcome_bind].
  rewrite slice_from_middle by done. cbn [mbind outcome_bind].
  by rewrite (from_le_i_bytes 4) by (simpl; lia).
Qed.

Lemma wrap_payload (p : list Z) : zlen p < 2 ^ 31 -> wrap 64 (zlen p) = zlen p.
Proof. intros. pose proof (zlen_nonneg p). apply wrap_small. lia. Qed.

Lemma read_variable_ok c v p (R : list Z) :
  stores (data_type c) v -> storable v -> payload v = Some p ->
  deserialize_variable_sized_col_value c (p ++ R) (zlen p) = Ok v.
Proof.
  intros Hs [Hv Hlen] Hp. rewrite Hp in Hlen. unfold deserialize_variable_sized_col_value.
  rewrite wrap_payload by done. rewrite (slice_middle [] p R) by done. cbn [mbind outcome_bind].
  destruct v, (data_type c); simpl in Hs, Hv, Hp; try done; simplify_eq; [|done].
  unfold from_utf8. by rewrite (proj1 Hv).
Qed.

Lemma fixed_size_kinds t (v : DataValue) :
  stores t v -> is_null v = false ->
  is_fixed_size t = match get_fixed_size t with Some _ => true | None => false end.
Proof. by destruct t, v. Qed.

Lemma is_fixed_type_kinds c (v : DataValue) :
  stores (data_type c) v -> is_null v = false ->
  is_fixed_type c = match get_fixed_size (data_type c) with Some _ => true | None => false end.
Proof. unfold is_fixed_type. by destruct (data_type c), v. Qed.

(** The bytes of a value sit at both offsets of the reader. *)
Definition placed (bytes : list Z) (off : Z) (b : list Z) : Prop :=
  exists A R, bytes = A ++ b ++ R /\ off = zlen A.

Lemma placed_app_l bytes off b1 b2 : placed bytes off (b1 ++ b2) -> placed bytes off b1.
Proof. intros (A & R & -> & ->). exists A, (b2 ++ R). by rewrite <- !app_assoc. Qed.

Lemma placed_app_r bytes off b1 b2 : placed bytes off (b1 ++ b2) -> placed bytes (off + zlen b1) b2.
Proof.
  intros (A & R & -> & ->). exists (A ++ b1), R. rewrite <- !app_assoc. split; [done|]. len.
Qed.

Lemma placed_bound bytes off b : placed bytes off b -> off + zlen b <= zlen bytes.
Proof. intros (A & R & -> & ->). pose proof (zlen_nonneg R). len. Qed.

Lemma read_value_ok c v bytes fo vo :
  stores (data_type c) v -> storable v -> is_null v = false -> zlen bytes < 2 ^ 64 ->
  placed bytes fo (fixed_bytes v) -> placed bytes vo (variable_bytes v) ->
  deserialize_col_value c bytes fo vo
  = Ok (v, fo + zlen (fixed_bytes v), vo + zlen (variable_bytes v)).
Proof.
  intros Hs Hv Hn Hb Hfo Hvo. unfold deserialize_col_value.
  rewrite (fixed_size_kinds _ v) by done. destruct (get_fixed_size _) as [n|] eqn:Hf.
  - destruct (fixed_bytes_size v _ n Hs Hn Hf) as (Hz & -> & _).
    destruct Hfo as (A & R & -> & Hfo). cbn [unwrap_opt mbind outcome_bind].
    rewrite (read_fixed_ok c v n) by done. cbn [unwrap_res mbind outcome_bind].
    rewrite Hz, zlen_nil. do 2 f_equal. lia.
  - destruct (variable_stored v _ Hs Hn Hf) as (p & Hp & -> & Hvb).
    pose proof (placed_bound _ _ _ Hvo) as Hbound. rewrite Hvb in Hvo, Hbound.
    autorewrite with rarm in Hbound. destruct Hvo as (A & R & -> & Hvo).
    assert (zlen p < 2 ^ 31) as Hp31 by (destruct Hv as [_ Hl]; by rewrite Hp in Hl).
    rewrite read_header_ok by done. cbn [mbind outcome_bind].
    rewrite (read_variable_ok c v p) by done. cbn [unwrap_res mbind outcome_bind].
    rewrite wrap_payload by done. unfold SIZE_OF_I32. rewrite uadd_ok by lia.
    cbn [mbind outcome_bind]. rewrite Hvb, zlen_nil. do 2 f_equal; [f_equal; lia|len].
Qed.

(** * The variable-length offset *)

(** The flags of [vs] are in the bitmap from bit [i] on. *)
Definition flags_at (bm : list Z) (i : Z) (vs : DbRecord D) : Prop :=
  0 <= i /\ i + zlen vs <= 8 * zlen bm
  /\ forall k v, vs !! k = Some v -> bit_at bm (i + Z.of_nat k) = is_null v.

Lemma flags_at_cons bm i v vs :
  flags_at bm i (v :: vs) ->
  @is_col_value_null E bm i = Ok (is_null v) /\ flags_at bm (i + 1) vs.
Proof.
  intros (Hi & Hl & Hb). rewrite zlen_cons in Hl. pose proof (zlen_nonneg vs). split.
  - rewrite is_col_value_null_ok by lia. specialize (Hb 0%nat v eq_refl).
    rewrite Z.add_0_r in Hb. by rewrite Hb.
  - split_and!; [lia|lia|]. intros k w Hk. specialize (Hb (S k) w Hk).
    by replace (i + 1 + Z.of_nat k) with (i + Z.of_nat (S k)) by lia.
Qed.

Lemma flags_at_bitmap bm (r : DbRecord D) :
  bitmap_of bm (is_null <$> r) -> zlen r <= 8 * zlen bm -> flags_at bm 0 r.
Proof.
  intros [_ Hb] Hl. split_and!; [lia|lia|]. intros k v Hk.
  rewrite Hb by lia. rewrite Z.add_0_l, Nat2Z.id.
  apply nth_lookup_Some with (d := false). rewrite list_lookup_fmap. exact (f_equal (fmap is_null) Hk).
Qed.

Lemma variable_offset_ok cs (vs : DbRecord D) bm off i :
  fits cs vs -> flags_at bm i vs ->
  ofold (variable_offset_step bm) off (enum_from i cs) = @Ok E Z (off + zlen (fixed_part vs)).
Proof.
  intros Hf. revert off i. induction Hf as [|c v cs vs Hs Hf IH]; intros off i Hfl.
  { rewrite enum_from_nil. cbn [ofold]. change (zlen (fixed_part [])) with 0. f_equal. lia. }
  rewrite enum_from_cons. cbn [ofold]. apply flags_at_cons in Hfl as [Hnull Hfl].
  unfold variable_offset_step at 2. rewrite Hnull.
  cbn [mbind outcome_bind]. rewrite fixed_part_cons, zlen_app. destruct (is_null v) eqn:Hn.
  - apply null_bytes in Hn as ->. cbn [mbind outcome_bind]. rewrite IH by done. cbn [fixed_bytes]. rewrite zlen_nil. f_equal; lia.
  - rewrite (is_fixed_type_kinds _ v) by done. destruct (get_fixed_size _) as [n|] eqn:Hsz.
    + destruct (fixed_bytes_size v _ n Hs Hn Hsz) as (-> & _ & _).
      cbn [unwrap_opt mbind outcome_bind]. rewrite IH by done. f_equal. lia.
    + destruct (variable_stored v _ Hs Hn Hsz) as (p & _ & -> & _).
      cbn [mbind outcome_bind]. rewrite IH by done. rewrite zlen_nil. f_equal; lia.
Qed.

(** * The loop of [deserialize] *)

(** A null is allowed by its column. *)
Definition null_allowed (c : ColumnDefinition) (v : DataValue) : Prop :=
  is_null v = true -> is_nullable c = true.

Definition nulls_allowed (columns : list ColumnDefinition) (record : DbRecord D) : Prop :=
  Forall2 null_allowed columns record.

#[export] Instance null_allowed_dec c v : Decision (null_allowed c v).
Proof. unfold null_allowed. apply _. Defined.

#[export] Instance nulls_allowed_dec cs r : Decision (nulls_allowed cs r).
Proof. unfold nulls_allowed. apply _. Defined.

Lemma nulls_allowed_cons c v cs vs :
  nulls_allowed (c :: cs) (v :: vs) <-> null_allowed c v /\ nulls_allowed cs vs.
Proof. apply Forall2_cons. Qed.

Lemma store_next {A} (l1 l2 : list A) x y : @store E A (zlen l1) x (l1 ++ y :: l2) = Ok ((l1 ++ [x]) ++ l2).
Proof.
  pose proof (zlen_nonneg l1). pose proof (zlen_nonneg l2). rewrite store_ok by len.
  f_equal. rewrite splice_app_r by len. rewrite Z.sub_diag, <- app_assoc. f_equal.
  apply (splice_head [x] [y] l2). done.
Qed.

Lemma deserialize_loop cs (vs : DbRecord D) bytes bm :
  fits cs vs -> Forall storable vs -> zlen bytes < 2 ^ 64 ->
  forall acc fo vo, flags_at bm (zlen acc) vs ->
  placed bytes fo (fixed_part vs) -> placed bytes vo (variable_part vs) ->
  ofold (deserialize_step bytes bm) (acc ++ replicate (length cs) VNull, fo, vo)
    (enum_from (zlen acc) cs)
  = if decide (nulls_allowed cs vs)
    then Ok (acc ++ vs, fo + zlen (fixed_part vs), vo + zlen (variable_part vs))
    else Err NullValueForNonNullColumnFound.
Proof.
  intros Hf Hst Hb. induction Hf as [|c v cs vs Hs Hf IH]; intros acc fo vo Hfl Hfo Hvo.
  { rewrite decide_True by constructor. rewrite enum_from_nil. cbn [ofold length replicate].
    change (zlen (fixed_part [])) with 0. change (zlen (variable_part [])) with 0.
    by rewrite !Z.add_0_r. }
  apply Forall_cons in Hst as [Hv Hst]. rewrite enum_from_cons. cbn [ofold length replicate].
  apply flags_at_cons in Hfl as [Hnull Hfl]. unfold deserialize_step at 2. rewrite Hnull.
  cbn [mbind outcome_bind].
  assert (zlen acc + 1 = zlen (acc ++ [v])) as Hacc by len. rewrite Hacc in *.
  rewrite fixed_part_cons, variable_part_cons in *. destruct (is_null v) eqn:Hn.
  - destruct (is_nullable c) eqn:Hc; cbn [negb].
    + rewrite store_next. cbn [mbind outcome_bind]. apply null_bytes in Hn as ->.
      cbn [fixed_bytes variable_bytes payload app] in *. rewrite IH by done.
      rewrite <- app_assoc. cbn [app]. apply decide_ext_if.
      rewrite nulls_allowed_cons. unfold null_allowed. tauto.
    + rewrite decide_False; [done|]. rewrite nulls_allowed_cons. intros [Hall _].
      rewrite Hall in Hc; done.
  - rewrite (read_value_ok c v); [|done..|by eapply placed_app_l|by eapply placed_app_l].
    cbn [mbind outcome_bind]. rewrite store_next. cbn [mbind outcome_bind].
    rewrite IH; [|done|done|by eapply placed_app_r|by eapply placed_app_r].
    rewrite <- app_assoc. cbn [app]. rewrite !zlen_app, !Z.add_assoc. apply decide_ext_if.
    rewrite nulls_allowed_cons. unfold null_allowed. rewrite Hn. naive_solver.
Qed.

Lemma serialized_zlen columns (record : DbRecord D) bytes :
  fits columns record -> serialize columns record = Ok bytes ->
  zlen bytes = get_null_bitmap_size columns + zlen (fixed_part record) + zlen (variable_part record).
Proof.
  intros Hf Hs. destruct (serialize_layout_ok columns record Hf) as (bm & Hl & _ & Hser).
  rewrite Hser in Hs. injection Hs as <-. len.
Qed.

(** What a reader finds in the bytes of a serialized record. *)
Lemma serialized_view columns (record : DbRecord D) :
  fits columns record ->
  get_null_bitmap_size columns + zlen (fixed_part record) + zlen (variable_part record) < 2 ^ 64 ->
  exists bm bytes, serialize columns record = Ok bytes /\ zlen bytes < 2 ^ 64
    /\ slice 0 (get_null_bitmap_size columns) bytes = @Ok E _ bm
    /\ flags_at bm 0 record
    /\ get_variable_length_data_offset columns bm (get_null_bitmap_size columns)
       = @Ok E Z (get_null_bitmap_size columns + zlen (fixed_part record))
    /\ placed bytes (get_null_bitmap_size columns) (fixed_part record)
    /\ placed bytes (get_null_bitmap_size columns + zlen (fixed_part record)) (variable_part record).
Proof.
  intros Hf Hsz. destruct (serialize_layout_ok columns record Hf) as (bm & Hl & Hbm & Hser).
  exists bm. eexists. split; [exact Hser|].
  assert (flags_at bm 0 record) as Hfl.
  { apply flags_at_bitmap; [done|]. rewrite Hl, <- (fits_zlen columns record) by done.
    apply null_bitmap_size_fits. }
  split_and!; [len|apply (slice_middle [] bm); done|done| | |].
  - unfold get_variable_length_data_offset. rewrite enumerate_from. by apply variable_offset_ok.
  - by exists bm, (variable_part record).
  - exists (bm ++ fixed_part record), []. rewrite app_nil_r, <- app_assoc. split; [done|len].
Qed.
End Read.

(** C5: Round trip: for a record that fits its columns, with values in their
    machine types, [serialize] succeeds and [deserialize] reads the same record
    back when every null is in a nullable column, and otherwise reports
    [NullValueForNonNullColumnFound] ([serialize] does not check it). *)
Theorem serialize_roundtrip {D} `{DecimalLaws D} columns (record : DbRecord D) :
  fits columns record -> Forall storable record ->
  get_null_bitmap_size columns + zlen (fixed_part record) + zlen (variable_part record) < 2 ^ 64 ->
  exists bytes, serialize columns record = Ok bytes
    /\ deserialize columns bytes = if decide (nulls_allowed columns record) then Ok record
                                   else Err NullValueForNonNullColumnFound.
Proof.
  intros Hf Hst Hsz. destruct (serialized_view columns record Hf Hsz)
    as (bm & bytes & Hser & Hb & Hsl & Hfl & Hvo & Hp1 & Hp2).
  exists bytes. split; [done|]. unfold deserialize. rewrite Hsl. cbn [mbind outcome_bind].
  rewrite Hvo. cbn [mbind outcome_bind].
  change (replicate (length columns) VNull) with ([] ++ replicate (length columns) (@VNull D)).
  rewrite enumerate_from. change (enum_from 0 columns) with (enum_from (zlen (@nil (DataValue D))) columns).
  rewrite (deserialize_loop columns record) by done. by case_decide.
Qed.

(** [t (id INT, name VARCHAR(9) NULL, ok BOOLEAN NULL)]. *)
Definition sample_columns : list ColumnDefinition :=
  [mkColumn [105] TInt false None; mkColumn [110] (TVarchar 9) true None;
   mkColumn [98] TBoolean true None].
Definition sample_record : DbRecord SimpleDecimal := [VInt (-7); VText [65; 66]; VNull].

Lemma sample_fits : fits sample_columns sample_record.
Proof. repeat constructor. Qed.

Lemma sample_storable : Forall storable sample_record.
Proof.
  repeat constructor; simpl; try lia; unfold is_byte; simpl; lia.
Qed.

Lemma serialize_roundtrip_witness :
  exists bytes, serialize sample_columns sample_record = Ok bytes
    /\ deserialize sample_columns bytes
       = if decide (nulls_allowed sample_columns sample_record) then Ok sample_record
         else Err NullValueForNonNullColumnFound.
Proof.
  apply serialize_roundtrip; [apply sample_fits|apply sample_storable|].
  vm_compute. reflexivity.
Defined.
