(* ===== verification/SerializerKey.v ===== *)
(** Extracting a key from the bytes of a record ([deserialize_key],
    [deserialize_primary_key]) without reading the other columns. *)
From S2P Require Import Prelude.
From S2P Require Import Bytes.
From S2P Require Import RustStr.
From S2P Require Import Schema.
From S2P Require Import SchemaProps.
From S2P Require Import OrderedFloat.
From S2P Require Import DataModel.
From S2P Require Import DataModelProps.
From S2P Require Import Serializer.
From S2P Require Import SerializerLayout.
From S2P Require Import SerializerRoundtrip.

#[local] Abbreviation cnames cs := (col_name <$> cs).

(** * Positions of the key columns *)

Lemma store_insert {E A} (l : list A) x (j : nat) :
  (j < length l)%nat -> @store E A (Z.of_nat j) x l = Ok (<[j := x]> l).
Proof.
  intros Hj. rewrite store_ok by (unfold zlen; lia). f_equal. apply list_eq. intros n.
  rewrite lookup_splice by (unfold zlen in *; simpl; lia). rewrite list_lookup_insert.
  change (zlen [x]) with 1. repeat case_decide; try lia; try done.
  by replace (n - Z.to_nat (Z.of_nat j))%nat with 0%nat by lia.
Qed.

Lemma position_ok kcs j n :
  NoDup (cnames kcs) -> cnames kcs !! j = Some n -> position n kcs = Some (Z.of_nat j).
Proof.
  revert j. induction kcs as [|c kcs IH]; intros j Hnd Hj; [done|].
  rewrite fmap_cons in *. apply NoDup_cons in Hnd as [Hc Hnd]. cbn [position].
  destruct j as [|j]; cbn in Hj.
  - injection Hj as <-. by rewrite decide_True.
  - rewrite decide_False. { rewrite (IH j) by done. simpl. f_equal. lia. }
    intros Heq. apply Hc. rewrite Heq. by eapply list_elem_of_lookup_2.
Qed.

Lemma is_key_col_spec n kcs :
  existsb (fun c => bool_decide (col_name c = n)) kcs = bool_decide (n ∈ cnames kcs).
Proof.
  induction kcs as [|c kcs IH]; [done|]. cbn [existsb]. rewrite IH, fmap_cons.
  destruct (decide (col_name c = n)) as [->|Hne].
  - rewrite (bool_decide_true (n = n)) by done. cbn [orb]. by rewrite bool_decide_true by left.
  - rewrite (bool_decide_false (col_name c = n)) by done. simpl. apply bool_decide_ext.
    rewrite elem_of_cons. naive_solver.
Qed.

Section KeyLoop.
Context {D : Type} `{DecimalLaws D}.
Variables (kcs : list ColumnDefinition) (bytes bm : list Z).
Hypothesis Hk : NoDup (cnames kcs).
Hypothesis Hbytes : zlen bytes < 2 ^ 64.
#[local] Abbreviation keyed l := (filter (fun n => n ∈ cnames kcs) l).

(** The key columns among the columns [cs], read with values [vs], are in place. *)
Definition keys_read (cs : list ColumnDefinition) (vs rv : list (DataValue D)) : Prop :=
  length rv = length kcs /\
  forall j n, cnames kcs !! j = Some n -> n ∈ cnames cs ->
  exists i v, cnames cs !! i = Some n /\ vs !! i = Some v /\ rv !! j = Some v.

Lemma keys_read_other cs vs rv c v :
  length cs = length vs -> col_name c ∉ cnames kcs ->
  keys_read cs vs rv -> keys_read (cs ++ [c]) (vs ++ [v]) rv.
Proof.
  intros Hl Hc [Hr Hget]. split; [done|]. intros j n Hj Hn. rewrite fmap_app in *.
  apply elem_of_app in Hn as [Hn|Hn].
  - destruct (Hget j n Hj Hn) as (i & w & Hi & Hw & Hrv). exists i, w.
    split_and!; [by apply lookup_app_l_Some|by apply lookup_app_l_Some|done].
  - apply list_elem_of_singleton in Hn as ->. exfalso. apply Hc. by eapply list_elem_of_lookup_2.
Qed.

Lemma keys_read_member cs vs rv c v j :
  length cs = length vs -> col_name c ∉ cnames cs -> cnames kcs !! j = Some (col_name c) ->
  keys_read cs vs rv -> keys_read (cs ++ [c]) (vs ++ [v]) (<[j := v]> rv).
Proof.
  intros Hl Hnew Hj [Hr Hget]. split; [by rewrite length_insert|]. intros j' n Hj' Hn.
  rewrite fmap_app in *. assert (j < length rv)%nat as Hlt.
  { rewrite Hr, <- (length_fmap col_name). by eapply lookup_lt_Some. }
  destruct (decide (j' = j)) as [->|Hne].
  - simplify_eq. exists (length cs), v. rewrite list_lookup_insert_eq by done.
    split_and!; [|by rewrite Hl, list_lookup_middle|done].
    rewrite <- (length_fmap col_name). by apply list_lookup_middle.
  - apply elem_of_app in Hn as [Hn|Hn%list_elem_of_singleton].
    + destruct (Hget j' n Hj' Hn) as (i & w & Hi & Hw & Hrv). exists i, w.
      rewrite list_lookup_insert_ne by done.
      split_and!; [by apply lookup_app_l_Some|by apply lookup_app_l_Some|done].
    + subst n. by destruct Hne; eapply NoDup_lookup.
Qed.

(** Counting the key columns met. *)
Lemma keyed_length cs : NoDup (cnames cs) -> (length (keyed (cnames cs)) <= length kcs)%nat.
Proof.
  intros Hn. rewrite <- (length_fmap col_name kcs). apply submseteq_length, NoDup_submseteq.
  - by apply NoDup_filter.
  - intros n [Hin _]%list_elem_of_filter. done.
Qed.

Lemma keyed_all cs n :
  NoDup (cnames cs) -> (length kcs <= length (keyed (cnames cs)))%nat ->
  n ∈ cnames kcs -> n ∈ cnames cs.
Proof.
  intros Hn Hl Hin. assert (keyed (cnames cs) ≡ₚ cnames kcs) as Hp.
  { apply submseteq_length_Permutation; [|by rewrite length_fmap]. apply NoDup_submseteq.
    - by apply NoDup_filter.
    - intros m [Hm _]%list_elem_of_filter. done. }
  rewrite <- Hp in Hin. by apply list_elem_of_filter in Hin as [_ ?].
Qed.

(** One column that is not null. *)
Lemma key_col_ok c v isk j rv fo vo found :
  stores (data_type c) v -> storable v -> is_null v = false ->
  placed bytes fo (fixed_bytes v) -> placed bytes vo (variable_bytes v) ->
  (j < length rv)%nat ->
  deserialize_key_col c bytes isk (Z.of_nat j) (mkKeyState rv fo vo found)
  = Ok (mkKeyState (if isk : bool then <[j := v]> rv else rv)
          (fo + zlen (fixed_bytes v)) (vo + zlen (variable_bytes v)) found).
Proof.
  intros Hs Hv Hn Hfo Hvo Hj. unfold deserialize_key_col.
  cbn [row_values key_fixed_offset key_variable_offset key_cols_found].
  rewrite (is_fixed_type_kinds _ v) by done. destruct (get_fixed_size _) as [n|] eqn:Hf.
  - destruct (fixed_bytes_size v _ n Hs Hn Hf) as (Hz & -> & _).
    destruct Hfo as (A & R & Hb & Hfo). cbn [unwrap_opt mbind outcome_bind].
    assert (deserialize_fixed_sized_col_value c bytes fo n = Ok v) as Hread
      by (rewrite Hb; by apply read_fixed_ok).
    rewrite Hz, zlen_nil. destruct isk; rewrite ?Hread; cbn [unwrap_res mbind outcome_bind];
      rewrite ?store_insert by done; cbn [mbind outcome_bind]; do 2 f_equal; lia.
  - destruct (variable_stored v _ Hs Hn Hf) as (p & Hp & -> & Hvb).
    pose proof (placed_bound _ _ _ Hvo) as Hbound. rewrite Hvb in Hvo, Hbound.
    autorewrite with rarm in Hbound. destruct Hvo as (A & R & Hb & Hvo).
    assert (zlen p < 2 ^ 31) as Hp31 by (destruct Hv as [_ Hl]; by rewrite Hp in Hl).
    assert (@read_variable_header bytes vo = Ok (zlen p, p ++ R)) as ->
      by (rewrite Hb; by apply read_header_ok).
    cbn [mbind outcome_bind]. rewrite wrap_payload by done. unfold SIZE_OF_I32.
    rewrite uadd_ok by lia. rewrite Hvb, zlen_nil.
    destruct isk; rewrite ?(read_variable_ok c v p) by done; cbn [unwrap_res mbind outcome_bind];
      rewrite ?store_insert by done; cbn [mbind outcome_bind]; do 2 f_equal; len.
Qed.

(** The index the loop stores a column at. *)
Lemma key_index_ok c :
  exists j, (if existsb (fun k => bool_decide (col_name k = col_name c)) kcs
             then unwrap_opt (position (col_name c) kcs) else Ok 0)
            = @Ok SerializationError Z (Z.of_nat j)
    /\ (col_name c ∈ cnames kcs -> cnames kcs !! j = Some (col_name c))
    /\ (col_name c ∉ cnames kcs -> j = 0%nat).
Proof.
  rewrite is_key_col_spec. case_bool_decide as Hc.
  - apply list_elem_of_lookup in Hc as [j Hj]. exists j.
    rewrite (position_ok kcs j) by done. split_and!; [done|done|].
    intros []. by eapply list_elem_of_lookup_2.
  - by exists 0%nat.
Qed.

Definition found_in (cs : list ColumnDefinition) : Z := zlen (keyed (cnames cs)).

Lemma found_snoc cs c :
  found_in (cs ++ [c])
  = if bool_decide (col_name c ∈ cnames kcs) then found_in cs + 1 else found_in cs.
Proof.
  unfold found_in. rewrite fmap_app, filter_app. cbn [fmap list_fmap]. rewrite filter_cons, filter_nil.
  case_decide; case_bool_decide; try done; len.
Qed.

(** The flags and bytes of the columns still to be read. *)
Definition to_read (i fo vo : Z) (vs : DbRecord D) : Prop :=
  flags_at bm i vs /\ placed bytes fo (fixed_part vs) /\ placed bytes vo (variable_part vs)
  /\ Forall storable vs.

Definition key_value_null (cs : list ColumnDefinition) (vs : DbRecord D) : Prop :=
  exists k c v, cs !! k = Some c /\ vs !! k = Some v /\ col_name c ∈ cnames kcs /\ is_null v = true.

(** What the loop does with the first column left. *)
Lemma key_loop_step c v cs (vs : DbRecord D) i rv fo vo found :
  stores (data_type c) v -> to_read i fo vo (v :: vs) -> length rv = length kcs ->
  0 <= found < zlen kcs ->
  let isk := bool_decide (col_name c ∈ cnames kcs) in
  let found' := if isk then found + 1 else found in
  if isk && is_null v then
    deserialize_key_loop kcs bytes bm (mkKeyState rv fo vo found) ((i, c) :: cs)
    = Err NullPrimaryKeyColumnValue
  else exists j rv', rv' = (if isk then <[j := v]> rv else rv)
    /\ (isk = true -> cnames kcs !! j = Some (col_name c))
    /\ to_read (i + 1) (fo + zlen (fixed_bytes v)) (vo + zlen (variable_bytes v)) vs
    /\ deserialize_key_loop kcs bytes bm (mkKeyState rv fo vo found) ((i, c) :: cs)
       = deserialize_key_loop kcs bytes bm
           (mkKeyState rv' (fo + zlen (fixed_bytes v)) (vo + zlen (variable_bytes v)) found') cs.
Proof.
  intros Hs (Hfl & Hfo & Hvo & Hst) Hrv Hfound. cbv zeta.
  apply flags_at_cons in Hfl as [Hnull Hfl]. apply Forall_cons in Hst as [Hv Hst].
  rewrite fixed_part_cons in Hfo. rewrite variable_part_cons in Hvo.
  assert (to_read (i + 1) (fo + zlen (fixed_bytes v)) (vo + zlen (variable_bytes v)) vs) as Hnext
    by (split_and!; [done|by eapply placed_app_r|by eapply placed_app_r|done]).
  destruct (key_index_ok c) as (j & Hj & Hin & Hout). cbn [deserialize_key_loop].
  cbn [key_cols_found]. rewrite (proj2 (Z.leb_gt _ _)) by lia. rewrite Hj.
  cbn [mbind outcome_bind]. rewrite Hnull, is_key_col_spec. cbn [mbind outcome_bind].
  destruct (is_null v) eqn:Hn.
  - apply null_bytes in Hn as ->. case_bool_decide as Hc; cbn [andb]; [done|].
    exists j, rv. split_and!; [done|done|done|].
    change (zlen (fixed_bytes (@VNull D))) with 0. change (zlen (variable_bytes (@VNull D))) with 0.
    by rewrite !Z.add_0_r.
  - rewrite andb_false_r. cbn [row_values key_fixed_offset key_variable_offset key_cols_found].
    assert (j < length rv)%nat as Hlt.
    { rewrite Hrv. destruct (decide (col_name c ∈ cnames kcs)) as [Hc|Hc].
      - rewrite <- (length_fmap col_name). by eapply lookup_lt_Some, Hin.
      - rewrite Hout by done. unfold zlen in Hfound. lia. }
    exists j. eexists. split; [reflexivity|].
    case_bool_decide as Hc; (split_and!; [by auto|done|]);
      by rewrite (key_col_ok _ v) by (done || by eapply placed_app_l).
Qed.

Lemma found_range cs : NoDup (cnames cs) -> 0 <= found_in cs <= zlen kcs.
Proof. intros Hn. pose proof (keyed_length cs Hn). unfold found_in, zlen. lia. Qed.

Lemma found_lt cs1 c cs2 :
  NoDup (cnames (cs1 ++ c :: cs2)) -> col_name c ∈ cnames kcs -> found_in cs1 < zlen kcs.
Proof.
  intros Hn Hc. replace (cs1 ++ c :: cs2) with ((cs1 ++ [c]) ++ cs2) in Hn by (by rewrite <- app_assoc).
  rewrite fmap_app in Hn. apply NoDup_app in Hn as [Hn _].
  pose proof (found_range _ Hn) as Hr. rewrite found_snoc, bool_decide_true in Hr by done. lia.
Qed.

(** When no key column is null, the loop puts every key value in its place. *)
Lemma key_loop_values cs2 (vs2 : DbRecord D) :
  fits cs2 vs2 -> forall cs1 vs1 rv fo vo,
  NoDup (cnames (cs1 ++ cs2)) -> length cs1 = length vs1 ->
  (forall n, n ∈ cnames kcs -> n ∈ cnames (cs1 ++ cs2)) ->
  to_read (zlen cs1) fo vo vs2 -> keys_read cs1 vs1 rv -> ~ key_value_null cs2 vs2 ->
  exists s', deserialize_key_loop kcs bytes bm (mkKeyState rv fo vo (found_in cs1))
               (enum_from (zlen cs1) cs2) = Ok s'
    /\ keys_read (cs1 ++ cs2) (vs1 ++ vs2) (row_values s').
Proof.
  intros Hf. induction Hf as [|c v cs vs Hs Hf IH]; intros cs1 vs1 rv fo vo Hn Hl Hsub Hread Hkeys Hnull.
  { rewrite enum_from_nil, !app_nil_r in *. by eexists. }
  rewrite enum_from_cons. pose proof Hn as Hn'. rewrite fmap_app in Hn'.
  apply NoDup_app in Hn' as (Hn1 & Hdisj & _).
  destruct (decide (found_in cs1 < zlen kcs)) as [Hlt|Hge].
  - pose proof (key_loop_step c v (enum_from (zlen cs1 + 1) cs) vs (zlen cs1) rv fo vo (found_in cs1)
      Hs Hread (proj1 Hkeys)) as Hstep. cbv zeta in Hstep.
    rewrite <- found_snoc in Hstep. pose proof (found_range cs1 Hn1).
    specialize (Hstep ltac:(lia)).
    destruct (bool_decide (col_name c ∈ cnames kcs) && is_null v) eqn:Hkn.
    { exfalso. apply Hnull. apply andb_true_iff in Hkn as [Hc%bool_decide_eq_true Hv].
      by exists 0%nat, c, v. }
    destruct Hstep as (j & rv' & Hrv' & Hj & Hread' & ->).
    replace (zlen cs1 + 1) with (zlen (cs1 ++ [c])) in * by len.
    replace (cs1 ++ c :: cs) with ((cs1 ++ [c]) ++ cs) in * by (by rewrite <- app_assoc).
    replace (vs1 ++ v :: vs) with ((vs1 ++ [v]) ++ vs) by (by rewrite <- app_assoc).
    apply (IH (cs1 ++ [c])); [done|by rewrite !length_app, Hl|done|done| |].
    + subst rv'. case_bool_decide as Hc; [apply keys_read_member|apply keys_read_other];
        try done; [|by apply Hj].
      intros Hin. apply (Hdisj _ Hin). rewrite fmap_cons. left.
    + intros (k & c' & v' & Hk1 & Hk2 & Hk3). apply Hnull. by exists (S k), c', v'.
  - cbn [deserialize_key_loop key_cols_found]. rewrite (proj2 (Z.leb_le _ _)) by lia.
    eexists. split; [done|]. destruct Hkeys as [Hr Hget]. split; [done|]. intros j n Hj _.
    assert (n ∈ cnames cs1) as Hin.
    { apply keyed_all; [done| |by eapply list_elem_of_lookup_2]. unfold found_in, zlen in Hge. lia. }
    destruct (Hget j n Hj Hin) as (i & w & Hi & Hw & Hrv). exists i, w. rewrite fmap_app.
    split_and!; [by apply lookup_app_l_Some|by apply lookup_app_l_Some|done].
Qed.

(** When a key column is null, the loop stops there with an error. *)
Lemma key_loop_null cs2 (vs2 : DbRecord D) :
  fits cs2 vs2 -> forall cs1 rv fo vo,
  NoDup (cnames (cs1 ++ cs2)) -> to_read (zlen cs1) fo vo vs2 -> length rv = length kcs ->
  key_value_null cs2 vs2 ->
  deserialize_key_loop kcs bytes bm (mkKeyState rv fo vo (found_in cs1)) (enum_from (zlen cs1) cs2)
  = Err NullPrimaryKeyColumnValue.
Proof.
  intros Hf. induction Hf as [|c v cs vs Hs Hf IH]; intros cs1 rv fo vo Hn Hread Hr Hnull.
  { by destruct Hnull as (k & c & v & Hk1 & _). }
  rewrite enum_from_cons.
  assert (found_in cs1 < zlen kcs) as Hlt.
  { destruct Hnull as (k & c' & v' & Hk1 & _ & Hc' & _).
    apply list_elem_of_split_length in Hk1 as (l1 & l2 & Hk1 & _). rewrite Hk1 in Hn.
    rewrite app_assoc in Hn. pose proof (found_lt _ _ _ Hn Hc') as Hlt.
    eapply Z.le_lt_trans; [|exact Hlt]. unfold found_in, zlen. rewrite fmap_app, filter_app, length_app. lia. }
  pose proof (key_loop_step c v (enum_from (zlen cs1 + 1) cs) vs (zlen cs1) rv fo vo (found_in cs1)
    Hs Hread Hr) as Hstep. cbv zeta in Hstep. rewrite <- found_snoc in Hstep.
  assert (0 <= found_in cs1) as H0' by apply zlen_nonneg. specialize (Hstep ltac:(lia)).
  destruct (bool_decide (col_name c ∈ cnames kcs) && is_null v) eqn:Hkn; [done|].
  destruct Hstep as (j & rv' & Hrv' & Hj & Hread' & ->).
  replace (zlen cs1 + 1) with (zlen (cs1 ++ [c])) in * by len.
  replace (cs1 ++ c :: cs) with ((cs1 ++ [c]) ++ cs) in * by (by rewrite <- app_assoc).
  apply IH; [done|done| |].
  - subst rv'. by case_bool_decide; rewrite ?length_insert.
  - destruct Hnull as (k & c' & v' & Hk1 & Hk2 & Hk3 & Hk4). destruct k as [|k]; [|by exists k, c', v'].
    simpl in Hk1, Hk2. simplify_eq. by rewrite bool_decide_true, Hk4 in Hkn.
Qed.
End KeyLoop.

(** * [deserialize_key] on a serialized record *)

(** The value of the key column [n]. *)
Definition key_values {D} (columns : list ColumnDefinition) (record : DbRecord D)
    (names : list rstr) (key : Key D) : Prop :=
  Forall2 (fun v n => exists i, cnames columns !! i = Some n /\ record !! i = Some v) key names.

Lemma keys_read_values {D} columns kcs (record : DbRecord D) key :
  (forall n, n ∈ cnames kcs -> n ∈ cnames columns) ->
  keys_read kcs columns record key -> key_values columns record (cnames kcs) key.
Proof.
  intros Hsub [Hl Hget]. apply Forall2_same_length_lookup_2; [by rewrite length_fmap|].
  intros j v n Hv Hn.
  destruct (Hget j n Hn) as (i & w & Hi & Hw & Hrv); [by eapply Hsub, list_elem_of_lookup_2|].
  simplify_eq. by exists i.
Qed.

Lemma key_values_unique {D} columns (record : DbRecord D) names k1 k2 :
  NoDup (cnames columns) -> key_values columns record names k1 ->
  key_values columns record names k2 -> k1 = k2.
Proof.
  intros Hn H1. revert k2. induction H1 as [|v n k1 names (i & Hi & Hv) _ IH]; intros k2 H2.
  - by inversion H2.
  - inversion H2 as [|v2 ? k2' ? (i2 & Hi2 & Hv2) H2']; subst. f_equal; [|by apply IH].
    pose proof (NoDup_lookup _ _ _ _ Hn Hi Hi2) as ->. congruence.
Qed.

Section Key.
Context {D : Type} `{DecimalLaws D}.

Lemma deserialize_key_ok columns kcs (record : DbRecord D) bytes :
  fits columns record -> Forall storable record ->
  get_null_bitmap_size columns + zlen (fixed_part record) + zlen (variable_part record) < 2 ^ 64 ->
  serialize columns record = Ok bytes ->
  NoDup (cnames columns) -> NoDup (cnames kcs) ->
  (forall n, n ∈ cnames kcs -> n ∈ cnames columns) ->
  (~ key_value_null kcs columns record ->
   exists key, deserialize_key columns kcs bytes = Ok key
     /\ key_values columns record (cnames kcs) key)
  /\ (key_value_null kcs columns record ->
   @deserialize_key D _ columns kcs bytes = Err NullPrimaryKeyColumnValue).
Proof.
  intros Hf Hst Hsz Hser Hn Hk Hsub.
  destruct (serialized_view columns record Hf Hsz)
    as (bm & bytes' & Hser' & Hb & Hsl & Hfl & Hvo & Hp1 & Hp2).
  rewrite Hser in Hser'. injection Hser' as <-.
  assert (@deserialize_key D _ columns kcs bytes
    = (s ← deserialize_key_loop kcs bytes bm (mkKeyState (replicate (length kcs) VNull)
             (get_null_bitmap_size columns) (get_null_bitmap_size columns + zlen (fixed_part record))
             (found_in kcs [])) (enum_from (zlen (@nil ColumnDefinition)) columns);
       Ok (key_from_vec (row_values s)))) as ->.
  { unfold deserialize_key. fold (get_null_bitmap_size columns). rewrite Hsl.
    cbn [mbind outcome_bind]. rewrite Hvo. cbn [mbind outcome_bind]. by rewrite enumerate_from. }
  assert (to_read bytes bm (zlen (@nil ColumnDefinition)) (get_null_bitmap_size columns)
    (get_null_bitmap_size columns + zlen (fixed_part record)) record) as Hread by done.
  split; intros Hnull.
  - destruct (key_loop_values kcs bytes bm Hk Hb columns record Hf [] []
      (replicate (length kcs) VNull) _ _ Hn eq_refl Hsub Hread) as (s' & -> & Hkeys); [|done|].
    { split; [apply length_replicate|]. intros j n _ Hin. by apply not_elem_of_nil in Hin. }
    exists (row_values s'). split; [done|]. by apply keys_read_values.
  - rewrite (key_loop_null kcs bytes bm Hk Hb columns record Hf []); try done.
    apply length_replicate.
Qed.
End Key.

Section PrimaryKeyOf.
Context {D : Type} `{DecimalLaws D} (t : TableDefinition) (name : rstr) (pk : list rstr).
Context (record : DbRecord D) (bytes : list Z).
Hypothesis Hpk : get_primary_key t = Some (PrimaryKey name pk).
Hypothesis Hn : NoDup (cnames (columns t)).
Hypothesis Hnd : NoDup pk.
Hypothesis Hsub : forall n, n ∈ pk -> n ∈ cnames (columns t).
Hypothesis Hf : fits (columns t) record.
Hypothesis Hst : Forall storable record.
Hypothesis Hsz :
  get_null_bitmap_size (columns t) + zlen (fixed_part record) + zlen (variable_part record) < 2 ^ 64.
Hypothesis Hser : serialize (columns t) record = Ok bytes.

Lemma deserialize_primary_key_kcs :
  exists kcs, cnames kcs = pk /\ @deserialize_primary_key D _ t bytes = deserialize_key (columns t) kcs bytes.
Proof.
  destruct (lookup_columns (E := SerializationError) t pk []) as [Hcols _].
  destruct Hcols as (kcs & Hk & Hd & _); [by apply Forall_forall|]. exists kcs. split; [done|].
  unfold deserialize_primary_key, get_primary_key_columns. rewrite Hpk. by rewrite Hk.
Qed.

(** No key value is null: the key, the same as the record's own. *)
Lemma deserialize_primary_key_values :
  (forall n i, n ∈ pk -> cnames (columns t) !! i = Some n -> record !! i <> Some VNull) ->
  exists key, deserialize_primary_key t bytes = Ok key
    /\ key_values (columns t) record pk key
    /\ (pk = key_part pk (cnames (columns t)) ->
        forall E, @record_get_primary_key D E record t = Ok key).
Proof.
  intros Hnull. destruct deserialize_primary_key_kcs as (kcs & Hkcs & ->).
  destruct (deserialize_key_ok (columns t) kcs record bytes) as [Hok _]; try done; try by subst pk.
  destruct Hok as (key & -> & Hkey).
  { intros (k & c & v & Hc & Hv & Hin & ->%null_bytes). rewrite Hkcs in Hin.
    eapply (Hnull (col_name c) k); [done| |done]. by apply list_lookup_fmap_Some_2. }
  rewrite Hkcs in Hkey. exists key. split_and!; [done|done|]. intros Hpart E.
  destruct (primary_key_loop (E := E) t record name pk) as [Hrec _]; try done.
  { by rewrite (Forall2_length _ _ _ Hf). }
  destruct (Hrec Hpart) as (key' & -> & Hkey'). f_equal. exact (key_values_unique _ _ _ _ _ Hn Hkey' Hkey).
Qed.

Lemma deserialize_primary_key_null :
  (exists n i, n ∈ pk /\ cnames (columns t) !! i = Some n /\ record !! i = Some VNull) ->
  @deserialize_primary_key D _ t bytes = Err NullPrimaryKeyColumnValue.
Proof.
  intros (n & i & Hin & Hi & Hv). destruct deserialize_primary_key_kcs as (kcs & Hkcs & ->).
  destruct (deserialize_key_ok (columns t) kcs record bytes) as [_ Herr]; try done; try by subst pk.
  apply Herr. apply list_lookup_fmap_Some in Hi as (c & -> & Hc). rewrite <- Hkcs in Hin.
  by exists i, c, VNull.
Qed.
End PrimaryKeyOf.

(** C16: The key read from the bytes of a record is the record's key: for a
    table with distinct column names and a primary key of distinct columns of
    it, and a record of the table, [deserialize_primary_key] on what
    [serialize] wrote gives the values of the key's columns in the order of the
    key (whatever that order is), [NullPrimaryKeyColumnValue] when one of them
    is null; and it agrees with [Record::get_primary_key] when that returns. *)
Theorem deserialize_primary_key_spec {D} `{DecimalLaws D} t name pk (record : DbRecord D) bytes :
  get_primary_key t = Some (PrimaryKey name pk) ->
  NoDup (cnames (columns t)) -> NoDup pk -> (forall n, n ∈ pk -> n ∈ cnames (columns t)) ->
  fits (columns t) record -> Forall storable record ->
  get_null_bitmap_size (columns t) + zlen (fixed_part record) + zlen (variable_part record) < 2 ^ 64 ->
  serialize (columns t) record = Ok bytes ->
  ((forall n i, n ∈ pk -> cnames (columns t) !! i = Some n -> record !! i <> Some VNull) ->
   exists key, deserialize_primary_key t bytes = Ok key
     /\ key_values (columns t) record pk key
     /\ (pk = key_part pk (cnames (columns t)) ->
         @record_get_primary_key D SerializationError record t = Ok key))
  /\ ((exists n i, n ∈ pk /\ cnames (columns t) !! i = Some n /\ record !! i = Some VNull) ->
   @deserialize_primary_key D _ t bytes = Err NullPrimaryKeyColumnValue).
Proof.
  intros Hpk Hn Hnd Hsub Hf Hst Hsz Hser. split.
  - intros Hnull. destruct (deserialize_primary_key_values t name pk record bytes)
      as (key & Hd & Hk & Hr); try done.
    exists key. split_and!; [done|done|]. intros Hpart. by apply Hr.
  - intros Hnull. by apply (deserialize_primary_key_null t name pk record bytes).
Qed.

(** [t (a INT, b VARCHAR(9))] with the primary key [(b, a)]. *)
Definition swapped_key_table : TableDefinition :=
  mkTable 0 [116] [mkColumn [97] TInt false None; mkColumn [98] (TVarchar 9) false None]
    [PrimaryKey [112] [[98]; [97]]].
Definition swapped_key_record : DbRecord SimpleDecimal := [VInt 1; VText [65]].
Definition swapped_key_bytes : list Z := [0; 1; 0; 0; 0; 1; 0; 0; 0; 65].

Lemma swapped_fits : fits (columns swapped_key_table) swapped_key_record.
Proof. repeat constructor. Qed.

Lemma swapped_storable : Forall storable swapped_key_record.
Proof. repeat constructor; simpl; lia. Qed.

Lemma deserialize_primary_key_spec_witness :
  ((forall n i, n ∈ [[98]; [97]] -> cnames (columns swapped_key_table) !! i = Some n ->
      swapped_key_record !! i <> Some VNull) ->
   exists key, deserialize_primary_key swapped_key_table swapped_key_bytes = Ok key
     /\ key_values (columns swapped_key_table) swapped_key_record [[98]; [97]] key
     /\ ([[98]; [97]] = key_part [[98]; [97]] (cnames (columns swapped_key_table)) ->
         @record_get_primary_key SimpleDecimal SerializationError swapped_key_record
           swapped_key_table = Ok key))
  /\ ((exists n i, n ∈ [[98]; [97]] /\ cnames (columns swapped_key_table) !! i = Some n
                   /\ swapped_key_record !! i = Some VNull) ->
   @deserialize_primary_key SimpleDecimal _ swapped_key_table swapped_key_bytes
   = Err NullPrimaryKeyColumnValue).
Proof.
  apply (deserialize_primary_key_spec swapped_key_table [112] [[98]; [97]]).
  - reflexivity.
  - apply (bool_decide_unpack _). vm_compute. exact I.
  - apply (bool_decide_unpack _). vm_compute. exact I.
  - intros n Hn. set_solver.
  - apply swapped_fits.
  - apply swapped_storable.
  - vm_compute. reflexivity.
  - vm_compute. reflexivity.
Defined.
