(* ===== verification/SerializerErrors.v ===== *)
(** [serialize] on records that do not fit their columns: which mismatches are
    reported and which panic. *)
From S2P Require Import Prelude.
From S2P Require Import Bytes.
From S2P Require Import RustStr.
From S2P Require Import Schema.
From S2P Require Import OrderedFloat.
From S2P Require Import DataModel.
From S2P Require Import Serializer.
From S2P Require Import SerializerLayout.

Section Errors.
Context {D : Type} `{DecimalLaws D}.

(** The sizes of any columns only grow the accumulators. *)
Lemma size_loop_any cs1 (vs1 : DbRecord D) cs2 vs2 s :
  length cs1 = length vs1 -> (length cs2 <= length vs2)%nat ->
  exists a b l, 0 <= a /\ 0 <= b
    /\ ofold (size_step (cs1 ++ cs2) (vs1 ++ vs2)) s (range (zlen cs1) (zlen (cs1 ++ cs2)))
       = Ok (mkSizes (total_record_size s + a + b) (fixed_length_size s + a)
               (variable_length_sizes s ++ l)).
Proof.
  revert cs1 vs1 vs2 s. induction cs2 as [|c cs2 IH]; intros cs1 vs1 vs2 s Hl Hl2.
  { rewrite app_nil_r, range_nil by lia. exists 0, 0, []. rewrite app_nil_r, !Z.add_0_r.
    by destruct s. }
  destruct vs2 as [|v vs2]; [simpl in Hl2; lia|]. pose proof (zlen_nonneg cs2).
  rewrite range_cons by len. cbn [ofold].
  assert (exists a b l, 0 <= a /\ 0 <= b /\
    size_step (cs1 ++ c :: cs2) (vs1 ++ v :: vs2) s (zlen cs1)
    = Ok (mkSizes (total_record_size s + a + b) (fixed_length_size s + a)
            (variable_length_sizes s ++ l))) as (a & b & l & Ha & Hb & ->).
  { unfold size_step. replace (zlen cs1) with (zlen vs1) by (unfold zlen; lia).
    rewrite index_middle. cbn [mbind outcome_bind].
    replace (zlen vs1) with (zlen cs1) by (unfold zlen; lia). rewrite index_middle.
    cbn [mbind outcome_bind]. destruct s as [tot fx vr].
    cbn [total_record_size fixed_length_size variable_length_sizes].
    destruct (is_null v); [exists 0, 0, []; rewrite app_nil_r, !Z.add_0_r; by split_and!|].
    destruct (get_fixed_size (data_type c)) as [n|] eqn:Hn.
    - exists n, 0, []. rewrite app_nil_r, Z.add_0_r.
      assert (0 <= n) by (destruct (data_type c); simplify_eq/=; lia). by split_and!.
    - unfold SIZE_OF_I32. destruct v as [| | | | |s|s| |].
      6, 7: pose proof (zlen_nonneg s); exists 0, (4 + zlen s), [zlen s]; rewrite !Z.add_0_r, Z.add_assoc;
        split_and!; (lia || done).
      all: exists 0, 4, []; rewrite app_nil_r, !Z.add_0_r; split_and!; (lia || done). }
  cbn [mbind outcome_bind].
  destruct (IH (cs1 ++ [c]) (vs1 ++ [v]) vs2
    (mkSizes (total_record_size s + a + b) (fixed_length_size s + a) (variable_length_sizes s ++ l)))
    as (a' & b' & l' & Ha' & Hb' & Hr); [by rewrite !length_app, Hl|simpl in Hl2; lia|].
  rewrite <- !app_assoc in Hr. cbn [app] in Hr.
  replace (zlen (cs1 ++ [c])) with (zlen cs1 + 1) in Hr by len. rewrite Hr.
  exists (a + a'), (b + b'), (l ++ l'). cbn [total_record_size fixed_length_size variable_length_sizes].
  rewrite app_assoc. split_and!; [lia|lia|]. do 2 f_equal; lia.
Qed.

(** The loop reaches the first column that does not fit. *)
Lemma serialize_reaches cs1 (vs1 : DbRecord D) c v cs2 vs2 :
  fits cs1 vs1 -> (length cs2 <= length vs2)%nat ->
  exists sizes s i,
    serialize (cs1 ++ c :: cs2) (vs1 ++ v :: vs2)
    = (s' ← serialize_step sizes s (i, (c, v));
       s' ← ofold (serialize_step sizes) s' (enum_from (i + 1) (zip cs2 vs2));
       Ok (ser_bytes s')).
Proof.
  intros Hf Hlen. unfold serialize, calculate_serialized_record_size.
  pose proof (null_bitmap_size_fits (cs1 ++ c :: cs2)) as HB8.
  pose proof (null_bitmap_size_nonneg (cs1 ++ c :: cs2)) as HB0.
  set (B := get_null_bitmap_size (cs1 ++ c :: cs2)) in *.
  assert (length cs1 = length vs1) as Hl by (by eapply Forall2_length).
  pose proof (zlen_nonneg cs1). pose proof (zlen_nonneg cs2).
  pose proof (zlen_nonneg (fixed_part vs1)). pose proof (zlen_nonneg (variable_part vs1)).
  assert (range 0 (zlen (cs1 ++ c :: cs2))
    = range 0 (zlen cs1) ++ range (zlen cs1) (zlen (cs1 ++ c :: cs2))) as ->.
  { unfold range. rewrite zlen_app.
    replace (zlen cs1 + zlen (c :: cs2) - 0) with (zlen cs1 + zlen (c :: cs2)) by lia.
    rewrite seqZ_app by len. f_equal; f_equal; lia. }
  rewrite ofold_app.
  pose proof (sizes_loop [] [] cs1 vs1 (c :: cs2) (v :: vs2) (mkSizes B 0 []) Hf eq_refl) as Hpre.
  cbn [app] in Hpre. change (zlen (@nil ColumnDefinition)) with 0 in Hpre. rewrite Hpre.
  cbn [mbind outcome_bind].
  destruct (size_loop_any cs1 vs1 (c :: cs2) (v :: vs2) (add_sizes (mkSizes B 0 []) vs1) Hl)
    as (a & b & l & Ha & Hb & Hsz); [simpl; lia|].
  rewrite Hsz. cbn [mbind outcome_bind]. unfold add_sizes.
  cbn [total_record_size fixed_length_size variable_length_sizes app].
  rewrite enumerate_from, zip_with_app, enum_from_app, ofold_app by done.
  destruct (serialize_loop cs1 vs1 Hf (fill 0 B) [] [] (fill 0 a) (fill 0 b) [] l B
    (B + (0 + zlen (fixed_part vs1) + a)) 0) as (bm & s' & _ & _ & Hr & _).
  - apply bitmap_zeros.
  - rewrite zlen_fill, zlen_nil by done. rewrite zlen_app, zlen_cons in HB8.
    unfold zlen in *. lia.
  - rewrite zlen_fill by done. len.
  - rewrite (zlen_fill 0 B), (zlen_fill 0 a) by done. len.
  - done.
  - set (F1 := zlen (fixed_part vs1)) in *. set (V1 := zlen (variable_part vs1)) in *.
    replace (B + F1 + V1 + a + b) with (B + (F1 + (a + (V1 + b)))) by lia.
    rewrite !fill_add by lia. rewrite (Z.add_0_l F1) in *. cbn [app] in Hr.
    change (zlen (@nil bool)) with 0 in Hr. rewrite Hr. cbn [mbind outcome_bind].
    cbn [zip zip_with]. rewrite enum_from_cons. cbn [ofold].
    exists (payload_sizes vs1 ++ l), s', (0 + zlen (zip cs1 vs1)).
    destruct (serialize_step (payload_sizes vs1 ++ l) s' _); reflexivity.
Qed.
End Errors.

(** C27: Records that do not fit: if the values before column [i] fit and
    column [i] is of a fixed size, then a text or blob there makes [serialize]
    report [DataTypeMismatch], but a number, float, date or decimal of another
    size makes it panic (in [copy_from_slice]) -- in particular an [Int] in a
    [BIGINT] column, which [is_compatible] accepts. *)
Theorem serialize_mismatch {D} `{DecimalLaws D} cs1 (vs1 : DbRecord D) c v cs2 vs2 n :
  fits cs1 vs1 -> (length cs2 <= length vs2)%nat -> get_fixed_size (data_type c) = Some n ->
  (match v with VText _ | VBlob _ => True | _ => False end ->
   serialize (cs1 ++ c :: cs2) (vs1 ++ v :: vs2) = Err DataTypeMismatch)
  /\ (match v with VNull | VBoolean _ | VText _ | VBlob _ => False | _ => zlen (fixed_bytes v) <> n end ->
   serialize (cs1 ++ c :: cs2) (vs1 ++ v :: vs2) = Panic)
  /\ (forall x, data_type c = TBigInt -> v = VInt x ->
   @is_compatible D _ SerializationError v (data_type c) = Ok true
   /\ serialize (cs1 ++ c :: cs2) (vs1 ++ v :: vs2) = Panic).
Proof.
  intros Hf Hlen Hn.
  destruct (serialize_reaches cs1 vs1 c v cs2 vs2 Hf Hlen) as (sizes & s & i & ->).
  assert (forall lo src bytes, zlen src <> n ->
    @copy_from_slice SerializationError Z lo (lo + n) src bytes = Panic) as Hcopy.
  { intros lo src bytes Hne. unfold copy_from_slice.
    replace (lo + n - lo) with n by lia. rewrite (proj2 (Z.eqb_neq _ _) Hne).
    by rewrite !andb_false_r. }
  unfold serialize_step at 2 4 6. rewrite Hn. split_and!.
  - by destruct v.
  - destruct v; intros Hv; try done; cbn [is_null value_eq write_fixed];
      by rewrite Hcopy by exact Hv.
  - intros x Hc ->. rewrite Hc in *. injection Hn as <-. split; [done|].
    cbn [is_null value_eq write_fixed]. by rewrite Hcopy.
Qed.

Lemma serialize_mismatch_witness :
  let c := mkColumn [105] TBigInt false None in
  let v : DataValue SimpleDecimal := VInt 5 in
  (match v with VText _ | VBlob _ => True | _ => False end ->
   serialize ([] ++ c :: []) ([] ++ v :: []) = Err DataTypeMismatch)
  /\ (match v with VNull | VBoolean _ | VText _ | VBlob _ => False | _ => zlen (fixed_bytes v) <> 8 end ->
   serialize ([] ++ c :: []) ([] ++ v :: []) = Panic)
  /\ (forall x, data_type c = TBigInt -> v = VInt x ->
   @is_compatible SimpleDecimal _ SerializationError v (data_type c) = Ok true
   /\ serialize ([] ++ c :: []) ([] ++ v :: []) = Panic).
Proof. cbv zeta. apply serialize_mismatch; [constructor|simpl; lia|reflexivity]. Defined.
