(* ===== verification/SerializerTests.v ===== *)
(** The unit tests of [record_serializer.rs], as statements about the model:
    each definition says what the test of that name asserts.  The [unwrap]s of
    the column constructors are part of [cols]; expected bytes are built as the
    tests build them.  (The 64 KB blob of [test_serialize_large_blob_boundary] is
    left out.) *)
From Stdlib Require Import String.
From S2P Require Import Prelude.
From S2P Require Import Bytes.
From S2P Require Import RustStr.
From S2P Require Import Schema.
From S2P Require Import OrderedFloat.
From S2P Require Import DataModel.
From S2P Require Import Serializer.

#[local] Abbreviation V := (DataValue SimpleDecimal).

(** [vec![ColumnDefinition::new(..).unwrap(), ..]]. *)
Definition cols (l : list (rstr * PrimitiveDataType * bool)) : outcome SchemaError (list ColumnDefinition) :=
  ofold (fun acc '(name, ty, nullable) => c ← column_new name ty nullable None; Ok (acc ++ [c])) [] l.

(** [serialize(&columns, &record).unwrap()] returns [bytes]. *)
Definition serializes (l : list (rstr * PrimitiveDataType * bool)) (record : list V) (bytes : list Z) : Prop :=
  match cols l with Ok columns => serialize columns record = Ok bytes | _ => False end.

Definition deserializes (l : list (rstr * PrimitiveDataType * bool)) (bytes : list Z) (record : list V) : Prop :=
  match cols l with Ok columns => deserialize columns bytes = Ok record | _ => False end.

(** A table with columns [l] and primary key [pk]. *)
Definition pk_table (name : rstr) (l : list (rstr * PrimitiveDataType * bool)) (pk : list rstr) :
    outcome SchemaError TableDefinition :=
  schema ← table_new name;
  columns ← cols l;
  let schema := fold_left (fun t c => add_column c t) columns schema in
  c ← primary_key (str "pk") pk;
  Ok (add_constraint c schema).

Definition extracts (t : outcome SchemaError TableDefinition) (bytes : list Z)
    (r : outcome SerializationError (list V)) : Prop :=
  match t with Ok schema => deserialize_primary_key schema bytes = r | _ => False end.

(** The bits of 99.9 and of pi. *)
Definition f_99_9 : Z := 4636730254480218522.
Definition f_pi : Z := 4614256656552045848.

(** [format!("col_{}", i)] columns of nullable integers. *)
Definition int_cols (n : Z) : list (rstr * PrimitiveDataType * bool) :=
  (fun i => (str "col_" ++ show_unsigned i, TInt, true)) <$> range 0 n.

Definition test_serialize_fixed_length_only : Prop :=
  serializes
    [(str "id", TInt, false); (str "is_active", TBoolean, false); (str "score", TFloat, false)]
    [VInt 42; VBoolean true; VFloat (mkFloat f_99_9)]
    ([0] ++ le_bytes 4 42 ++ [1] ++ le_bytes 8 f_99_9).

Definition test_serialize_fixed_length_with_null : Prop :=
  let expected_bytes := [2] ++ le_bytes 4 42 ++ le_bytes 8 f_99_9 in
  zlen expected_bytes = 13
  /\ serializes
       [(str "id", TInt, false); (str "is_active", TBoolean, true); (str "score", TFloat, false)]
       [VInt 42; VNull; VFloat (mkFloat f_99_9)] expected_bytes.

Definition test_serialize_variable_length : Prop :=
  let expected_bytes := [0] ++ le_bytes 4 10 ++ le_bytes 4 5 ++ str "Alice" in
  zlen expected_bytes = 14
  /\ serializes [(str "id", TInt, false); (str "name", TVarchar 255, false)]
       [VInt 10; VText (str "Alice")] expected_bytes.

Definition test_serialize_interleaved_fixed_and_variable : Prop :=
  let expected_bytes := [0] ++ le_bytes 4 10 ++ [1] ++ le_bytes 4 5 ++ str "Alice" in
  zlen expected_bytes = 15
  /\ serializes
       [(str "id", TInt, false); (str "name", TVarchar 255, false); (str "is_active", TBoolean, false)]
       [VInt 10; VText (str "Alice"); VBoolean true] expected_bytes.

Definition test_serialize_all_data_types : Prop :=
  let decimal_val := mkDec 1234 2 in
  let datetime_ticks := 1672531200000 in
  let blob_data := [222; 173; 190; 239] in
  let expected_bytes :=
    [0] ++ le_bytes 4 42 ++ le_bytes 8 1234567890 ++ [1] ++ le_bytes 8 f_pi
    ++ dec_serialize decimal_val ++ le_bytes 8 datetime_ticks
    ++ le_bytes 4 5 ++ str "Alice" ++ le_bytes 4 (zlen blob_data) ++ blob_data in
  zlen expected_bytes = 63
  /\ serializes
       [(str "col_int", TInt, false); (str "col_bigint", TBigInt, false);
        (str "col_bool", TBoolean, false); (str "col_float", TFloat, false);
        (str "col_decimal", TDecimal 10 2, false); (str "col_datetime", TDateTime, false);
        (str "col_varchar", TVarchar 255, false); (str "col_blob", TBlob 255, false)]
       [VInt 42; VBigInt 1234567890; VBoolean true; VFloat (mkFloat f_pi); VDecimal decimal_val;
        VDateTime datetime_ticks; VText (str "Alice"); VBlob blob_data] expected_bytes.

Definition test_serialize_bitmap_overflow_and_empty_strings : Prop :=
  let columns := int_cols 8 ++ [(str "last_col", TVarchar 255, true)] in
  let values := [VNull] ++ replicate 7 (VInt 1) ++ [VText (str "")] in
  match cols columns with
  | Ok columns =>
      match serialize columns values with
      | Ok bytes =>
          @index () _ 0 bytes = Ok 1 /\ @index () _ 1 bytes = Ok 0
          /\ (b ← slice 30 34 bytes; @from_le_i () 4 b) = Ok 0 /\ zlen bytes = 34
      | _ => False
      end
  | _ => False
  end.

Definition test_serialize_complex_utf8 : Prop :=
  let crab := [240; 159; 166; 128] in
  match cols [(str "emoji", TVarchar 255, false)] with
  | Ok columns =>
      match serialize columns [VText crab : V] with
      | Ok bytes =>
          zlen bytes = 9 /\ (b ← slice 1 5 bytes; @from_le_i () 4 b) = Ok 4
          /\ @slice () _ 5 9 bytes = Ok crab
      | _ => False
      end
  | _ => False
  end.

Definition test_serialize_all_null_record : Prop :=
  serializes (int_cols 8) (replicate 8 VNull) [255].

Definition test_deserialize_fixed_length_only : Prop :=
  deserializes
    [(str "id", TInt, false); (str "is_active", TBoolean, false); (str "score", TFloat, false)]
    ([0] ++ le_bytes 4 42 ++ [1] ++ le_bytes 8 f_99_9)
    [VInt 42; VBoolean true; VFloat (mkFloat f_99_9)].

Definition test_deserialize_fixed_length_with_null : Prop :=
  deserializes
    [(str "id", TInt, false); (str "is_active", TBoolean, true); (str "score", TFloat, false)]
    ([2] ++ le_bytes 4 42 ++ le_bytes 8 f_99_9)
    [VInt 42; VNull; VFloat (mkFloat f_99_9)].

Definition test_deserialize_variable_length : Prop :=
  deserializes [(str "id", TInt, false); (str "name", TVarchar 255, false)]
    ([0] ++ le_bytes 4 10 ++ le_bytes 4 5 ++ str "Alice")
    [VInt 10; VText (str "Alice")].

Definition test_deserialize_interleaved_and_nulls : Prop :=
  deserializes
    [(str "id", TInt, false); (str "name", TVarchar 255, true);
     (str "is_active", TBoolean, false); (str "bio", TBlob 1024, true)]
    ([2] ++ le_bytes 4 100 ++ [1] ++ le_bytes 4 2 ++ [222; 173])
    [VInt 100; VNull; VBoolean true; VBlob [222; 173]].

Definition test_deserialize_bitmap_overflow : Prop :=
  deserializes (int_cols 10)
    ([1; 2] ++ concat (le_bytes 4 <$> range 1 9))
    ([VNull] ++ (VInt <$> range 1 9) ++ [VNull]).

Definition test_deserialize_primary_key : Prop :=
  extracts
    (pk_table (str "multi_pk_table")
       [(str "id", TInt, false); (str "name", TVarchar 255, false); (str "region_code", TInt, false)]
       [str "id"; str "region_code"])
    ([0] ++ le_bytes 4 500 ++ le_bytes 4 99 ++ le_bytes 4 6 ++ str "Worker")
    (Ok [VInt 500; VInt 99]).

Definition test_deserialize_mixed_primary_key : Prop :=
  extracts
    (pk_table (str "mixed_pk_table")
       [(str "id", TInt, false); (str "is_active", TBoolean, false); (str "tag", TVarchar 50, false)]
       [str "id"; str "tag"])
    ([0] ++ le_bytes 4 777 ++ [1] ++ le_bytes 4 5 ++ str "Alpha")
    (Ok [VInt 777; VText (str "Alpha")]).

Definition test_deserialize_primary_key_null_error : Prop :=
  extracts
    (pk_table (str "pk_null_table") [(str "id", TInt, false); (str "data", TInt, true)] [str "id"])
    [1] (Err NullPrimaryKeyColumnValue).

Definition test_deserialize_primary_key_fixed_last_with_variable_first : Prop :=
  extracts
    (pk_table (str "fixed_last_table")
       [(str "name", TVarchar 255, false); (str "age", TInt, false); (str "id", TInt, false)]
       [str "id"])
    ([0] ++ le_bytes 4 30 ++ le_bytes 4 123 ++ le_bytes 4 5 ++ str "Alice")
    (Ok [VInt 123]).

Definition test_deserialize_primary_key_complex_out_of_order : Prop :=
  extracts
    (pk_table (str "complex_pk_table")
       [(str "name", TVarchar 255, false); (str "age", TInt, false); (str "id", TInt, false);
        (str "is_active", TBoolean, false); (str "rank", TInt, false)]
       [str "id"; str "rank"; str "age"])
    ([0] ++ le_bytes 4 30 ++ le_bytes 4 123 ++ [1] ++ le_bytes 4 5 ++ le_bytes 4 5 ++ str "Alice")
    (Ok [VInt 123; VInt 5; VInt 30]).

Definition test_deserialize_variable_length_with_mixed_offsets : Prop :=
  match cols [(str "id", TInt, false); (str "name", TVarchar 255, false)] with
  | Ok columns =>
      (bytes ← serialize columns [VInt 100 : V; VText (str "Alice")]; deserialize columns bytes)
      = Ok [VInt 100; VText (str "Alice")]
  | _ => False
  end.

(** * All of them hold *)

Example serialize_tests :
  test_serialize_fixed_length_only
  /\ test_serialize_fixed_length_with_null
  /\ test_serialize_variable_length
  /\ test_serialize_interleaved_fixed_and_variable
  /\ test_serialize_all_data_types
  /\ test_serialize_bitmap_overflow_and_empty_strings
  /\ test_serialize_complex_utf8
  /\ test_serialize_all_null_record.
Proof. by vm_compute. Qed.

Example deserialize_tests :
  test_deserialize_fixed_length_only
  /\ test_deserialize_fixed_length_with_null
  /\ test_deserialize_variable_length
  /\ test_deserialize_interleaved_and_nulls
  /\ test_deserialize_bitmap_overflow
  /\ test_deserialize_primary_key
  /\ test_deserialize_mixed_primary_key
  /\ test_deserialize_primary_key_null_error
  /\ test_deserialize_primary_key_fixed_last_with_variable_first
  /\ test_deserialize_primary_key_complex_out_of_order
  /\ test_deserialize_variable_length_with_mixed_offsets.
Proof. by vm_compute. Qed.
