(* ===== verification/LeafNode.v ===== *)
(** Leaf nodes of the B-tree ([btree/ops.rs], [btree/leaf_node_view.rs],
    [btree/btree_node.rs]): slotted pages whose records are sorted by primary
    key.  A method taking [&mut self] updates the node's page; [merge] and
    [split_and_insert] also update the pages of the siblings they are given. *)
From S2P Require Import Prelude.
From S2P Require Import Bytes.
From S2P Require Import RustStr.
From S2P Require Import Schema.
From S2P Require Import Ordering.
From S2P Require Import DataModel.
From S2P Require Import DataModelProps.
From S2P Require Import Serializer.
From S2P Require Import Page.
From S2P Require Import SlottedPage.

(** [Result<usize, usize>] of a search. *)
Inductive SearchResult := Found (i : Z) | NotFound (i : Z).

#[export] Instance SearchResult_eq_dec : EqDecision SearchResult.
Proof. solve_decision. Defined.

(** * Nodes *)

Record LeafNodeView := mkLeaf { leaf_page_id : PageId; page_view : page }.

Inductive BTreeNode := NInternal (view : page) | NLeaf (leaf : LeafNodeView).

(** [BTreeNode::new]. *)
Definition btree_node_new (page_id : PageId) (slotted_page_view : page) : BTreeNode :=
  NLeaf (mkLeaf page_id slotted_page_view).

(** The pages [merge] and [split_and_insert] work on: this node's, the right
    sibling's, and, when given, that of the sibling after it. *)
Record Leaves := mkLeaves {
  self_page : page;
  right_page : page;
  next_page : option page;
}.

Section Leaf.
Context {D : Type} `{Decimal D}.
#[local] Abbreviation result := (outcome StorageError).

(** Run a page operation on one of the pages. *)
Definition on_self {A} (m : stateM page StorageError A) : stateM Leaves StorageError A := fun s =>
  let '(r, b) := m (self_page s) in (r, mkLeaves b (right_page s) (next_page s)).
Definition on_right {A} (m : stateM page StorageError A) : stateM Leaves StorageError A := fun s =>
  let '(r, b) := m (right_page s) in (r, mkLeaves (self_page s) b (next_page s)).
(** [if let Some(leaf) = next { .. }]. *)
Definition on_next (m : stateM page StorageError unit) : stateM Leaves StorageError unit := fun s =>
  match next_page s with
  | None => (Ok tt, s)
  | Some b => let '(r, b') := m b in (r, mkLeaves (self_page s) (right_page s) (Some b'))
  end.

(** * Header accessors *)

Definition leaf_get_item_count (b : page) : result Z :=
  get_page_header_u16_value PAGE_HEADER_ITEM_COUNT_OFFSET b.

Definition get_next_leaf_index (b : page) : result (option Z) :=
  val ← get_page_header_u32_value PAGE_HEADER_NEXT_SIBLING_LEAF_PAGE_INDEX_OFFSET b;
  Ok (if val =? INVALID_PAGE_INDEX then None else Some val).

Definition get_prev_leaf_index (b : page) : result (option Z) :=
  val ← get_page_header_u32_value PAGE_HEADER_PREV_SIBLING_LEAF_PAGE_INDEX_OFFSET b;
  Ok (if val =? INVALID_PAGE_INDEX then None else Some val).

Definition set_next_leaf_index (page_index : option Z) : stateM page StorageError unit :=
  set_page_header_u32_value PAGE_HEADER_NEXT_SIBLING_LEAF_PAGE_INDEX_OFFSET
    (match page_index with Some i => i | None => INVALID_PAGE_INDEX end).

Definition set_prev_leaf_index (page_index : option Z) : stateM page StorageError unit :=
  set_page_header_u32_value PAGE_HEADER_PREV_SIBLING_LEAF_PAGE_INDEX_OFFSET
    (match page_index with Some i => i | None => INVALID_PAGE_INDEX end).

(** * Search ([ops::find_key]) *)

(** The key of the record in slot [mid]. *)
Definition key_at (table_def : TableDefinition) (b : page) (mid : Z) : result (Key D) :=
  r ← get_record mid b;
  mid_point_data ← unwrap_opt r;
  unwrap_res (deserialize_primary_key table_def mid_point_data).

(** The loop; [None] when the fuel runs out, as it would if no comparison held. *)
Fixpoint find_key_loop (fuel : nat) (key : Key D) (table_def : TableDefinition) (b : page)
    (low high : Z) : option (result SearchResult) :=
  match fuel with
  | O => None
  | S fuel =>
      if low <? high then
        let mid := low + (high - low) / 2 in
        match key_at table_def b mid with
        | Ok mid_point_key =>
            if slice_eq value_eq key mid_point_key then Some (Ok (Found mid))
            else match key_cmp key mid_point_key with
                 | Gt => find_key_loop fuel key table_def b (mid + 1) high
                 | Lt => find_key_loop fuel key table_def b low mid
                 | Eq => find_key_loop fuel key table_def b low high
                 end
        | Err e => Some (Err e)
        | Panic => Some Panic
        end
      else Some (Ok (NotFound low))
  end.

(** At most one iteration for each slot of the page. *)
Definition find_key (key : Key D) (table_def : TableDefinition) (b : page) : result SearchResult :=
  item_count ← get_item_count b;
  match find_key_loop (S (Z.to_nat item_count)) key table_def b 0 item_count with
  | Some r => r
  | None => Panic
  end.

(** * Inserts and updates *)

Definition append (record_data : list Z) : stateM page StorageError Z :=
  item_count ← sget (get_page_header_u16_value PAGE_HEADER_ITEM_COUNT_OFFSET);
  try_insert_record item_count record_data.

Definition insert_raw_record (slot_index : Z) (record_bytes : list Z) : stateM page StorageError Z :=
  try_insert_record slot_index record_bytes.

Definition insert_record (record : DbRecord D) (table_def : TableDefinition) :
    stateM page StorageError Z :=
  primary_key ← slift (record_get_primary_key record table_def);
  slot_index ← sget (find_key primary_key table_def);
  match slot_index with
  | NotFound insertion_slot =>
      record_bytes ← slift (unwrap_res (serialize (columns table_def) record));
      try_insert_record (wrap 16 insertion_slot) record_bytes
  | Found _ => sfail DuplicateKey
  end.

Definition update_record (record : DbRecord D) (table_def : TableDefinition) :
    stateM page StorageError Z :=
  key ← slift (record_get_primary_key record table_def);
  slot_result ← sget (find_key key table_def);
  match slot_result with
  | Found slot_index =>
      record_data ← slift (unwrap_res (serialize (columns table_def) record));
      try_update_record (wrap 16 slot_index) record_data
  | NotFound _ => sfail KeyNotFound
  end.

(** * Merge *)

(** One record of the right sibling goes to the end of this page. *)
Definition merge_step (index : Z) : stateM Leaves StorageError unit := fun s =>
  match get_record index (right_page s) with
  | Ok (Some record_data) =>
      match on_self (append record_data) s with
      | (Ok _, s') => (Ok tt, s')
      | (Err _, s') => (Err InsertRecordFailed, s')
      | (Panic, s') => (Panic, s')
      end
  | Ok None => (Err InvalidSlotIndex, s)
  | Err e => (Err e, s)
  | Panic => (Panic, s)
  end.

Definition merge (self_id : PageId) : stateM Leaves StorageError unit :=
  right_free ← sget (fun s => get_free_space (right_page s));
  without_free ← slift (usub PAGE_SIZE right_free);
  right_sibling_total_used ← slift (usub without_free PAGE_HEADER_SIZE);
  contiguous ← sget (fun s => get_free_space_contiguous (self_page s));
  if contiguous <? right_sibling_total_used then sfail InsufficientSpaceForMerge
  else
    right_sibling_item_count ← sget (fun s => leaf_get_item_count (right_page s));
    sfor (range 0 right_sibling_item_count) merge_step;;
    right_next ← sget (fun s => get_next_leaf_index (right_page s));
    on_self (set_next_leaf_index right_next);;
    on_next (set_prev_leaf_index (Some (page_index self_id)));;
    on_right (initialize Invalid None).

(** * Split *)

(** The accumulators of the loop that builds the sorted lists. *)
Record SplitState := mkSplit {
  sorted_keys : list (Key D);
  sorted_records : list (list Z);
  sorted_key_index : Z;
  new_record_inserted : bool;
  total_size : Z;
}.

Definition split_step (b : page) (table_def : TableDefinition) (new_record_key : Key D)
    (serialized_new_record : list Z) (s : SplitState) (index : Z) : result SplitState :=
  record_option ← get_record index b;
  match record_option with
  | Some record_bytes =>
      let total := total_size s + zlen record_bytes in
      current_key ← unwrap_res (deserialize_primary_key table_def record_bytes);
      s ← (if negb (new_record_inserted s)
              && (match key_cmp new_record_key current_key with Lt => true | _ => false end)
           then
             keys ← vec_insert (sorted_key_index s) new_record_key (sorted_keys s);
             records ← vec_insert (sorted_key_index s) serialized_new_record (sorted_records s);
             Ok (mkSplit keys records (sorted_key_index s + 1) true
                   (total + zlen serialized_new_record))
           else Ok (mkSplit (sorted_keys s) (sorted_records s) (sorted_key_index s)
                      (new_record_inserted s) total));
      keys ← vec_insert (sorted_key_index s) current_key (sorted_keys s);
      records ← vec_insert (sorted_key_index s) record_bytes (sorted_records s);
      Ok (mkSplit keys records (sorted_key_index s + 1) (new_record_inserted s) (total_size s))
  | None => Err InvalidSlotIndex
  end.

(** [LeafNodeView::find_split_index_by_size]: threads the size so far. *)
Fixpoint find_split_index (half_of_total current_data_size index : Z) (records : list (list Z)) : Z :=
  match records with
  | [] => index
  | record :: records =>
      let current_data_size := current_data_size + zlen record in
      if half_of_total <? current_data_size then index
      else find_split_index half_of_total current_data_size (index + 1) records
  end.

Definition find_split_index_by_size (sorted_records : list (list Z)) (total_size : Z) : Z :=
  find_split_index (total_size / 2) 0 0 sorted_records.

(** The sorted keys and records, the new record among them, and the total size. *)
Definition collect_sorted (b : page) (item_count : Z) (table_def : TableDefinition)
    (new_record_key : Key D) (serialized_new_record : list Z) :
    result (list (Key D) * list (list Z) * Z) :=
  s ← ofold (split_step b table_def new_record_key serialized_new_record)
        (mkSplit [] [] 0 false 0) (range 0 item_count);
  if negb (new_record_inserted s) then
    keys ← vec_insert (sorted_key_index s) new_record_key (sorted_keys s);
    records ← vec_insert (sorted_key_index s) serialized_new_record (sorted_records s);
    Ok (keys, records, total_size s)
  else Ok (sorted_keys s, sorted_records s, total_size s).

Definition split_and_insert (self_id right_id : PageId) (record : DbRecord D)
    (table_def : TableDefinition) : stateM Leaves StorageError (Key D) :=
  right_count ← sget (fun s => leaf_get_item_count (right_page s));
  if negb (right_count =? 0) then sfail NewRightSiblingNotEmpty
  else
    item_count ← sget (fun s => leaf_get_item_count (self_page s));
    serialized_new_record ← slift (unwrap_res (serialize (columns table_def) record));
    new_record_key ← slift (record_get_primary_key record table_def);
    sorted ← sget (fun s => collect_sorted (self_page s) item_count table_def new_record_key
                              serialized_new_record);
    let '(sorted_keys, sorted_records, total_size) := sorted in
    let split_index := find_split_index_by_size sorted_records total_size in
    mid_point_key ← slift (index split_index sorted_keys);
    raw_parent_index ←
      sget (fun s => get_page_header_u64_value PAGE_HEADER_PARENT_INDEX_OFFSET (self_page s));
    let parent_index := if raw_parent_index =? U64_MAX then None else Some raw_parent_index in
    orig_next_page_index ← sget (fun s => get_next_leaf_index (self_page s));
    on_self (initialize LeafNode parent_index);;
    sfor (take (Z.to_nat split_index) sorted_records)
      (fun record => on_self (append record);; mret tt);;
    let final_count := item_count + 1 in
    right_records ← slift (slice split_index final_count sorted_records);
    sfor right_records (fun record => on_right (append record);; mret tt);;
    on_self (set_next_leaf_index (Some (page_index right_id)));;
    on_right (set_next_leaf_index orig_next_page_index);;
    on_right (set_prev_leaf_index (Some (page_index self_id)));;
    on_next (set_prev_leaf_index (Some (page_index right_id)));;
    mret mid_point_key.
End Leaf.
Arguments SplitState : clear implicits.
