(* ===== verification/LeafNodeSpec.v ===== *)
(** What a leaf promises: its records are the rows of a finite map sorted by
    key.  The invariant, the reference search, and the effect of the page
    operations on it. *)
From Stdlib Require Import Sorting.Sorted.
From S2P Require Import Prelude.
From S2P Require Import Bytes.
From S2P Require Import RustStr.
From S2P Require Import Schema.
From S2P Require Import Ordering.
From S2P Require Import DataModel.
From S2P Require Import DataModelProps.
From S2P Require Import Serializer.
From S2P Require Import SerializerLayout.
From S2P Require Import SerializerRoundtrip.
From S2P Require Import SerializerKey.
From S2P Require Import Page.
From S2P Require Import SlottedPage.
From S2P Require Import SlottedPageSpec.
From S2P Require Import SlottedPageOps.
From S2P Require Import SlottedPageRefine.
From S2P Require Import SlottedPageProps.
From S2P Require Import LeafNode.

#[local] Abbreviation cnames cs := (col_name <$> cs).

(** * Rows *)

Section Rows.
Context {D : Type} `{DecimalLaws D} (t : TableDefinition).

(** A table with distinct column names and a primary key of some of them, in
    the order of the table. *)
Record table_ok (pk : list rstr) : Prop := {
  table_pk : exists name, get_primary_key t = Some (PrimaryKey name pk);
  table_names : NoDup (cnames (columns t));
  table_pk_names : NoDup pk;
  table_pk_sub : forall n, n ∈ pk -> n ∈ cnames (columns t);
  table_pk_order : pk = key_part pk (cnames (columns t));
  table_columns : columns t <> [];
}.

(** A record of the table, no key value null. *)
Record row_ok (pk : list rstr) (record : DbRecord D) : Prop := {
  row_fits : fits (columns t) record;
  row_storable : Forall storable record;
  row_size : get_null_bitmap_size (columns t) + zlen (fixed_part record)
             + zlen (variable_part record) < 2 ^ 64;
  row_key : forall n i, n ∈ pk -> cnames (columns t) !! i = Some n -> record !! i <> Some VNull;
}.

(** The bytes [r] hold a row with key [k]. *)
Definition has_key (r : list Z) (k : Key D) : Prop := deserialize_primary_key t r = Ok k.

(** What the leaf uses of a row: its bytes, and its key, in the row and in the bytes. *)
Record encodes (record : DbRecord D) (key : Key D) (bytes : list Z) : Prop := {
  enc_bytes : serialize (columns t) record = Ok bytes;
  enc_key : forall E, @record_get_primary_key D E record t = Ok key;
  enc_has_key : has_key bytes key;
  enc_bytes_ok : bytes_ok bytes;
  enc_pos : 0 < zlen bytes;
}.

Lemma fixed_bytes_ok (v : DataValue D) : bytes_ok (fixed_bytes v).
Proof.
  destruct v as [| | |b| | | | |]; cbn [fixed_bytes]; auto using dec_serialize_bytes with rarm.
  repeat constructor; unfold is_byte; destruct b; lia.
Qed.

Lemma variable_bytes_ok (v : DataValue D) : storable v -> bytes_ok (variable_bytes v).
Proof.
  intros [Hv _]. unfold variable_bytes.
  destruct v; cbn [payload value_ok] in *; try apply Forall_nil_2;
    (apply Forall_app; split; [apply bytes_ok_le_bytes|]); [apply Hv|exact Hv].
Qed.

Lemma parts_bytes_ok (record : DbRecord D) :
  Forall storable record -> bytes_ok (fixed_part record) /\ bytes_ok (variable_part record).
Proof.
  intros Hst. unfold fixed_part, variable_part. split; apply Forall_concat, Forall_fmap.
  - apply Forall_forall. intros. apply fixed_bytes_ok.
  - eapply Forall_impl; [exact Hst|]. intros. by apply variable_bytes_ok.
Qed.

Lemma row_encodes pk record :
  table_ok pk -> row_ok pk record -> exists key bytes, encodes record key bytes.
Proof.
  intros [[name Hpk] Hn Hnd Hsub Hord Hne] [Hf Hst Hsz Hnull].
  destruct (serialize_layout_ok (columns t) record Hf) as (bm & Hbm & [Hbytes _] & Hser).
  destruct (deserialize_primary_key_values t name pk record _ Hpk Hn Hnd Hsub Hf Hst Hsz Hser Hnull)
    as (key & Hkey & _ & Hrec).
  destruct (parts_bytes_ok record Hst) as [Hfx Hvr].
  eexists key, _. split; [exact Hser|intros; by apply Hrec|exact Hkey| |].
  - by rewrite !Forall_app.
  - pose proof (zlen_nonneg (fixed_part record)). pose proof (zlen_nonneg (variable_part record)).
    assert (0 < zlen bm); [|len]. rewrite Hbm. unfold get_null_bitmap_size.
    assert (1 <= zlen (columns t)) by (destruct (columns t); [done|len; pose proof (zlen_nonneg l); lia]).
    apply Z.div_str_pos. lia.
Qed.
End Rows.

(** * Sorted keys *)

Section Sorted.
Context {D : Type} `{DecimalLaws D}.

(** [a < b], as [Ord] decides it. *)
Definition key_lt (a b : Key D) : Prop := key_cmp a b = Lt.

Definition sorted_keys_ok (ks : list (Key D)) : Prop := StronglySorted key_lt ks.

(** The reference search: a scan from the first key on. *)
Fixpoint locate (key : Key D) (ks : list (Key D)) (i : Z) : SearchResult :=
  match ks with
  | [] => NotFound i
  | k :: ks =>
      match key_cmp key k with
      | Eq => Found i
      | Lt => NotFound i
      | Gt => locate key ks (i + 1)
      end
  end.

(** [i] keys are smaller, all the others greater. *)
Definition gap (key : Key D) (ks : list (Key D)) (i : Z) : Prop :=
  0 <= i <= zlen ks
  /\ Forall (fun k => key_lt k key) (take (Z.to_nat i) ks)
  /\ Forall (key_lt key) (drop (Z.to_nat i) ks).

Lemma key_lt_trans a b c : key_lt a b -> key_lt b c -> key_lt a c.
Proof. apply cmp_trans. Qed.

Lemma key_gt_lt a b : key_cmp a b = Gt <-> key_lt b a.
Proof. apply cmp_gt_lt, _. Qed.

Lemma sorted_app ks1 ks2 :
  sorted_keys_ok (ks1 ++ ks2) <->
  sorted_keys_ok ks1 /\ sorted_keys_ok ks2
  /\ forall a b, a ∈ ks1 -> b ∈ ks2 -> key_lt a b.
Proof.
  unfold sorted_keys_ok. induction ks1 as [|k ks1 IH]; simpl.
  - split; [intros; split_and!; [constructor|done|set_solver]|naive_solver].
  - split.
    + intros [Hs Hf]%StronglySorted_inv. apply IH in Hs as (Hs1 & Hs2 & Hlt).
      rewrite Forall_app in Hf. destruct Hf as [Hf1 Hf2]. split_and!; [by constructor|done|].
      rewrite Forall_forall in Hf2. intros a b [->|Ha]%elem_of_cons Hb; auto.
    + intros ([Hs1 Hf]%StronglySorted_inv & Hs2 & Hlt). constructor.
      * apply IH. split_and!; [done|done|]. intros a b Ha. apply Hlt. by right.
      * apply Forall_app. split; [done|]. apply Forall_forall. intros b Hb. apply Hlt; [left|done].
Qed.

Lemma gap_0 key k ks : key_lt key k -> sorted_keys_ok (k :: ks) -> gap key (k :: ks) 0.
Proof.
  intros Hk [Hs Hf]%StronglySorted_inv. split_and!; [lia|apply zlen_nonneg|constructor|].
  constructor; [done|]. eapply Forall_impl; [exact Hf|]. intros. by eapply key_lt_trans.
Qed.

Lemma gap_cons key k ks i :
  0 <= i -> key_lt k key -> gap key ks i -> gap key (k :: ks) (i + 1).
Proof.
  intros Hi Hk (Hr & Ht & Hd). unfold gap. replace (Z.to_nat (i + 1)) with (S (Z.to_nat i)) by lia.
  split_and!; [lia|len|by constructor|done].
Qed.

(** What the search finds. *)
Lemma locate_spec key ks j :
  sorted_keys_ok ks ->
  match locate key ks j with
  | Found i => exists (n : nat) k, i = j + Z.of_nat n /\ ks !! n = Some k /\ key_cmp key k = Eq
  | NotFound i => gap key ks (i - j)
  end.
Proof.
  revert j. induction ks as [|k ks IH]; intros j Hs; simpl.
  { rewrite Z.sub_diag. split_and!; [done|done|constructor..]. }
  pose proof Hs as [Hs' _]%StronglySorted_inv. destruct (key_cmp key k) eqn:Hk.
  - exists 0%nat, k. split_and!; [lia|done|done].
  - rewrite Z.sub_diag. by apply gap_0.
  - specialize (IH (j + 1) Hs'). destruct (locate key ks (j + 1)) as [i|i].
    + destruct IH as (n & k' & -> & Hn & Heq). exists (S n), k'. split_and!; [lia|done|done].
    + replace (i - j) with (i - (j + 1) + 1) by lia.
      apply gap_cons; [apply IH|by apply key_gt_lt|done].
Qed.

Lemma gap_locate_from key ks i j : gap key ks i -> locate key ks j = NotFound (j + i).
Proof.
  revert i j. induction ks as [|k ks IH]; intros i j ([Hi Hn] & Ht & Hd); simpl.
  { change (zlen (@nil (Key D))) with 0 in Hn. f_equal. lia. }
  destruct (Z.eq_dec i 0) as [->|Hne].
  - apply Forall_cons in Hd as [Hd _]. unfold key_lt in Hd. rewrite Hd. f_equal. lia.
  - replace (Z.to_nat i) with (S (Z.to_nat (i - 1))) in Ht, Hd by lia.
    apply Forall_cons in Ht as [Ht1 Ht2]. apply key_gt_lt in Ht1. rewrite Ht1.
    rewrite (IH (i - 1)); [f_equal; lia|]. split_and!; [lia| |done|done].
    autorewrite with rarm in Hn. lia.
Qed.

Lemma locate_gap key ks i : sorted_keys_ok ks -> locate key ks 0 = NotFound i <-> gap key ks i.
Proof.
  intros Hs. split; intros Hl; [|by apply (gap_locate_from _ _ _ 0)].
  pose proof (locate_spec key ks 0 Hs) as Hspec. rewrite Hl in Hspec. by rewrite Z.sub_0_r in Hspec.
Qed.

(** An equal key is found where it is: the keys before it are smaller. *)
Lemma lookup_locate_from key ks (n : nat) k j :
  sorted_keys_ok ks -> ks !! n = Some k -> key_cmp key k = Eq ->
  locate key ks j = Found (j + Z.of_nat n).
Proof.
  revert n j. induction ks as [|k0 ks IH]; intros n j Hs Hn Heq; [done|].
  apply StronglySorted_inv in Hs as [Hs Hf]. destruct n as [|n]; simpl in Hn |- *.
  - injection Hn as ->. rewrite Heq. f_equal. lia.
  - assert (key_cmp key k0 = Gt) as ->.
    { apply key_gt_lt. unfold key_lt. rewrite (cmp_eq_r _ _ _ k0 Heq).
      rewrite Forall_forall in Hf. apply Hf. by eapply list_elem_of_lookup_2. }
    rewrite (IH n) by done. f_equal. lia.
Qed.

Lemma locate_found key ks i :
  sorted_keys_ok ks -> locate key ks 0 = Found i <->
  0 <= i /\ exists k, ks !! Z.to_nat i = Some k /\ key_cmp key k = Eq.
Proof.
  intros Hs. split.
  - intros Hl. pose proof (locate_spec key ks 0 Hs) as Hspec. rewrite Hl in Hspec.
    destruct Hspec as (n & k & -> & Hn & Heq). split; [lia|]. exists k. by rewrite Z.add_0_l, Nat2Z.id.
  - intros (Hi & k & Hn & Heq). rewrite (lookup_locate_from key ks _ k 0) by done. f_equal. lia.
Qed.

(** A key put into its gap. *)
Definition put {A} (i : Z) (x : A) (l : list A) : list A :=
  take (Z.to_nat i) l ++ x :: drop (Z.to_nat i) l.

Lemma sorted_put key ks i :
  sorted_keys_ok ks -> gap key ks i -> sorted_keys_ok (put i key ks).
Proof.
  intros Hs (Hi & Ht & Hd). rewrite <- (take_drop (Z.to_nat i) ks) in Hs.
  apply sorted_app in Hs as (Hs1 & Hs2 & Hlt). unfold put. apply sorted_app.
  rewrite Forall_forall in Ht, Hd. split_and!; [done|constructor; [done|by apply Forall_forall]|].
  intros a b Ha [->|Hb]%elem_of_cons; auto.
Qed.
End Sorted.

(** * The invariant *)

Section Leaf.
Context {D : Type} `{DecimalLaws D} (t : TableDefinition).

(** A leaf page with the keys [ks]. *)
Record leaf_inv (b : page) (ks : list (Key D)) : Prop := {
  leaf_wf : wf b;
  leaf_keys : Forall2 (has_key t) (records b) ks;
  leaf_sorted : sorted_keys_ok ks;
}.

Lemma leaf_count b ks : leaf_inv b ks -> zlen ks = n_items b.
Proof.
  intros [W Hk _]. pose proof (Forall2_length _ _ _ Hk). pose proof (wf_items _ W).
  rewrite <- zlen_records by lia. unfold zlen. lia.
Qed.

Lemma leaf_count_range b ks : leaf_inv b ks -> zlen ks < 2 ^ 16.
Proof. intros L. rewrite (leaf_count _ _ L). apply wf_items, L. Qed.

(** ** Binary search *)

Lemma key_at_ok b ks i k :
  leaf_inv b ks -> 0 <= i -> ks !! Z.to_nat i = Some k -> key_at t b i = Ok k.
Proof.
  intros [W Hk _] Hi Hlk. unfold key_at.
  destruct (Forall2_lookup_r _ _ _ _ _ Hk Hlk) as (r & Hr & Hrk).
  ostep get_record_wf by done. rewrite Hr. cbn [unwrap_opt mbind outcome_bind]. by rewrite Hrk.
Qed.

(** The keys below [low] are smaller, those from [high] on greater. *)
Definition bracket (key : Key D) (ks : list (Key D)) (low high : Z) : Prop :=
  0 <= low /\ low <= high /\ high <= zlen ks
  /\ Forall (fun k => key_lt k key) (take (Z.to_nat low) ks)
  /\ Forall (key_lt key) (drop (Z.to_nat high) ks).

Lemma sorted_before key ks i k :
  sorted_keys_ok ks -> 0 <= i -> ks !! Z.to_nat i = Some k -> key_lt k key ->
  Forall (fun k => key_lt k key) (take (Z.to_nat (i + 1)) ks).
Proof.
  intros Hs Hi Hk Hlt. replace (Z.to_nat (i + 1)) with (S (Z.to_nat i)) by lia.
  rewrite (take_S_r _ _ k) by done. rewrite <- (take_drop_middle _ _ _ Hk) in Hs.
  apply sorted_app in Hs as (_ & _ & Hall). apply Forall_app. split; [|by repeat constructor].
  apply Forall_forall. intros a Ha. eapply key_lt_trans; [|exact Hlt]. apply Hall; [done|left].
Qed.

Lemma sorted_after key ks i k :
  sorted_keys_ok ks -> ks !! Z.to_nat i = Some k -> key_lt key k ->
  Forall (key_lt key) (drop (Z.to_nat i) ks).
Proof.
  intros Hs Hk Hlt. rewrite <- (take_drop_middle _ _ _ Hk) in Hs.
  apply sorted_app in Hs as (_ & [_ Hf]%StronglySorted_inv & _).
  rewrite (drop_S _ _ _ Hk). constructor; [done|]. eapply Forall_impl; [exact Hf|].
  intros. by eapply key_lt_trans.
Qed.

(** The loop narrows the bracket at every step, so its fuel is never used up. *)
Lemma find_key_loop_ok b ks key fuel low high :
  leaf_inv b ks -> bracket key ks low high -> high - low < Z.of_nat fuel ->
  find_key_loop fuel key t b low high = Some (Ok (locate key ks 0)).
Proof.
  intros L. pose proof (leaf_sorted _ _ L) as Hs. revert low high.
  induction fuel as [|fuel IH]; intros low high (Hl & Hlh & Hh & Ht & Hd) Hfuel; [lia|].
  cbn [find_key_loop]. case_bool.
  - set (mid := low + (high - low) / 2).
    assert (low <= mid < high) as Hmid.
    { pose proof (Z.div_pos (high - low) 2). pose proof (Z.div_lt (high - low) 2). lia. }
    destruct (lookup_lt_is_Some_2 ks (Z.to_nat mid)) as [k Hk]; [unfold zlen in Hh; lia|].
    rewrite (key_at_ok b ks mid k) by (done || lia).
    pose proof (slice_eq_cmp value_eq value_cmp key k value_eq_cmp) as Heq. fold key_cmp in Heq.
    destruct (slice_eq value_eq key k).
    { do 2 f_equal. symmetry. apply locate_found; [done|]. split; [lia|]. exists k. naive_solver. }
    destruct (key_cmp key k) eqn:Hcmp; [naive_solver| |].
    + apply IH; [|lia]. split_and!; try lia; [done|]. by eapply sorted_after.
    + apply IH; [|lia]. split_and!; try lia; [|done].
      eapply sorted_before; [done|lia|done|by apply key_gt_lt].
  - assert (high = low) as -> by lia. do 2 f_equal. symmetry. apply locate_gap; done.
Qed.

Lemma find_key_ok b ks key : leaf_inv b ks -> find_key key t b = Ok (locate key ks 0).
Proof.
  intros L. pose proof (leaf_count _ _ L) as Hn. pose proof (wf_items _ (leaf_wf _ _ L)).
  unfold find_key. ostep get_item_count_eq by apply L.
  rewrite (find_key_loop_ok b ks) by (done || lia || (split_and!; rewrite ?Hn; try lia;
    [constructor|by rewrite <- Hn, drop_ge by (unfold zlen; lia)])). done.
Qed.
End Leaf.
