(* ===== verification/LeafNodeOps.v ===== *)
(** The operations of a leaf, one lemma for each: inserting and updating rows,
    the sibling pointers, and appending runs of records. *)
From Stdlib Require Import Sorting.Sorted.
From S2P Require Import Prelude.
From S2P Require Import Bytes.
From S2P Require Import RustStr.
From S2P Require Import Schema.
From S2P Require Import Ordering.
From S2P Require Import DataModel.
From S2P Require Import DataModelProps.
From S2P Require Import Serializer.
From S2P Require Import Page.
From S2P Require Import SlottedPage.
From S2P Require Import SlottedPageSpec.
From S2P Require Import SlottedPageOps.
From S2P Require Import SlottedPageRefine.
From S2P Require Import SlottedPageProps.
From S2P Require Import LeafNode.
From S2P Require Import LeafNodeSpec.

(** * Sibling pointers *)

Definition next_ptr (b : page) : Z :=
  le_val (sub PAGE_HEADER_NEXT_SIBLING_LEAF_PAGE_INDEX_OFFSET 4 b).
Definition prev_ptr (b : page) : Z :=
  le_val (sub PAGE_HEADER_PREV_SIBLING_LEAF_PAGE_INDEX_OFFSET 4 b).

(** The pointer as the accessors see it, and as the setters write it. *)
Definition ptr_option (v : Z) : option Z := if v =? INVALID_PAGE_INDEX then None else Some v.
Definition option_ptr (o : option Z) : Z :=
  match o with Some i => i | None => INVALID_PAGE_INDEX end.
Definition ptr_ok (o : option Z) : Prop :=
  match o with Some i => 0 <= i < 2 ^ 32 | None => True end.

Lemma option_ptr_range o : ptr_ok o -> 0 <= option_ptr o < 2 ^ 32.
Proof. destruct o; simpl; [done|]. unfold INVALID_PAGE_INDEX. lia. Qed.

Lemma option_ptr_option v : option_ptr (ptr_option v) = v.
Proof. unfold ptr_option. by case_bool. Qed.

(** A page with a pointer set: its slots and records are the same. *)
Definition with_ptr (off v : Z) (b : page) : page := splice off (le_bytes 4 v) b.

Section Pointer.
Variables (b : page) (off v : Z).
Hypothesis Hl : zlen b = PAGE_SIZE.
Hypothesis Hoff : PAGE_HEADER_PARENT_INDEX_OFFSET + 4 <= off <= PAGE_HEADER_ITEM_COUNT_OFFSET - 4.
#[local] Abbreviation b' := (with_ptr off v b).

Lemma zlen_with_ptr : zlen b' = PAGE_SIZE.
Proof. unfold with_ptr. by autorewrite with rarm. Qed.

Lemma with_ptr_items : n_items b' = n_items b.
Proof. unfold n_items, with_ptr. by peek. Qed.

Lemma with_ptr_heap : heap_end b' = heap_end b.
Proof. unfold heap_end, with_ptr. by peek. Qed.

Lemma with_ptr_slots : slots b' = slots b.
Proof.
  unfold slots. rewrite with_ptr_items. apply list_fmap_ext. intros k i Hi.
  apply list_elem_of_lookup_2, elem_of_range in Hi. apply slot_at_splice_ne; side.
Qed.

Lemma with_ptr_wf : wf b -> wf b'.
Proof.
  intros W. destruct W. constructor; rewrite ?with_ptr_items, ?with_ptr_heap, ?with_ptr_slots;
    try done; [by apply zlen_with_ptr|]. unfold with_ptr. auto with rarm.
Qed.

Lemma with_ptr_records : wf b -> records b' = records b.
Proof.
  intros W. unfold records. rewrite with_ptr_slots. apply list_fmap_ext. intros k s Hs.
  pose proof (wf_heap _ W) as Hh. rewrite Forall_forall in Hh.
  destruct (Hh s) as (? & ? & ?); [by eapply list_elem_of_lookup_2|].
  pose proof (wf_room _ W). pose proof (wf_items _ W). apply contents_splice_ne; side.
Qed.

Lemma with_ptr_abs : wf b -> abs b' = abs b.
Proof.
  intros W. unfold abs. by rewrite with_ptr_records, with_ptr_heap, with_ptr_slots.
Qed.

Lemma with_ptr_same : 0 <= v < 2 ^ 32 -> le_val (sub off 4 b') = v.
Proof. intros. apply le_val_splice_4; side. Qed.

Lemma with_ptr_other o : 0 <= o -> o + 4 <= PAGE_SIZE -> o + 4 <= off \/ off + 4 <= o ->
  sub o 4 b' = sub o 4 b.
Proof. intros. unfold with_ptr. by peek. Qed.
End Pointer.

Definition with_next (v : Z) (b : page) : page :=
  with_ptr PAGE_HEADER_NEXT_SIBLING_LEAF_PAGE_INDEX_OFFSET v b.
Definition with_prev (v : Z) (b : page) : page :=
  with_ptr PAGE_HEADER_PREV_SIBLING_LEAF_PAGE_INDEX_OFFSET v b.

Lemma set_next_ok o b :
  zlen b = PAGE_SIZE -> set_next_leaf_index o b = (Ok tt, with_next (option_ptr o) b).
Proof. intros. apply set_u32_ok; side. Qed.

Lemma set_prev_ok o b :
  zlen b = PAGE_SIZE -> set_prev_leaf_index o b = (Ok tt, with_prev (option_ptr o) b).
Proof. intros. apply set_u32_ok; side. Qed.

Lemma get_next_ok b : zlen b = PAGE_SIZE -> get_next_leaf_index b = Ok (ptr_option (next_ptr b)).
Proof. intros. unfold get_next_leaf_index. ostep get_u32_eq by pg. done. Qed.

Lemma get_prev_ok b : zlen b = PAGE_SIZE -> get_prev_leaf_index b = Ok (ptr_option (prev_ptr b)).
Proof. intros. unfold get_prev_leaf_index. ostep get_u32_eq by pg. done. Qed.

(** Everything the callers need of a page with its pointers set. *)
Lemma with_next_ok b v :
  wf b -> 0 <= v < 2 ^ 32 ->
  wf (with_next v b) /\ abs (with_next v b) = abs b /\ next_ptr (with_next v b) = v
  /\ prev_ptr (with_next v b) = prev_ptr b.
Proof.
  intros W Hv. pose proof (wf_len _ W). split_and!.
  - apply with_ptr_wf; [pg|pg|done].
  - apply with_ptr_abs; [pg|pg|done].
  - apply with_ptr_same; [pg|pg|done].
  - unfold prev_ptr, with_next. by rewrite with_ptr_other by pg.
Qed.

Lemma with_prev_ok b v :
  wf b -> 0 <= v < 2 ^ 32 ->
  wf (with_prev v b) /\ abs (with_prev v b) = abs b /\ prev_ptr (with_prev v b) = v
  /\ next_ptr (with_prev v b) = next_ptr b.
Proof.
  intros W Hv. pose proof (wf_len _ W). split_and!.
  - apply with_ptr_wf; [pg|pg|done].
  - apply with_ptr_abs; [pg|pg|done].
  - apply with_ptr_same; [pg|pg|done].
  - unfold next_ptr, with_prev. by rewrite with_ptr_other by pg.
Qed.

Lemma next_ptr_range b : wf b -> 0 <= next_ptr b < 2 ^ 32.
Proof.
  intros W. pose proof (wf_len _ W). pose proof (wf_bytes _ W). unfold next_ptr.
  pose proof (le_val_range (sub PAGE_HEADER_NEXT_SIBLING_LEAF_PAGE_INDEX_OFFSET 4 b)) as Hr.
  rewrite zlen_sub in Hr by pg. auto with rarm.
Qed.

Lemma records_bytes_ok b : wf b -> Forall bytes_ok (records b).
Proof.
  intros W. unfold records, contents. apply Forall_fmap, Forall_forall. intros s _. simpl.
  pose proof (wf_bytes _ W). auto with rarm.
Qed.

(** The page operations leave the pointers alone. *)
Lemma header_ptrs b b' :
  zlen b = PAGE_SIZE -> zlen b' = PAGE_SIZE -> header b' = header b ->
  next_ptr b' = next_ptr b /\ prev_ptr b' = prev_ptr b.
Proof.
  intros Hl Hl' Hh. injection Hh as Hh _. unfold next_ptr, prev_ptr.
  assert (forall off (c : page), 0 <= off <= 16 -> zlen c = PAGE_SIZE -> sub off 4 c = sub off 4 (sub 0 20 c)) as Hsub.
  { intros off c Ho Hc. rewrite sub_sub by lia. f_equal; lia. }
  rewrite !(Hsub _ b), !(Hsub _ b') by pg. by rewrite Hh.
Qed.

(** * Inserting and updating a row *)

Section Rows.
Context {D : Type} `{DecimalLaws D} (t : TableDefinition).
Implicit Types (ks : list (Key D)).

Lemma records_abs b rs g : abs b = mkAPage rs g -> records b = rs.
Proof. intros Ha. by injection Ha. Qed.

Lemma leaf_inv_abs b b' ks : leaf_inv t b ks -> wf b' -> records b' = records b -> leaf_inv t b' ks.
Proof. intros [W Hk Hs] W' Hr. split; [done|by rewrite Hr|done]. Qed.

Lemma Forall2_put {A B} (P : A -> B -> Prop) i x y l1 l2 :
  Forall2 P l1 l2 -> P x y -> Forall2 P (put i x l1) (put i y l2).
Proof.
  intros Hl Hxy. unfold put. apply Forall2_app; [by apply Forall2_take|].
  constructor; [done|by apply Forall2_drop].
Qed.

Lemma leaf_put b b' ks key bytes i :
  leaf_inv t b ks -> has_key t bytes key -> gap key ks i ->
  wf b' -> records b' = put i bytes (records b) -> leaf_inv t b' (put i key ks).
Proof.
  intros [W Hk Hs] Hkey Hgap W' Hr. split; [done| |by apply sorted_put].
  rewrite Hr. by apply Forall2_put.
Qed.

Lemma try_insert_full b i r :
  wf b -> acontig (abs b) < zlen r + SLOT_SIZE -> try_insert_record i r b = (Err PageFull, b).
Proof.
  intros W Hfull. unfold try_insert_record. gstep get_free_space_contiguous_wf by done. by zbool.
Qed.

(** The leaf after a row went in: same pointers, one record more. *)
Lemma try_insert_gap b ks key bytes i :
  leaf_inv t b ks -> has_key t bytes key -> bytes_ok bytes -> gap key ks i ->
  zlen bytes + SLOT_SIZE <= acontig (abs b) ->
  exists b', try_insert_record i bytes b = (Ok i, b')
    /\ leaf_inv t b' (put i key ks)
    /\ abs b' = mkAPage (put i bytes (records b)) (agarbage (abs b))
    /\ header b' = header b.
Proof.
  intros L Hkey Hb Hgap Hroom. pose proof (leaf_wf _ _ _ L) as W. pose proof (proj1 Hgap) as Hi.
  destruct (insert_sim b i bytes W Hb (proj1 Hi)) as (b' & Hins & W' & Ha & Hh).
  unfold ainsert in *. rewrite (proj2 (Z.ltb_ge _ _)) in Hins, Ha by done.
  rewrite (leaf_count _ _ _ L) in Hi. pose proof (wf_items _ W).
  assert (zlen (arecs (abs b)) = n_items b) as Hz by (apply zlen_records; lia).
  rewrite Hz in *. rewrite (proj2 (Z.ltb_ge _ _)) in Hins, Ha by lia. cbn [fst snd] in *.
  exists b'. split_and!; [done| |done|done]. eapply leaf_put; [done..|]. by apply records_abs in Ha.
Qed.

Lemma insert_record_ok b ks record key bytes :
  leaf_inv t b ks -> encodes t record key bytes ->
  insert_record record t b
  = match locate key ks 0 with
    | Found _ => (Err DuplicateKey, b)
    | NotFound i => try_insert_record i bytes b
    end.
Proof.
  intros L [Hser Hrec _ _ _]. unfold insert_record.
  eapply slift_step; [apply Hrec|]. cbv beta.
  eapply sget_step; [by apply find_key_ok with (ks := ks)|]. cbv beta.
  pose proof (leaf_count_range _ _ _ L).
  destruct (locate key ks 0) as [i|i] eqn:Hl; [done|].
  eapply slift_step; [by rewrite Hser|]. cbv beta.
  apply locate_gap in Hl as [Hi _]; [|apply L]. rewrite wrap_small by lia. done.
Qed.

Lemma update_record_ok b ks record key bytes :
  leaf_inv t b ks -> encodes t record key bytes ->
  update_record record t b
  = match locate key ks 0 with
    | Found i => try_update_record i bytes b
    | NotFound _ => (Err KeyNotFound, b)
    end.
Proof.
  intros L [Hser Hrec _ _ _]. unfold update_record.
  eapply slift_step; [apply Hrec|]. cbv beta.
  eapply sget_step; [by apply find_key_ok with (ks := ks)|]. cbv beta.
  pose proof (leaf_count_range _ _ _ L).
  destruct (locate key ks 0) as [i|i] eqn:Hl; [|done].
  eapply slift_step; [by rewrite Hser|]. cbv beta.
  apply locate_found in Hl as (Hi & k & Hk & _); [|apply L]. apply lookup_lt_Some in Hk.
  rewrite wrap_small by (unfold zlen in *; lia). done.
Qed.

(** A row goes into its gap: the leaf and its abstract page. *)
Lemma insert_record_gap b ks record key bytes i :
  leaf_inv t b ks -> encodes t record key bytes -> gap key ks i ->
  zlen bytes + SLOT_SIZE <= acontig (abs b) ->
  exists b', insert_record record t b = (Ok i, b')
    /\ leaf_inv t b' (put i key ks)
    /\ abs b' = mkAPage (put i bytes (records b)) (agarbage (abs b))
    /\ header b' = header b.
Proof.
  intros L He Hgap Hroom. rewrite (insert_record_ok b ks record key bytes) by done.
  rewrite (proj2 (locate_gap key ks i (leaf_sorted _ _ _ L)) Hgap).
  apply try_insert_gap; [done|apply He|apply He|done|done].
Qed.

(** A key equal in order takes the place of a key without disturbing the order. *)
Lemma sorted_insert_eq ks i key k :
  sorted_keys_ok ks -> ks !! i = Some k -> key_cmp key k = Eq -> sorted_keys_ok (<[i := key]> ks).
Proof.
  intros Hs Hk Heq. rewrite <- (take_drop_middle _ _ _ Hk) in Hs.
  rewrite insert_take_drop by (by eapply lookup_lt_Some).
  apply sorted_app in Hs as (Hs1 & [Hs2 Hf]%StronglySorted_inv & Hlt).
  rewrite Forall_forall in Hf. apply sorted_app. split_and!; [done| |].
  - constructor; [done|]. apply Forall_forall. intros a Ha. unfold key_lt.
    rewrite (cmp_eq_l key k a Heq). by apply Hf.
  - intros a b Ha [->|Hb]%elem_of_cons.
    + unfold key_lt. rewrite (cmp_eq_r key_cmp key k a Heq). apply Hlt; [done|left].
    + apply Hlt; [done|by right].
Qed.

Lemma leaf_update b b' ks key bytes i k :
  leaf_inv t b ks -> has_key t bytes key -> ks !! i = Some k -> key_cmp key k = Eq ->
  wf b' -> records b' = <[i := bytes]> (records b) -> leaf_inv t b' (<[i := key]> ks).
Proof.
  intros [W Hk Hs] Hkey Hi Heq W' Hr. split; [done| |by eapply sorted_insert_eq].
  rewrite Hr. by apply Forall2_insert.
Qed.
End Rows.

(** * Appending records *)

(** The bytes a run of records takes: slots and data. *)
Definition need (rs : list (list Z)) : Z := SLOT_SIZE * zlen rs + total_len rs.

Lemma need_cons r rs : need (r :: rs) = zlen r + SLOT_SIZE + need rs.
Proof. unfold need. rewrite total_len_cons, zlen_cons. unfold SLOT_SIZE. lia. Qed.

Lemma need_nil : need [] = 0.
Proof. done. Qed.

Lemma need_app rs1 rs2 : need (rs1 ++ rs2) = need rs1 + need rs2.
Proof. unfold need. rewrite total_len_app, zlen_app. unfold SLOT_SIZE. lia. Qed.

Lemma need_nonneg rs : 0 <= need rs.
Proof. unfold need. pose proof (total_len_nonneg rs). pose proof (zlen_nonneg rs). unfold SLOT_SIZE. lia. Qed.

Lemma afree_need b : afree (abs b) = PAGE_SIZE - PAGE_HEADER_SIZE - need (records b).
Proof. unfold afree, need. simpl. lia. Qed.

(** What a page of records [rs0] becomes when [rs] are appended. *)
Record appended (b b' : page) (rs : list (list Z)) : Prop := {
  app_wf : wf b';
  app_records : records b' = records b ++ rs;
  app_contig : acontig (abs b') = acontig (abs b) - need rs;
  app_header : header b' = header b;
}.

Lemma appended_nil b : wf b -> appended b b [].
Proof. intros W. split; [done|by rewrite app_nil_r| |done]. rewrite need_nil. lia. Qed.

Lemma appended_trans b b1 b2 rs1 rs2 :
  appended b b1 rs1 -> appended b1 b2 rs2 -> appended b b2 (rs1 ++ rs2).
Proof.
  intros [_ Hr1 Hc1 Hh1] [W Hr2 Hc2 Hh2]. split; [done| | |by rewrite Hh2].
  - by rewrite Hr2, Hr1, app_assoc.
  - rewrite need_app. lia.
Qed.

Lemma append_ok b r :
  wf b -> bytes_ok r ->
  if acontig (abs b) <? zlen r + SLOT_SIZE
  then exists b', append r b = (Err PageFull, b') /\ appended b b' []
  else exists b', append r b = (Ok (n_items b), b') /\ appended b b' [r].
Proof.
  intros W Hb. pose proof (wf_items _ W) as Hn.
  destruct (insert_sim b (n_items b) r W Hb ltac:(lia)) as (b' & Hins & W' & Ha & Hh).
  unfold ainsert in *.
  assert (zlen (arecs (abs b)) = n_items b) as Hz by (apply zlen_records; lia).
  rewrite Hz in *. assert (append r b = try_insert_record (n_items b) r b) as Happ.
  { unfold append. by gstep get_item_count_eq by apply W. }
  case_bool; exists b'; rewrite Happ; cbn [fst snd] in *.
  - split; [done|]. split; [done|rewrite app_nil_r; by apply abs_records| |done].
    rewrite Ha. rewrite need_nil. lia.
  - rewrite Z.ltb_irrefl in *. cbn [fst snd] in *. split; [done|].
    rewrite <- Hz, take_ge, drop_ge in Ha by (unfold zlen; lia).
    assert (records b' = records b ++ [r]) as Hr by (by apply records_abs in Ha).
    split; [done|done| |done]. unfold acontig. rewrite !afree_need, Hr, need_app, Ha. simpl. lia.
Qed.

Definition append_all (rs : list (list Z)) : stateM page StorageError unit :=
  sfor rs (fun r => append r;; mret tt).

(** A run fits exactly when there is room for all of it; otherwise the records
    that fit stay on the page. *)
Lemma append_all_ok rs b :
  wf b -> Forall bytes_ok rs ->
  if acontig (abs b) <? need rs
  then exists b' m, append_all rs b = (Err PageFull, b') /\ (m < length rs)%nat
                    /\ appended b b' (take m rs)
  else exists b', append_all rs b = (Ok tt, b') /\ appended b b' rs.
Proof.
  revert b. unfold append_all. induction rs as [|r rs IH]; intros b W Hb.
  - change (need []) with 0. rewrite (proj2 (Z.ltb_ge _ _)) by apply wf_acontig_nonneg, W.
    exists b. split; [done|by apply appended_nil].
  - apply Forall_cons in Hb as [Hr Hrs]. rewrite need_cons. pose proof (need_nonneg rs).
    pose proof (append_ok b r W Hr) as Happ. cbn [sfor].
    destruct (Z.ltb_spec (acontig (abs b)) (zlen r + SLOT_SIZE)).
    + rewrite (proj2 (Z.ltb_lt _ _)) by lia. destruct Happ as (b1 & Hone & Hb1).
      exists b1, 0%nat. split_and!; [|simpl; lia|done].
      unfold mbind, stateM_bind. by rewrite Hone.
    + destruct Happ as (b1 & Hone & Hb1). specialize (IH b1 (app_wf _ _ _ Hb1) Hrs).
      rewrite (app_contig _ _ _ Hb1) in IH. change (need [r]) with (need (r :: [])) in IH.
      rewrite need_cons in IH. change (need []) with 0 in IH.
      assert (sfor (r :: rs) (fun r => append r;; mret tt) b
              = sfor rs (fun r => append r;; mret tt) b1) as Hstep.
      { cbn [sfor]. unfold mbind, stateM_bind. by rewrite Hone. }
      cbn [sfor] in Hstep. rewrite Hstep.
      replace (acontig (abs b) - (zlen r + SLOT_SIZE + 0) <? need rs)
        with (acontig (abs b) <? zlen r + SLOT_SIZE + need rs) in IH by (repeat case_bool; lia).
      case_bool.
      * destruct IH as (b2 & m & Hrun & Hm & Hb2). exists b2, (S m).
        split_and!; [done|simpl; lia|]. by apply (appended_trans b b1 b2 [r]).
      * destruct IH as (b2 & Hrun & Hb2). exists b2. split; [done|].
        by apply (appended_trans b b1 b2 [r]).
Qed.
