(* ===== verification/LeafNodeProps.v ===== *)
(** Leaf nodes: search, insert, update and merge; the sorted map a leaf
    implements. *)
From Stdlib Require Import Sorting.Sorted.
From S2P Require Import Prelude.
From S2P Require Import Bytes.
From S2P Require Import RustStr.
From S2P Require Import Schema.
From S2P Require Import Ordering.
From S2P Require Import DataModel.
From S2P Require Import DataModelProps.
From S2P Require Import Serializer.
From S2P Require Import SerializerLayout.
From S2P Require Import SerializerRoundtrip.
From S2P Require Import Page.
From S2P Require Import SlottedPage.
From S2P Require Import SlottedPageSpec.
From S2P Require Import SlottedPageOps.
From S2P Require Import SlottedPageRefine.
From S2P Require Import SlottedPageProps.
From S2P Require Import LeafNode.
From S2P Require Import LeafNodeSpec.
From S2P Require Import LeafNodeOps.

(** * A table for the concrete instances

    [users (id INT, name VARCHAR(50) NULL)] with the primary key [id]. *)
Definition users : TableDefinition :=
  mkTable 1 [117] [mkColumn [105; 100] TInt false None; mkColumn [110] (TVarchar 50) true None]
    [PrimaryKey [112; 107] [[105; 100]]].
Definition user (id : Z) (name : list Z) : DbRecord SimpleDecimal := [VInt id; VText name].

Lemma users_ok : table_ok users [[105; 100]].
Proof.
  split.
  - by exists [112; 107].
  - apply (bool_decide_unpack _). vm_compute. exact I.
  - apply (bool_decide_unpack _). vm_compute. exact I.
  - intros n Hn. set_solver.
  - reflexivity.
  - done.
Qed.

Lemma user_ok id name :
  - 2 ^ 31 <= id < 2 ^ 31 -> utf8_valid name = true -> bytes_ok name -> zlen name < 2 ^ 31 ->
  row_ok users [[105; 100]] (user id name).
Proof.
  intros Hid Hu Hb Hl. pose proof (zlen_nonneg name). split.
  - repeat constructor.
  - repeat constructor; simpl; try done; lia.
  - unfold fixed_part, variable_part, variable_bytes, get_null_bitmap_size. cbn [fmap list_fmap user
      fixed_bytes payload concat columns users]. len. change (zlen (@nil Z)) with 0.
    repeat (rewrite zlen_cons). change (zlen (@nil ColumnDefinition)) with 0.
    change ((1 + (1 + 0) + 7) / 8) with 1. lia.
  - intros n i ->%list_elem_of_singleton Hi Hv.
    destruct i as [|[|i]]; simpl in *; simplify_eq.
Qed.

Definition empty_leaf : page := initialized LeafNode U64_MAX.

Lemma empty_leaf_inv t p {D} `{DecimalLaws D} : leaf_inv t (initialized LeafNode p) (@nil (Key D)).
Proof.
  split; [apply initialized_wf| |constructor]. unfold records. by rewrite initialized_slots.
Qed.

(** Leaves with the user 1, and with the users 1 and 3. *)
Definition bytes_of (id : Z) (name : list Z) : list Z :=
  0 :: le_bytes 4 id ++ le_bytes 4 (zlen name) ++ name.

Lemma user_1_encodes : encodes users (user 1 [65]) [VInt 1] (bytes_of 1 [65]).
Proof. split; [reflexivity|reflexivity|reflexivity|by apply bytes_ok_dec|done]. Qed.

Lemma user_3_encodes : encodes users (user 3 [66; 66]) [VInt 3] (bytes_of 3 [66; 66]).
Proof. split; [reflexivity|reflexivity|reflexivity|by apply bytes_ok_dec|done]. Qed.

Definition leaf_1 : page := (insert_record (user 1 [65]) users empty_leaf).2.
Definition leaf_13 : page := (insert_record (user 3 [66; 66]) users leaf_1).2.

Definition leaf_3 : page := (insert_record (user 3 [66; 66]) users empty_leaf).2.

Lemma singleton_leaf record key bytes :
  encodes users record key bytes -> zlen bytes + SLOT_SIZE <= PAGE_SIZE - PAGE_HEADER_SIZE ->
  let b := (insert_record record users empty_leaf).2 in
  leaf_inv users b [key] /\ abs b = mkAPage [bytes] 0 /\ header b = header empty_leaf.
Proof.
  intros He Hroom. assert (abs empty_leaf = mkAPage [] 0) as Ha by apply initialized_abs.
  destruct (insert_record_gap users empty_leaf [] _ _ _ 0 (empty_leaf_inv _ _) He)
    as (b' & -> & L & Hab & Hh); [by repeat constructor|by rewrite Ha|].
  split_and!; [exact L| |done]. cbn [snd]. rewrite Hab, Ha. by rewrite (records_abs _ _ _ Ha).
Qed.

Lemma leaf_1_inv :
  leaf_inv users leaf_1 [[VInt 1]] /\ abs leaf_1 = mkAPage [bytes_of 1 [65]] 0
  /\ header leaf_1 = header empty_leaf.
Proof. apply (singleton_leaf _ _ _ user_1_encodes). vm_compute. discriminate. Qed.

Lemma leaf_3_inv :
  leaf_inv users leaf_3 [[VInt 3]] /\ abs leaf_3 = mkAPage [bytes_of 3 [66; 66]] 0
  /\ header leaf_3 = header empty_leaf.
Proof. apply (singleton_leaf _ _ _ user_3_encodes). vm_compute. discriminate. Qed.

Lemma user_2_ok : row_ok users [[105; 100]] (user 2 [67; 68]).
Proof. apply user_ok; [lia|done|by apply bytes_ok_dec|done]. Qed.

Lemma leaf_13_inv :
  leaf_inv users leaf_13 [[VInt 1]; [VInt 3]]
  /\ abs leaf_13 = mkAPage [bytes_of 1 [65]; bytes_of 3 [66; 66]] 0
  /\ header leaf_13 = header empty_leaf.
Proof.
  destruct leaf_1_inv as (L1 & Ha & Hh1).
  destruct (insert_record_gap users leaf_1 _ _ _ _ 1 L1 user_3_encodes)
    as (b' & Hins & L & Hab & Hh); [|rewrite Ha; vm_compute; discriminate|].
  { split_and!; [lia|vm_compute; discriminate|by repeat constructor|constructor]. }
  unfold leaf_13. rewrite Hins. cbn [snd]. split_and!; [exact L| |by rewrite Hh].
  rewrite Hab, Ha. by rewrite (records_abs _ _ _ Ha).
Qed.

(** * Search *)
Section Search.
Context {D : Type} `{DecimalLaws D} (t : TableDefinition).

(** C18: Binary search agrees with a scan from the first key on, for any key
    and any leaf: the loop ends within one round per record, no slot is missed,
    nothing panics; [Found] is the slot of the record with that key,
    [NotFound] the slot where it belongs, all smaller keys before it and all
    greater ones from it on. *)
Theorem find_key_spec b ks key :
  leaf_inv t b ks ->
  find_key key t b = Ok (locate key ks 0)
  /\ match locate key ks 0 with
     | Found i => exists r k, @get_record StorageError i b = Ok (Some r) /\ has_key t r k
                              /\ slice_eq value_eq key k = true
     | NotFound i => gap key ks i
     end.
Proof.
  intros L. split; [by apply find_key_ok|]. pose proof (leaf_sorted _ _ _ L) as Hs.
  destruct (locate key ks 0) as [i|i] eqn:Hl; [|by apply locate_gap].
  apply locate_found in Hl as (Hi & k & Hk & Heq); [|done].
  destruct (Forall2_lookup_r _ _ _ _ _ (leaf_keys _ _ _ L) Hk) as (r & Hr & Hrk).
  exists r, k. split_and!; [|done|by apply (slice_eq_cmp value_eq value_cmp key k value_eq_cmp)].
  rewrite get_record_wf by (done || apply L). by rewrite Hr.
Qed.

End Search.

Lemma find_key_spec_witness :
  find_key [VInt 2] users leaf_13 = Ok (NotFound 1)
  /\ gap [VInt 2] [[VInt 1]; [VInt 3]] 1.
Proof. exact (find_key_spec users leaf_13 _ [VInt 2] (proj1 leaf_13_inv)). Defined.

Section Insert.
Context {D : Type} `{DecimalLaws D} (t : TableDefinition).

Lemma find_put b ks key i : leaf_inv t b (put i key ks) -> 0 <= i <= zlen ks ->
  find_key key t b = Ok (Found i).
Proof.
  intros L Hi. rewrite (find_key_ok t b (put i key ks)) by done. f_equal.
  apply locate_found; [apply L|]. split; [lia|]. exists key. split; [|by rewrite cmp_refl].
  unfold put. rewrite lookup_app_r by (rewrite length_take; lia).
  rewrite length_take, Nat.min_l by (unfold zlen in Hi; lia). by rewrite Nat.sub_diag.
Qed.

(** C19: [insert_record] of any row of the table, on any leaf: a row with an
    equal key is refused with [DuplicateKey] and nothing changes; when the page
    has no contiguous room for the row and its slot, [PageFull] and nothing
    changes; otherwise the row goes to the slot where its key belongs, the leaf
    stays sorted, no other record and no sibling pointer changes, and the row
    is found again by its key. *)
Theorem insert_record_spec pk b ks (record : DbRecord D) :
  table_ok t pk -> row_ok t pk record -> leaf_inv t b ks ->
  exists key bytes, encodes t record key bytes /\
  match locate key ks 0 with
  | Found _ => insert_record record t b = (Err DuplicateKey, b)
  | NotFound i =>
      if acontig (abs b) <? zlen bytes + SLOT_SIZE
      then insert_record record t b = (Err PageFull, b)
      else exists b', insert_record record t b = (Ok i, b')
        /\ leaf_inv t b' (put i key ks)
        /\ records b' = put i bytes (records b)
        /\ find_key key t b' = Ok (Found i)
        /\ @get_record StorageError i b' = Ok (Some bytes)
        /\ header b' = header b
  end.
Proof.
  intros Ht Hrow L. destruct (row_encodes t pk record Ht Hrow) as (key & bytes & He).
  exists key, bytes. split; [done|].
  pose proof (insert_record_ok t b ks record key bytes L He) as Hrun.
  destruct (locate key ks 0) as [i|i] eqn:Hl; [done|].
  apply locate_gap in Hl as Hgap; [|apply L].
  case_bool; [rewrite Hrun; apply try_insert_full; [apply (leaf_wf _ _ _ L)|done]|].
  destruct (insert_record_gap t b ks record key bytes i) as (b' & Hins & L' & Ha & Hh); try done.
  pose proof (records_abs _ _ _ Ha) as Hr. pose proof (proj1 Hgap) as Hi.
  exists b'. split_and!; [done|done|done|by apply find_put with (ks := ks)| |done].
  rewrite get_record_wf by (apply L' || lia). rewrite Hr. do 2 f_equal. unfold put.
  pose proof (leaf_count _ _ _ L). pose proof (wf_items _ (leaf_wf _ _ _ L)).
  pose proof (zlen_records b). unfold zlen in *.
  rewrite lookup_app_r by (rewrite length_take; lia).
  rewrite length_take, Nat.min_l by lia. by rewrite Nat.sub_diag.
Qed.

End Insert.

Lemma insert_record_spec_witness :
  exists key bytes, encodes users (user 2 [67; 68]) key bytes /\
  match locate key [[VInt 1]; [VInt 3]] 0 with
  | Found _ => insert_record (user 2 [67; 68]) users leaf_13 = (Err DuplicateKey, leaf_13)
  | NotFound i =>
      if acontig (abs leaf_13) <? zlen bytes + SLOT_SIZE
      then insert_record (user 2 [67; 68]) users leaf_13 = (Err PageFull, leaf_13)
      else exists b', insert_record (user 2 [67; 68]) users leaf_13 = (Ok i, b')
        /\ leaf_inv users b' (put i key [[VInt 1]; [VInt 3]])
        /\ records b' = put i bytes (records leaf_13)
        /\ find_key key users b' = Ok (Found i)
        /\ @get_record StorageError i b' = Ok (Some bytes)
        /\ header b' = header leaf_13
  end.
Proof.
  exact (insert_record_spec users _ leaf_13 _ _ users_ok user_2_ok (proj1 leaf_13_inv)).
Defined.

(** * Update *)

Section Update.
Context {D : Type} `{DecimalLaws D} (t : TableDefinition).

(** C20: [update_record] of any row of the table, on any leaf: without a row
    with an equal key, [KeyNotFound] and nothing changes; when the new bytes are
    longer than the old ones and than the contiguous room, [PageFull] and
    nothing changes; otherwise exactly the record with that key is replaced, in
    its slot, and the leaf stays sorted. *)
Theorem update_record_spec pk b ks (record : DbRecord D) :
  table_ok t pk -> row_ok t pk record -> leaf_inv t b ks ->
  exists key bytes, encodes t record key bytes /\
  match locate key ks 0 with
  | NotFound _ => update_record record t b = (Err KeyNotFound, b)
  | Found i =>
      exists old, records b !! Z.to_nat i = Some old /\
      if (zlen old <? zlen bytes) && (acontig (abs b) <? zlen bytes)
      then update_record record t b = (Err PageFull, b)
      else exists b', update_record record t b = (Ok i, b')
        /\ leaf_inv t b' (<[Z.to_nat i := key]> ks)
        /\ records b' = <[Z.to_nat i := bytes]> (records b)
        /\ header b' = header b
  end.
Proof.
  intros Ht Hrow L. destruct (row_encodes t pk record Ht Hrow) as (key & bytes & He).
  exists key, bytes. split; [done|].
  rewrite (update_record_ok t b ks record key bytes) by done.
  destruct (locate key ks 0) as [i|i] eqn:Hl; [|done].
  apply locate_found in Hl as (Hi & k & Hk & Heq); [|apply L].
  destruct (Forall2_lookup_r _ _ _ _ _ (leaf_keys _ _ _ L) Hk) as (old & Hold & _).
  exists old. split; [done|].
  destruct (update_sim b i bytes) as (b' & Hup & W' & Ha & Hh & Herr);
    [apply L|apply He|done|]. rewrite Hup. clear Hup.
  unfold aupdate in *. change (arecs (abs b)) with (records b) in *. rewrite Hold in *.
  assert (forall g, abs b' = mkAPage (<[Z.to_nat i := bytes]> (records b)) g ->
    leaf_inv t b' (<[Z.to_nat i := key]> ks) /\ records b' = <[Z.to_nat i := bytes]> (records b)
    /\ header b' = header b) as Hdone.
  { intros g Hg. apply records_abs in Hg. split_and!; [|done|done].
    eapply leaf_update; try done. apply He. }
  destruct (Z.leb_spec (zlen bytes) (zlen old)).
  - rewrite (proj2 (Z.ltb_ge _ _)) by done. cbn [andb fst snd] in *. exists b'. naive_solver.
  - rewrite (proj2 (Z.ltb_lt _ _)) by done. cbn [andb]. case_bool; cbn [fst snd] in *.
    + by rewrite (Herr PageFull).
    + exists b'. naive_solver.
Qed.
End Update.

Lemma update_record_spec_witness :
  exists key bytes, encodes users (user 2 [67; 68]) key bytes /\
  match locate key [[VInt 1]; [VInt 3]] 0 with
  | NotFound _ => update_record (user 2 [67; 68]) users leaf_13 = (Err KeyNotFound, leaf_13)
  | Found i =>
      exists old, records leaf_13 !! Z.to_nat i = Some old /\
      if (zlen old <? zlen bytes) && (acontig (abs leaf_13) <? zlen bytes)
      then update_record (user 2 [67; 68]) users leaf_13 = (Err PageFull, leaf_13)
      else exists b', update_record (user 2 [67; 68]) users leaf_13 = (Ok i, b')
        /\ leaf_inv users b' (<[Z.to_nat i := key]> [[VInt 1]; [VInt 3]])
        /\ records b' = <[Z.to_nat i := bytes]> (records leaf_13)
        /\ header b' = header leaf_13
  end.
Proof.
  exact (update_record_spec users _ leaf_13 _ _ users_ok user_2_ok (proj1 leaf_13_inv)).
Defined.
