(* ===== verification/LeafNodeHistory.v ===== *)
(** A leaf as an abstract data type: whatever rows are inserted, updated and
    looked up, it behaves as a sorted list of keys over an abstract page. *)
From Stdlib Require Import Sorting.Sorted.
From S2P Require Import Prelude.
From S2P Require Import Bytes.
From S2P Require Import RustStr.
From S2P Require Import Schema.
From S2P Require Import Ordering.
From S2P Require Import DataModel.
From S2P Require Import DataModelProps.
From S2P Require Import Serializer.
From S2P Require Import Page.
From S2P Require Import SlottedPage.
From S2P Require Import SlottedPageSpec.
From S2P Require Import SlottedPageOps.
From S2P Require Import SlottedPageRefine.
From S2P Require Import SlottedPageProps.
From S2P Require Import LeafNode.
From S2P Require Import LeafNodeSpec.
From S2P Require Import LeafNodeOps.
From S2P Require Import LeafNodeProps.

Section History.
Context {D : Type} `{DecimalLaws D} (t : TableDefinition) (pk : list rstr).

Inductive LeafOp :=
| LeafInsert (record : DbRecord D)
| LeafUpdate (record : DbRecord D)
| LeafFind (key : Key D).

(** A slot, or the result of a search. *)
Inductive LeafOut := OutSlot (i : Z) | OutSearch (r : SearchResult).

Definition run_leaf_op (op : LeafOp) : stateM page StorageError LeafOut :=
  match op with
  | LeafInsert record => i ← insert_record record t; mret (OutSlot i)
  | LeafUpdate record => i ← update_record record t; mret (OutSlot i)
  | LeafFind key => r ← sget (find_key key t); mret (OutSearch r)
  end.

(** ** The abstract leaf *)

Record ALeaf := mkALeaf { akeys : list (Key D); apage : APage }.

Definition row_key (record : DbRecord D) : Key D :=
  match @record_get_primary_key D StorageError record t with Ok k => k | _ => [] end.
Definition row_bytes (record : DbRecord D) : list Z :=
  match serialize (columns t) record with Ok bytes => bytes | _ => [] end.

(** The keys change with the page, when the page operation succeeds. *)
Definition with_keys (ks ks' : list (Key D)) (r : outcome StorageError Z * APage) :
    outcome StorageError LeafOut * ALeaf :=
  match r with
  | (Ok i, a) => (Ok (OutSlot i), mkALeaf ks' a)
  | (Err e, a) => (Err e, mkALeaf ks a)
  | (Panic, a) => (Panic, mkALeaf ks a)
  end.

Definition arun_leaf_op (op : LeafOp) (a : ALeaf) : outcome StorageError LeafOut * ALeaf :=
  let ks := akeys a in
  match op with
  | LeafInsert record =>
      match locate (row_key record) ks 0 with
      | Found _ => (Err DuplicateKey, a)
      | NotFound i =>
          with_keys ks (put i (row_key record) ks) (ainsert i (row_bytes record) (apage a))
      end
  | LeafUpdate record =>
      match locate (row_key record) ks 0 with
      | Found i =>
          with_keys ks (<[Z.to_nat i := row_key record]> ks)
            (aupdate i (row_bytes record) (apage a))
      | NotFound _ => (Err KeyNotFound, a)
      end
  | LeafFind key => (Ok (OutSearch (locate key ks 0)), a)
  end.

Fixpoint run_leaf {S} (run : LeafOp -> S -> outcome StorageError LeafOut * S) (ops : list LeafOp)
    (s : S) : list (outcome StorageError LeafOut) * S :=
  match ops with
  | [] => ([], s)
  | op :: ops => let '(o, s1) := run op s in let '(os, s2) := run_leaf run ops s1 in (o :: os, s2)
  end.

Definition leaf_op_ok (op : LeafOp) : Prop :=
  match op with LeafInsert r | LeafUpdate r => row_ok t pk r | LeafFind _ => True end.

(** The page is the abstract leaf. *)
Definition leaf_rel (b : page) (a : ALeaf) : Prop :=
  leaf_inv t b (akeys a) /\ abs b = apage a.

Lemma row_encodes_eq record :
  table_ok t pk -> row_ok t pk record -> encodes t record (row_key record) (row_bytes record).
Proof.
  intros Ht Hr. destruct (row_encodes t pk record Ht Hr) as (key & bytes & He).
  assert (row_key record = key) as -> by (unfold row_key; by rewrite (enc_key _ _ _ _ He)).
  assert (row_bytes record = bytes) as -> by (unfold row_bytes; by rewrite (enc_bytes _ _ _ _ He)).
  done.
Qed.

Lemma sim_intro ks ks' b' (m : outcome StorageError Z) a' b :
  leaf_inv t b' (match m with Ok _ => ks' | _ => ks end) -> abs b' = a' -> header b' = header b ->
  (let '(o, b1) := match (m, b') with
                   | (Ok i, s) => (Ok (OutSlot i), s)
                   | (Err e, s) => (Err e, s)
                   | (Panic, s) => (Panic, s)
                   end in
   o = (with_keys ks ks' (m, a')).1 /\ leaf_rel b1 (with_keys ks ks' (m, a')).2
   /\ header b1 = header b).
Proof. intros L Ha Hh. destruct m; by split_and!. Qed.

Lemma leaf_insert_sim b a record :
  table_ok t pk -> row_ok t pk record -> leaf_rel b a ->
  let '(o, b') := run_leaf_op (LeafInsert record) b in
  o = (arun_leaf_op (LeafInsert record) a).1 /\ leaf_rel b' (arun_leaf_op (LeafInsert record) a).2
  /\ header b' = header b.
Proof.
  intros Ht Hrow [L Hab]. pose proof (row_encodes_eq record Ht Hrow) as He.
  unfold run_leaf_op, arun_leaf_op. unfold mbind, stateM_bind. cbv zeta.
  rewrite (insert_record_ok t b (akeys a) record (row_key record) (row_bytes record)) by done.
  destruct (locate (row_key record) (akeys a) 0) as [i|i] eqn:Hl; [done|].
  apply locate_gap in Hl as Hgap; [|apply L].
  destruct (insert_sim b i (row_bytes record)) as (b' & Hins & W' & Ha & Hh);
    [apply L|apply He|apply Hgap|]. rewrite Hins, <- Hab.
  destruct (ainsert i (row_bytes record) (abs b)) as [m a'] eqn:Hai. cbn [fst snd] in *.
  apply (sim_intro (akeys a)); [|done|done].
  unfold ainsert in Hai.
  destruct (acontig (abs b) <? _); [|destruct (zlen (arecs (abs b)) <? i)]; injection Hai as <- <-;
    try (eapply leaf_inv_abs; [exact L|done|by apply abs_records]).
  eapply leaf_put; [exact L|apply He|done|done|by apply records_abs in Ha].
Qed.

Lemma leaf_update_sim b a record :
  table_ok t pk -> row_ok t pk record -> leaf_rel b a ->
  let '(o, b') := run_leaf_op (LeafUpdate record) b in
  o = (arun_leaf_op (LeafUpdate record) a).1 /\ leaf_rel b' (arun_leaf_op (LeafUpdate record) a).2
  /\ header b' = header b.
Proof.
  intros Ht Hrow [L Hab]. pose proof (row_encodes_eq record Ht Hrow) as He.
  unfold run_leaf_op, arun_leaf_op. unfold mbind, stateM_bind. cbv zeta.
  rewrite (update_record_ok t b (akeys a) record (row_key record) (row_bytes record)) by done.
  destruct (locate (row_key record) (akeys a) 0) as [i|i] eqn:Hl; [|done].
  apply locate_found in Hl as (Hi & k & Hk & Heq); [|apply L].
  destruct (update_sim b i (row_bytes record)) as (b' & Hup & W' & Ha & Hh & _);
    [apply L|apply He|done|]. rewrite Hup, <- Hab.
  destruct (aupdate i (row_bytes record) (abs b)) as [m a'] eqn:Hai. cbn [fst snd] in *.
  apply (sim_intro (akeys a)); [|done|done].
  unfold aupdate in Hai.
  destruct (arecs (abs b) !! Z.to_nat i) as [old|]; [destruct (zlen (row_bytes record) <=? zlen old);
    [|destruct (acontig (abs b) <? _)]|]; injection Hai as <- <-;
    try (eapply leaf_inv_abs; [exact L|done|by apply abs_records]);
    (eapply leaf_update; [exact L|apply He|done|done|done|by apply records_abs in Ha]).
Qed.

Lemma leaf_op_sim op b a :
  table_ok t pk -> leaf_op_ok op -> leaf_rel b a ->
  let '(o, b') := run_leaf_op op b in
  o = (arun_leaf_op op a).1 /\ leaf_rel b' (arun_leaf_op op a).2 /\ header b' = header b.
Proof.
  intros Ht Hop Hrel. destruct op as [record|record|key].
  - by apply leaf_insert_sim.
  - by apply leaf_update_sim.
  - unfold run_leaf_op, mbind, stateM_bind, sget.
    rewrite (find_key_ok t b (akeys a) key (proj1 Hrel)). by split_and!.
Qed.

Lemma leaf_ops_sim ops b a :
  table_ok t pk -> Forall leaf_op_ok ops -> leaf_rel b a ->
  let '(os, b') := run_leaf run_leaf_op ops b in
  os = (run_leaf arun_leaf_op ops a).1 /\ leaf_rel b' (run_leaf arun_leaf_op ops a).2
  /\ header b' = header b.
Proof.
  intros Ht Hops. revert b a. induction Hops as [|op ops Hop _ IH]; intros b a Hrel; [done|].
  cbn [run_leaf]. pose proof (leaf_op_sim op b a Ht Hop Hrel) as Hone.
  destruct (run_leaf_op op b) as [o b1], (arun_leaf_op op a) as [o' a1]. cbn [fst snd] in Hone.
  destruct Hone as (-> & Hrel1 & Hh1). specialize (IH b1 a1 Hrel1).
  destruct (run_leaf run_leaf_op ops b1) as [os b2], (run_leaf arun_leaf_op ops a1) as [os' a2].
  cbn [fst snd] in *. destruct IH as (-> & Hrel2 & Hh2). split_and!; [done|done|by rewrite Hh2].
Qed.

(** The abstract leaf never panics. *)
Lemma arun_leaf_op_total op a : (arun_leaf_op op a).1 <> Panic.
Proof.
  destruct op as [r|r|k]; cbn [arun_leaf_op]; [..|done];
    destruct (locate _ _ 0); cbn; try done; unfold ainsert, aupdate;
    repeat case_match; simplify_eq; done.
Qed.

Lemma arun_leaf_total ops a : Forall (fun o => o <> Panic) (run_leaf arun_leaf_op ops a).1.
Proof.
  revert a. induction ops as [|op ops IH]; intros a; [constructor|]. cbn [run_leaf].
  pose proof (arun_leaf_op_total op a). destruct (arun_leaf_op op a) as [o a1].
  specialize (IH a1). destruct (run_leaf arun_leaf_op ops a1) as [os a2]. by constructor.
Qed.

(** C4: From [initialize] on, any sequence of inserts and updates of rows of
    the table and of searches, in any order and with any keys, gives exactly
    the outcomes of a sorted list of keys over an abstract page; the leaf stays
    sorted and well formed, its sibling pointers do not move, and no call
    panics, out of space or not. *)
Theorem leaf_history_refines parent b ops :
  zlen b = PAGE_SIZE -> table_ok t pk -> Forall leaf_op_ok ops ->
  let '(outs, b') := run_leaf run_leaf_op ops (@initialize StorageError LeafNode parent b).2 in
  let '(aouts, a') := run_leaf arun_leaf_op ops (mkALeaf [] (mkAPage [] 0)) in
  outs = aouts /\ leaf_rel b' a' /\ Forall (fun o => o <> Panic) outs
  /\ next_ptr b' = INVALID_PAGE_INDEX /\ prev_ptr b' = INVALID_PAGE_INDEX.
Proof.
  intros Hl Ht Hops. rewrite initialize_eq by done. cbn [snd].
  set (b0 := initialized LeafNode (parent_or_max parent)).
  assert (leaf_rel b0 (mkALeaf [] (mkAPage [] 0))) as Hrel
    by (split; [exact (empty_leaf_inv t _)|exact (initialized_abs _ _)]).
  pose proof (leaf_ops_sim ops _ _ Ht Hops Hrel) as Hrun.
  pose proof (arun_leaf_total ops (mkALeaf [] (mkAPage [] 0))) as Htot.
  destruct (run_leaf run_leaf_op ops b0) as [outs b'].
  destruct (run_leaf arun_leaf_op ops _) as [aouts a']. cbn [fst snd] in *.
  destruct Hrun as (-> & Hrel' & Hh).
  destruct (header_ptrs b0 b') as [Hn Hp]; [apply zlen_initialized|apply (leaf_wf _ _ _ (proj1 Hrel'))|done|].
  split; [done|]. split; [exact Hrel'|]. split; [done|]. split.
  - rewrite Hn. apply initialized_next.
  - rewrite Hp. apply initialized_prev.
Qed.
End History.

Lemma leaf_history_refines_witness :
  let ops := [LeafInsert (user 3 [66]); LeafInsert (user 2 [67; 68]); LeafInsert (user 2 []);
              LeafUpdate (user 3 [69; 70; 71]); LeafUpdate (user 9 []); LeafFind [VInt 2]] in
  let '(outs, b') := run_leaf (run_leaf_op users) ops (@initialize StorageError LeafNode None blank_page).2 in
  let '(aouts, a') := run_leaf (arun_leaf_op users) ops (mkALeaf [] (mkAPage [] 0)) in
  outs = aouts /\ leaf_rel users b' a' /\ Forall (fun o => o <> Panic) outs
  /\ next_ptr b' = INVALID_PAGE_INDEX /\ prev_ptr b' = INVALID_PAGE_INDEX.
Proof.
  apply (leaf_history_refines users [[105; 100]] None blank_page);
    [apply zlen_blank|apply users_ok|].
  repeat apply Forall_cons_2; try apply Forall_nil_2; try exact I;
    (apply user_ok; [lia|done|by apply bytes_ok_dec|done]).
Defined.

(** The abstract leaf on that sequence: the duplicate and the unknown key are
    refused, the update keeps its slot. *)
Example leaf_history_outcomes :
  let ops := [LeafInsert (user 3 [66]); LeafInsert (user 2 [67; 68]); LeafInsert (user 2 []);
              LeafUpdate (user 3 [69; 70; 71]); LeafUpdate (user 9 []); LeafFind [VInt 2]] in
  (run_leaf (arun_leaf_op users) ops (mkALeaf [] (mkAPage [] 0))).1
  = [Ok (OutSlot 0); Ok (OutSlot 0); Err DuplicateKey; Ok (OutSlot 1); Err KeyNotFound;
     Ok (OutSearch (Found 0))].
Proof. vm_compute. reflexivity. Qed.
