(* ===== verification/LeafNodeMerge.v ===== *)
(** Merging a leaf with its right sibling. *)
From Stdlib Require Import Sorting.Sorted.
From S2P Require Import Prelude.
From S2P Require Import Bytes.
From S2P Require Import RustStr.
From S2P Require Import Schema.
From S2P Require Import Ordering.
From S2P Require Import DataModel.
From S2P Require Import DataModelProps.
From S2P Require Import Serializer.
From S2P Require Import Page.
From S2P Require Import SlottedPage.
From S2P Require Import SlottedPageSpec.
From S2P Require Import SlottedPageOps.
From S2P Require Import SlottedPageRefine.
From S2P Require Import SlottedPageProps.
From S2P Require Import LeafNode.
From S2P Require Import LeafNodeSpec.
From S2P Require Import LeafNodeOps.
From S2P Require Import LeafNodeProps.

(** What merging and splitting leave behind on the page of the sibling after
    the two: its records, and its prev pointer at [v]. *)
Definition relinked (v : Z) (n n' : option page) : Prop :=
  match n, n' with
  | None, None => True
  | Some b, Some b' => wf b' /\ abs b' = abs b /\ prev_ptr b' = v /\ next_ptr b' = next_ptr b
  | _, _ => False
  end.

Definition opt_wf (n : option page) : Prop := match n with Some b => wf b | None => True end.

Lemma on_next_set_prev s v :
  opt_wf (next_page s) -> 0 <= v < 2 ^ 32 ->
  exists n', on_next (set_prev_leaf_index (Some v)) s
             = (Ok tt, mkLeaves (self_page s) (right_page s) n')
             /\ relinked v (next_page s) n'.
Proof.
  intros Hn Hv. unfold on_next. destruct s as [a r [b|]]; simpl in *.
  - rewrite set_prev_ok by apply Hn. exists (Some (with_prev v b)). split; [done|].
    destruct (with_prev_ok b v Hn Hv) as (? & ? & ? & ?). done.
  - by exists None.
Qed.

Section Merge.
Context {D : Type} `{DecimalLaws D} (t : TableDefinition).

(** The records of the right page from [k] on are appended one by one. *)
Lemma merge_loop_ok (m k : nat) a r nx :
  wf a -> wf r -> length (drop k (records r)) = m ->
  need (drop k (records r)) <= acontig (abs a) ->
  exists a', sfor (range (Z.of_nat k) (n_items r)) merge_step (mkLeaves a r nx)
             = (Ok tt, mkLeaves a' r nx)
             /\ appended a a' (drop k (records r)).
Proof.
  intros Wa Wr. pose proof (records_bytes_ok _ Wr) as Hb. pose proof (wf_items _ Wr) as Hn. pose proof (zlen_records r ltac:(lia)) as Hz.
  revert k a Wa. induction m as [|m IH]; intros k a Wa Hm Hneed.
  - apply nil_length_inv in Hm as Hnil. rewrite Hnil. exists a. split; [|by apply appended_nil].
    rewrite length_drop in Hm. rewrite range_nil by (unfold zlen in Hz; lia). done.
  - destruct (drop k (records r)) as [|x rest] eqn:Hd; [done|].
    assert (records r !! k = Some x) as Hx.
    { rewrite <- (Nat.add_0_r k), <- lookup_drop, Hd. done. }
    assert (drop (S k) (records r) = rest) as Hrest.
    { by rewrite <- Nat.add_1_r, <- drop_drop, Hd. }
    apply lookup_lt_Some in Hx as Hk. rewrite range_cons by (unfold zlen in Hz; lia).
    rewrite need_cons in Hneed. pose proof (need_nonneg rest).
    assert (bytes_ok x) as Hbx by (by eapply (Forall_lookup_1 bytes_ok); [exact Hb|]).
    pose proof (append_ok a x Wa Hbx) as Happ. rewrite (proj2 (Z.ltb_ge _ _)) in Happ by lia.
    destruct Happ as (a1 & Hone & Ha1). cbn [sfor].
    assert (merge_step (Z.of_nat k) (mkLeaves a r nx) = (Ok tt, mkLeaves a1 r nx)) as Hstep.
    { unfold merge_step. cbn [right_page]. rewrite get_record_wf by (done || lia).
      rewrite Nat2Z.id, Hx. unfold on_self. cbn [self_page right_page next_page]. by rewrite Hone. }
    rewrite (sbind_ok _ _ _ _ _ Hstep). replace (Z.of_nat k + 1) with (Z.of_nat (S k)) by lia.
    destruct (IH (S k) a1) as (a2 & Hrun & Ha2).
    + apply Ha1.
    + rewrite Hrest. simpl in Hm. lia.
    + rewrite Hrest, (app_contig _ _ _ Ha1), need_cons, need_nil. lia.
    + exists a2. split; [done|]. rewrite Hrest in Ha2. by apply (appended_trans a a1 a2 [x]).
Qed.

(** What [merge] does once it knows how much the right page holds. *)
Lemma merge_room self_id s (r : outcome StorageError unit * Leaves) :
  wf (right_page s) ->
  (contiguous ← sget (fun s => get_free_space_contiguous (self_page s));
   if contiguous <? need (records (right_page s)) then sfail InsufficientSpaceForMerge
   else right_sibling_item_count ← sget (fun s => leaf_get_item_count (right_page s));
     sfor (range 0 right_sibling_item_count) merge_step;;
     right_next ← sget (fun s => get_next_leaf_index (right_page s));
     on_self (set_next_leaf_index right_next);;
     on_next (set_prev_leaf_index (Some (page_index self_id)));;
     on_right (initialize Invalid None)) s = r -> merge self_id s = r.
Proof.
  intros W2 Hr. pose proof (need_nonneg (records (right_page s))) as Hneed.
  unfold merge. gstep get_free_space_wf by done. rewrite afree_need.
  lstep usub_ok by pg. lstep usub_ok by pg. rewrite <- Hr. do 2 f_equal.
  replace (PAGE_SIZE - (PAGE_SIZE - PAGE_HEADER_SIZE - need (records (right_page s)))
           - PAGE_HEADER_SIZE) with (need (records (right_page s))) by lia. done.
Qed.

(** C8: [merge] of two sorted leaves, every key of the left one smaller than
    those of the right one: without contiguous room for all the right leaf's
    records and slots, [InsufficientSpaceForMerge] and no page changes;
    otherwise the left page holds all the records in order and is linked to the
    right leaf's next, the leaf after that points back to the left page, and
    the right page is formatted as [Invalid].  The error for a failed append is
    never reached. *)
Theorem merge_spec self_id s ks1 ks2 :
  leaf_inv t (self_page s) ks1 -> leaf_inv t (right_page s) ks2 ->
  (forall a b, a ∈ ks1 -> b ∈ ks2 -> key_lt a b) ->
  opt_wf (next_page s) ->
  0 <= page_index self_id < 2 ^ 32 ->
  if acontig (abs (self_page s)) <? need (records (right_page s))
  then merge self_id s = (Err InsufficientSpaceForMerge, s)
  else exists s', merge self_id s = (Ok tt, s')
    /\ leaf_inv t (self_page s') (ks1 ++ ks2)
    /\ records (self_page s') = records (self_page s) ++ records (right_page s)
    /\ next_ptr (self_page s') = next_ptr (right_page s)
    /\ prev_ptr (self_page s') = prev_ptr (self_page s)
    /\ right_page s' = initialized Invalid U64_MAX
    /\ relinked (page_index self_id) (next_page s) (next_page s').
Proof.
  intros L1 L2 Hlt Hnx Hid. pose proof (leaf_wf _ _ _ L1) as W1.
  pose proof (leaf_wf _ _ _ L2) as W2. pose proof (need_nonneg (records (right_page s))) as Hneed.
  destruct (Z.ltb_spec (acontig (abs (self_page s))) (need (records (right_page s)))).
  - apply merge_room; [done|]. gstep get_free_space_contiguous_wf by done. by zbool.
  - destruct (merge_loop_ok (length (records (right_page s))) 0 (self_page s) (right_page s)
      (next_page s)) as (a & Hrun & [Wa Hra Hca Hha]); try done.
    rewrite drop_0 in Hra.
    pose proof (wf_len _ W1). pose proof (wf_len _ W2). pose proof (wf_len _ Wa).
    destruct (header_ptrs (self_page s) a) as [_ Hprev]; [done..|].
    pose proof (next_ptr_range _ W2) as Hnr.
    destruct (with_next_ok a (next_ptr (right_page s)) Wa Hnr) as (W' & A' & N' & P').
    destruct (on_next_set_prev (mkLeaves (with_next (next_ptr (right_page s)) a) (right_page s)
      (next_page s)) (page_index self_id)) as (n' & Hn' & Hre); [done|done|].
    exists (mkLeaves (with_next (next_ptr (right_page s)) a) (initialized Invalid U64_MAX) n').
    split.
    + apply merge_room; [done|]. gstep get_free_space_contiguous_wf by done. zbool.
      gstep get_u16_eq by pg. fold (n_items (right_page s)).
      destruct s as [b r nx]. cbn [self_page right_page next_page] in *.
      rewrite (sbind_ok _ _ _ _ _ Hrun).
      gstep get_next_ok by done.
      rewrite (sbind_ok _ _ _ tt (mkLeaves (with_next (next_ptr r) a) r nx)).
      2:{ unfold on_self. cbn [self_page right_page next_page].
          rewrite set_next_ok by done. by rewrite option_ptr_option. }
      rewrite (sbind_ok _ _ _ _ _ Hn'). unfold on_right. cbn [self_page right_page next_page].
      by rewrite initialize_eq by done.
    + cbn [self_page right_page next_page]. apply abs_records in A'. split_and!; try done.
      * split; [done| |].
        -- rewrite A', Hra. apply Forall2_app; [apply L1|apply L2].
        -- apply sorted_app. split_and!; [apply L1|apply L2|done].
      * by rewrite A'.
      * by rewrite P'.
Qed.
End Merge.

(** Leaf 1 takes in leaf 3; no leaf after it. *)
Lemma merge_spec_witness :
  let s := mkLeaves leaf_1 leaf_3 None in
  exists s', merge (mkPageId 0 7) s = (Ok tt, s')
    /\ leaf_inv users (self_page s') ([[VInt 1]] ++ [[VInt 3]])
    /\ records (self_page s') = records (self_page s) ++ records (right_page s)
    /\ next_ptr (self_page s') = next_ptr (right_page s)
    /\ prev_ptr (self_page s') = prev_ptr (self_page s)
    /\ right_page s' = initialized Invalid U64_MAX
    /\ relinked 7 (next_page s) (next_page s').
Proof.
  intros s. pose proof (merge_spec users (mkPageId 0 7) s [[VInt 1]] [[VInt 3]]
    (proj1 leaf_1_inv) (proj1 leaf_3_inv)) as Hm.
  subst s. cbn [self_page right_page next_page page_index] in Hm.
  rewrite (proj1 (proj2 leaf_1_inv)), (records_abs _ _ _ (proj1 (proj2 leaf_3_inv))) in Hm at 1.
  apply Hm; [|done|lia]. intros a b ->%list_elem_of_singleton ->%list_elem_of_singleton. done.
Defined.
