(* ===== verification/LeafNodeSplit.v ===== *)
(** Splitting a leaf in two while a row is inserted. *)
From Stdlib Require Import Sorting.Sorted.
From S2P Require Import Prelude.
From S2P Require Import Bytes.
From S2P Require Import RustStr.
From S2P Require Import Schema.
From S2P Require Import Ordering.
From S2P Require Import DataModel.
From S2P Require Import DataModelProps.
From S2P Require Import Serializer.
From S2P Require Import Page.
From S2P Require Import SlottedPage.
From S2P Require Import SlottedPageSpec.
From S2P Require Import SlottedPageOps.
From S2P Require Import SlottedPageCompact.
From S2P Require Import SlottedPageRefine.
From S2P Require Import SlottedPageProps.
From S2P Require Import LeafNode.
From S2P Require Import LeafNodeSpec.
From S2P Require Import LeafNodeOps.
From S2P Require Import LeafNodeProps.
From S2P Require Import LeafNodeMerge.

(** * Where the split falls *)

Lemma find_split_index_ok half cur idx rs :
  cur <= half ->
  exists m : nat, find_split_index half cur idx rs = idx + Z.of_nat m /\ (m <= length rs)%nat
    /\ cur + total_len (take m rs) <= half
    /\ ((m < length rs)%nat -> half < cur + total_len (take (S m) rs)).
Proof.
  revert cur idx. induction rs as [|r rs IH]; intros cur idx Hcur.
  - exists 0%nat. simpl. split_and!; lia.
  - cbn [find_split_index]. case_bool.
    + exists 0%nat. simpl. split_and!; lia.
    + destruct (IH (cur + zlen r) (idx + 1)) as (m & -> & Hm & Hle & Hgt); [lia|].
      exists (S m). rewrite !firstn_cons, !total_len_cons in *. cbn [length].
      split_and!; [lia|lia|lia|]. intros Hlt. specialize (Hgt ltac:(lia)). lia.
Qed.

(** The sizes the loop adds up: the new record is counted only when a larger
    key follows it. *)
Definition split_total (rs : list (list Z)) (bytes : list Z) (i : Z) : Z :=
  total_len rs + (if i <? zlen rs then zlen bytes else 0).

Definition split_point (rs : list (list Z)) (bytes : list Z) (i : Z) : Z :=
  find_split_index_by_size (put i bytes rs) (split_total rs bytes i).

Lemma total_len_put rs bytes i : total_len (put i bytes rs) = total_len rs + zlen bytes.
Proof.
  unfold put. rewrite total_len_app, total_len_cons.
  pose proof (total_len_app (take (Z.to_nat i) rs) (drop (Z.to_nat i) rs)) as Hr.
  rewrite take_drop in Hr. lia.
Qed.

Lemma length_put {A} i (x : A) l : length (put i x l) = S (length l).
Proof.
  unfold put. rewrite length_app, length_take. cbn [length]. rewrite length_drop. lia.
Qed.

Lemma put_largest {A} i (x : A) l : i = zlen l -> put i x l = l ++ [x].
Proof. intros ->. unfold put, zlen. by rewrite Nat2Z.id, firstn_all, drop_all. Qed.

Lemma last_drop {A} n (l : list A) : (n < length l)%nat -> last (drop n l) = last l.
Proof.
  intros Hn. rewrite <- (take_drop n l) at 2. rewrite last_app.
  destruct (last (drop n l)) as [x|] eqn:El; [done|]. apply last_None in El.
  apply (f_equal length) in El. rewrite length_drop in El. cbn in El. lia.
Qed.

Lemma last_put {A} i (x : A) l :
  0 <= i <= zlen l -> last (put i x l) = if i <? zlen l then last l else Some x.
Proof.
  intros Hi. destruct (Z.ltb_spec i (zlen l)); [|rewrite put_largest by lia; by rewrite last_snoc].
  unfold put, zlen in *. assert (last (drop (Z.to_nat i) l) = last l) as Hl by (apply last_drop; lia).
  rewrite last_app, last_cons, Hl. destruct l; [cbn in *; lia|]. destruct (last (a :: l)) eqn:El; [done|].
  by apply last_None in El.
Qed.

Section Point.
Variables (rs : list (list Z)) (bytes : list Z) (i : Z).
Hypothesis Hbytes : 0 < zlen bytes.
Hypothesis Hi : 0 <= i <= zlen rs.
#[local] Abbreviation all := (put i bytes rs).
#[local] Abbreviation half := (split_total rs bytes i / 2).

(** The left part is the longest that holds at most half of the size. *)
Lemma split_point_ok :
  exists m : nat, split_point rs bytes i = Z.of_nat m /\ (m <= length rs)%nat
    /\ total_len (take m all) <= half /\ half < total_len (take (S m) all).
Proof.
  pose proof (total_len_nonneg rs) as Hr. pose proof (total_len_put rs bytes i) as Hall.
  assert (0 <= split_total rs bytes i <= total_len all) as Ht
    by (unfold split_total; case_bool; lia).
  destruct (find_split_index_ok half 0 0 all) as (m & Heq & Hm & Hle & Hgt).
  { apply Z.div_pos; lia. }
  rewrite length_put in *.
  assert (m < S (length rs))%nat as Hlt.
  { destruct (decide (m = S (length rs))) as [->|]; [exfalso|lia].
    rewrite take_ge in Hle by (rewrite length_put; lia).
    pose proof (Z.div_lt_upper_bound (split_total rs bytes i) 2 (total_len all)). lia. }
  exists m. split_and!; [exact Heq|lia|lia|]. specialize (Hgt Hlt). lia.
Qed.

Lemma take_put_le m : (m <= Z.to_nat i)%nat -> take m all = take m rs.
Proof.
  intros Hm. unfold put. rewrite take_app_le by (rewrite length_take; unfold zlen in Hi; lia).
  rewrite take_take. f_equal. lia.
Qed.

Lemma total_len_take_put m :
  (Z.to_nat i < m)%nat -> zlen bytes <= total_len (take m all).
Proof.
  intros Hm. unfold put. rewrite take_app_ge by (rewrite length_take; lia).
  rewrite length_take, Nat.min_l by (unfold zlen in Hi; lia).
  destruct (m - Z.to_nat i)%nat as [|k] eqn:Hk; [lia|]. rewrite firstn_cons.
  rewrite total_len_app, total_len_cons.
  pose proof (total_len_nonneg (take (Z.to_nat i) rs)).
  pose proof (total_len_nonneg (take k (drop (Z.to_nat i) rs))). lia.
Qed.

(** The left part always fits where the records were. *)
Lemma split_left_fits m :
  (m <= length rs)%nat -> total_len (take m all) <= half ->
  need (take m all) <= need rs.
Proof.
  intros Hm Hle. unfold need.
  assert (zlen (take m all) <= zlen rs) as Hz by (unfold zlen; rewrite length_take; lia).
  assert (total_len (take m all) <= total_len rs) as Ht; [|unfold SLOT_SIZE; lia].
  destruct (Nat.le_gt_cases m (Z.to_nat i)) as [Hmi|Hmi].
  - rewrite take_put_le by done. apply total_len_take_le.
  - pose proof (total_len_take_put m Hmi). pose proof (total_len_nonneg rs).
    assert (half <= (total_len rs + zlen bytes) / 2).
    { apply Z.div_le_mono; [lia|]. unfold split_total. case_bool; lia. }
    pose proof (Z.mul_div_le (total_len rs + zlen bytes) 2). lia.
Qed.
End Point.

(** * Building the sorted lists *)

Section Collect.
Context {D : Type} `{DecimalLaws D} (t : TableDefinition).
Variables (b : page) (ks : list (Key D)) (key : Key D) (bytes : list Z) (i : Z).
Hypothesis L : leaf_inv t b ks.
Hypothesis Hgap : gap key ks i.
#[local] Abbreviation rs := (records b).

(** The accumulators after the first [n] records. *)
Definition collected (n : nat) : SplitState D :=
  if Z.of_nat n <=? i
  then mkSplit (take n ks) (take n rs) (Z.of_nat n) false (total_len (take n rs))
  else mkSplit (put i key (take n ks)) (put i bytes (take n rs)) (Z.of_nat n + 1) true
         (total_len (take n rs) + zlen bytes).

Lemma zlen_ks : zlen ks = zlen rs.
Proof. pose proof (Forall2_length _ _ _ (leaf_keys _ _ _ L)). unfold zlen. lia. Qed.

Lemma put_snoc {A} (x y : A) (n : nat) (l : list A) :
  (Z.to_nat i <= n)%nat -> l !! n = Some y -> put i x (take (S n) l) = put i x (take n l) ++ [y].
Proof.
  intros Hn Hy. rewrite (take_S_r _ _ y) by done. unfold put.
  assert (Z.to_nat i <= length (take n l))%nat.
  { rewrite length_take. apply lookup_lt_Some in Hy. lia. }
  rewrite take_app_le, drop_app_le by done. by rewrite <- app_assoc.
Qed.

Lemma put_end {A} (x : A) (n : nat) (l : list A) :
  Z.to_nat i = n -> (n <= length l)%nat -> put i x (take n l) = take n l ++ [x].
Proof.
  intros <- Hn. unfold put. rewrite take_take, Nat.min_id. f_equal.
  rewrite drop_ge; [done|]. rewrite length_take. lia.
Qed.

Lemma vec_insert_snoc {E A} j (x : A) l : zlen l = j -> @vec_insert E A j x l = Ok (l ++ [x]).
Proof. intros <-. apply vec_insert_end. Qed.

Lemma zlen_put {A} j (x : A) l : zlen (put j x l) = zlen l + 1.
Proof. unfold zlen. rewrite length_put. lia. Qed.

Lemma zlen_take {A} (n : nat) (l : list A) : (n <= length l)%nat -> zlen (take n l) = Z.of_nat n.
Proof. intros. unfold zlen. rewrite length_take. lia. Qed.

Lemma split_step_ok (n : nat) :
  (n < length rs)%nat ->
  split_step b t key bytes (collected n) (Z.of_nat n) = Ok (collected (S n)).
Proof.
  intros Hn. pose proof (leaf_wf _ _ _ L) as W. pose proof zlen_ks as Hz. unfold zlen in Hz.
  destruct (lookup_lt_is_Some_2 rs n Hn) as [r Hr].
  destruct (Forall2_lookup_l _ _ _ _ _ (leaf_keys _ _ _ L) Hr) as (k & Hk & Hrk).
  destruct Hgap as (Hi & Ht & Hd).
  unfold split_step. ostep get_record_wf by (done || lia). rewrite Nat2Z.id, Hr.
  rewrite Hrk. cbn [unwrap_res mbind outcome_bind]. unfold collected.
  assert (total_len (take (S n) rs) = total_len (take n rs) + zlen r) as Htl
    by (rewrite (take_S_r _ _ r) by done; rewrite total_len_app, total_len_cons; simpl; lia).
  destruct (Z.leb_spec (Z.of_nat n) i); cbn [new_record_inserted negb andb sorted_keys
    sorted_records sorted_key_index total_size].
  - destruct (decide (Z.of_nat n = i)) as [Heq|Hne].
    + assert (key_cmp key k = Lt) as ->.
      { rewrite Forall_forall in Hd. apply Hd. rewrite <- Heq, Nat2Z.id.
        rewrite (drop_S _ _ _ Hk). left. }
      rewrite !vec_insert_snoc by (apply zlen_take; lia).
      cbn [mbind outcome_bind new_record_inserted sorted_keys sorted_records sorted_key_index total_size].
      rewrite !vec_insert_snoc by (rewrite zlen_app, zlen_take by lia; done).
      cbn [mbind outcome_bind]. zbool.
      rewrite (put_snoc key k), (put_snoc bytes r), !put_end by (done || lia).
      f_equal. f_equal; lia.
    + assert (key_cmp key k = Gt) as ->.
      { apply key_gt_lt. rewrite Forall_forall in Ht. apply Ht.
        apply list_elem_of_lookup. exists n. rewrite lookup_take_lt by lia. done. }
      cbn [mbind outcome_bind new_record_inserted sorted_keys sorted_records sorted_key_index total_size].
      rewrite !vec_insert_snoc by (apply zlen_take; lia). cbn [mbind outcome_bind]. zbool.
      rewrite (take_S_r ks _ k), (take_S_r rs _ r) by done.
      f_equal. rewrite (take_S_r rs _ r) in Htl by done. f_equal; lia.
  - cbn [mbind outcome_bind new_record_inserted sorted_keys sorted_records sorted_key_index total_size].
    rewrite !vec_insert_snoc by (rewrite zlen_put, zlen_take by lia; done).
    cbn [mbind outcome_bind]. zbool.
    rewrite (put_snoc key k), (put_snoc bytes r) by (done || lia). f_equal. f_equal; lia.
Qed.

Lemma collected_run (n : nat) :
  (n <= length rs)%nat ->
  ofold (split_step b t key bytes) (mkSplit [] [] 0 false 0) (range 0 (Z.of_nat n))
  = Ok (collected n).
Proof.
  induction n as [|n IH]; intros Hn.
  - unfold collected. pose proof (proj1 (proj1 Hgap)). by zbool.
  - replace (Z.of_nat (S n)) with (Z.of_nat n + 1) by lia. rewrite range_snoc, ofold_app by lia.
    rewrite IH by lia. cbn [mbind outcome_bind ofold]. by rewrite split_step_ok by lia.
Qed.

Lemma collect_sorted_ok :
  collect_sorted b (n_items b) t key bytes
  = Ok (put i key ks, put i bytes rs, split_total rs bytes i).
Proof.
  pose proof (wf_items _ (leaf_wf _ _ _ L)). pose proof (zlen_records b ltac:(lia)) as Hn.
  pose proof zlen_ks as Hz. pose proof (proj1 Hgap) as Hi. unfold collect_sorted.
  rewrite <- Hn. unfold zlen at 1. rewrite collected_run by lia. cbn [mbind outcome_bind].
  unfold collected, split_total. fold (zlen rs).
  rewrite !take_ge by (unfold zlen in Hz; lia).
  destruct (Z.leb_spec (zlen rs) i); cbn [new_record_inserted negb sorted_keys sorted_records
    sorted_key_index total_size].
  - assert (i = zlen rs) as Heq by lia. rewrite !vec_insert_snoc by lia. cbn [mbind outcome_bind].
    zbool. f_equal. f_equal; [f_equal|lia]; symmetry.
    + rewrite <- (firstn_all ks) at 1. rewrite put_end by (unfold zlen in *; lia). by rewrite firstn_all.
    + rewrite <- (firstn_all rs) at 1. rewrite put_end by (unfold zlen in *; lia). by rewrite firstn_all.
  - by zbool.
Qed.
End Collect.

(** * The split *)

Lemma on_self_run rs s :
  sfor rs (fun r => on_self (append r);; mret tt) s
  = let '(r, b) := append_all rs (self_page s) in (r, mkLeaves b (right_page s) (next_page s)).
Proof.
  unfold append_all. revert s. induction rs as [|r rs IH]; intros [a b n]; [done|].
  cbn [sfor]. unfold mbind, stateM_bind in *. unfold on_self at 1.
  cbn [self_page right_page next_page]. destruct (append r a) as [[o|e|] a']; cbn; done.
Qed.

Lemma on_right_run rs s :
  sfor rs (fun r => on_right (append r);; mret tt) s
  = let '(r, b) := append_all rs (right_page s) in (r, mkLeaves (self_page s) b (next_page s)).
Proof.
  unfold append_all. revert s. induction rs as [|r rs IH]; intros [a b n]; [done|].
  cbn [sfor]. unfold mbind, stateM_bind in *. unfold on_right at 1.
  cbn [self_page right_page next_page]. destruct (append r b) as [[o|e|] b']; cbn; done.
Qed.

(** The page header's parent field. *)
Definition parent_of (b : page) : Z := le_val (sub PAGE_HEADER_PARENT_INDEX_OFFSET 8 b).

Section Split.
Context {D : Type} `{DecimalLaws D} (t : TableDefinition).
Variables (self_id right_id : PageId) (s : Leaves) (ks : list (Key D)).
Variables (record : DbRecord D) (key : Key D) (bytes : list Z) (i : Z).
Hypothesis L : leaf_inv t (self_page s) ks.
Hypothesis Hright : wf (right_page s).
Hypothesis Hempty : records (right_page s) = [].
Hypothesis He : encodes t record key bytes.
Hypothesis Hgap : gap key ks i.
#[local] Abbreviation rs := (records (self_page s)).
#[local] Abbreviation all := (put i bytes rs).
#[local] Abbreviation at_ := (split_point rs bytes i).
#[local] Abbreviation left_records := (take (Z.to_nat at_) all).
#[local] Abbreviation right_records := (drop (Z.to_nat at_) all).

Lemma split_facts :
  exists m : nat, at_ = Z.of_nat m /\ (m <= length rs)%nat
    /\ total_len (take m all) <= split_total rs bytes i / 2 < total_len (take (S m) all)
    /\ need (take m all) <= PAGE_SIZE - PAGE_HEADER_SIZE
    /\ Forall bytes_ok (take m all) /\ Forall bytes_ok (drop m all).
Proof.
  pose proof (leaf_wf _ _ _ L) as W.
  assert (0 <= i <= zlen rs) as Hi.
  { pose proof (zlen_ks t (self_page s) ks L). pose proof (proj1 Hgap). lia. }
  destruct (split_point_ok rs bytes i (enc_pos _ _ _ _ He)) as (m & Hm & Hle & H1 & H2).
  pose proof (split_left_fits rs bytes i (enc_pos _ _ _ _ He) Hi m Hle H1) as Hfit.
  exists m. split_and!; try done.
  - pose proof (afree_need (self_page s)). pose proof (wf_acontig_nonneg _ W).
    pose proof (wf_agarbage _ W). unfold acontig in *. lia.
  - apply Forall_take. unfold put. pose proof (records_bytes_ok _ W).
    apply Forall_app. split; [by apply Forall_take|]. constructor; [apply He|by apply Forall_drop].
  - apply Forall_drop. unfold put. pose proof (records_bytes_ok _ W).
    apply Forall_app. split; [by apply Forall_take|]. constructor; [apply He|by apply Forall_drop].
Qed.

(** The pages before the right records are written: the left page is rewritten. *)
Lemma split_left :
  exists a sep, wf a /\ records a = left_records
    /\ next_ptr a = INVALID_PAGE_INDEX /\ prev_ptr a = INVALID_PAGE_INDEX
    /\ put i key ks !! Z.to_nat at_ = Some sep
    /\ forall r, (sfor right_records (fun r => on_right (append r);; mret tt);;
         on_self (set_next_leaf_index (Some (page_index right_id)));;
         on_right (set_next_leaf_index (ptr_option (next_ptr (self_page s))));;
         on_right (set_prev_leaf_index (Some (page_index self_id)));;
         on_next (set_prev_leaf_index (Some (page_index right_id)));;
         mret sep) (mkLeaves a (right_page s) (next_page s)) = r ->
       split_and_insert self_id right_id record t s = r.
Proof.
  pose proof (leaf_wf _ _ _ L) as W. pose proof (wf_len _ W) as Hl. pose proof (wf_len _ Hright) as Hlr.
  destruct split_facts as (m & Hat & Hm & _ & Hfit & Hb1 & Hb2).
  rewrite !Hat, !Nat2Z.id. pose proof (zlen_ks t (self_page s) ks L) as Hz. unfold zlen in Hz.
  destruct (lookup_lt_is_Some_2 (put i key ks) m) as [sep Hsep]; [rewrite length_put; unfold zlen in *; lia|].
  set (a0 := initialized LeafNode (parent_of (self_page s))).
  pose proof (append_all_ok (take m all) a0 (initialized_wf _ _) Hb1) as Hrun.
  assert (acontig (abs a0) = PAGE_SIZE - PAGE_HEADER_SIZE) as Hroom
    by (unfold a0; by rewrite initialized_abs).
  rewrite Hroom, (proj2 (Z.ltb_ge _ _)) in Hrun by done. destruct Hrun as (a & Hrun & [Wa Hra _ Hha]).
  destruct (header_ptrs a0 a) as [Hnp Hpp]; [apply zlen_initialized|by apply wf_len|done|].
  exists a, sep. split_and!; [done| | | |done|].
  - rewrite Hra. unfold a0, records. by rewrite initialized_slots.
  - rewrite Hnp. apply initialized_next.
  - rewrite Hpp. apply initialized_prev.
  - intros r <-. destruct He as [Hser Hrec _ _ _]. unfold split_and_insert.
    gstep get_u16_eq by pg. fold (n_items (right_page s)).
    assert (n_items (right_page s) = 0) as ->.
    { pose proof (wf_items _ Hright). rewrite <- zlen_records by lia. by rewrite Hempty. }
    rewrite Z.eqb_refl. cbn [negb].
    gstep get_u16_eq by pg. fold (n_items (self_page s)).
    eapply slift_step; [by rewrite Hser|]. cbv beta. eapply slift_step; [by apply Hrec|]. cbv beta.
    eapply sget_step; [by apply (collect_sorted_ok t (self_page s) ks key bytes i)|]. cbv beta iota zeta.
    fold at_. rewrite Hat.
    eapply slift_step; [apply index_ok with (x := sep); [lia|by rewrite Nat2Z.id]|]. cbv beta.
    gstep get_u64_eq by pg. fold (parent_of (self_page s)).
    gstep get_next_ok by done. rewrite Nat2Z.id.
    erewrite (sbind_ok _ _ _ tt (mkLeaves a0 (right_page s) (next_page s))).
    2:{ unfold on_self. rewrite initialize_eq by done. unfold a0. do 3 f_equal.
        by case_bool. }
    erewrite (sbind_ok _ _ _ tt (mkLeaves a (right_page s) (next_page s))).
    2:{ rewrite on_self_run. cbn [self_page right_page next_page]. by rewrite Hrun. }
    eapply slift_step; [|reflexivity].
    pose proof (wf_items _ W). pose proof (zlen_records (self_page s) ltac:(lia)) as Hn.
    assert (zlen all = n_items (self_page s) + 1) as Hall by (rewrite zlen_put; lia).
    rewrite slice_ok by (rewrite ?Hall; unfold zlen in *; lia). f_equal.
    unfold sub. rewrite Nat2Z.id. apply take_ge. rewrite length_drop, length_put. unfold zlen in Hn. lia.
Qed.

Lemma split_keys m :
  Forall2 (has_key t) (take m all) (take m (put i key ks))
  /\ Forall2 (has_key t) (drop m all) (drop m (put i key ks))
  /\ sorted_keys_ok (take m (put i key ks)) /\ sorted_keys_ok (drop m (put i key ks))
  /\ forall a b, a ∈ take m (put i key ks) -> b ∈ drop m (put i key ks) -> key_lt a b.
Proof.
  assert (Forall2 (has_key t) all (put i key ks)) as Hk
    by (apply Forall2_put; [apply L|apply He]).
  pose proof (sorted_put key ks i (leaf_sorted _ _ _ L) Hgap) as Hs.
  rewrite <- (take_drop m (put i key ks)) in Hs. apply sorted_app in Hs as (? & ? & ?).
  split_and!; [by apply Forall2_take|by apply Forall2_drop|done..].
Qed.

(** The pages once the right records are written: all the pointers are set. *)
Lemma split_right a b' (sep : Key D) :
  wf a -> wf b' -> opt_wf (next_page s) ->
  0 <= page_index self_id < 2 ^ 32 -> 0 <= page_index right_id < 2 ^ 32 ->
  exists s',
    (on_self (set_next_leaf_index (Some (page_index right_id)));;
     on_right (set_next_leaf_index (ptr_option (next_ptr (self_page s))));;
     on_right (set_prev_leaf_index (Some (page_index self_id)));;
     on_next (set_prev_leaf_index (Some (page_index right_id)));;
     mret sep) (mkLeaves a b' (next_page s)) = (Ok sep, s')
    /\ wf (self_page s') /\ records (self_page s') = records a
    /\ next_ptr (self_page s') = page_index right_id /\ prev_ptr (self_page s') = prev_ptr a
    /\ wf (right_page s') /\ records (right_page s') = records b'
    /\ next_ptr (right_page s') = next_ptr (self_page s)
    /\ prev_ptr (right_page s') = page_index self_id
    /\ relinked (page_index right_id) (next_page s) (next_page s').
Proof.
  intros Wa Wb Hn Hs Hr. pose proof (next_ptr_range _ (leaf_wf _ _ _ L)) as Hnp.
  destruct (with_next_ok a _ Wa Hr) as (Wa' & Aa & Na & Pa).
  destruct (with_next_ok b' _ Wb Hnp) as (Wb1 & Ab1 & Nb1 & Pb1).
  destruct (with_prev_ok _ _ Wb1 Hs) as (Wb2 & Ab2 & Pb2 & Nb2).
  set (a2 := with_next (page_index right_id) a) in *.
  set (b1 := with_next (next_ptr (self_page s)) b') in *.
  set (b2 := with_prev (page_index self_id) b1) in *.
  destruct (on_next_set_prev (mkLeaves a2 b2 (next_page s)) (page_index right_id)) as (n' & Hn' & Hre);
    [done|done|]. exists (mkLeaves a2 b2 n'). cbn [self_page right_page next_page] in *.
  split.
  - rewrite (sbind_ok _ _ _ tt (mkLeaves a2 b' (next_page s))).
    2:{ unfold on_self. cbn [self_page right_page next_page]. by rewrite set_next_ok by apply Wa. }
    rewrite (sbind_ok _ _ _ tt (mkLeaves a2 b1 (next_page s))).
    2:{ unfold on_right. cbn [self_page right_page next_page]. rewrite set_next_ok by apply Wb.
        by rewrite option_ptr_option. }
    rewrite (sbind_ok _ _ _ tt (mkLeaves a2 b2 (next_page s))).
    2:{ unfold on_right. cbn [self_page right_page next_page]. by rewrite set_prev_ok by apply Wb1. }
    by rewrite (sbind_ok _ _ _ _ _ Hn').
  - apply abs_records in Aa, Ab1, Ab2. split_and!; try done; congruence.
Qed.
End Split.

(** * Properties *)

Section Props.
Context {D : Type} `{DecimalLaws D} (t : TableDefinition).

(** The new right page must be empty. *)
Lemma split_right_not_empty self_id right_id s (record : DbRecord D) :
  wf (right_page s) -> records (right_page s) <> [] ->
  split_and_insert self_id right_id record t s = (Err NewRightSiblingNotEmpty, s).
Proof.
  intros Hw Hne. unfold split_and_insert. pose proof (wf_len _ Hw).
  gstep get_u16_eq by pg. fold (n_items (right_page s)).
  pose proof (wf_items _ Hw). rewrite <- zlen_records by lia.
  destruct (records (right_page s)) as [|r rs]; [done|]. rewrite zlen_cons.
  pose proof (zlen_nonneg rs). by rewrite (proj2 (Z.eqb_neq _ _)) by lia.
Qed.

(** The split, when the right part fits. *)
Lemma split_fits self_id right_id s ks (record : DbRecord D) key bytes i :
  encodes t record key bytes -> leaf_inv t (self_page s) ks -> locate key ks 0 = NotFound i ->
  wf (right_page s) -> records (right_page s) = [] -> opt_wf (next_page s) ->
  0 <= page_index self_id < 2 ^ 32 -> 0 <= page_index right_id < 2 ^ 32 ->
  let rs := put i bytes (records (self_page s)) in
  let m := Z.to_nat (split_point (records (self_page s)) bytes i) in
  need (drop m rs) <= acontig (abs (right_page s)) ->
  exists s' sep, split_and_insert self_id right_id record t s = (Ok sep, s')
    /\ leaf_inv t (self_page s') (take m (put i key ks))
    /\ leaf_inv t (right_page s') (drop m (put i key ks))
    /\ records (self_page s') = take m rs /\ records (right_page s') = drop m rs
    /\ total_len (take m rs) <= split_total (records (self_page s)) bytes i / 2
       < total_len (take (S m) rs)
    /\ (exists rest, drop m (put i key ks) = sep :: rest)
    /\ Forall (fun k => key_lt k sep) (take m (put i key ks))
    /\ next_ptr (self_page s') = page_index right_id
    /\ prev_ptr (self_page s') = INVALID_PAGE_INDEX
    /\ next_ptr (right_page s') = next_ptr (self_page s)
    /\ prev_ptr (right_page s') = page_index self_id
    /\ relinked (page_index right_id) (next_page s) (next_page s').
Proof.
  intros He L Hgap Hw Hemp Hn Hs Hr rs m Hneed. apply locate_gap in Hgap; [|apply L].
  destruct (split_left t self_id right_id s ks record key bytes i) as
    (a & sep & Wa & Hra & _ & Hpa & Hsep & Hrun); [done..|].
  destruct (split_facts t s ks record key bytes i) as (m' & Hm & _ & Hhalf & _ & _ & Hb); [done..|].
  subst rs m. rewrite Hm, !Nat2Z.id in *.
  pose proof (append_all_ok _ (right_page s) Hw Hb) as Happ.
  rewrite (proj2 (Z.ltb_ge _ _)) in Happ by done. destruct Happ as (b' & Happ & [Wb Hrb _ _]).
  destruct (split_right t self_id right_id s ks L a b' sep)
    as (s' & Hok & Wa' & Hra' & Hna & Hpa' & Wb' & Hrb' & Hnb & Hpb & Hre); [done..|].
  destruct (split_keys t s ks record key bytes i L He Hgap m') as (Hk1 & Hk2 & Hs1 & Hs2 & Hlt).
  exists s', sep. rewrite Hemp in Hrb. simpl in Hrb. split.
  { apply Hrun. rewrite (sbind_ok _ _ _ tt (mkLeaves a b' (next_page s))); [done|].
    rewrite on_right_run. cbn [self_page right_page next_page]. by rewrite Happ. }
  apply drop_S in Hsep as Hdrop.
  split_and!; try done; try congruence; try apply Hhalf.
  - split; [done|by rewrite Hra', Hra|done].
  - split; [done|by rewrite Hrb', Hrb|done].
  - by eexists.
  - apply Forall_forall. intros k Hk. apply Hlt; [done|]. rewrite Hdrop. left.
Qed.

(** C7: [split_and_insert] of a row whose key is not on the leaf, into an
    empty right page with room for its part: the row is put where its key
    belongs and the sorted rows are cut in two.  The left page keeps the longest
    prefix that is at most half of the bytes the loop has counted, the right page
    gets the rest.  When a larger key is on the leaf these are the bytes of all
    rows, the new one included.  When the new key is the largest the new row is
    not counted: it goes to the right, and the left page keeps the longest prefix
    of the old rows that is at most half of the old rows alone.  Both pages are
    sorted; the separator returned is the first key on the right, greater than
    every key on the left; the next pointers run left, right, old next, the right
    page and the old next point back.  (The left page's own prev pointer is lost:
    it is [None] now.) *)
Theorem split_and_insert_spec self_id right_id s ks (record : DbRecord D) key bytes i :
  encodes t record key bytes -> leaf_inv t (self_page s) ks -> locate key ks 0 = NotFound i ->
  wf (right_page s) -> records (right_page s) = [] -> opt_wf (next_page s) ->
  0 <= page_index self_id < 2 ^ 32 -> 0 <= page_index right_id < 2 ^ 32 ->
  let old := records (self_page s) in
  let rs := put i bytes old in
  let m := Z.to_nat (split_point old bytes i) in
  need (drop m rs) <= acontig (abs (right_page s)) ->
  exists s' sep, split_and_insert self_id right_id record t s = (Ok sep, s')
    /\ leaf_inv t (self_page s') (take m (put i key ks))
    /\ leaf_inv t (right_page s') (drop m (put i key ks))
    /\ records (self_page s') = take m rs /\ records (right_page s') = drop m rs
    /\ (i < zlen old -> total_len (take m rs) <= total_len rs / 2 < total_len (take (S m) rs))
    /\ (i = zlen old -> rs = old ++ [bytes] /\ take m rs = take m old
         /\ total_len (take m old) <= total_len old / 2 < total_len (take (S m) rs))
    /\ (exists rest, drop m (put i key ks) = sep :: rest)
    /\ Forall (fun k => key_lt k sep) (take m (put i key ks))
    /\ next_ptr (self_page s') = page_index right_id
    /\ prev_ptr (self_page s') = INVALID_PAGE_INDEX
    /\ next_ptr (right_page s') = next_ptr (self_page s)
    /\ prev_ptr (right_page s') = page_index self_id
    /\ relinked (page_index right_id) (next_page s) (next_page s').
Proof.
  intros He L Hgap Hw Hemp Hn Hs Hr old rs m Hneed.
  destruct (split_fits self_id right_id s ks record key bytes i)
    as (s' & sep & Hrun & L1 & L2 & Hr1 & Hr2 & Hhalf & Hrest); [done..|].
  fold old rs m in L1, L2, Hr1, Hr2, Hhalf. exists s', sep. do 5 (split; [done|]).
  destruct (split_facts t s ks record key bytes i) as (m' & Hm & Hle & _); [done|done|by apply locate_gap, Hgap; apply L|].
  assert (m <= length old)%nat as Hmle by (unfold m, old; lia).
  unfold split_total in Hhalf. split; [|split; [|exact Hrest]]; intros Hi.
  - rewrite (proj2 (Z.ltb_lt _ _)) in Hhalf by done. unfold rs. by rewrite total_len_put.
  - rewrite (proj2 (Z.ltb_ge _ _)), Z.add_0_r in Hhalf by lia.
    assert (rs = old ++ [bytes]) as Hrs by (unfold rs; by apply put_largest).
    assert (take m rs = take m old) as Htake by (rewrite Hrs; by apply take_app_le).
    rewrite Htake in Hhalf. done.
Qed.

(** C34: The split can leave the left page without a row: when the key of the
    new row is the largest and the first row is more than half of the old rows'
    bytes (as on a leaf of one row), all the rows go to the right page, and the
    separator is the first key of the leaf, whatever the size of the new row. *)
Theorem split_and_insert_lopsided self_id right_id s k ks (record : DbRecord D) key bytes r rest :
  encodes t record key bytes -> leaf_inv t (self_page s) (k :: ks) ->
  locate key (k :: ks) 0 = NotFound (zlen (r :: rest)) -> records (self_page s) = r :: rest ->
  total_len (r :: rest) < 2 * zlen r ->
  wf (right_page s) -> records (right_page s) = [] -> opt_wf (next_page s) ->
  0 <= page_index self_id < 2 ^ 32 -> 0 <= page_index right_id < 2 ^ 32 ->
  need (r :: rest ++ [bytes]) <= acontig (abs (right_page s)) ->
  exists s', split_and_insert self_id right_id record t s = (Ok k, s')
    /\ leaf_inv t (self_page s') [] /\ records (self_page s') = []
    /\ leaf_inv t (right_page s') (k :: ks ++ [key]) /\ records (right_page s') = r :: rest ++ [bytes].
Proof.
  intros He L Hgap Hold Hbig Hw Hemp Hn Hs Hr Hneed.
  assert (zlen (k :: ks) = zlen (r :: rest)) as Hz.
  { rewrite <- Hold. by apply (zlen_ks t). }
  assert (split_point (records (self_page s)) bytes (zlen (r :: rest)) = 0) as Hm.
  { rewrite Hold. unfold split_point, find_split_index_by_size, split_total. rewrite put_largest by done.
    rewrite (proj2 (Z.ltb_ge _ _)) by lia. cbn [app find_split_index].
    pose proof (Z.div_lt_upper_bound (total_len (r :: rest) + 0) 2 (zlen r) ltac:(lia) ltac:(lia)).
    by rewrite (proj2 (Z.ltb_lt _ _)) by lia. }
  destruct (split_fits self_id right_id s (k :: ks) record key bytes (zlen (r :: rest)))
    as (s' & sep & Hrun & L1 & L2 & Hr1 & Hr2 & _ & (l & Hsep) & _); try done.
  { rewrite Hm, Hold, put_largest by done. exact Hneed. }
  rewrite Hm, Hold, ?put_largest in * by done. cbn [Z.to_nat take drop app] in *.
  injection Hsep as -> _. by exists s'.
Qed.

(** C37: When the right part does not fit on the right page, [split_and_insert]
    returns [PageFull] after it has rewritten the left page: of the old rows and
    the new one, the left page holds the left part and the right page a prefix of
    the right part; one row at least is on neither page.  The last row of all is
    among the lost ones: unless the new key was the largest, this is the last row
    that was on the leaf.  The left page's next pointer is gone. *)
Theorem split_and_insert_overflow self_id right_id s ks (record : DbRecord D) key bytes i :
  encodes t record key bytes -> leaf_inv t (self_page s) ks -> locate key ks 0 = NotFound i ->
  wf (right_page s) -> records (right_page s) = [] ->
  let old := records (self_page s) in
  let rs := put i bytes old in
  let m := Z.to_nat (split_point old bytes i) in
  acontig (abs (right_page s)) < need (drop m rs) ->
  exists s' lost, split_and_insert self_id right_id record t s = (Err PageFull, s')
    /\ records (self_page s') = take m rs
    /\ rs = records (self_page s') ++ records (right_page s') ++ lost
    /\ last lost = (if i <? zlen old then last old else Some bytes)
    /\ last lost <> None
    /\ next_ptr (self_page s') = INVALID_PAGE_INDEX.
Proof.
  intros He L Hgap Hw Hemp old rs m Hneed. apply locate_gap in Hgap; [|apply L].
  destruct (split_left t self_id right_id s ks record key bytes i) as
    (a & sep & Wa & Hra & Hna & _ & Hsep & Hrun); [done..|].
  destruct (split_facts t s ks record key bytes i) as (m' & Hm & Hle & _ & _ & _ & Hb); [done..|].
  fold old in Hra, Hrun, Hm, Hb. fold rs in Hra, Hrun, Hb. subst m. rewrite Hm, !Nat2Z.id in *.
  pose proof (append_all_ok _ (right_page s) Hw Hb) as Happ.
  rewrite (proj2 (Z.ltb_lt _ _)) in Happ by done. destruct Happ as (b' & n & Happ & Hlt & [Wb Hrb _ _]).
  rewrite Hemp in Hrb. simpl in Hrb.
  exists (mkLeaves a b' (next_page s)), (drop n (drop m' rs)). cbn [self_page right_page].
  assert (last (drop n (drop m' rs)) = last rs) as Hlast.
  { rewrite length_drop in Hlt. rewrite drop_drop. apply last_drop. lia. }
  assert (last rs = if i <? zlen old then last old else Some bytes) as Hrs.
  { pose proof (zlen_ks t (self_page s) ks L). pose proof (proj1 Hgap). apply last_put. unfold old. lia. }
  split; [|split; [done|split; [|split; [by rewrite Hlast|split; [|done]]]]].
  - apply Hrun. erewrite sbind_err; [done|].
    rewrite on_right_run. cbn [self_page right_page next_page]. by rewrite Happ.
  - by rewrite Hra, Hrb, take_drop, take_drop.
  - rewrite last_None. intros Hnil%(f_equal length). rewrite length_drop in Hnil. cbn in Hnil. lia.
Qed.
End Props.

Lemma empty_leaf_records : records empty_leaf = [].
Proof. unfold records, empty_leaf. by rewrite initialized_slots. Qed.

(** The user 2 goes into the leaf of 1 and 3, into an empty leaf on the right. *)
Lemma user_2_encodes : encodes users (user 2 [67; 68]) [VInt 2] (bytes_of 2 [67; 68]).
Proof. split; [reflexivity|reflexivity|reflexivity|by apply bytes_ok_dec|done]. Qed.

Lemma split_and_insert_spec_witness :
  let s := mkLeaves leaf_13 empty_leaf (Some leaf_3) in
  exists s' sep, split_and_insert (mkPageId 0 7) (mkPageId 0 8) (user 2 [67; 68]) users s = (Ok sep, s')
    /\ leaf_inv users (self_page s') [[VInt 1]]
    /\ leaf_inv users (right_page s') [[VInt 2]; [VInt 3]]
    /\ records (self_page s') = [bytes_of 1 [65]]
    /\ records (right_page s') = [bytes_of 2 [67; 68]; bytes_of 3 [66; 66]]
    /\ next_ptr (self_page s') = 8 /\ prev_ptr (right_page s') = 7.
Proof.
  intros s. destruct leaf_13_inv as (L & Ha & _). apply records_abs in Ha.
  destruct (split_and_insert_spec users (mkPageId 0 7) (mkPageId 0 8) s _ _ _ _ 1
    user_2_encodes L) as (s' & sep & Hrun & L1 & L2 & Hr1 & Hr2 & _ & _ & _ & _ & Hn & _ & _ & Hp & _);
    unfold s in *; cbn [self_page right_page next_page page_index] in *.
  - reflexivity.
  - apply initialized_wf.
  - apply empty_leaf_records.
  - apply (leaf_wf _ _ _ (proj1 leaf_3_inv)).
  - lia.
  - lia.
  - unfold empty_leaf. rewrite Ha, initialized_abs. vm_compute. discriminate.
  - rewrite Ha in *. exists s', sep. split_and!; [exact Hrun|exact L1|exact L2|exact Hr1|exact Hr2|done|done].
Defined.

(** ** Data lost by a split

    A leaf of two long rows, with the keys 1 and 3, is split for a third. *)
Definition long (id n : Z) : DbRecord SimpleDecimal := user id (replicate (Z.to_nat n) 88).
Definition long_bytes (id n : Z) : list Z := bytes_of id (replicate (Z.to_nat n) 88).

Lemma long_encodes id n :
  (id, n) ∈ [(1, 3000); (3, 5000); (2, 5100)] -> encodes users (long id n) [VInt id] (long_bytes id n).
Proof.
  intros Hin. repeat (apply elem_of_cons in Hin as [[= -> ->]|Hin]); [..|by apply not_elem_of_nil in Hin];
    (split; [vm_compute; reflexivity|intros E; vm_compute; reflexivity|vm_compute; reflexivity
            |apply bytes_ok_dec; vm_compute; reflexivity|vm_compute; reflexivity]).
Qed.

Definition long_leaf : page :=
  (insert_record (long 3 5000) users (insert_record (long 1 3000) users empty_leaf).2).2.

Lemma long_leaf_inv :
  leaf_inv users long_leaf [[VInt 1]; [VInt 3]]
  /\ records long_leaf = [long_bytes 1 3000; long_bytes 3 5000].
Proof.
  destruct (singleton_leaf _ _ _ (long_encodes 1 3000 ltac:(left))) as (L1 & Ha & _);
    [vm_compute; discriminate|]. cbv zeta in *.
  destruct (insert_record_gap users _ _ _ _ _ 1 L1 (long_encodes 3 5000 ltac:(right; left)))
    as (b' & Hins & L & Hab & _); [|rewrite Ha; vm_compute; discriminate|].
  { split_and!; [lia|vm_compute; discriminate|by repeat constructor|constructor]. }
  unfold long_leaf. rewrite Hins. cbn [snd]. split; [exact L|].
  rewrite (records_abs _ _ _ Hab), (records_abs _ _ _ Ha). done.
Qed.

(** The row with the key 3 was on the leaf; after the failed split it is lost. *)
Lemma split_and_insert_overflow_witness :
  let s := mkLeaves long_leaf empty_leaf None in
  exists s' lost, split_and_insert (mkPageId 0 7) (mkPageId 0 8) (long 2 5100) users s = (Err PageFull, s')
    /\ records (self_page s) = [long_bytes 1 3000; long_bytes 3 5000]
    /\ records (self_page s') = [long_bytes 1 3000]
    /\ [long_bytes 1 3000; long_bytes 2 5100; long_bytes 3 5000]
       = records (self_page s') ++ records (right_page s') ++ lost
    /\ last lost = Some (long_bytes 3 5000).
Proof.
  intros s. destruct long_leaf_inv as (L & Hr).
  destruct (split_and_insert_overflow users (mkPageId 0 7) (mkPageId 0 8) s _ _ _ _ 1
    (long_encodes 2 5100 ltac:(right; right; left)) L) as (s' & lost & Hrun & Hr1 & Hall & Hlast & _ & _);
    unfold s in *; cbn [self_page right_page next_page] in *.
  - reflexivity.
  - apply initialized_wf.
  - apply empty_leaf_records.
  - unfold empty_leaf. rewrite Hr, initialized_abs. vm_compute. reflexivity.
  - rewrite Hr in *.
    assert (Z.to_nat (split_point [long_bytes 1 3000; long_bytes 3 5000] (long_bytes 2 5100) 1) = 1%nat)
      as Hm by (vm_compute; reflexivity).
    rewrite Hm in *. exists s', lost.
    split; [exact Hrun|]. split; [reflexivity|]. split; [exact Hr1|]. split; [exact Hall|exact Hlast].
Defined.

(** A leaf of the row 1 is split for the row 3. *)
Lemma split_and_insert_lopsided_witness :
  let leaf := (insert_record (long 1 3000) users empty_leaf).2 in
  let s := mkLeaves leaf empty_leaf None in
  exists s', split_and_insert (mkPageId 0 7) (mkPageId 0 8) (long 3 5000) users s = (Ok [VInt 1], s')
    /\ records (self_page s') = [] /\ records (right_page s') = [long_bytes 1 3000; long_bytes 3 5000].
Proof.
  intros leaf s.
  destruct (singleton_leaf _ _ _ (long_encodes 1 3000 ltac:(left))) as (L & Ha & _); [vm_compute; discriminate|].
  cbv zeta in L, Ha. fold leaf in L, Ha. apply records_abs in Ha.
  destruct (split_and_insert_lopsided users (mkPageId 0 7) (mkPageId 0 8) s [VInt 1] [] _ _ _ (long_bytes 1 3000) []
    (long_encodes 3 5000 ltac:(right; left)) L) as (s' & Hrun & _ & Hr1 & _ & Hr2);
    unfold s in *; cbn [self_page right_page next_page page_index] in *.
  - reflexivity.
  - exact Ha.
  - vm_compute. reflexivity.
  - apply initialized_wf.
  - apply empty_leaf_records.
  - exact I.
  - lia.
  - lia.
  - unfold empty_leaf. rewrite initialized_abs. vm_compute. discriminate.
  - exists s'. split; [exact Hrun|]. split; [exact Hr1|exact Hr2].
Defined.
