(* ===== verification/LeafNodeTests.v ===== *)
(** The unit tests of [btree/btree_node.rs], as statements about the model:
    each definition says what the test of that name asserts.  Texts are runs of
    one letter of the length the test uses where only the length matters. *)
From Stdlib Require Import String.
From S2P Require Import Prelude.
From S2P Require Import Bytes.
From S2P Require Import RustStr.
From S2P Require Import Schema.
From S2P Require Import DataModel.
From S2P Require Import Serializer.
From S2P Require Import SerializerTests.
From S2P Require Import Page.
From S2P Require Import SlottedPage.
From S2P Require Import LeafNode.

#[local] Abbreviation V := (DataValue SimpleDecimal).
#[local] Abbreviation page_m := (stateM page StorageError).
#[local] Abbreviation leaves_m := (stateM Leaves StorageError).

(** * The tests' set-up *)

Definition id_name : list (rstr * PrimitiveDataType * bool) :=
  [(str "id", TInt, false); (str "name", TVarchar 50, false)].
Definition id_only : list (rstr * PrimitiveDataType * bool) := [(str "id", TInt, false)].

(** [P] of the table with the given columns and the primary key [id]. *)
Definition with_schema (name : rstr) (l : list (rstr * PrimitiveDataType * bool))
    (P : TableDefinition -> Prop) : Prop :=
  match pk_table name l [str "id"] with Ok schema => P schema | _ => False end.

Definition row (id : Z) (name : rstr) : list V := [VInt id; VText name].

(** A new buffer, initialized as a leaf, on which [m] is run and must succeed. *)
Definition leaf_after {A} (m : page_m A) : outcome StorageError page :=
  match (initialize LeafNode None;; m) (fill 0 PAGE_SIZE) with
  | (Ok _, b) => Ok b
  | (Err e, _) => Err e
  | (Panic, _) => Panic
  end.

Definition insert_all (schema : TableDefinition) (rows : list (list V)) : page_m unit :=
  sfor rows (fun r => insert_record r schema;; mret tt).

(** [deserialize_primary_key] of every record of a page. *)
Definition page_keys (schema : TableDefinition) (b : page) : outcome StorageError (list (Key SimpleDecimal)) :=
  n ← get_item_count b;
  ofold (fun acc i => r ← get_record i b; data ← unwrap_opt r;
                      k ← unwrap_res (deserialize_primary_key schema data); Ok (acc ++ [k]))
    [] (range 0 n).

Definition int_keys (l : list Z) : list (Key SimpleDecimal) := (fun i => [VInt i]) <$> l.

(** What [m] returns on the given pages, and the pages it leaves. *)
Definition on_leaves {A} (m : leaves_m A) (self right : outcome StorageError page)
    (next : option (outcome StorageError page)) (P : outcome StorageError A -> Leaves -> Prop) : Prop :=
  match self, right, next with
  | Ok a, Ok b, None => let '(r, s) := m (mkLeaves a b None) in P r s
  | Ok a, Ok b, Some (Ok c) => let '(r, s) := m (mkLeaves a b (Some c)) in P r s
  | _, _, _ => False
  end.

Definition next_of (b : page) : outcome StorageError (option Z) := get_next_leaf_index b.
Definition prev_of (b : page) : outcome StorageError (option Z) := get_prev_leaf_index b.

(** [leaf.page_view]'s next page, when there is one. *)
Definition of_next {A} (f : page -> outcome StorageError A) (s : Leaves) : outcome StorageError A :=
  b ← unwrap_opt (next_page s); f b.

(** * Search, insert and update *)

Definition test_btree_node_dispatch : Prop :=
  match leaf_after (mret tt) with
  | Ok b => match btree_node_new (mkPageId 0 0) b with NLeaf _ => True | _ => False end
  | _ => False
  end.

Definition test_leaf_node_binary_search : Prop :=
  with_schema (str "users") id_name (fun schema =>
    match serialize (columns schema) (row 10 (str "Alice")),
          serialize (columns schema) (row 30 (str "Bob")) with
    | Ok rec0, Ok rec1 =>
        match leaf_after (try_insert_record 0 rec0;; try_insert_record 1 rec1) with
        | Ok b =>
            find_key [VInt 30 : V] schema b = Ok (Found 1)
            /\ find_key [VInt 20 : V] schema b = Ok (NotFound 1)
            /\ find_key [VInt 5 : V] schema b = Ok (NotFound 0)
            /\ find_key [VInt 100 : V] schema b = Ok (NotFound 2)
        | _ => False
        end
    | _, _ => False
    end).

Definition test_leaf_node_insert_record : Prop :=
  with_schema (str "users") id_name (fun schema =>
    match leaf_after (insert_all schema [row 30 (str "Bob"); row 10 (str "Alice"); row 20 (str "Charlie")]) with
    | Ok b =>
        @get_item_count StorageError b = Ok 3
        /\ page_keys schema b = Ok (int_keys [10; 20; 30])
        /\ (insert_record (row 20 (str "Clone")) schema b).1 = Err DuplicateKey
    | _ => False
    end).

Definition test_leaf_node_insert_page_full : Prop :=
  with_schema (str "users") [(str "id", TInt, false); (str "bio", TVarchar 8000, false)] (fun schema =>
    match leaf_after (insert_all schema [row 1 (fill 88 8100)]) with
    | Ok b => (insert_record (row 2 (fill 89 50)) schema b).1 = Err PageFull
    | _ => False
    end).

Definition test_leaf_node_update_record : Prop :=
  with_schema (str "users") id_name (fun schema =>
    match leaf_after (insert_all schema [row 10 (str "Alice")];;
                      update_record (row 10 (str "Alicia")) schema) with
    | Ok b =>
        @get_item_count StorageError b = Ok 1
        /\ (r ← get_record 0 b; val ← unwrap_opt r;
            record ← unwrap_res (deserialize (columns schema) val);
            index 1 record) = @Ok StorageError V (VText (str "Alicia"))
    | _ => False
    end).

Definition test_leaf_node_update_record_not_found : Prop :=
  with_schema (str "users") id_name (fun schema =>
    match leaf_after (insert_all schema [row 10 (str "Alice")]) with
    | Ok b => (update_record (row 20 (str "Bob")) schema b).1 = Err KeyNotFound
    | _ => False
    end).

(** * Split *)

Definition four_users : list (list V) :=
  [row 10 (str "Alice"); row 20 (str "Bob"); row 30 (str "Charlie"); row 40 (str "David")].

Definition test_leaf_node_split_and_insert_with_right_sibling : Prop :=
  with_schema (str "users") id_name (fun schema =>
    on_leaves (split_and_insert (mkPageId 1 10) (mkPageId 1 11) (row 25 (str "Grace")) schema)
      (leaf_after (set_next_leaf_index (Some 12);; insert_all schema four_users))
      (leaf_after (mret tt))
      (Some (leaf_after (set_prev_leaf_index (Some 10);;
                         insert_all schema [row 50 (str "Eve"); row 60 (str "Frank")])))
      (fun r s =>
        next_of (self_page s) = Ok (Some 11) /\ prev_of (self_page s) = Ok None
        /\ prev_of (right_page s) = Ok (Some 10) /\ next_of (right_page s) = Ok (Some 12)
        /\ of_next prev_of s = Ok (Some 11)
        /\ match page_keys schema (self_page s), page_keys schema (right_page s), r with
           | Ok left_keys, Ok right_keys, Ok separator_key =>
               match last left_keys, head right_keys with
               | Some max_left, Some min_right => key_cmp max_left min_right = Lt
               | _, _ => False
               end
               /\ left_keys ++ right_keys = int_keys [10; 20; 25; 30; 40]
               /\ head right_keys = Some separator_key
           | _, _, _ => False
           end)).

Definition test_leaf_node_split_and_insert_no_right_sibling : Prop :=
  with_schema (str "users") id_name (fun schema =>
    on_leaves (split_and_insert (mkPageId 1 10) (mkPageId 1 11) (row 25 (str "Grace")) schema)
      (leaf_after (set_next_leaf_index None;; insert_all schema four_users))
      (leaf_after (mret tt)) None
      (fun r s =>
        next_of (self_page s) = Ok (Some 11) /\ prev_of (self_page s) = Ok None
        /\ prev_of (right_page s) = Ok (Some 10) /\ next_of (right_page s) = Ok None
        /\ match page_keys schema (right_page s), r with
           | Ok right_keys, Ok separator_key => head right_keys = Some separator_key
           | _, _ => False
           end)).

(** * Merge *)

(** The page of a merged leaf is empty and linked to none. *)
Definition cleared (b : page) : Prop :=
  @get_item_count StorageError b = Ok 0 /\ next_of b = Ok None /\ prev_of b = Ok None.

Definition ints (l : list Z) : list (list V) := (fun i => [VInt i]) <$> l.

Definition test_leaf_node_merge_with_next_sibling : Prop :=
  with_schema (str "users") id_only (fun schema =>
    on_leaves (merge (mkPageId 1 10))
      (leaf_after (set_next_leaf_index (Some 11);; insert_all schema (ints [10; 20])))
      (leaf_after (set_prev_leaf_index (Some 10);; set_next_leaf_index (Some 12);;
                   insert_all schema (ints [30; 40])))
      (Some (leaf_after (set_prev_leaf_index (Some 11);; insert_all schema (ints [50; 60]))))
      (fun r s =>
        r = Ok tt
        /\ @get_item_count StorageError (self_page s) = Ok 4
        /\ page_keys schema (self_page s) = Ok (int_keys [10; 20; 30; 40])
        /\ next_of (self_page s) = Ok (Some 12) /\ of_next prev_of s = Ok (Some 10)
        /\ cleared (right_page s))).

Definition test_leaf_node_merge_no_next_sibling : Prop :=
  with_schema (str "users") id_only (fun schema =>
    on_leaves (merge (mkPageId 1 10))
      (leaf_after (set_next_leaf_index (Some 11);; insert_all schema (ints [10; 20])))
      (leaf_after (set_prev_leaf_index (Some 10);; set_next_leaf_index None;;
                   insert_all schema (ints [30; 40])))
      None
      (fun r s =>
        r = Ok tt
        /\ @get_item_count StorageError (self_page s) = Ok 4
        /\ next_of (self_page s) = Ok None /\ prev_of (self_page s) = Ok None)).

Definition test_leaf_node_merge_basic_coalesce : Prop :=
  with_schema (str "customers") id_only (fun schema =>
    on_leaves (merge (mkPageId 1 10))
      (leaf_after (set_next_leaf_index (Some 11);; insert_all schema (ints [10; 20])))
      (leaf_after (set_prev_leaf_index (Some 10);; set_next_leaf_index None;;
                   insert_all schema (ints [30; 40])))
      None
      (fun r s =>
        r = Ok tt
        /\ @get_item_count StorageError (self_page s) = Ok 4
        /\ page_keys schema (self_page s) = Ok (int_keys [10; 20; 30; 40])
        /\ next_of (self_page s) = Ok None /\ prev_of (self_page s) = Ok None
        /\ cleared (right_page s))).

Definition test_leaf_node_merge_with_trailing_right_sibling : Prop :=
  with_schema (str "customers") id_only (fun schema =>
    on_leaves (merge (mkPageId 1 10))
      (leaf_after (set_next_leaf_index (Some 11);; insert_all schema (ints [10; 20])))
      (leaf_after (set_prev_leaf_index (Some 10);; set_next_leaf_index (Some 12);;
                   insert_all schema (ints [30; 40])))
      (Some (leaf_after (set_prev_leaf_index (Some 11);; set_next_leaf_index None;;
                         insert_all schema (ints [50; 60]))))
      (fun r s =>
        r = Ok tt
        /\ @get_item_count StorageError (self_page s) = Ok 4
        /\ page_keys schema (self_page s) = Ok (int_keys [10; 20; 30; 40])
        /\ next_of (self_page s) = Ok (Some 12) /\ of_next prev_of s = Ok (Some 10)
        /\ cleared (right_page s)
        /\ of_next (@get_item_count StorageError) s = Ok 2)).

Definition test_leaf_node_merge_exceeds_page_capacity : Prop :=
  with_schema (str "customers") [(str "id", TInt, false); (str "large_payload", TVarchar 8000, false)]
    (fun schema =>
    on_leaves (merge (mkPageId 1 10))
      (leaf_after (set_next_leaf_index (Some 11);; insert_all schema [row 10 (fill 65 5000)]))
      (leaf_after (set_prev_leaf_index (Some 10);; insert_all schema [row 20 (fill 66 4000)]))
      None
      (fun r s =>
        r = Err InsufficientSpaceForMerge
        /\ @get_item_count StorageError (self_page s) = Ok 1
        /\ @get_item_count StorageError (right_page s) = Ok 1
        /\ next_of (self_page s) = Ok (Some 11) /\ prev_of (right_page s) = Ok (Some 10))).

(** * All of them hold *)

Example leaf_tests :
  test_btree_node_dispatch /\ test_leaf_node_binary_search /\ test_leaf_node_insert_record
  /\ test_leaf_node_insert_page_full /\ test_leaf_node_update_record
  /\ test_leaf_node_update_record_not_found.
Proof. by vm_compute. Qed.

Example split_tests :
  test_leaf_node_split_and_insert_with_right_sibling
  /\ test_leaf_node_split_and_insert_no_right_sibling.
Proof. by vm_compute. Qed.

Example merge_tests :
  test_leaf_node_merge_with_next_sibling /\ test_leaf_node_merge_no_next_sibling
  /\ test_leaf_node_merge_basic_coalesce /\ test_leaf_node_merge_with_trailing_right_sibling
  /\ test_leaf_node_merge_exceeds_page_capacity.
Proof. by vm_compute. Qed.
