(* ===== verification/FileSystem.v ===== *)
(** Files ([file_system.rs]): the traits [FileSystem] and [FileHandle] as
    classes with the laws the disk manager relies on, and the implementation on
    [tokio::fs].  The operations of [tokio] itself are a class of their own,
    its documented behaviour a class of laws; one assumption of the code that the
    documentation does not grant is a class apart. *)
From stdpp Require Import gmap.
From Stdlib Require Import String.
From S2P Require Import Prelude.
From S2P Require Import Bytes.
From S2P Require Import RustStr.

(** * Paths and errors of the standard library *)

(** A [PathBuf] as the list of its components. *)
Definition Path : Type := list rstr.

(** [path.join(component)]. *)
Definition path_join (p : Path) (component : rstr) : Path := p ++ [component].

(** The part of a file name before its last dot, if one is there and not first. *)
Definition dot : Z := 46.
Fixpoint last_dot (i : nat) (name : rstr) : option nat :=
  match name with
  | [] => None
  | c :: name =>
      match last_dot (S i) name with
      | Some j => Some j
      | None => if c =? dot then Some i else None
      end
  end.
Definition file_stem (name : rstr) : rstr :=
  match last_dot 0 name with
  | Some (S j) => take (S j) name
  | _ => name
  end.

(** [path.with_extension(ext)] for a path with a file name. *)
Definition with_extension (p : Path) (ext : rstr) : Path :=
  match last p with
  | Some name => take (length p - 1) p ++ [file_stem name ++ dot :: ext]
  | None => p
  end.

(** [std::io::Error], by its kind. *)
Inductive IoError := AlreadyExists | NotFound | OtherIo (message : rstr).

#[export] Instance IoError_eq_dec : EqDecision IoError.
Proof. solve_decision. Defined.

(** * The traits *)

(** [trait FileHandle]; [read_at] returns the count and the buffer after it. *)
Class FileHandle (W H : Type) := {
  len : H -> stateM W IoError Z;
  read_at : H -> list Z -> Z -> stateM W IoError (Z * list Z);
  set_len : H -> Z -> stateM W IoError unit;
  write_at : H -> list Z -> Z -> stateM W IoError unit;
}.

(** [trait FileSystem]. *)
Class FileSystem (W H : Type) `{!FileHandle W H} := {
  create_dir_all : Path -> stateM W IoError unit;
  create_file : Path -> stateM W IoError H;
  delete_file : Path -> stateM W IoError unit;
  file_exists : Path -> stateM W IoError bool;
  open_file : Path -> stateM W IoError H;
}.

(** * Their contract *)

(** A file of bytes [d] after [data] is written at [off]: a gap before it is
    filled with zeros. *)
Definition file_write (off : Z) (data d : list Z) : list Z :=
  splice off data (d ++ fill 0 (Z.max 0 (off + zlen data - zlen d))).

(** The file after its length is set. *)
Definition file_resize (n : Z) (d : list Z) : list Z :=
  sub 0 n (d ++ fill 0 (Z.max 0 (n - zlen d))).

(** What is on the disk: the folders, which file a path names, and the bytes of
    each file. *)
Class FsView (W H : Type) := {
  fs_folders : W -> gset Path;
  fs_dir : W -> gmap Path Z;
  fs_data : W -> gmap Z (list Z);
  handle_file : H -> Z;
}.

Definition fs_same {W H} `{FsView W H} (w w' : W) : Prop :=
  fs_dir w' = fs_dir w /\ fs_data w' = fs_data w.

(** Something has that path. *)
Definition fs_exists {W H} `{FsView W H} (p : Path) (w : W) : Prop :=
  is_Some (fs_dir w !! p) \/ p ∈ fs_folders w.

(** The path names no file any more; the other files are as they were (what is
    left of this one, when a handle on it is open, is up to the platform). *)
Definition file_removed {W H} `{FsView W H} (p : Path) (w w' : W) : Prop :=
  exists i, fs_dir w !! p = Some i /\ fs_dir w' = delete p (fs_dir w)
    /\ forall j, j <> i -> fs_data w' !! j = fs_data w !! j.

(** A failed write may have written a part of the data. *)
Definition part_written (off : Z) (data d d' : list Z) : Prop :=
  d' = d \/ exists k, 0 < k <= zlen data /\ d' = file_write off (sub 0 k data) d.

Class FileSystemLaws (W H : Type) `{FileSystem W H, FsView W H} : Prop := {
  create_dir_all_law : forall p w,
    match create_dir_all p w with
    | (Ok _, w') => fs_same w w' /\ p ∈ fs_folders w' /\ fs_folders w ⊆ fs_folders w'
    | (Err _, w') => fs_same w w'
    | (Panic, _) => False
    end;
  create_file_law : forall p w,
    match create_file p w with
    | (Ok h, w') =>
        fs_dir w !! p = None /\ fs_data w !! handle_file h = None
        /\ fs_dir w' = <[p := handle_file h]> (fs_dir w)
        /\ fs_data w' = <[handle_file h := []]> (fs_data w)
    | (Err _, w') => fs_same w w'
    | (Panic, _) => False
    end;
  file_exists_law : forall p w,
    match file_exists p w with
    | (Ok b, w') => fs_same w w' /\ (b = true <-> fs_exists p w)
    | (Err _, w') => fs_same w w'
    | (Panic, _) => False
    end;
  delete_file_law : forall p w,
    match delete_file p w with
    | (Ok _, w') => file_removed p w w'
    | (Err _, w') => fs_same w w'
    | (Panic, _) => False
    end;
  open_file_law : forall p w,
    match open_file p w with
    | (Ok h, w') => fs_same w w' /\ fs_dir w !! p = Some (handle_file h)
    | (Err _, w') => fs_same w w'
    | (Panic, _) => False
    end;
  len_law : forall h w d, fs_data w !! handle_file h = Some d ->
    match len h w with
    | (Ok n, w') => fs_same w w' /\ n = zlen d
    | (Err _, w') => fs_same w w'
    | (Panic, _) => False
    end;
  set_len_law : forall h n w d, fs_data w !! handle_file h = Some d -> 0 <= n ->
    match set_len h n w with
    | (Ok _, w') =>
        fs_dir w' = fs_dir w /\ fs_data w' = <[handle_file h := file_resize n d]> (fs_data w)
    | (Err _, w') => fs_same w w'
    | (Panic, _) => False
    end;
  read_at_law : forall h buffer off w d, fs_data w !! handle_file h = Some d -> 0 <= off ->
    match read_at h buffer off w with
    | (Ok (n, buffer'), w') =>
        fs_same w w' /\ 0 <= n <= zlen buffer /\ n <= Z.max 0 (zlen d - off)
        /\ (0 < zlen buffer -> off < zlen d -> 0 < n)
        /\ buffer' = sub off n d ++ sub n (zlen buffer - n) buffer
    | (Err _, w') => fs_same w w'
    | (Panic, _) => False
    end;
  write_at_law : forall h data off w d, fs_data w !! handle_file h = Some d -> 0 <= off ->
    match write_at h data off w with
    | (Ok _, w') =>
        fs_dir w' = fs_dir w /\ fs_data w' = <[handle_file h := file_write off data d]> (fs_data w)
    | (Err _, w') =>
        fs_dir w' = fs_dir w /\ exists d', fs_data w' = <[handle_file h := d']> (fs_data w)
                            /\ part_written off data d d'
    | (Panic, _) => False
    end;
}.

(** * [tokio::fs] *)

(** [OpenOptions]: all flags are off in [OpenOptions::new()]. *)
Record OpenOptions := mkOpen {
  oo_read : bool; oo_write : bool; oo_create : bool; oo_create_new : bool; oo_truncate : bool;
}.

(** [File::read] is given the buffer's length and returns the bytes read. *)
Class TokioFs (W F : Type) := {
  t_create_dir_all : Path -> stateM W IoError unit;
  t_open : OpenOptions -> Path -> stateM W IoError F;
  t_remove_file : Path -> stateM W IoError unit;
  t_try_exists : Path -> stateM W IoError bool;
  t_metadata_len : F -> stateM W IoError Z;
  t_seek_start : F -> Z -> stateM W IoError Z;
  t_read : F -> Z -> stateM W IoError (list Z);
  t_set_len : F -> Z -> stateM W IoError unit;
  t_write_all : F -> list Z -> stateM W IoError unit;
}.

(** ** [TokioFileHandle], [TokioFileSystem]

    Each method of the handle holds the file's lock from its first statement to
    its end, so it is one step for the other users of the handle. *)
#[export] Instance tokio_file_handle {W F} `{TokioFs W F} : FileHandle W F := {
  len file := metadata ← t_metadata_len file; mret metadata;
  read_at file buffer offset :=
    t_seek_start file offset;;
    bytes ← t_read file (zlen buffer);
    let bytes_read := zlen bytes in
    mret (bytes_read, bytes ++ sub bytes_read (zlen buffer - bytes_read) buffer);
  set_len file n := t_set_len file n;; mret tt;
  write_at file data offset :=
    t_seek_start file offset;; t_write_all file data;; mret tt;
}.

#[export] Instance tokio_file_system {W F} `{TokioFs W F} : FileSystem W F := {
  create_dir_all path := t_create_dir_all path;
  create_file path := file ← t_open (mkOpen true true false true false) path; mret file;
  delete_file path := t_remove_file path;
  file_exists path := t_try_exists path;
  open_file path := file ← t_open (mkOpen true true false false false) path; mret file;
}.

(** ** Documented behaviour of [tokio::fs]

    Every open [File] has a cursor of its own. *)
Class TokioCursor (W F : Type) := { t_cursor : W -> F -> Z }.

Class TokioFsLaws (W F : Type) `{TokioFs W F, FsView W F, TokioCursor W F} : Prop := {
  t_create_dir_all_law : forall p w,
    match t_create_dir_all p w with
    | (Ok _, w') => fs_same w w' /\ p ∈ fs_folders w' /\ fs_folders w ⊆ fs_folders w'
    | (Err _, w') => fs_same w w'
    | (Panic, _) => False
    end;
  (* [create_new]: no file may exist there; [create(false)]: one must. *)
  t_open_new_law : forall p w,
    match t_open (mkOpen true true false true false) p w with
    | (Ok f, w') =>
        fs_dir w !! p = None /\ fs_data w !! handle_file f = None
        /\ fs_dir w' = <[p := handle_file f]> (fs_dir w)
        /\ fs_data w' = <[handle_file f := []]> (fs_data w)
    | (Err _, w') => fs_same w w'
    | (Panic, _) => False
    end;
  t_open_law : forall p w,
    match t_open (mkOpen true true false false false) p w with
    | (Ok f, w') => fs_same w w' /\ fs_dir w !! p = Some (handle_file f)
    | (Err _, w') => fs_same w w'
    | (Panic, _) => False
    end;
  t_remove_file_law : forall p w,
    match t_remove_file p w with
    | (Ok _, w') => file_removed p w w'
    | (Err _, w') => fs_same w w'
    | (Panic, _) => False
    end;
  t_try_exists_law : forall p w,
    match t_try_exists p w with
    | (Ok b, w') => fs_same w w' /\ (b = true <-> fs_exists p w)
    | (Err _, w') => fs_same w w'
    | (Panic, _) => False
    end;
  t_metadata_len_law : forall f w d, fs_data w !! handle_file f = Some d ->
    match t_metadata_len f w with
    | (Ok n, w') => fs_same w w' /\ n = zlen d
    | (Err _, w') => fs_same w w'
    | (Panic, _) => False
    end;
  t_set_len_law : forall f n w d, fs_data w !! handle_file f = Some d -> 0 <= n ->
    match t_set_len f n w with
    | (Ok _, w') =>
        fs_dir w' = fs_dir w /\ fs_data w' = <[handle_file f := file_resize n d]> (fs_data w)
    | (Err _, w') => fs_same w w'
    | (Panic, _) => False
    end;
  t_seek_law : forall f off w, 0 <= off ->
    match t_seek_start f off w with
    | (Ok _, w') => fs_same w w' /\ t_cursor w' f = off
    | (Err _, w') => fs_same w w'
    | (Panic, _) => False
    end;
  (* A read may return fewer bytes than asked for, but not none before the end. *)
  t_read_law : forall f n w d, fs_data w !! handle_file f = Some d -> 0 <= t_cursor w f -> 0 <= n ->
    match t_read f n w with
    | (Ok bs, w') =>
        fs_same w w' /\ zlen bs <= n /\ bs = sub (t_cursor w f) (zlen bs) d
        /\ (0 < n -> t_cursor w f < zlen d -> 0 < zlen bs)
    | (Err _, w') => fs_same w w'
    | (Panic, _) => False
    end;
}.

(** ** What the code assumes of [tokio::fs] beyond that

    [File::write_all] returns when the data is handed to a background task, and
    an error of the write itself is reported by a later operation on the file.
    [write_at] neither flushes nor looks for such an error: that the data of a
    call that returned [Ok] is in the file is an assumption of the code, which
    the documentation does not grant, and is kept apart from the laws. *)
Class TokioWritesLand (W F : Type) `{TokioFs W F, FsView W F, TokioCursor W F} : Prop := {
  t_write_all_law : forall f data w d, fs_data w !! handle_file f = Some d -> 0 <= t_cursor w f ->
    match t_write_all f data w with
    | (Ok _, w') =>
        fs_dir w' = fs_dir w
        /\ fs_data w' = <[handle_file f := file_write (t_cursor w f) data d]> (fs_data w)
    | (Err _, w') =>
        fs_dir w' = fs_dir w /\ exists d', fs_data w' = <[handle_file f := d']> (fs_data w)
                            /\ part_written (t_cursor w f) data d d'
    | (Panic, _) => False
    end;
}.
