(* ===== verification/FileSystemProps.v ===== *)
(** The file system on [tokio::fs] keeps the contract of the traits, if writes
    that are accepted reach the file; an in-memory [tokio::fs] for the concrete
    instances. *)
From stdpp Require Import gmap.
From Stdlib Require Import String.
From S2P Require Import Prelude.
From S2P Require Import Bytes.
From S2P Require Import RustStr.
From S2P Require Import FileSystem.

(** * Facts on files *)

Lemma fs_same_refl {W H} `{FsView W H} (w : W) : fs_same w w.
Proof. done. Qed.

Lemma fs_same_trans {W H} `{FsView W H} (w1 w2 w3 : W) :
  fs_same w1 w2 -> fs_same w2 w3 -> fs_same w1 w3.
Proof. intros [H1 H2] [H3 H4]. split; congruence. Qed.

Lemma zlen_file_write off data d :
  0 <= off -> zlen (file_write off data d) = Z.max (zlen d) (off + zlen data).
Proof.
  intros. pose proof (zlen_nonneg d). pose proof (zlen_nonneg data). unfold file_write.
  rewrite zlen_splice, zlen_app, zlen_fill by lia. lia.
Qed.

(** What was written is read back; the rest of the file is as before. *)
Lemma file_write_same off data d :
  0 <= off -> sub off (zlen data) (file_write off data d) = data.
Proof.
  intros. pose proof (zlen_nonneg d). pose proof (zlen_nonneg data). unfold file_write.
  apply sub_splice_eq; [lia|]. rewrite zlen_app, zlen_fill by lia. lia.
Qed.

Lemma file_write_other off data d a n :
  0 <= off -> 0 <= a -> 0 <= n -> a + n <= zlen d -> a + n <= off \/ off + zlen data <= a ->
  sub a n (file_write off data d) = sub a n d.
Proof.
  intros. pose proof (zlen_nonneg data). unfold file_write.
  rewrite sub_splice_ne by (rewrite ?zlen_app, ?zlen_fill by lia; lia).
  rewrite sub_app_l by lia. done.
Qed.

(** A match on the result of a statement followed by others. *)
Ltac run_law H L :=
  pose proof H as L;
  match type of L with match ?m with _ => _ end => destruct m as [[?r|?e|] ?w'] eqn:? end;
  [..|by destruct L].

(** * The contract *)

Section Tokio.
Context {W F : Type} `{TokioFsLaws W F, !TokioWritesLand W F}.

(** The methods, one law each. *)
#[export] Instance tokio_laws : FileSystemLaws W F.
Proof.
  split; cbn [create_dir_all create_file delete_file file_exists open_file len set_len read_at write_at
    tokio_file_system tokio_file_handle].
  - apply t_create_dir_all_law.
  - intros p w. unfold mbind, stateM_bind. by run_law (t_open_new_law p w) Hl.
  - apply t_try_exists_law.
  - apply t_remove_file_law.
  - intros p w. unfold mbind, stateM_bind. by run_law (t_open_law p w) Hl.
  - intros h w d Hd. unfold mbind, stateM_bind. by run_law (t_metadata_len_law h w d Hd) Hl.
  - intros h n w d Hd Hn. unfold mbind, stateM_bind. by run_law (t_set_len_law h n w d Hd Hn) Hl.
  - intros h buffer off w d Hd Hoff. unfold mbind, stateM_bind.
    run_law (t_seek_law h off w Hoff) Hl; [|done]. destruct Hl as [Hs Hc].
    pose proof Hs as [_ Hs2]. rewrite <- Hs2 in Hd. pose proof (zlen_nonneg buffer) as Hbuf.
    assert (0 <= t_cursor w' h) as Hc0 by (by rewrite Hc).
    run_law (t_read_law h (zlen buffer) w' d Hd Hc0 Hbuf) Hl.
    + destruct Hl as (Hs' & Hn & Hbs & Hpos). rewrite Hc in *. cbn.
      pose proof (zlen_nonneg r0). split_and!; try lia.
      * by apply (fs_same_trans w w').
      * rewrite Hbs. unfold sub, zlen in *. rewrite length_take, length_drop. lia.
      * by rewrite <- Hbs.
    + by apply (fs_same_trans w w').
  - intros h data off w d Hd Hoff. unfold mbind, stateM_bind.
    run_law (t_seek_law h off w Hoff) Hl.
    2:{ destruct Hl as [Hs1 Hs2]. split; [done|]. exists d. split; [by rewrite Hs2, insert_id|by left]. }
    destruct Hl as [[Hs1 Hs2] Hc]. rewrite <- Hs2 in Hd.
    assert (0 <= t_cursor w' h) as Hc0 by (by rewrite Hc).
    run_law (t_write_all_law h data w' d Hd Hc0) Hl.
    + destruct Hl as [Hd1 Hd2]. rewrite Hc in Hd2. cbn. split; congruence.
    + destruct Hl as [Hd1 (d' & Hd2 & Hp)]. rewrite Hc in Hp. split; [congruence|]. exists d'.
      split; [congruence|done].
Qed.
End Tokio.

(** * A [tokio::fs] in memory

    Every operation succeeds when it can; a read returns all there is. *)

Record MemFs := mkMem {
  mem_folders : gset Path;
  mem_dir : gmap Path Z;
  mem_data : gmap Z (list Z);
  mem_cursors : gmap Z Z;
}.
Record MemFile := mkMemFile { mem_id : Z; mem_inode : Z }.

Definition mem_empty : MemFs := mkMem ∅ ∅ ∅ ∅.

(** A number not in use. *)
Definition unused {A} (m : gmap Z A) : Z := 1 + map_fold (fun k _ acc => Z.max k acc) 0 m.

Lemma unused_fresh {A} (m : gmap Z A) : m !! unused m = None.
Proof.
  assert (forall k x, m !! k = Some x -> k < unused m) as Hlt.
  { unfold unused. apply (map_fold_weak_ind (fun acc m => forall k x, m !! k = Some x -> k < 1 + acc)).
    - intros k x Hk. by rewrite lookup_empty in Hk.
    - intros i y m' acc _ IH k x [[-> _]|[_ Hk]]%lookup_insert_Some; [lia|].
      specialize (IH k x Hk). lia. }
  destruct (m !! unused m) eqn:Hm; [|done]. apply Hlt in Hm. lia.
Qed.

Definition mem_file (i : Z) (w : MemFs) : outcome IoError (list Z) :=
  match mem_data w !! i with Some d => Ok d | None => Err NotFound end.
Definition mem_cursor (w : MemFs) (f : MemFile) : Z := default 0 (mem_cursors w !! mem_id f).
Definition mem_seek (f : MemFile) (c : Z) (w : MemFs) : MemFs :=
  mkMem (mem_folders w) (mem_dir w) (mem_data w) (<[mem_id f := c]> (mem_cursors w)).
Definition mem_set (f : MemFile) (d : list Z) (w : MemFs) : MemFs :=
  mkMem (mem_folders w) (mem_dir w) (<[mem_inode f := d]> (mem_data w)) (mem_cursors w).

Definition mem_open (o : OpenOptions) (p : Path) : stateM MemFs IoError MemFile := fun w =>
  let f i := mkMemFile (unused (mem_cursors w)) i in
  match mem_dir w !! p with
  | Some i =>
      if oo_create_new o then (Err AlreadyExists, w)
      else
        let w := if oo_truncate o then mem_set (f i) [] w else w in
        (Ok (f i), mem_seek (f i) 0 w)
  | None =>
      if oo_create o || oo_create_new o then
        let i := unused (mem_data w) in
        (Ok (f i), mem_seek (f i) 0 (mkMem (mem_folders w) (<[p := i]> (mem_dir w))
                                       (<[i := []]> (mem_data w)) (mem_cursors w)))
      else (Err NotFound, w)
  end.

(** The folders a path lies in, and the path itself. *)
Definition ancestors (p : Path) : list Path := (fun n => take (S n) p) <$> seq 0 (length p).

#[export] Instance mem_tokio : TokioFs MemFs MemFile := {
  t_create_dir_all p := fun w =>
    (Ok tt, mkMem (list_to_set (p :: ancestors p) ∪ mem_folders w) (mem_dir w) (mem_data w)
              (mem_cursors w));
  t_open := mem_open;
  t_remove_file p := fun w =>
    match mem_dir w !! p with
    | Some _ => (Ok tt, mkMem (mem_folders w) (delete p (mem_dir w)) (mem_data w) (mem_cursors w))
    | None => (Err NotFound, w)
    end;
  t_try_exists p := fun w =>
    (Ok (bool_decide (is_Some (mem_dir w !! p)) || bool_decide (p ∈ mem_folders w)), w);
  t_metadata_len f := d ← sget (mem_file (mem_inode f)); mret (zlen d);
  t_seek_start f off := smodify (mem_seek f off);; mret off;
  t_read f n := d ← sget (mem_file (mem_inode f));
                c ← sget (fun w => Ok (mem_cursor w f));
                let bs := sub c (Z.max 0 (Z.min n (zlen d - c))) d in
                smodify (mem_seek f (c + zlen bs));; mret bs;
  t_set_len f n := d ← sget (mem_file (mem_inode f)); smodify (mem_set f (file_resize n d));
  t_write_all f data := d ← sget (mem_file (mem_inode f));
                        c ← sget (fun w => Ok (mem_cursor w f));
                        smodify (fun w => mem_seek f (c + zlen data) (mem_set f (file_write c data d) w));
}.

#[export] Instance mem_view : FsView MemFs MemFile := {
  fs_folders := mem_folders; fs_dir := mem_dir; fs_data := mem_data; handle_file := mem_inode;
}.
#[export] Instance mem_cursor_of : TokioCursor MemFs MemFile := { t_cursor := mem_cursor }.

#[export] Instance mem_laws : TokioFsLaws MemFs MemFile.
Proof.
  split; simpl.
  - intros p w. split; [done|]. simpl. split; set_solver.
  - intros p w. unfold mem_open. simpl. destruct (mem_dir w !! p) eqn:Hp; [done|]. simpl.
    split_and!; [done|apply unused_fresh|done|done].
  - intros p w. unfold mem_open. simpl. by destruct (mem_dir w !! p) eqn:Hp.
  - intros p w. destruct (mem_dir w !! p) as [i|] eqn:Hp; [|done]. by exists i.
  - intros p w. split; [done|]. rewrite orb_true_iff, !bool_decide_eq_true. done.
  - intros f w d Hd. unfold mbind, stateM_bind, sget, mem_file. by rewrite Hd.
  - intros f n w d Hd Hn. unfold mbind, stateM_bind, sget, mem_file. by rewrite Hd.
  - intros f off w Hoff. split; [done|]. unfold mem_cursor, mem_seek. simpl. by rewrite lookup_insert_eq.
  - intros f n w d Hd Hc Hn. unfold mbind, stateM_bind, sget, mem_file. rewrite Hd. cbn.
    set (k := Z.max 0 (Z.min n (zlen d - mem_cursor w f))).
    assert (zlen (sub (mem_cursor w f) k d) = k) as Hk.
    { destruct (Z.le_gt_cases (zlen d) (mem_cursor w f)).
      - assert (k = 0) as -> by lia. by rewrite sub_0.
      - apply zlen_sub; lia. }
    rewrite Hk. split_and!; [done|lia|done|lia].
Qed.

(** In memory, writes are done at once. *)
#[export] Instance mem_writes_land : TokioWritesLand MemFs MemFile.
Proof. split. simpl. intros f data w d Hd Hc. unfold mbind, stateM_bind, sget, mem_file. by rewrite Hd. Qed.
