(* ===== verification/FileSystemTests.v ===== *)
(** The unit tests of [file_system.rs] on the file system in memory: each
    definition says what the test of that name asserts; the temporary folder is
    the root. *)
From stdpp Require Import gmap.
From Stdlib Require Import String.
From S2P Require Import Prelude.
From S2P Require Import Bytes.
From S2P Require Import RustStr.
From S2P Require Import FileSystem.
From S2P Require Import FileSystemProps.

#[local] Abbreviation memM := (stateM MemFs IoError).

(** [path.exists()] and [path.is_dir()]. *)
Definition path_exists (p : Path) : memM bool := sget (fun w =>
  Ok (bool_decide (is_Some (mem_dir w !! p)) || bool_decide (p ∈ mem_folders w))).
Definition path_is_dir (p : Path) : memM bool := sget (fun w => Ok (bool_decide (p ∈ mem_folders w))).

(** What a test observes from an empty folder. *)
Definition observe {A} (m : memM A) : outcome IoError A := (m mem_empty).1.

(** [read_at] of [n] bytes at [off]. *)
Definition reads (h : MemFile) (n off : Z) : memM (Z * list Z) := read_at h (fill 0 n) off.

Definition test_create_file : Prop :=
  let file_path := [str "test_create.db"] in
  observe (create_file file_path;; path_exists file_path) = Ok true.

Definition test_write_to_file : Prop :=
  let data := str "Hello" in
  observe (handle ← create_file [str "test_write.db"]; write_at handle data 0;; reads handle 5 0)
  = Ok (5, data).

Definition test_read_at_specific_offset : Prop :=
  observe (handle ← create_file [str "test_read.db"]; write_at handle (str "HelloWorld") 0;; reads handle 5 5)
  = Ok (5, str "World").

Definition test_open_existing_file : Prop :=
  let file_path := [str "test_open.db"] in
  observe (handle ← create_file file_path; write_at handle (str "PersistentData") 0;;
           handle2 ← open_file file_path; reads handle2 14 0)
  = Ok (14, str "PersistentData").

Definition test_create_existing_file_fails : Prop :=
  let file_path := [str "test_create_existing.db"] in
  observe (create_file file_path;; create_file file_path) = Err AlreadyExists.

Definition test_open_missing_file_fails : Prop :=
  observe (open_file [str "test_open_missing.db"]) = Err NotFound.

Definition test_file_exists_returns_correct_status : Prop :=
  let file_path := [str "test_exists.db"] in
  observe (exists_initially ← file_exists file_path; create_file file_path;;
           exists_now ← file_exists file_path; mret (exists_initially, exists_now))
  = Ok (false, true).

Definition test_delete_file_removes_file_from_disk : Prop :=
  let file_path := [str "test_delete.db"] in
  observe (create_file file_path;; before ← path_exists file_path; delete_file file_path;;
           after ← path_exists file_path; mret (before, after))
  = Ok (true, false).

Definition test_create_dir_all_creates_nested_directories : Prop :=
  let nested_path := path_join (path_join (path_join [] (str "some")) (str "nested")) (str "path") in
  observe (create_dir_all nested_path;; there ← path_exists nested_path;
           is_dir ← path_is_dir nested_path; mret (there, is_dir))
  = Ok (true, true).

Definition test_file_len_and_set_len : Prop :=
  observe (handle ← create_file [str "test_len.db"]; initial_len ← len handle;
           set_len handle 1024;; new_len ← len handle;
           write_at handle (str "Data") 0;; len_after_write ← len handle;
           mret (initial_len, new_len, len_after_write))
  = Ok (0, 1024, 1024).

Lemma file_system_tests :
  test_create_file /\ test_write_to_file /\ test_read_at_specific_offset /\ test_open_existing_file
  /\ test_create_existing_file_fails /\ test_open_missing_file_fails
  /\ test_file_exists_returns_correct_status /\ test_delete_file_removes_file_from_disk
  /\ test_create_dir_all_creates_nested_directories /\ test_file_len_and_set_len.
Proof. do 9 (split; [by vm_compute|]). by vm_compute. Qed.
