(* ===== verification/DiskManager.v ===== *)
(** The disk manager ([disk_manager.rs]): one file per table, a cache of open
    handles and a counter of pages per table.  Methods are proved against the
    traits of the file system; their parts between two suspension points are
    definitions of their own, so that calls can also be interleaved. *)
From stdpp Require Import gmap.
From Stdlib Require Import String.
From S2P Require Import Prelude.
From S2P Require Import Bytes.
From S2P Require Import RustStr.
From S2P Require Import Page.
From S2P Require Import FileSystem.

Definition TABLE_FILE_EXTENSION : rstr := str "tbl".

(** [file_system] is the world [W] the methods run on. *)
Record DiskManager (H : Type) := mkDiskManager {
  base_path : Path;
  file_handles : gmap Z H;
  next_page_ids : gmap Z Z;
}.
Arguments mkDiskManager {H} _ _ _.
Arguments base_path {H} _.
Arguments file_handles {H} _.
Arguments next_page_ids {H} _.

Section DiskManager.
Context {W H : Type} `{FileSystem W H}.
#[local] Abbreviation DM := (DiskManager H).
#[local] Abbreviation diskM := (stateM (DM * W) IoError).

Definition disk_manager_new (path : Path) : DM := mkDiskManager path ∅ ∅.

(** A call of the file system. *)
Definition on_fs {A} (m : stateM W IoError A) : diskM A := fun '(dm, w) =>
  let '(r, w') := m w in (r, (dm, w')).
(** An access to the manager's own fields. *)
Definition on_dm {A} (m : stateM DM IoError A) : diskM A := fun '(dm, w) =>
  let '(r, dm') := m dm in (r, (dm', w)).

Definition table_path (dm : DM) (table_id : Z) : Path :=
  with_extension (path_join (base_path dm) (show_unsigned table_id)) TABLE_FILE_EXTENSION.

(** * File handles *)

(** [cache.insert(table_id, handle)]; [next_page_ids.entry(..).or_insert_with(..)];
    [next_page_ids.insert(..)]. *)
Definition cache_insert (table_id : Z) (h : H) (dm : DM) : DM :=
  mkDiskManager (base_path dm) (<[table_id := h]> (file_handles dm)) (next_page_ids dm).
Definition next_or_insert (table_id n : Z) (dm : DM) : DM :=
  mkDiskManager (base_path dm) (file_handles dm)
    (match next_page_ids dm !! table_id with
     | Some _ => next_page_ids dm
     | None => <[table_id := n]> (next_page_ids dm)
     end).
Definition next_insert (table_id n : Z) (dm : DM) : DM :=
  mkDiskManager (base_path dm) (file_handles dm) (<[table_id := n]> (next_page_ids dm)).

(** The end of [get_file_handle], under the write lock of the cache. *)
Definition publish_handle (table_id : Z) (h : H) (file_length : Z) : stateM DM IoError H := fun dm =>
  match file_handles dm !! table_id with
  | Some cached_handle => (Ok cached_handle, dm)
  | None =>
      let next_index := file_length / PAGE_SIZE in
      (Ok h, cache_insert table_id h (next_or_insert table_id (wrap 32 next_index) dm))
  end.

Definition get_file_handle (table_id : Z) : diskM H :=
  cached ← sget (fun s => Ok (file_handles s.1 !! table_id));
  match cached with
  | Some file_handle => mret file_handle
  | None =>
      path ← sget (fun s => Ok (table_path s.1 table_id));
      file_handle ← on_fs (open_file path);
      file_length ← on_fs (len file_handle);
      on_dm (publish_handle table_id file_handle file_length)
  end.

(** * Table files *)

(** The end of [create_table_file]. *)
Definition publish_new (table_id : Z) (h : H) : stateM DM IoError unit :=
  smodify (fun dm => next_insert table_id 0 (cache_insert table_id h dm)).

Definition create_table_file (table_id : Z) : diskM unit :=
  base ← sget (fun s => Ok (base_path s.1));
  on_fs (create_dir_all base);;
  path ← sget (fun s => Ok (table_path s.1 table_id));
  file_handle ← on_fs (create_file path);
  on_dm (publish_new table_id file_handle).

Definition table_file_exists (table_id : Z) : diskM bool :=
  path ← sget (fun s => Ok (table_path s.1 table_id));
  on_fs (file_exists path).

(** * Pages *)

(** [next_page_ids.get(&id).unwrap().fetch_add(1)]: the counter wraps. *)
Definition fetch_add (table_id : Z) : stateM DM IoError Z := fun dm =>
  match next_page_ids dm !! table_id with
  | Some n => (Ok n, next_insert table_id (wrap 32 (n + 1)) dm)
  | None => (Panic, dm)
  end.

(** [next_index as u64 * PAGE_SIZE as u64]. *)
Definition page_offset (index : Z) : Z := wrap 64 index * PAGE_SIZE.

(** [next_index.try_into()] from [u32] to [u32] always succeeds. *)
Definition allocate_page (table_id : Z) : diskM PageId :=
  file_handle ← get_file_handle table_id;
  next_index ← on_dm (fetch_add table_id);
  on_fs (write_at file_handle (fill 0 PAGE_SIZE) (page_offset next_index));;
  mret (mkPageId table_id next_index).

(** The buffer after the read; the count is dropped. *)
Definition read_page (page_id : PageId) (buffer : list Z) : diskM (list Z) :=
  file_handle ← get_file_handle (table_id page_id);
  r ← on_fs (read_at file_handle buffer (page_offset (page_index page_id)));
  mret r.2.

Definition write_page (page_id : PageId) (buffer : list Z) : diskM unit :=
  file_handle ← get_file_handle (table_id page_id);
  on_fs (write_at file_handle buffer (page_offset (page_index page_id)));;
  mret tt.
End DiskManager.
