(* ===== verification/DiskManagerSpec.v ===== *)
(** The disk manager: its invariant, and what each method does to the files of
    the tables. *)
From stdpp Require Import gmap.
From Stdlib Require Import String.
From S2P Require Import Prelude.
From S2P Require Import Bytes.
From S2P Require Import RustStr.
From S2P Require Import Page.
From S2P Require Import FileSystem.
From S2P Require Import FileSystemProps.
From S2P Require Import DiskManager.

(** * Table paths *)

Lemma last_dot_digits i name : Forall is_digit name -> last_dot i name = None.
Proof.
  intros Hd. revert i. induction Hd as [|c name Hc _ IH]; intros i; [done|]. simpl.
  rewrite IH. unfold is_digit, dot in *. case_bool; [lia|done].
Qed.

Lemma table_path_eq {H} (dm : DiskManager H) id :
  0 <= id -> table_path dm id = base_path dm ++ [show_unsigned id ++ dot :: TABLE_FILE_EXTENSION].
Proof.
  intros Hid. unfold table_path, with_extension, path_join. rewrite last_snoc.
  rewrite length_app. simpl. rewrite Nat.add_sub, take_app_length.
  unfold file_stem. rewrite last_dot_digits; [done|]. by apply show_digits_ok.
Qed.

(** Different tables have different files. *)
Lemma table_path_inj {H} (dm : DiskManager H) id1 id2 :
  0 <= id1 < 2 ^ 32 -> 0 <= id2 < 2 ^ 32 ->
  table_path dm id1 = table_path dm id2 -> id1 = id2.
Proof.
  intros H1 H2. rewrite !table_path_eq by lia. intros Heq.
  apply app_inv_head in Heq. injection Heq as Heq. apply app_inv_tail in Heq.
  pose proof (parse_show_unsigned 32 id1) as P1. pose proof (parse_show_unsigned 32 id2) as P2.
  rewrite Heq in P1. rewrite P1 in P2 by lia. assert (Some id1 = Some id2) as E by (apply P2; lia).
  by injection E.
Qed.

Section Spec.
Context {W H : Type} `{FileSystemLaws W H}.
#[local] Abbreviation DM := (DiskManager H).
#[local] Abbreviation state := (DM * W)%type.

(** Every name in the directory has a file of its own. *)
Definition fs_wf (w : W) : Prop :=
  (forall p i, fs_dir w !! p = Some i -> is_Some (fs_data w !! i))
  /\ (forall p q i, fs_dir w !! p = Some i -> fs_dir w !! q = Some i -> p = q).

Definition id_ok (id : Z) : Prop := 0 <= id < 2 ^ 32.

(** Cached handles are of the tables' files; the tables with a cached handle
    are those with a counter, a 32-bit one. *)
Record dm_inv (s : state) : Prop := {
  dm_fs : fs_wf s.2;
  dm_handles : forall id h, file_handles s.1 !! id = Some h ->
    fs_dir s.2 !! table_path s.1 id = Some (handle_file h);
  dm_next : forall id, is_Some (file_handles s.1 !! id) <-> is_Some (next_page_ids s.1 !! id);
  dm_range : forall id n, next_page_ids s.1 !! id = Some n -> id_ok n;
}.

(** The bytes of a table's file, and of a page of it. *)
Definition table_data (s : state) (id : Z) : option (list Z) :=
  fs_dir s.2 !! table_path s.1 id ≫= fun i => fs_data s.2 !! i.
Definition page_data (s : state) (pid : PageId) : list Z :=
  sub (page_index pid * PAGE_SIZE) PAGE_SIZE (default [] (table_data s (table_id pid))).

Lemma same_path (dm dm' : DM) id : base_path dm' = base_path dm -> table_path dm' id = table_path dm id.
Proof. unfold table_path. by intros ->. Qed.

Lemma fs_wf_same w w' : fs_same w w' -> fs_wf w -> fs_wf w'.
Proof. intros [Hd Hb] [Hw1 Hw2]. split; intros *; rewrite Hd, ?Hb; eauto. Qed.

Lemma table_data_same s s' id :
  base_path s'.1 = base_path s.1 -> fs_same s.2 s'.2 -> table_data s' id = table_data s id.
Proof. intros Hb [Hd Hw]. unfold table_data. by rewrite (same_path s.1 s'.1), Hd, Hw. Qed.

(** ** Handles *)

(** After a call that returned the handle [h] of table [id]. *)
Record got_handle (id : Z) (h : H) (s s' : state) : Prop := {
  got_inv : dm_inv s';
  got_same : fs_same s.2 s'.2;
  got_base : base_path s'.1 = base_path s.1;
  got_cached : file_handles s'.1 !! id = Some h;
  got_others : forall id', id' <> id -> file_handles s'.1 !! id' = file_handles s.1 !! id';
  got_next : next_page_ids s'.1 =
    match file_handles s.1 !! id with
    | Some _ => next_page_ids s.1
    | None => next_page_ids (next_or_insert id (wrap 32 (zlen (default [] (table_data s id)) / PAGE_SIZE)) s.1)
    end;
}.

Lemma next_or_insert_some (id n : Z) (dm : DM) : is_Some (next_page_ids (next_or_insert id n dm) !! id).
Proof.
  unfold next_or_insert. simpl. destruct (next_page_ids dm !! id) eqn:Hn; [by rewrite Hn|].
  by rewrite lookup_insert_eq.
Qed.

Lemma next_or_insert_other (id id' n : Z) (dm : DM) :
  id' <> id -> next_page_ids (next_or_insert id n dm) !! id' = next_page_ids dm !! id'.
Proof.
  intros. unfold next_or_insert. simpl. destruct (next_page_ids dm !! id); [done|].
  by rewrite lookup_insert_ne.
Qed.

Lemma next_or_insert_range (id n : Z) (dm : DM) :
  id_ok n -> (forall id' k, next_page_ids dm !! id' = Some k -> id_ok k) ->
  forall id' k, next_page_ids (next_or_insert id n dm) !! id' = Some k -> id_ok k.
Proof.
  intros Hn Hr id' k. unfold next_or_insert. simpl. destruct (next_page_ids dm !! id); [by apply Hr|].
  intros [[<- <-]|[_ Hk]]%lookup_insert_Some; [done|by eapply Hr].
Qed.

(** The parts of [get_file_handle]: the file is opened, then published. *)
Lemma publish_ok id h (s : state) d :
  dm_inv s -> fs_dir s.2 !! table_path s.1 id = Some (handle_file h) ->
  fs_data s.2 !! handle_file h = Some d -> file_handles s.1 !! id = None ->
  exists dm', publish_handle id h (zlen d) s.1 = (Ok h, dm') /\ got_handle id h s (dm', s.2).
Proof.
  destruct s as [dm w]. intros [Hfs Hh Hn Hrg] Hp Hd Hc. simpl in *.
  unfold publish_handle. simpl. rewrite Hc. eexists. split; [reflexivity|].
  assert (table_data (dm, w) id = Some d) as Htd by (unfold table_data; simpl; by rewrite Hp).
  split; simpl; try done.
  - split; simpl; [done|..].
    + intros id' h' [[-> <-]|[Hne Hl]]%lookup_insert_Some; [done|].
      rewrite (same_path dm) by done. by apply Hh.
    + intros id'. destruct (decide (id' = id)) as [->|Hne].
      * rewrite lookup_insert_eq. pose proof (next_or_insert_some id (wrap 32 (zlen d / PAGE_SIZE)) dm) as Ho.
        unfold next_or_insert in Ho. by split.
      * rewrite lookup_insert_ne by done.
        pose proof (next_or_insert_other id id' (wrap 32 (zlen d / PAGE_SIZE)) dm Hne) as Ho.
        unfold next_or_insert in Ho. simpl in Ho. rewrite Ho. apply Hn.
    + apply (next_or_insert_range id _ dm); [apply wrap_range; lia|done].
  - by rewrite lookup_insert_eq.
  - intros id' Hne. by rewrite lookup_insert_ne.
  - by rewrite Hc, Htd.
Qed.

Lemma get_file_handle_ok id (s : state) :
  dm_inv s ->
  match get_file_handle id s with
  | (Ok h, s') => got_handle id h s s'
  | (Err _, s') => s'.1 = s.1 /\ fs_same s.2 s'.2
  | (Panic, _) => False
  end.
Proof.
  destruct s as [dm w]. intros Hinv. unfold get_file_handle, mbind, stateM_bind, sget. simpl.
  destruct (file_handles dm !! id) as [h|] eqn:Hc.
  - split; simpl; try done. by rewrite Hc.
  - unfold on_fs. simpl. run_law (open_file_law (table_path dm id) w) Ho; [|done].
    destruct Ho as [Hs Hp]. pose proof Hs as [Hs1 Hs2].
    destruct Hinv as [Hfs Hh Hn Hrg]. simpl in *. destruct (proj1 Hfs _ _ Hp) as [d Hd].
    assert (fs_data w' !! handle_file r = Some d) as Hd' by (by rewrite Hs2).
    run_law (len_law r w' d Hd') Hl.
    2:{ split; [done|]. by eapply fs_same_trans. }
    destruct Hl as [Hs' ->]. pose proof (fs_same_trans _ _ _ Hs Hs') as Hs''. pose proof Hs'' as [E1 E2].
    destruct (publish_ok id r (dm, w'0) d) as (dm' & Hpub & Hgot); simpl.
    + split; simpl; [by eapply fs_wf_same|intros id' h'; rewrite E1; apply Hh|done|done].
    + by rewrite E1.
    + by rewrite E2.
    + done.
    + simpl in Hpub. rewrite Hpub. destruct Hgot as [G1 G2 G3 G4 G5 G6]. simpl in *. split; try done.
      cbn [fst]. rewrite G6, Hc. by rewrite (table_data_same (dm, w) (dm, w'0)).
Qed.

(** ** Reads and writes of one table's file *)

Lemma fs_wf_insert w w' i d d' :
  fs_wf w -> fs_data w !! i = Some d -> fs_dir w' = fs_dir w ->
  fs_data w' = <[i := d']> (fs_data w) -> fs_wf w'.
Proof.
  intros [Hw1 Hw2] Hi Hd Hb. split; intros *; rewrite Hd.
  - intros Hp. rewrite Hb. destruct (decide (i0 = i)) as [->|].
    + by rewrite lookup_insert_eq.
    + rewrite lookup_insert_ne by done. eauto.
  - eauto.
Qed.

Section Table.
Variables (s : state) (id : Z) (h : H) (d : list Z).
Hypothesis Hinv : dm_inv s.
Hypothesis Hid : id_ok id.
Hypothesis Hh : file_handles s.1 !! id = Some h.
Hypothesis Hd : table_data s id = Some d.

Lemma handle_data : fs_data s.2 !! handle_file h = Some d.
Proof. unfold table_data in Hd. rewrite (dm_handles _ Hinv _ _ Hh) in Hd. done. Qed.

(** The state after the file has become [d']. *)
Lemma table_written w' d' :
  fs_dir w' = fs_dir s.2 -> fs_data w' = <[handle_file h := d']> (fs_data s.2) ->
  dm_inv (s.1, w') /\ table_data (s.1, w') id = Some d'
  /\ forall id', id_ok id' -> id' <> id -> table_data (s.1, w') id' = table_data s id'.
Proof.
  intros E1 E2. pose proof handle_data as Hf. pose proof (dm_handles _ Hinv _ _ Hh) as Hp.
  destruct Hinv as [Hfs Hhs Hns Hrs]. split_and!.
  - split; simpl; [by eapply fs_wf_insert|intros *; rewrite E1; apply Hhs|done|done].
  - unfold table_data. simpl. rewrite E1, Hp, E2. simpl. by rewrite lookup_insert_eq.
  - intros id' Hid' Hne. unfold table_data. simpl. rewrite E1, E2.
    destruct (fs_dir s.2 !! table_path s.1 id') as [j|] eqn:Hj; [|done]. simpl.
    rewrite lookup_insert_ne; [done|]. intros <-. apply Hne.
    apply (table_path_inj s.1); [done|done|]. by eapply (proj2 Hfs).
Qed.

Lemma write_table data off :
  0 <= off ->
  match on_fs (write_at h data off) s with
  | (Ok _, s') =>
      s'.1 = s.1 /\ dm_inv s' /\ table_data s' id = Some (file_write off data d)
      /\ forall id', id_ok id' -> id' <> id -> table_data s' id' = table_data s id'
  | (Err _, s') =>
      s'.1 = s.1 /\ dm_inv s' /\ (exists d', table_data s' id = Some d' /\ part_written off data d d')
      /\ forall id', id_ok id' -> id' <> id -> table_data s' id' = table_data s id'
  | (Panic, _) => False
  end.
Proof.
  intros Hoff. pose proof handle_data as Hf. pose proof table_written as Hw.
  destruct s as [dm w]. unfold on_fs. simpl in *.
  run_law (write_at_law h data off w d Hf Hoff) Hl.
  - destruct Hl as [E1 E2]. split; [done|]. by apply Hw.
  - destruct Hl as [E1 (d' & E2 & Hp)]. split; [done|]. destruct (Hw w' d' E1 E2) as (? & ? & ?).
    split_and!; [done|by exists d'|done].
Qed.

Lemma read_table buffer off :
  0 <= off ->
  match on_fs (read_at h buffer off) s with
  | (Ok (n, got), s') =>
      s'.1 = s.1 /\ fs_same s.2 s'.2 /\ 0 <= n <= zlen buffer /\ n <= Z.max 0 (zlen d - off)
      /\ (0 < zlen buffer -> off < zlen d -> 0 < n)
      /\ got = sub off n d ++ sub n (zlen buffer - n) buffer
  | (Err _, s') => s'.1 = s.1 /\ fs_same s.2 s'.2
  | (Panic, _) => False
  end.
Proof.
  intros Hoff. pose proof handle_data as Hf. destruct s as [dm w]. unfold on_fs. simpl in *.
  run_law (read_at_law h buffer off w d Hf Hoff) Hl; [|done]. by destruct r.
Qed.
End Table.

Lemma dm_inv_same (s s' : state) : s'.1 = s.1 -> fs_same s.2 s'.2 -> dm_inv s -> dm_inv s'.
Proof.
  intros E Hs [Hfs Hh Hn Hrg]. split; rewrite ?E; [by eapply fs_wf_same| |done|done].
  destruct Hs as [Hs _]. by rewrite Hs.
Qed.

(** A counter that is there gets a new value. *)
Lemma next_insert_inv (s : state) id n :
  dm_inv s -> is_Some (next_page_ids s.1 !! id) -> id_ok n -> dm_inv (next_insert id n s.1, s.2).
Proof.
  intros [Hfs Hh Hn Hrg] Hs Hid. split; [done|done|..]; cbn; intros id'.
  - rewrite Hn. destruct (decide (id = id')) as [->|]; [|by rewrite lookup_insert_ne].
    rewrite lookup_insert_eq. by split; [eexists|].
  - intros k [[<- <-]|[_ Hk]]%lookup_insert_Some; [done|by eapply Hrg].
Qed.

(** The file of a table whose handle is cached. *)
Lemma cached_data (s : state) id h :
  dm_inv s -> file_handles s.1 !! id = Some h -> exists d, table_data s id = Some d.
Proof.
  intros [Hfs Hh Hn Hrg] Hc. pose proof (Hh _ _ Hc) as Hp. unfold table_data. rewrite Hp. simpl.
  by apply (proj1 Hfs) in Hp as [d ->]; exists d.
Qed.

Lemma got_table_data id h (s s' : state) id' : got_handle id h s s' -> table_data s' id' = table_data s id'.
Proof. intros G. apply table_data_same; apply G. Qed.

Lemma page_offset_eq i : id_ok i -> page_offset i = i * PAGE_SIZE /\ 0 <= i * PAGE_SIZE.
Proof. intros Hi. unfold page_offset, id_ok in *. rewrite wrap_small by lia. unfold PAGE_SIZE. lia. Qed.
End Spec.
