(* ===== verification/DiskManagerProps.v ===== *)
(** The disk manager: its properties, for one caller at a time. *)
From stdpp Require Import gmap.
From Stdlib Require Import String.
From S2P Require Import Prelude.
From S2P Require Import Bytes.
From S2P Require Import RustStr.
From S2P Require Import Page.
From S2P Require Import FileSystem.
From S2P Require Import FileSystemProps.
From S2P Require Import DiskManager.
From S2P Require Import DiskManagerSpec.

Section Props.
Context {W H : Type} `{FileSystemLaws W H}.
#[local] Abbreviation state := (DiskManager H * W)%type.

Definition pid_ok (p : PageId) : Prop := id_ok (table_id p) /\ id_ok (page_index p).

(** The page is in its table's file, all of it. *)
Definition page_there (s : state) (p : PageId) : Prop :=
  exists d, table_data s (table_id p) = Some d /\ (page_index p + 1) * PAGE_SIZE <= zlen d.

(** A statement after the handle was fetched. *)
Lemma with_handle {A} id (s : state) (k : H -> stateM state IoError A)
    (P : outcome IoError A * state -> Prop) :
  dm_inv s ->
  (forall h s', got_handle id h s s' -> P (k h s')) ->
  (forall e s', s'.1 = s.1 -> fs_same s.2 s'.2 -> P (Err e, s')) ->
  P ((h ← get_file_handle id; k h) s).
Proof.
  intros Hinv Hok Herr. pose proof (get_file_handle_ok id s Hinv) as Hg.
  unfold mbind, stateM_bind. destruct (get_file_handle id s) as [[h|e|] s']; [by apply Hok| |done].
  destruct Hg. by apply Herr.
Qed.

Lemma page_bounds (p : PageId) : pid_ok p ->
  0 <= page_index p * PAGE_SIZE /\ (page_index p + 1) * PAGE_SIZE = page_index p * PAGE_SIZE + PAGE_SIZE.
Proof. intros [_ Hi]. unfold id_ok, PAGE_SIZE in *. lia. Qed.

(** ** Reads *)

Lemma read_page_ok (p : PageId) old (s : state) :
  dm_inv s -> pid_ok p -> zlen old = PAGE_SIZE ->
  match read_page p old s with
  | (Ok got, s') =>
      dm_inv s' /\ base_path s'.1 = base_path s.1 /\ fs_same s.2 s'.2
      /\ exists d n, table_data s (table_id p) = Some d
         /\ 0 <= n <= PAGE_SIZE /\ n <= Z.max 0 (zlen d - page_index p * PAGE_SIZE)
         /\ (page_index p * PAGE_SIZE < zlen d -> 0 < n)
         /\ got = sub 0 n (page_data s p) ++ sub n (PAGE_SIZE - n) old
  | (Err _, s') => dm_inv s' /\ base_path s'.1 = base_path s.1 /\ fs_same s.2 s'.2
  | (Panic, _) => False
  end.
Proof.
  intros Hinv [Ht Hi] Hl. unfold read_page. apply with_handle; [done| |].
  - intros h s1 G. destruct (cached_data s1 (table_id p) h) as [d Hd]; [apply G|apply G|].
    destruct (page_offset_eq (page_index p) Hi) as [-> Hoff].
    pose proof (read_table s1 (table_id p) h d (got_inv _ _ _ _ G) (got_cached _ _ _ _ G) Hd old _ Hoff) as Hr.
    unfold mbind, stateM_bind. destruct (on_fs _ s1) as [[[n got]|e|] s2]; [|..|done].
    + destruct Hr as (E & Hs & Hn & Hmax & Hpos & ->).
      pose proof (dm_inv_same s1 s2 E Hs (got_inv _ _ _ _ G)) as Hinv2. cbn.
      split; [done|]. split; [rewrite E; apply G|]. split; [eapply fs_same_trans; [apply G|done]|].
      exists d, n. rewrite (got_table_data _ _ _ _ _ G) in Hd. rewrite Hl in *.
      split_and!; try done; try lia; [intros; apply Hpos; [unfold PAGE_SIZE; lia|done]|].
      unfold page_data. rewrite Hd. simpl. f_equal. rewrite sub_sub by lia. f_equal; lia.
    + destruct Hr as (E & Hs). split; [by eapply dm_inv_same; [| |apply G]|].
      split; [rewrite E; apply G|]. eapply fs_same_trans; [apply G|done].
  - intros e s' E Hs. split; [by eapply dm_inv_same|]. by rewrite E.
Qed.

(** ** Writes *)

Lemma write_page_ok (p : PageId) data (s : state) :
  dm_inv s -> pid_ok p -> zlen data = PAGE_SIZE ->
  match write_page p data s with
  | (Ok _, s') =>
      dm_inv s' /\ base_path s'.1 = base_path s.1
      /\ (exists d, table_data s (table_id p) = Some d
          /\ table_data s' (table_id p) = Some (file_write (page_index p * PAGE_SIZE) data d))
      /\ forall id, id_ok id -> id <> table_id p -> table_data s' id = table_data s id
  | (Err _, s') =>
      dm_inv s' /\ base_path s'.1 = base_path s.1
      /\ forall id, id_ok id -> id <> table_id p -> table_data s' id = table_data s id
  | (Panic, _) => False
  end.
Proof.
  intros Hinv [Ht Hi] Hl. unfold write_page. apply with_handle; [done| |].
  - intros h s1 G. destruct (cached_data s1 (table_id p) h) as [d Hd]; [apply G|apply G|].
    destruct (page_offset_eq (page_index p) Hi) as [-> Hoff].
    pose proof (write_table s1 (table_id p) h d (got_inv _ _ _ _ G) Ht (got_cached _ _ _ _ G) Hd data _ Hoff) as Hr.
    unfold mbind, stateM_bind. destruct (on_fs _ s1) as [[[]|e|] s2]; [|..|done]; cbn.
    + destruct Hr as (E & Hinv2 & Htd & Ho). split; [done|]. split; [rewrite E; apply G|].
      split. { exists d. by rewrite <- (got_table_data _ _ _ _ _ G). }
      intros id Hid Hne. rewrite Ho by done. apply (got_table_data _ _ _ _ _ G).
    + destruct Hr as (E & Hinv2 & _ & Ho). split; [done|]. split; [rewrite E; apply G|].
      intros id Hid Hne. rewrite Ho by done. apply (got_table_data _ _ _ _ _ G).
  - intros e s' E Hs. split; [by eapply dm_inv_same|]. split; [by rewrite E|].
    intros id _ _. apply table_data_same; [by rewrite E|done].
Qed.

Lemma page_data_written (s s' : state) (p : PageId) data d :
  pid_ok p -> zlen data = PAGE_SIZE ->
  table_data s (table_id p) = Some d ->
  table_data s' (table_id p) = Some (file_write (page_index p * PAGE_SIZE) data d) ->
  (forall id, id_ok id -> id <> table_id p -> table_data s' id = table_data s id) ->
  page_data s' p = data
  /\ forall q, pid_ok q -> q <> p -> page_there s q -> page_data s' q = page_data s q.
Proof.
  intros Hp Hl Hd Hd' Ho. destruct (page_bounds p Hp) as [Hoff _]. split.
  - unfold page_data. rewrite Hd'. simpl. rewrite <- Hl at 2. by apply file_write_same.
  - intros q Hq Hne (dq & Hdq & Hin). unfold page_data.
    destruct (decide (table_id q = table_id p)) as [Heq|Hneq]; [|by rewrite Ho by (done || apply Hq)].
    rewrite Heq in *. rewrite Hd', Hd. simpl. rewrite Hd in Hdq. injection Hdq as <-.
    destruct (page_bounds q Hq). destruct (page_bounds p Hp).
    assert (page_index q <> page_index p) as Hi.
    { intros E. apply Hne. destruct p, q; simpl in *. by subst. }
    apply file_write_other; try done; unfold PAGE_SIZE in *; lia.
Qed.

(** ** New tables *)

Lemma fs_wf_create (w w' : W) p i :
  fs_wf w -> fs_dir w !! p = None -> fs_data w !! i = None ->
  fs_dir w' = <[p := i]> (fs_dir w) -> fs_data w' = <[i := []]> (fs_data w) -> fs_wf w'.
Proof.
  intros [Hw1 Hw2] Hp Hi Ed Ef. split; intros *; rewrite Ed.
  - rewrite Ef. intros [[<- <-]|[_ Hq]]%lookup_insert_Some.
    + rewrite lookup_insert_eq. by eexists.
    + apply Hw1 in Hq. destruct (decide (i = i0)) as [->|]; [by rewrite lookup_insert_eq; eexists|].
      by rewrite lookup_insert_ne.
  - intros [[<- <-]|[Hne Hq]]%lookup_insert_Some [[<- E]|[Hne' Hq']]%lookup_insert_Some; try done.
    + apply Hw1 in Hq' as [? ?]. congruence.
    + subst i0. apply Hw1 in Hq as [? ?]. congruence.
    + by eapply Hw2.
Qed.

(** [create_table_file], for a table that must have no file. *)
Lemma create_table_ok (s : state) id :
  dm_inv s -> id_ok id ->
  match create_table_file id s with
  | (Ok _, s') =>
      table_data s id = None /\ dm_inv s' /\ base_path s'.1 = base_path s.1
      /\ table_data s' id = Some [] /\ is_Some (file_handles s'.1 !! id)
      /\ next_page_ids s'.1 !! id = Some 0
      /\ forall id', id_ok id' -> id' <> id ->
           table_data s' id' = table_data s id' /\ file_handles s'.1 !! id' = file_handles s.1 !! id'
           /\ next_page_ids s'.1 !! id' = next_page_ids s.1 !! id'
  | (Err _, s') => s'.1 = s.1 /\ fs_same s.2 s'.2
  | (Panic, _) => False
  end.
Proof.
  destruct s as [dm w]. intros [Hfs Hh Hn Hrg] Hid. simpl in *.
  unfold create_table_file, mbind, stateM_bind, sget, on_fs. simpl.
  run_law (create_dir_all_law (base_path dm) w) Hl; [|done]. destruct Hl as [Hs _].
  pose proof Hs as [E1 E2]. cbn.
  run_law (create_file_law (table_path dm id) w') Hl; [|split; [done|by apply (fs_same_trans w w')]].
  destruct Hl as (Hp & Hi & Ed & Ef). cbn. rewrite E1 in Hp.
  assert (forall id', table_path (next_insert id 0 (cache_insert id r0 dm)) id' = table_path dm id')
    as Hpath by done.
  split_and!; try done.
  - unfold table_data. simpl. by rewrite Hp.
  - split; simpl.
    + apply (fs_wf_create w' w'0 (table_path dm id) (handle_file r0)); try done; [by apply (fs_wf_same w w')|].
      by rewrite E1.
    + intros id' h'. rewrite Hpath, Ed. intros [[<- <-]|[Hne Hc]]%lookup_insert_Some.
      { by rewrite lookup_insert_eq. }
      rewrite lookup_insert_ne, E1; [by apply Hh|]. intros Heq. apply Hh in Hc. congruence.
    + intros id'. destruct (decide (id = id')) as [->|].
      { rewrite !lookup_insert_eq. by split; eexists. }
      by rewrite !lookup_insert_ne.
    + intros id' n [[<- <-]|[_ Hk]]%lookup_insert_Some; [by unfold id_ok; lia|by eapply Hrg].
  - unfold table_data. simpl. rewrite Hpath, Ed, lookup_insert_eq, Ef. simpl. by rewrite lookup_insert_eq.
  - simpl. rewrite lookup_insert_eq. by eexists.
  - simpl. by rewrite lookup_insert_eq.
  - intros id' Hid' Hne. simpl. rewrite !lookup_insert_ne by done. split; [|done].
    unfold table_data. simpl. rewrite Hpath, Ed, lookup_insert_ne, E1.
    2:{ intros Heq. apply Hne. by apply (table_path_inj dm). }
    destruct (fs_dir w !! table_path dm id') as [j|] eqn:Hj; [|done]. simpl.
    rewrite Ef, lookup_insert_ne, E2; [done|]. intros <-. apply (proj1 Hfs) in Hj as [? Hj].
    rewrite E2 in Hi. congruence.
Qed.

(** ** Allocation *)

(** The index the next allocation takes. *)
Definition next_index (s : state) (id : Z) (d : list Z) : Z :=
  default (wrap 32 (zlen d / PAGE_SIZE)) (next_page_ids s.1 !! id).

Lemma allocate_page_ok (s : state) id :
  dm_inv s -> id_ok id ->
  match allocate_page id s with
  | (Ok p, s') => exists d,
      table_data s id = Some d /\ p = mkPageId id (next_index s id d)
      /\ dm_inv s' /\ base_path s'.1 = base_path s.1
      /\ table_data s' id = Some (file_write (next_index s id d * PAGE_SIZE) (fill 0 PAGE_SIZE) d)
      /\ next_page_ids s'.1 !! id = Some (wrap 32 (next_index s id d + 1))
      /\ forall id', id_ok id' -> id' <> id -> table_data s' id' = table_data s id'
  | (Err _, s') =>
      dm_inv s' /\ forall id', id_ok id' -> id' <> id -> table_data s' id' = table_data s id'
  | (Panic, _) => False
  end.
Proof.
  intros Hinv Hid. unfold allocate_page. apply with_handle; [done| |].
  2:{ intros e s' E Hs. split; [by eapply dm_inv_same|]. intros. by apply table_data_same; [rewrite E|]. }
  intros h s1 G. destruct (cached_data s1 id h) as [d Hd]; [apply G|apply G|].
  assert (next_page_ids s1.1 !! id = Some (next_index s id d)) as Hnx.
  { rewrite (got_next _ _ _ _ G). unfold next_index. rewrite (got_table_data _ _ _ _ _ G) in Hd. rewrite Hd.
    destruct (next_page_ids s.1 !! id) as [n|] eqn:Hn, (file_handles s.1 !! id) as [h'|] eqn:Hf; cbn;
      rewrite ?Hn, ?lookup_insert_eq; try done.
    destruct (proj1 (dm_next _ Hinv id)) as [? ?]; [by eexists|congruence]. }
  assert (id_ok (next_index s id d)) as Hok by (apply (dm_range _ (got_inv _ _ _ _ G) _ _ Hnx)).
  set (i := next_index s id d) in *. destruct (page_offset_eq i Hok) as [Hoff Hpos].
  set (s2 := (next_insert id (wrap 32 (i + 1)) s1.1, s1.2)).
  assert (dm_inv s2) as Hinv2 by (apply next_insert_inv; [apply G|rewrite Hnx; by eexists|by apply wrap_range]).
  unfold mbind, stateM_bind, on_dm, fetch_add. destruct s1 as [dm1 w1]. cbn [fst snd] in *. rewrite Hnx.
  cbn beta iota. change (next_insert id (wrap 32 (i + 1)) dm1, w1) with s2. rewrite Hoff.
  assert (table_data s2 id = Some d) as Hd2 by done.
  pose proof (write_table s2 id h d Hinv2 Hid (got_cached _ _ _ _ G) Hd2 (fill 0 PAGE_SIZE) _ Hpos) as Hw.
  assert (forall id', table_data s2 id' = table_data s id') as Hsame
    by (intros id'; apply (got_table_data _ _ _ _ id' G)).
  destruct (on_fs _ s2) as [[[]|e|] s3]; [|..|done]; cbn.
  - destruct Hw as (E & Hinv3 & Hd3 & Ho). exists d. rewrite <- Hsame.
    split_and!; try done; [rewrite E; apply G| |intros; rewrite Ho by done; apply Hsame].
    rewrite E. cbn. by rewrite lookup_insert_eq.
  - destruct Hw as (E & Hinv3 & _ & Ho). split; [done|]. intros. rewrite Ho by done. apply Hsame.
Qed.

(** C32: Making a table: [create_table_file] succeeds only for a table without a
    file, and leaves the other tables and their handles as they were; after it
    [table_file_exists] answers true, a second [create_table_file] fails, and
    the first [allocate_page] gives page 0, one page of zeros being the file.
    A failed creation changes neither the manager nor any file; nothing
    panics. *)
Theorem new_table_spec (s : state) id :
  dm_inv s -> id_ok id ->
  match create_table_file id s with
  | (Ok _, s1) =>
      table_data s id = None /\ dm_inv s1 /\ table_data s1 id = Some []
      /\ (forall id', id_ok id' -> id' <> id ->
           table_data s1 id' = table_data s id' /\ file_handles s1.1 !! id' = file_handles s.1 !! id')
      /\ (table_file_exists id s1).1 <> Ok false
      /\ is_ok (create_table_file id s1).1 = false
      /\ match allocate_page id s1 with
         | (Ok p, s2) => p = mkPageId id 0 /\ dm_inv s2 /\ table_data s2 id = Some (fill 0 PAGE_SIZE)
         | (Err _, s2) => dm_inv s2
         | (Panic, _) => False
         end
  | (Err _, s1) => s1.1 = s.1 /\ fs_same s.2 s1.2
  | (Panic, _) => False
  end.
Proof.
  intros Hinv Hid. pose proof (create_table_ok s id Hinv Hid) as Hc.
  destruct (create_table_file id s) as [[[]|e|] s1]; [|done|done].
  destruct Hc as (Hnone & Hinv1 & _ & Hd & _ & Hn & Ho).
  split_and!; try done.
  - intros id' Hid' Hne. by destruct (Ho id' Hid' Hne) as (? & ? & _).
  - destruct s1 as [dm w]. unfold table_file_exists, mbind, stateM_bind, sget, on_fs. cbn.
    run_law (file_exists_law (table_path dm id) w) Hl; [|done]. cbn. intros [=->].
    destruct Hl as [_ Hl]. assert (false = true) as E; [|done]. apply Hl. left.
    unfold table_data in Hd. cbn in Hd. by destruct (fs_dir w !! table_path dm id); [eexists|].
  - pose proof (create_table_ok s1 id Hinv1 Hid) as Hc.
    destruct (create_table_file id s1) as [[[]|e|] s2]; [|done|done]. destruct Hc as [Hc _]. congruence.
  - pose proof (allocate_page_ok s1 id Hinv1 Hid) as Ha.
    destruct (allocate_page id s1) as [[p|e|] s2]; [|by destruct Ha|done].
    destruct Ha as (d & Hd1 & -> & Hinv2 & _ & Hd2 & _). rewrite Hd in Hd1. injection Hd1 as <-.
    unfold next_index in *. rewrite Hn in *. cbn in *. split_and!; [done|done|]. by rewrite Hd2.
Qed.

(** C33: The page counter of a table is a wrapping 32-bit one and is never
    checked: the [expect] on "maximum table size" converts a [u32] to itself and
    cannot fire.  A table whose counter has reached 2^32 - 1 allocates that
    page, and the next call succeeds as well, returns page 0 a second time and
    overwrites its bytes with zeros, whatever they were. *)
Theorem allocate_page_wraps (s : state) id d :
  dm_inv s -> id_ok id -> table_data s id = Some d -> next_page_ids s.1 !! id = Some (2 ^ 32 - 1) ->
  match allocate_page id s with
  | (Ok p, s1) =>
      p = mkPageId id (2 ^ 32 - 1)
      /\ (PAGE_SIZE <= zlen d -> page_data s1 (mkPageId id 0) = page_data s (mkPageId id 0))
      /\ match allocate_page id s1 with
         | (Ok q, s2) => q = mkPageId id 0 /\ page_data s2 q = fill 0 PAGE_SIZE
                         /\ next_page_ids s2.1 !! id = Some 1
         | (Err _, _) => True
         | (Panic, _) => False
         end
  | (Err _, _) => True
  | (Panic, _) => False
  end.
Proof.
  intros Hinv Hid Hd Hn. pose proof (allocate_page_ok s id Hinv Hid) as Ha.
  destruct (allocate_page id s) as [[p|e|] s1]; [|done|done].
  destruct Ha as (d' & Hd' & -> & Hinv1 & _ & Hd1 & Hn1 & _). rewrite Hd in Hd'. injection Hd' as <-.
  unfold next_index in *. rewrite Hn in *. cbn [default Datatypes.id] in *.
  split; [done|]. split.
  { intros Hl. unfold page_data. cbn [table_id page_index]. rewrite Hd1, Hd. cbn [default Datatypes.id].
    apply file_write_other; unfold PAGE_SIZE in *; lia. }
  pose proof (allocate_page_ok s1 id Hinv1 Hid) as Ha.
  destruct (allocate_page id s1) as [[q|e|] s2]; [|done|done].
  destruct Ha as (d2 & Hd2 & -> & Hinv2 & _ & Hd3 & Hn2 & _). unfold next_index in *. rewrite Hn1 in *.
  replace (wrap 32 (2 ^ 32 - 1 + 1)) with 0 in * by done. cbn [default Datatypes.id] in *.
  split; [done|]. split; [|done]. unfold page_data. cbn [table_id page_index]. rewrite Hd3. cbn [default Datatypes.id].
  assert (zlen (fill 0 PAGE_SIZE) = PAGE_SIZE) as Hz by (apply zlen_fill; unfold PAGE_SIZE; lia).
  rewrite <- Hz at 2. by apply file_write_same.
Qed.

(** ** Round trip *)

(** C11: A page that was written is read back: after [write_page] succeeds, the
    page holds the buffer, no other page of any table has changed, and
    [read_page] fills the front of the caller's buffer with the page, the rest
    of it (when the operating system reads short) staying as it was; after a
    failed call no other table has changed; nothing panics. *)
Theorem disk_page_roundtrip (s : state) p data old :
  dm_inv s -> pid_ok p -> zlen data = PAGE_SIZE -> zlen old = PAGE_SIZE ->
  match write_page p data s with
  | (Ok _, s1) =>
      dm_inv s1 /\ page_data s1 p = data
      /\ (forall q, pid_ok q -> q <> p -> page_there s q -> page_data s1 q = page_data s q)
      /\ match read_page p old s1 with
         | (Ok got, s2) =>
             dm_inv s2 /\ fs_same s1.2 s2.2
             /\ exists n, 0 < n <= PAGE_SIZE /\ got = sub 0 n data ++ sub n (PAGE_SIZE - n) old
         | (Err _, s2) => dm_inv s2 /\ fs_same s1.2 s2.2
         | (Panic, _) => False
         end
  | (Err _, s1) =>
      dm_inv s1 /\ forall id, id_ok id -> id <> table_id p -> table_data s1 id = table_data s id
  | (Panic, _) => False
  end.
Proof.
  intros Hinv Hp Hl Hold. pose proof (write_page_ok p data s Hinv Hp Hl) as Hw.
  destruct (write_page p data s) as [[[]|e|] s1]; [|by destruct Hw as (? & _ & ?)|done].
  destruct Hw as (Hinv1 & Hb & (d & Hd & Hd') & Ho).
  destruct (page_data_written s s1 p data d Hp Hl Hd Hd' Ho) as [Hsame Hother].
  split; [done|]. split; [done|]. split; [done|].
  pose proof (read_page_ok p old s1 Hinv1 Hp Hold) as Hr.
  destruct (read_page p old s1) as [[got|e|] s2]; [|by destruct Hr as (? & _ & ?)|done].
  destruct Hr as (Hinv2 & _ & Hs & d1 & n & Hd1 & Hn & _ & Hpos & Hgot).
  split; [done|]. split; [done|]. exists n. rewrite Hsame in Hgot. split; [|done].
  split; [|lia]. apply Hpos. rewrite Hd' in Hd1. injection Hd1 as <-.
  destruct (page_bounds p Hp). rewrite zlen_file_write by done. unfold PAGE_SIZE in *. lia.
Qed.
End Props.

(** * On the file system in memory *)

(** The manager of an empty folder, and after table 7 is made. *)
Definition mem_start : DiskManager MemFile * MemFs := (disk_manager_new [], mem_empty).
Definition mem_table : DiskManager MemFile * MemFs := (create_table_file 7 mem_start).2.

Lemma mem_start_inv : dm_inv mem_start.
Proof.
  split; simpl.
  - by split; intros *; cbn; rewrite lookup_empty.
  - intros *. by rewrite lookup_empty.
  - intros id. by rewrite !lookup_empty.
  - intros *. by rewrite lookup_empty.
Qed.

Lemma mem_table_inv : dm_inv mem_table /\ table_data mem_table 7 = Some [].
Proof.
  assert (id_ok 7) as Hid by (unfold id_ok; lia).
  assert (is_ok (create_table_file 7 mem_start).1 = true) as Hok by (by vm_compute).
  assert (Hc := create_table_ok mem_start 7 mem_start_inv Hid). unfold mem_table.
  destruct (create_table_file 7 mem_start) as [[[]|e|] s']; [|done|done].
  destruct Hc as (_ & ? & _ & ? & _). done.
Qed.

Lemma new_table_spec_witness :
  match create_table_file 7 mem_start with
  | (Ok _, s1) => table_data s1 7 = Some [] /\ is_ok (create_table_file 7 s1).1 = false
  | _ => False
  end.
Proof.
  assert (id_ok 7) as Hid by (unfold id_ok; lia).
  assert (is_ok (create_table_file 7 mem_start).1 = true) as Hok by (by vm_compute).
  assert (Hc := new_table_spec mem_start 7 mem_start_inv Hid).
  destruct (create_table_file 7 mem_start) as [[[]|e|] s']; [|done|done].
  destruct Hc as (_ & ? & ? & _ & _ & ? & _). done.
Defined.

(** Table 7 with its counter at the end. *)
Definition mem_full : DiskManager MemFile * MemFs := (next_insert 7 (2 ^ 32 - 1) mem_table.1, mem_table.2).

Lemma allocate_page_wraps_witness :
  match allocate_page 7 mem_full with
  | (Ok p, s1) => p = mkPageId 7 (2 ^ 32 - 1)
      /\ match allocate_page 7 s1 with (Ok q, _) => q = mkPageId 7 0 | (Err _, _) => True | _ => False end
  | (Err _, _) => True
  | (Panic, _) => False
  end.
Proof.
  destruct mem_table_inv as [Hinv Hd].
  assert (is_Some (next_page_ids mem_table.1 !! 7)) as Hn by (exists 0; by vm_compute).
  assert (dm_inv mem_full) as Hfull by (apply next_insert_inv; [done|done|unfold id_ok; lia]).
  assert (Hw := allocate_page_wraps mem_full 7 [] Hfull ltac:(unfold id_ok; lia) Hd (lookup_insert_eq _ _ _)).
  destruct (allocate_page 7 mem_full) as [[p|e|] s1]; [|done|done].
  destruct Hw as (-> & _ & Hw). split; [done|].
  destruct (allocate_page 7 s1) as [[q|e|] s2]; [by destruct Hw as [? _]|done|done].
Defined.

Lemma disk_page_roundtrip_witness :
  match write_page (mkPageId 7 1) (fill 5 PAGE_SIZE) mem_table with
  | (Ok _, s1) => page_data s1 (mkPageId 7 1) = fill 5 PAGE_SIZE
  | _ => False
  end.
Proof.
  destruct mem_table_inv as [Hinv Hd].
  assert (is_ok (write_page (mkPageId 7 1) (fill 5 PAGE_SIZE) mem_table).1 = true) as Hok by (by vm_compute).
  assert (pid_ok (mkPageId 7 1)) as Hp by (split; unfold id_ok; simpl; lia).
  assert (forall b : Z, zlen (fill b PAGE_SIZE) = PAGE_SIZE) as Hl by (intros; apply zlen_fill; unfold PAGE_SIZE; lia).
  assert (Hr := disk_page_roundtrip mem_table (mkPageId 7 1) _ (fill 0 PAGE_SIZE) Hinv Hp (Hl 5) (Hl 0)).
  destruct (write_page _ _ mem_table) as [[[]|e|] s1]; [|done|done]. by destruct Hr as (_ & ? & _).
Defined.
