(* ===== verification/DiskManagerAlloc.v ===== *)
(** Page allocation, by one caller or by any number of concurrent ones: the
    calls of [allocate_page] interleaved at their suspension points. *)
From stdpp Require Import gmap relations.
From Stdlib Require Import String.
From S2P Require Import Prelude.
From S2P Require Import Bytes.
From S2P Require Import RustStr.
From S2P Require Import Page.
From S2P Require Import FileSystem.
From S2P Require Import FileSystemProps.
From S2P Require Import DiskManager.
From S2P Require Import DiskManagerSpec.
From S2P Require Import DiskManagerProps.

(** * The steps of one call *)

(** Where a call of [allocate_page] is; the index it holds once it has one. *)
Inductive AllocPc (H : Type) :=
| ALookup
| AOpen
| ALen (h : H)
| APublish (h : H) (file_length : Z)
| AFetchAdd (h : H)
| AWrite (h : H) (next_index : Z)
| ADone (r : outcome IoError PageId) (next_index : option Z).
Arguments ALookup {H}.
Arguments AOpen {H}.
Arguments ALen {H} h.
Arguments APublish {H} h file_length.
Arguments AFetchAdd {H} h.
Arguments AWrite {H} h next_index.
Arguments ADone {H} r next_index.

Section Alloc.
Context {W H : Type} `{FileSystemLaws W H}.
#[local] Abbreviation state := (DiskManager H * W)%type.
#[local] Abbreviation diskM := (stateM state IoError).

(** Run [m]; go on with its value, or end with its error. *)
Definition step_with {A} (m : diskM A) (k : A -> AllocPc H) (index : option Z) (s : state) :
    AllocPc H * state :=
  match m s with
  | (Ok a, s') => (k a, s')
  | (Err e, s') => (ADone (Err e) index, s')
  | (Panic, s') => (ADone Panic index, s')
  end.

(** Each step is one access under a lock, one atomic operation, or one call of
    the file system. *)
Definition alloc_step (id : Z) (pc : AllocPc H) (s : state) : AllocPc H * state :=
  match pc with
  | ALookup =>
      match file_handles s.1 !! id with
      | Some h => (AFetchAdd h, s)
      | None => (AOpen, s)
      end
  | AOpen => step_with (on_fs (open_file (table_path s.1 id))) ALen None s
  | ALen h => step_with (on_fs (len h)) (APublish h) None s
  | APublish h n => step_with (on_dm (publish_handle id h n)) AFetchAdd None s
  | AFetchAdd h => step_with (on_dm (fetch_add id)) (AWrite h) None s
  | AWrite h i =>
      step_with (on_fs (write_at h (fill 0 PAGE_SIZE) (page_offset i)))
        (fun _ => ADone (Ok (mkPageId id i)) (Some i)) (Some i) s
  | ADone r i => (ADone r i, s)
  end.

Fixpoint alloc_run (id : Z) (n : nat) (pc : AllocPc H) (s : state) : AllocPc H * state :=
  match n with
  | O => (pc, s)
  | S n => let '(pc', s') := alloc_step id pc s in alloc_run id n pc' s'
  end.

(** Six steps without interruption are the method. *)
Lemma alloc_done_run id n r i s : alloc_run id n (ADone r i) s = (ADone r i, s).
Proof. induction n; simpl; auto. Qed.

Ltac alloc_cbn := do 2 (unfold step_with, on_fs, on_dm, fetch_add; cbn).

Lemma alloc_run_method id (s : state) :
  exists i, alloc_run id 6 ALookup s
  = let '(r, s') := allocate_page id s in (ADone r i, s').
Proof.
  destruct s as [dm w]. unfold allocate_page, get_file_handle, mbind, stateM_bind, sget. alloc_cbn.
  destruct (file_handles dm !! id) as [h|]; alloc_cbn.
  - destruct (next_page_ids dm !! id); alloc_cbn; [|eexists; reflexivity].
    destruct (write_at _ _ _ _) as [[[]|e|] w']; alloc_cbn; eexists; reflexivity.
  - destruct (open_file _ _) as [[h|e|] w1]; alloc_cbn; [|eexists; reflexivity..].
    destruct (len _ _) as [[n|e|] w2]; alloc_cbn; [|eexists; reflexivity..].
    destruct (publish_handle id h n dm) as [[h'|e|] dm']; alloc_cbn; [|eexists; reflexivity..].
    destruct (next_page_ids dm' !! id); alloc_cbn; [|eexists; reflexivity].
    destruct (write_at _ _ _ _) as [[[]|e|] w']; alloc_cbn; eexists; reflexivity.
Qed.

(** * Concurrent calls *)

(** The calls in progress, and the state they share. *)
Definition calls : Type := list (AllocPc H) * state.

Inductive alloc_sched (id : Z) : calls -> calls -> Prop :=
| alloc_sched_step j pc pc' ts s s' :
    ts !! j = Some pc -> alloc_step id pc s = (pc', s') ->
    alloc_sched id (ts, s) (<[j := pc']> ts, s').

(** The calls in the order [js] gives them. *)
Fixpoint run_sched (id : Z) (js : list nat) (c : calls) : calls :=
  match js with
  | [] => c
  | j :: js =>
      match c.1 !! j with
      | Some pc => let '(pc', s') := alloc_step id pc c.2 in run_sched id js (<[j := pc']> c.1, s')
      | None => run_sched id js c
      end
  end.

Lemma run_sched_rtc id js c : rtc (alloc_sched id) c (run_sched id js c).
Proof.
  revert c. induction js as [|j js IH]; intros [ts s]; simpl; [done|].
  destruct (ts !! j) as [pc|] eqn:Hj; [|apply IH].
  destruct (alloc_step id pc s) as [pc' s'] eqn:Hs. eapply rtc_l; [|apply IH]. by econstructor.
Qed.

(** The index a call has taken. *)
Definition taken (pc : AllocPc H) : option Z :=
  match pc with AWrite _ i => Some i | ADone _ i => i | _ => None end.

Lemma omap_taken_same (ts : list (AllocPc H)) (j : nat) pc pc' :
  ts !! j = Some pc -> taken pc' = taken pc -> omap taken (<[j := pc']> ts) = omap taken ts.
Proof.
  intros Hj Ht. rewrite insert_take_drop by (by eapply lookup_lt_Some).
  rewrite <- (take_drop_middle ts j pc Hj) at 3. rewrite !omap_app. f_equal. simpl. by rewrite Ht.
Qed.

Lemma omap_taken_new (ts : list (AllocPc H)) (j : nat) pc pc' i :
  ts !! j = Some pc -> taken pc = None -> taken pc' = Some i ->
  omap taken (<[j := pc']> ts) ≡ₚ i :: omap taken ts.
Proof.
  intros Hj Hn Ht. rewrite insert_take_drop by (by eapply lookup_lt_Some).
  rewrite <- (take_drop_middle ts j pc Hj) at 3. rewrite !omap_app. simpl. rewrite Ht, Hn.
  by rewrite Permutation_middle.
Qed.

Lemma length_taken (ts : list (AllocPc H)) : (length (omap taken ts) <= length ts)%nat.
Proof.
  induction ts as [|pc ts IH]; [done|].
  change (omap taken (pc :: ts)) with
    (match taken pc with Some i => i :: omap taken ts | None => omap taken ts end).
  destruct (taken pc); cbn [length]; lia.
Qed.

Lemma taken_lt (ts : list (AllocPc H)) (j : nat) pc :
  ts !! j = Some pc -> taken pc = None -> (length (omap taken ts) < length ts)%nat.
Proof.
  intros Hj Hn. assert (Hw := omap_taken_new ts j pc (ADone Panic (Some 0)) 0 Hj Hn eq_refl).
  apply Permutation_length in Hw. simpl in Hw.
  pose proof (length_taken (<[j := ADone Panic (Some 0)]> ts)) as Hl. rewrite length_insert in Hl. lia.
Qed.

Section Invariant.
Variables (id N : Z) (d0 : list Z) (K : nat) (root : Path).
Hypothesis Hid : id_ok id.
Hypothesis Hd0 : zlen d0 = N * PAGE_SIZE.
Hypothesis HN : 0 <= N.
Hypothesis Hroom : N + Z.of_nat K <= 2 ^ 32.

(** The table's file is the original one with zeros after it. *)
Definition grown (s : state) (m : Z) : Prop :=
  0 <= m /\ table_data s id = Some (d0 ++ fill 0 m).

Definition handle_of (s : state) (h : H) : Prop :=
  fs_dir s.2 !! table_path s.1 id = Some (handle_file h).

(** What holds of one call, [m] bytes of zeros being in the file. *)
Definition call_ok (s : state) (m : Z) (pc : AllocPc H) : Prop :=
  match pc with
  | ALookup | AOpen => True
  | ALen h => handle_of s h
  | APublish h n => handle_of s h /\ (file_handles s.1 !! id = None -> n = zlen d0)
  | AFetchAdd h | AWrite h _ => handle_of s h /\ is_Some (file_handles s.1 !! id)
  | ADone (Ok p) (Some i) => p = mkPageId id i /\ (i + 1) * PAGE_SIZE <= zlen d0 + m
  | ADone (Err _) _ => True
  | ADone _ _ => False
  end.

Record alloc_inv (c : calls) (m : Z) : Prop := {
  ai_dm : dm_inv c.2;
  ai_grown : grown c.2 m;
  ai_fresh : file_handles c.2.1 !! id = None -> m = 0 /\ omap taken c.1 = [];
  ai_counter : is_Some (file_handles c.2.1 !! id) ->
    next_page_ids c.2.1 !! id = Some (wrap 32 (N + zlen (omap taken c.1)));
  ai_distinct : NoDup (omap taken c.1);
  ai_range : Forall (fun i => N <= i < N + zlen (omap taken c.1)) (omap taken c.1);
  ai_calls : Forall (call_ok c.2 m) c.1;
  ai_length : length c.1 = K;
  ai_bound : m <= zlen (omap taken c.1) * PAGE_SIZE;
}.

(** ** Replacing one call *)

(** What a step of one call does to the shared state, for the others. *)
Record evolves (s s' : state) : Prop := {
  ev_dir : fs_dir s'.2 = fs_dir s.2;
  ev_base : base_path s'.1 = base_path s.1;
  ev_handle : is_Some (file_handles s.1 !! id) -> is_Some (file_handles s'.1 !! id);
}.

Lemma evolves_refl s : evolves s s.
Proof. done. Qed.

Lemma evolves_handle s s' h : evolves s s' -> handle_of s h -> handle_of s' h.
Proof. intros [E1 E2 _] Hh. unfold handle_of. by rewrite E1, (same_path s.1 s'.1). Qed.

Lemma call_ok_mono s s' m m' pc : evolves s s' -> m <= m' -> call_ok s m pc -> call_ok s' m' pc.
Proof.
  intros Hev Hm. pose proof (evolves_handle s s') as Hh. pose proof (ev_handle _ _ Hev) as Hk.
  destruct pc as [| |h|h n|h|h i|[p|e|] [i|]]; simpl; try done; [by eauto| |intros [? ?]; by eauto..|intros [-> ?]; split; [done|lia]].
  intros [? Hn]. split; [by eauto|]. intros Hnone. apply Hn. destruct (file_handles s.1 !! id) eqn:Hs; [|done].
  destruct Hk as [? Hk]; [by eexists|congruence].
Qed.

Lemma calls_mono s s' m m' (ts : list (AllocPc H)) (j : nat) pc' :
  evolves s s' -> m <= m' -> Forall (call_ok s m) ts -> call_ok s' m' pc' ->
  Forall (call_ok s' m') (<[j := pc']> ts).
Proof.
  intros Hev Hm Hts Hpc. apply Forall_insert; [|done].
  eapply Forall_impl; [exact Hts|]. intros. by eapply call_ok_mono.
Qed.

(** A step that takes no index. *)
Lemma inv_keep (ts : list (AllocPc H)) (j : nat) pc pc' s s' m m' :
  alloc_inv (ts, s) m -> ts !! j = Some pc -> taken pc' = taken pc -> m <= m' ->
  dm_inv s' -> grown s' m' -> evolves s s' ->
  (file_handles s.1 !! id = None -> m' = m) ->
  (is_Some (file_handles s.1 !! id) -> next_page_ids s'.1 !! id = next_page_ids s.1 !! id) ->
  (file_handles s.1 !! id = None -> is_Some (file_handles s'.1 !! id) ->
   next_page_ids s'.1 !! id = Some (wrap 32 N)) ->
  call_ok s' m' pc' -> m' <= zlen (omap taken ts) * PAGE_SIZE ->
  alloc_inv (<[j := pc']> ts, s') m'.
Proof.
  intros [I1 I2 I3 I4 I5 I6 I7 I8 I9] Hj Ht Hm Hinv Hgr Hev Hm0 Hn1 Hn2 Hpc Hbound. cbn [fst snd] in *.
  split; cbn [fst snd]; rewrite ?(omap_taken_same ts j pc pc') by done; try done.
  - intros Hnone. destruct (file_handles s.1 !! id) eqn:Hs.
    + destruct (ev_handle _ _ Hev) as [? Hk]; [by rewrite Hs; eexists|congruence].
    + rewrite Hm0 by done. by apply I3.
  - intros Hsome. destruct (file_handles s.1 !! id) eqn:Hs.
    + rewrite Hn1 by (by eexists). apply I4. by eexists.
    + rewrite Hn2 by done. destruct (I3 eq_refl) as [_ ->]. by rewrite Z.add_0_r.
  - by eapply calls_mono.
  - by rewrite length_insert.
Qed.

(** ** The steps *)

Lemma fetch_step (ts : list (AllocPc H)) (j : nat) h s m pc' s' :
  alloc_inv (ts, s) m -> ts !! j = Some (AFetchAdd h) ->
  alloc_step id (AFetchAdd h) s = (pc', s') -> alloc_inv (<[j := pc']> ts, s') m.
Proof.
  intros Hinv Hj Hstep. pose proof Hinv as [I1 I2 I3 I4 I5 I6 I7 I8 I9]. cbn [fst snd] in *.
  pose proof (proj1 (Forall_lookup _ _) I7 _ _ Hj) as [Hh Hsome].
  specialize (I4 Hsome). pose proof (taken_lt _ _ _ Hj eq_refl) as Hlt.
  assert (0 <= N + zlen (omap taken ts) < 2 ^ 32) as Hi
    by (unfold zlen; rewrite I8 in Hlt; pose proof (Zle_0_nat (length (omap taken ts))); lia).
  rewrite wrap_small in I4 by done. destruct s as [dm w]. cbn [fst snd] in *.
  cbn [alloc_step] in Hstep. unfold step_with, on_dm, fetch_add in Hstep.
  rewrite I4 in Hstep. cbn in Hstep. injection Hstep as <- <-.
  set (i := N + zlen (omap taken ts)) in *.
  pose proof (omap_taken_new ts j _ (AWrite h i) i Hj eq_refl eq_refl) as Hp.
  assert (zlen (omap taken (<[j := AWrite h i]> ts)) = zlen (omap taken ts) + 1) as Hz
    by (unfold zlen; rewrite Hp; simpl; lia).
  assert (evolves (dm, w) (next_insert id (wrap 32 (i + 1)) dm, w)) as Hev by done.
  split; cbn [fst snd].
  - apply (next_insert_inv (dm, w)); [done|cbn; rewrite I4; by eexists|by apply wrap_range].
  - exact I2.
  - intros Hnone. cbn in Hnone. rewrite Hnone in Hsome. by destruct Hsome.
  - intros _. cbn. rewrite lookup_insert_eq, Hz. do 2 f_equal. unfold i. lia.
  - rewrite Hp. apply NoDup_cons. split; [|done]. intros Hin.
    rewrite Forall_forall in I6. apply I6 in Hin. lia.
  - rewrite Hp, Hz. constructor; [unfold i; pose proof (zlen_nonneg (omap taken ts)); lia|].
    eapply Forall_impl; [exact I6|]. cbn beta. intros. lia.
  - apply (calls_mono (dm, w) _ m m); [done|lia|done|]. split; [done|exact Hsome].
  - by rewrite length_insert.
  - rewrite Hz. unfold PAGE_SIZE in *. lia.
Qed.

Lemma file_write_zeros off k m :
  zlen d0 <= off -> 0 <= m -> 0 <= k ->
  file_write off (fill 0 k) (d0 ++ fill 0 m) = d0 ++ fill 0 (Z.max m (off + k - zlen d0)).
Proof.
  intros Ho Hm Hk. unfold file_write. pose proof (zlen_nonneg d0).
  rewrite zlen_app, !zlen_fill by lia.
  replace (fill 0 (Z.max m (off + k - zlen d0)))
    with (fill 0 m ++ fill 0 (Z.max 0 (off + k - (zlen d0 + m)))).
  2:{ rewrite <- fill_add by lia. f_equal. lia. }
  rewrite <- app_assoc. rewrite <- fill_add by lia.
  set (n := m + _). assert (off - zlen d0 + k <= n /\ 0 <= n) as Hn by (unfold n; lia). clearbody n.
  rewrite splice_app_r by (rewrite ?zlen_fill by lia; lia). f_equal.
  set (o := off - zlen d0) in *. assert (0 <= o) as Ho0 by (unfold o; lia). clearbody o.
  apply list_eq. intros x. rewrite lookup_splice by (rewrite ?zlen_fill by lia; lia).
  rewrite zlen_fill by lia. unfold fill. case_decide; [|done].
  by rewrite !lookup_replicate_2 by lia.
Qed.

Lemma zeros_prefix k : 0 <= k <= PAGE_SIZE -> sub 0 k (fill 0 PAGE_SIZE) = fill 0 k.
Proof.
  intros. unfold sub, fill. rewrite drop_0, take_replicate. f_equal. unfold PAGE_SIZE in *. lia.
Qed.

Lemma part_zeros i m d' :
  N <= i -> 0 <= m -> part_written (i * PAGE_SIZE) (fill 0 PAGE_SIZE) (d0 ++ fill 0 m) d' ->
  exists m', m <= m' <= Z.max m (i * PAGE_SIZE + PAGE_SIZE - zlen d0) /\ d' = d0 ++ fill 0 m'.
Proof.
  intros Hi Hm [->|(k & Hk & ->)]; [exists m; split; [lia|done]|].
  rewrite zlen_fill in Hk by (unfold PAGE_SIZE; lia). rewrite zeros_prefix by lia.
  rewrite file_write_zeros by (unfold PAGE_SIZE in *; lia). eexists. split; [|done]. lia.
Qed.

Lemma write_step (ts : list (AllocPc H)) (j : nat) h i s m pc' s' :
  alloc_inv (ts, s) m -> ts !! j = Some (AWrite h i) ->
  alloc_step id (AWrite h i) s = (pc', s') ->
  exists m', m <= m' /\ alloc_inv (<[j := pc']> ts, s') m'.
Proof.
  intros Hinv Hj Hstep. pose proof Hinv as [I1 I2 I3 I4 I5 I6 I7 I8 I9]. cbn [fst snd] in *.
  pose proof (proj1 (Forall_lookup _ _) I7 _ _ Hj) as [Hh Hsome].
  destruct Hsome as [h' Hc]. pose proof (dm_handles _ I1 _ _ Hc) as Hh'.
  assert (handle_file h = handle_file h') as Hhh by (unfold handle_of in Hh; congruence).
  destruct I2 as [Hm Htd]. assert (N <= i < N + zlen (omap taken ts) /\ i < 2 ^ 32) as Hi.
  { assert (i ∈ omap taken ts) as Hin by (apply list_elem_of_omap; exists (AWrite h i);
      split; [by eapply list_elem_of_lookup_2|done]).
    rewrite Forall_forall in I6. apply I6 in Hin. pose proof (length_taken ts). unfold zlen in *. lia. }
  assert (i * PAGE_SIZE + PAGE_SIZE - zlen d0 <= zlen (omap taken ts) * PAGE_SIZE) as Hend
    by (unfold PAGE_SIZE in *; lia).
  destruct (page_offset_eq i ltac:(unfold id_ok; lia)) as [Hoff Hpos].
  assert (fs_data s.2 !! handle_file h = Some (d0 ++ fill 0 m)) as Hf
    by (rewrite Hhh; by apply (handle_data s id h')).
  assert (forall w' d', fs_dir w' = fs_dir s.2 -> fs_data w' = <[handle_file h := d']> (fs_data s.2) ->
    dm_inv (s.1, w') /\ table_data (s.1, w') id = Some d') as Hw.
  { intros w' d' E1 E2. rewrite Hhh in E2.
    destruct (table_written s id h' (d0 ++ fill 0 m) I1 Hid Hc Htd w' d' E1 E2) as (? & ? & _). done. }
  destruct s as [dm w]. cbn [fst snd] in *. cbn [alloc_step] in Hstep. unfold step_with, on_fs in Hstep.
  rewrite Hoff in Hstep. run_law (write_at_law h (fill 0 PAGE_SIZE) (i * PAGE_SIZE) w _ Hf Hpos) Hl.
  - destruct Hl as [E1 E2]. destruct (Hw _ _ E1 E2) as [Hinv' Htd'].
    injection Hstep as <- <-. rewrite file_write_zeros in Htd' by (unfold PAGE_SIZE in *; lia).
    exists (Z.max m (i * PAGE_SIZE + PAGE_SIZE - zlen d0)). split; [lia|].
    apply (inv_keep ts j (AWrite h i) _ (dm, w) (dm, w') m); cbn [fst snd]; try done; try lia.
    + by split; [lia|].
    + by rewrite Hc.
    + by rewrite Hc.
    + cbn. split; [done|]. lia.
  - destruct Hl as [E1 (d' & E2 & Hp)]. destruct (Hw _ _ E1 E2) as [Hinv' Htd'].
    injection Hstep as <- <-. destruct (part_zeros i m d' ltac:(lia) Hm Hp) as (m' & Hm' & ->).
    exists m'. split; [lia|].
    apply (inv_keep ts j (AWrite h i) _ (dm, w) (dm, w') m); cbn [fst snd]; try done; try lia.
    + by split; [lia|].
    + by rewrite Hc.
    + by rewrite Hc.
Qed.

(** The steps of [get_file_handle]. *)
Lemma handle_step (ts : list (AllocPc H)) (j : nat) pc s m pc' s' :
  alloc_inv (ts, s) m -> ts !! j = Some pc ->
  match pc with ALookup | AOpen | ALen _ | APublish _ _ => True | _ => False end ->
  alloc_step id pc s = (pc', s') -> alloc_inv (<[j := pc']> ts, s') m.
Proof.
  intros Hinv Hj Hpc Hstep. pose proof Hinv as [I1 I2 I3 I4 I5 I6 I7 I8 I9]. cbn [fst snd] in *.
  pose proof (proj1 (Forall_lookup _ _) I7 _ _ Hj) as Hcall.
  assert (forall w' pc'', fs_same s.2 w' -> taken pc'' = taken pc -> call_ok (s.1, w') m pc'' ->
    alloc_inv (<[j := pc'']> ts, (s.1, w')) m) as Hkeep.
  { intros w' pc'' Hs Ht Hc. apply (inv_keep ts j pc _ s _ m); cbn [fst snd]; try done; try lia.
    - by apply (dm_inv_same s (s.1, w')).
    - destruct I2. split; [done|]. by rewrite (table_data_same s).
    - split; cbn; [apply Hs|done|done].
    - intros Hn [? Hs']. congruence. }
  destruct s as [dm w]. cbn [fst snd] in *.
  destruct pc as [| |h|h n|h|h i|r i]; try done; cbn [alloc_step] in Hstep;
    unfold step_with, on_fs, on_dm in Hstep.
  - cbn [fst] in Hstep. destruct (file_handles dm !! id) as [h|] eqn:Hc; injection Hstep as <- <-;
      apply Hkeep; try done. split; cbn; [by apply (dm_handles _ I1)|by rewrite Hc; eexists].
  - cbn [fst] in Hstep. run_law (open_file_law (table_path dm id) w) Hl; injection Hstep as <- <-.
    + apply Hkeep; [apply Hl|done|]. cbn. unfold handle_of. cbn. destruct Hl as [[E1 _] Hl]. by rewrite E1.
    + by apply Hkeep.
  - assert (exists d, fs_data w !! handle_file h = Some d /\ (file_handles dm !! id = None -> zlen d = zlen d0))
      as (d & Hd & Hz).
    { cbn in Hcall. destruct (proj1 (dm_fs _ I1) _ _ Hcall) as [d Hd]. exists d. split; [done|].
      intros Hn. destruct I2 as [_ Htd]. unfold table_data in Htd. rewrite Hcall in Htd. cbn in Htd.
      cbn in Hd. rewrite Hd in Htd. injection Htd as ->. destruct (I3 Hn) as [-> _]. by rewrite app_nil_r. }
    run_law (len_law h w d Hd) Hl; injection Hstep as <- <-.
    + destruct Hl as [Hs ->]. apply Hkeep; [done|done|]. cbn. split; [|done].
      unfold handle_of in *. cbn in *. destruct Hs as [E1 _]. by rewrite E1.
    + by apply Hkeep.
  - destruct Hcall as [Hh Hz]. cbn [fst] in *. destruct (file_handles dm !! id) as [h'|] eqn:Hc.
    + unfold publish_handle in Hstep. rewrite Hc in Hstep. injection Hstep as <- <-.
      apply Hkeep; try done. split; cbn; [by apply (dm_handles _ I1)|by rewrite Hc; eexists].
    + rewrite (Hz eq_refl) in Hstep. destruct I2 as [Hm Htd]. destruct (I3 eq_refl) as [-> Ht].
      rewrite app_nil_r in Htd.
      assert (fs_data w !! handle_file h = Some d0) as Hf
        by (unfold table_data in Htd; by rewrite Hh in Htd).
      destruct (publish_ok id h (dm, w) d0 I1 Hh Hf Hc) as (dm' & Hpub & G). cbn [fst snd] in *.
      rewrite Hpub in Hstep. injection Hstep as <- <-. pose proof (got_next _ _ _ _ G) as Hnx.
      pose proof (got_cached _ _ _ _ G) as Hcc. cbn [fst] in Hcc.
      cbn [fst snd] in Hnx. rewrite Hc, Htd in Hnx. change (default [] (Some d0)) with d0 in Hnx.
      apply (inv_keep ts j (APublish h n) _ (dm, w) (dm', w) 0); cbn [fst snd]; try done; try lia.
      * apply (got_inv _ _ _ _ G).
      * split; [done|]. rewrite app_nil_r. by rewrite (got_table_data _ _ _ _ _ G).
      * split; cbn; [done|apply (got_base _ _ _ _ G)|intros _; rewrite Hcc; by eexists].
      * by rewrite Hc; intros [? ?].
      * intros _ _. rewrite Hnx. pose proof (dm_next _ I1 id) as Hno. cbn [fst] in Hno.
        unfold next_or_insert. cbn. destruct (next_page_ids dm !! id) eqn:Hn.
        { destruct (proj2 Hno) as [? ?]; [by eexists|congruence]. }
        rewrite lookup_insert_eq, Hd0, Z.div_mul by (unfold PAGE_SIZE; lia). done.
      * split; cbn; [|rewrite Hcc; by eexists]. unfold handle_of. cbn.
        rewrite (same_path dm dm') by apply (got_base _ _ _ _ G). exact Hh.
Qed.

Lemma sched_inv c c' m :
  alloc_inv c m -> alloc_sched id c c' -> exists m', m <= m' /\ alloc_inv c' m'.
Proof.
  intros Hinv Hstep. destruct Hstep as [j pc pc' ts s s' Hj Hpc].
  destruct pc as [| |h|h n|h|h i|r i] eqn:Hp.
  1-4: exists m; split; [lia|]; by eapply handle_step.
  - exists m. split; [lia|]. by eapply fetch_step.
  - by eapply write_step.
  - injection Hpc as <- <-. exists m. split; [lia|]. by rewrite list_insert_id.
Qed.

Lemma sched_reach c c' m :
  alloc_inv c m -> rtc (alloc_sched id) c c' -> exists m', alloc_inv c' m'.
Proof.
  intros Hinv Hr. revert m Hinv. induction Hr as [c|c1 c2 c3 Hs _ IH]; intros m Hinv; [by exists m|].
  destruct (sched_inv _ _ _ Hinv Hs) as (m' & _ & Hinv'). by eapply IH.
Qed.

Lemma alloc_start s :
  dm_inv s -> table_data s id = Some d0 ->
  (is_Some (file_handles s.1 !! id) -> next_page_ids s.1 !! id = Some (wrap 32 N)) ->
  alloc_inv (replicate K ALookup, s) 0.
Proof.
  intros Hinv Hd Hn. assert (forall n, omap taken (replicate n (@ALookup H)) = []) as Ht
    by (induction n as [|n IH]; [done|exact IH]).
  split; cbn [fst snd]; rewrite ?Ht; try done.
  - split; [done|]. by rewrite app_nil_r.
  - intros Hs. rewrite Hn by done. by rewrite Z.add_0_r.
  - constructor.
  - by apply Forall_replicate.
  - by rewrite length_replicate.
Qed.
End Invariant.

(** ** Progress *)

(** The steps a call has left. *)
Definition alloc_rank (pc : AllocPc H) : nat :=
  match pc with
  | ALookup => 6 | AOpen => 5 | ALen _ => 4 | APublish _ _ => 3 | AFetchAdd _ => 2
  | AWrite _ _ => 1 | ADone _ _ => 0
  end.

Lemma alloc_step_rank id pc s :
  match pc with ADone _ _ => True | _ => (alloc_rank (alloc_step id pc s).1 < alloc_rank pc)%nat end.
Proof.
  destruct pc as [| |h|h n|h|h i|r i]; cbn [alloc_step]; [|unfold step_with..|done].
  - destruct (file_handles s.1 !! id); simpl; lia.
  - destruct (on_fs _ s) as [[?|?|] ?]; simpl; lia.
  - destruct (on_fs _ s) as [[?|?|] ?]; simpl; lia.
  - destruct (on_dm _ s) as [[?|?|] ?]; simpl; lia.
  - destruct (on_dm _ s) as [[?|?|] ?]; simpl; lia.
  - destruct (on_fs _ s) as [[?|?|] ?]; simpl; lia.
Qed.

Lemma taken_pages (ts : list (AllocPc H)) (ps : list PageId) id :
  Forall2 (fun pc p => exists i, pc = ADone (Ok p) (Some i) /\ p = mkPageId id i) ts ps ->
  omap taken ts = page_index <$> ps.
Proof.
  induction 1 as [|pc p ts ps (i & -> & ->) _ IH]; [done|].
  change (i :: omap taken ts = i :: (page_index <$> ps)). by rewrite IH.
Qed.

(** Distinct numbers of a range as many as the range has. *)
Lemma full_range (l : list Z) lo (n : nat) :
  NoDup l -> Forall (fun i => lo <= i < lo + Z.of_nat n) l -> length l = n ->
  l ≡ₚ range lo (lo + Z.of_nat n).
Proof.
  intros Hn Hf Hl. apply submseteq_length_Permutation.
  - apply NoDup_submseteq; [done|]. intros i Hi. rewrite Forall_forall in Hf. by apply elem_of_range, Hf.
  - unfold range. rewrite length_seqZ. lia.
Qed.

(** C6: Any number of concurrent calls of [allocate_page] for one table,
    interleaved at every suspension point, the table's handle cached or not:
    no call panics, the indices taken are distinct and follow the pages already
    there, the pages of the table keep their bytes and only zeros come after
    them, also when a write fails half-way; each step of a call brings it
    nearer to its end; and when all the calls have succeeded their indices are
    exactly the next ones and the file has grown by exactly that many zeroed
    pages. *)
Theorem concurrent_allocation id N d0 K s ts' s' :
  id_ok id -> zlen d0 = N * PAGE_SIZE -> 0 <= N -> N + Z.of_nat K <= 2 ^ 32 ->
  dm_inv s -> table_data s id = Some d0 ->
  (is_Some (file_handles s.1 !! id) -> next_page_ids s.1 !! id = Some (wrap 32 N)) ->
  rtc (alloc_sched id) (replicate K ALookup, s) (ts', s') ->
  dm_inv s'
  /\ (exists m, 0 <= m <= Z.of_nat K * PAGE_SIZE /\ table_data s' id = Some (d0 ++ fill 0 m))
  /\ NoDup (omap taken ts') /\ Forall (fun i => N <= i < N + Z.of_nat K) (omap taken ts')
  /\ Forall (fun pc => match pc with ADone Panic _ => False
                       | ADone _ _ => True
                       | _ => (alloc_rank (alloc_step id pc s').1 < alloc_rank pc)%nat end) ts'
  /\ (Forall (fun pc => exists p i, pc = ADone (Ok p) i) ts' ->
      exists ps, Forall2 (fun pc p => exists i, pc = ADone (Ok p) (Some i) /\ p = mkPageId id i) ts' ps
        /\ (page_index <$> ps) ≡ₚ range N (N + Z.of_nat K)
        /\ table_data s' id = Some (d0 ++ fill 0 (Z.of_nat K * PAGE_SIZE))).
Proof.
  intros Hid Hd0 HN Hroom Hinv Hd Hn Hr.
  pose proof (alloc_start id N d0 K s Hinv Hd Hn) as Hstart.
  destruct (sched_reach id N d0 K Hid Hd0 HN Hroom _ _ 0 Hstart Hr) as (m & [I1 [Hm I2] I3 I4 I5 I6 I7 I8 I9]).
  cbn [fst snd] in *. pose proof (length_taken ts') as Hlen.
  assert (zlen (omap taken ts') <= Z.of_nat K) as Hz by (unfold zlen; lia).
  assert (Forall (fun i => N <= i < N + Z.of_nat K) (omap taken ts')) as Hrange
    by (eapply Forall_impl; [exact I6|]; cbn beta; intros; lia).
  split; [done|]. split; [exists m; split; [unfold PAGE_SIZE in *; lia|done]|].
  split; [done|]. split; [done|]. split.
  { eapply Forall_impl; [exact I7|]. intros pc Hc. pose proof (alloc_step_rank id pc s') as Hrank.
    destruct pc as [| |h|h n|h|h i|[p|e|] i]; try exact Hrank; try done. }
  intros Hdone.
  assert (exists ps, Forall2 (fun pc p => exists i, pc = ADone (Ok p) (Some i) /\ p = mkPageId id i) ts' ps
    /\ Forall (fun p => (page_index p + 1) * PAGE_SIZE <= zlen d0 + m) ps) as (ps & Hps & Hfit).
  { clear -Hdone I7. induction Hdone as [|pc ts (p & i & ->) _ IH].
    { exists []. split; constructor. }
    apply Forall_cons in I7 as [Hc I7]. destruct (IH I7) as (ps & Hps & Hfit).
    destruct i as [i|]; [|done]. destruct Hc as [-> Hi]. exists (mkPageId id i :: ps).
    split; constructor; try done. by exists i. }
  exists ps. split; [done|]. rewrite <- (taken_pages _ _ _ Hps).
  assert (length (omap taken ts') = K) as Hlk.
  { rewrite (taken_pages _ _ _ Hps), length_fmap, <- (Forall2_length _ _ _ Hps). done. }
  pose proof (full_range _ N K I5 Hrange Hlk) as Hperm. split; [done|]. rewrite I2. do 3 f_equal.
  destruct K as [|k].
  { apply nil_length_inv in Hlk. rewrite Hlk in I9. change (zlen (@nil Z)) with 0 in I9. lia. }
  assert (N + Z.of_nat k ∈ omap taken ts') as Hlast by (rewrite Hperm; apply elem_of_range; lia).
  rewrite (taken_pages _ _ _ Hps) in Hlast. apply list_elem_of_fmap in Hlast as (p & Hp & Hin).
  rewrite Forall_forall in Hfit. apply Hfit in Hin. rewrite <- Hp in Hin.
  unfold zlen, PAGE_SIZE in *. lia.
Qed.
End Alloc.

Lemma concurrent_allocation_witness :
  let c := run_sched 7 [0; 1; 1; 0; 0; 1]%nat (replicate 2 ALookup, mem_table) in
  omap taken c.1 ≡ₚ [0; 1] /\ table_data c.2 7 = Some (fill 0 (2 * PAGE_SIZE)).
Proof.
  destruct mem_table_inv as [Hinv Hd].
  assert (Hc := concurrent_allocation 7 0 [] 2 mem_table).
  destruct (run_sched 7 [0; 1; 1; 0; 0; 1]%nat (replicate 2 ALookup, mem_table)) as [ts s] eqn:Hrun.
  assert (ts = [ADone (Ok (mkPageId 7 1)) (Some 1); ADone (Ok (mkPageId 7 0)) (Some 0)]) as Hts
    by (change ts with (ts, s).1; rewrite <- Hrun; by vm_compute).
  assert (Hr := run_sched_rtc 7 [0; 1; 1; 0; 0; 1]%nat (replicate 2 ALookup, mem_table)).
  rewrite Hrun in Hr.
  destruct (Hc ts s) as (_ & _ & _ & _ & _ & Hall); try done.
  destruct Hall as (ps & Hps & Hperm & Hd'); subst ts; [by repeat constructor; do 2 eexists|].
  split; [apply perm_swap|exact Hd'].
Defined.
