(* ===== verification/DiskManagerTests.v ===== *)
(** The unit tests of [disk_manager.rs] on the file system in memory: each
    definition says what the test of that name asserts. *)
From stdpp Require Import gmap sorting.
From Stdlib Require Import String.
From S2P Require Import Prelude.
From S2P Require Import Bytes.
From S2P Require Import RustStr.
From S2P Require Import Page.
From S2P Require Import FileSystem.
From S2P Require Import FileSystemProps.
From S2P Require Import DiskManager.
From S2P Require Import DiskManagerSpec.
From S2P Require Import DiskManagerProps.
From S2P Require Import DiskManagerAlloc.

#[local] Abbreviation state := (DiskManager MemFile * MemFs)%type.
#[local] Abbreviation memM := (stateM state IoError).

(** What a test observes of a manager on [base_path]. *)
Definition observe_dm {A} (base_path : Path) (m : memM A) : outcome IoError A :=
  (m (disk_manager_new base_path, mem_empty)).1.

Definition test_create_and_check_table_file : Prop :=
  let table_id := 101 in
  observe_dm [] (exists_initially ← table_file_exists table_id; create_table_file table_id;;
              exists_now ← table_file_exists table_id; mret (exists_initially, exists_now))
  = Ok (false, true).

Definition test_create_table_file_creates_base_path_if_missing : Prop :=
  let base_path := path_join (path_join [] (str "non_existent_folder")) (str "data") in
  let table_id := 202 in
  observe_dm base_path (create_table_file table_id;; table_file_exists table_id) = Ok true.

Definition test_write_and_read_page : Prop :=
  let table_id := 303 in
  let page_id := mkPageId table_id 0 in
  let write_buffer := <[Z.to_nat (PAGE_SIZE - 1) := 99]> (<[0%nat := 42]> (fill 0 PAGE_SIZE)) in
  observe_dm [] (create_table_file table_id;; write_page page_id write_buffer;;
              read_page page_id (fill 0 PAGE_SIZE))
  = Ok write_buffer.

Definition test_allocate_page_assigns_sequential_page_ids : Prop :=
  let table_id := 404 in
  observe_dm [] (create_table_file table_id;;
              page0 ← allocate_page table_id; page1 ← allocate_page table_id;
              handle ← on_fs (open_file [show_unsigned table_id ++ str ".tbl"]);
              file_len ← on_fs (len handle);
              mret (page0, page1, file_len))
  = Ok (mkPageId table_id 0, mkPageId table_id 1, PAGE_SIZE * 2).

Definition test_allocate_page_zero_fills_new_page : Prop :=
  let table_id := 505 in
  observe_dm [] (create_table_file table_id;; page_id ← allocate_page table_id;
              read_page page_id (fill 1 PAGE_SIZE))
  = Ok (fill 0 PAGE_SIZE).

(** A hundred calls in turn, one step each. *)
Definition round_robin (n rounds : nat) : list nat := concat (replicate rounds (seq 0 n)).

Definition test_disk_manager_concurrent_page_allocation_is_thread_safe : Prop :=
  let table_id := 999 in
  let s := (create_table_file table_id (disk_manager_new [], mem_empty)).2 in
  let allocated := (run_sched table_id (round_robin 100 6) (replicate 100 ALookup, s)).1 in
  (length allocated, merge_sort Z.le (omap taken allocated),
   forallb (fun pc => match pc with ADone (Ok _) _ => true | _ => false end) allocated)
  = (100%nat, range 0 100, true).

Lemma disk_manager_tests :
  test_create_and_check_table_file /\ test_create_table_file_creates_base_path_if_missing
  /\ test_write_and_read_page /\ test_allocate_page_assigns_sequential_page_ids
  /\ test_allocate_page_zero_fills_new_page.
Proof. do 4 (split; [by vm_compute|]). by vm_compute. Qed.

(** The hundred calls in turn, the file growing page by page. *)
Lemma disk_manager_concurrent_test : test_disk_manager_concurrent_page_allocation_is_thread_safe.
Proof. by vm_compute. Qed.
