(* ===== verification/PageStore.v ===== *)
(** What the buffer pool asks of the disk manager, as an interface: the three
    methods it calls and their contract, which the disk manager keeps. *)
From stdpp Require Import gmap.
From S2P Require Import Prelude.
From S2P Require Import Bytes.
From S2P Require Import Page.
From S2P Require Import FileSystem.
From S2P Require Import FileSystemProps.
From S2P Require Import DiskManager.
From S2P Require Import DiskManagerSpec.
From S2P Require Import DiskManagerProps.

(** [read_page] returns the buffer after it. *)
Class PageStore (W : Type) := {
  ps_allocate : Z -> stateM W IoError PageId;
  ps_read : PageId -> list Z -> stateM W IoError (list Z);
  ps_write : PageId -> list Z -> stateM W IoError unit;
}.

(** The pages but [p] are as they were. *)
Definition others_kept {W} (page : W -> PageId -> option (list Z)) (p : PageId) (w w' : W) : Prop :=
  forall q d, pid_ok q -> q <> p -> page w q = Some d -> page w' q = Some d.

(** The pages on the disk; what an operation that fails does to them is left
    open, but for a read. *)
Class PageStoreLaws (W : Type) `{PageStore W} := {
  ps_inv : W -> Prop;
  ps_page : W -> PageId -> option (list Z);
  ps_page_length : forall w p d, ps_inv w -> ps_page w p = Some d -> zlen d = PAGE_SIZE;
  ps_allocate_law : forall t w, ps_inv w -> id_ok t ->
    match ps_allocate t w with
    | (Ok p, w') => ps_inv w' /\ pid_ok p /\ table_id p = t
                    /\ ps_page w' p = Some (fill 0 PAGE_SIZE) /\ others_kept ps_page p w w'
    | (Err _, w') => ps_inv w'
    | (Panic, _) => False
    end;
  ps_read_law : forall p buffer w, ps_inv w -> pid_ok p -> zlen buffer = PAGE_SIZE ->
    match ps_read p buffer w with
    | (Ok got, w') => ps_inv w' /\ (forall q, ps_page w' q = ps_page w q) /\ zlen got = PAGE_SIZE
    | (Err _, w') => ps_inv w' /\ forall q, ps_page w' q = ps_page w q
    | (Panic, _) => False
    end;
  ps_write_law : forall p data w, ps_inv w -> pid_ok p -> zlen data = PAGE_SIZE ->
    match ps_write p data w with
    | (Ok _, w') => ps_inv w' /\ ps_page w' p = Some data /\ others_kept ps_page p w w'
    | (Err _, w') => ps_inv w'
    | (Panic, _) => False
    end;
}.

(** A read of a page that is there fills the buffer: true where the operating
    system does not read short within a file. *)
Class FullPages (W : Type) `{PageStoreLaws W} : Prop :=
  ps_read_full : forall p buffer w d got w', ps_inv w -> pid_ok p -> zlen buffer = PAGE_SIZE ->
    ps_page w p = Some d -> ps_read p buffer w = (Ok got, w') -> got = d.

Class FullReads (W H : Type) `{FileSystem W H, FsView W H} : Prop :=
  read_at_full : forall h buffer off w d n got w', fs_data w !! handle_file h = Some d -> 0 <= off ->
    off + zlen buffer <= zlen d -> read_at h buffer off w = (Ok (n, got), w') -> n = zlen buffer.

(** * The disk manager *)

#[export] Instance disk_page_store {W H} `{FileSystem W H} : PageStore (DiskManager H * W) := {
  ps_allocate := allocate_page;
  ps_read := read_page;
  ps_write := write_page;
}.

Section Disk.
Context {W H : Type} `{FileSystemLaws W H}.
#[local] Abbreviation state := (DiskManager H * W)%type.

(** A page, if all of it is in the file. *)
Definition disk_page (s : state) (p : PageId) : option (list Z) :=
  d ← table_data s (table_id p);
  if bool_decide (0 <= page_index p /\ (page_index p + 1) * PAGE_SIZE <= zlen d)
  then Some (page_data s p) else None.

Lemma disk_page_Some s p d :
  disk_page s p = Some d <->
  exists b, table_data s (table_id p) = Some b /\ 0 <= page_index p
    /\ (page_index p + 1) * PAGE_SIZE <= zlen b /\ d = page_data s p.
Proof.
  unfold disk_page. destruct (table_data s (table_id p)) as [b|]; simpl; [|naive_solver].
  case_bool_decide; naive_solver.
Qed.

Lemma page_data_length s p b :
  table_data s (table_id p) = Some b -> 0 <= page_index p -> (page_index p + 1) * PAGE_SIZE <= zlen b ->
  zlen (page_data s p) = PAGE_SIZE.
Proof. intros Hb Hi Hl. unfold page_data. rewrite Hb. simpl. apply zlen_sub; unfold PAGE_SIZE in *; lia. Qed.

(** A page written over the file [b] of its table. *)
Lemma disk_page_written (s s' : state) (p : PageId) data b :
  pid_ok p -> zlen data = PAGE_SIZE ->
  table_data s (table_id p) = Some b ->
  table_data s' (table_id p) = Some (file_write (page_index p * PAGE_SIZE) data b) ->
  (forall id, id_ok id -> id <> table_id p -> table_data s' id = table_data s id) ->
  disk_page s' p = Some data /\ others_kept disk_page p s s'.
Proof.
  intros Hp Hl Hb Hb' Ho. destruct (page_bounds p Hp) as [Hoff _].
  destruct (page_data_written s s' p data b Hp Hl Hb Hb' Ho) as [Hsame Hother].
  split.
  - apply disk_page_Some. eexists. split; [exact Hb'|]. rewrite Hsame, zlen_file_write, Hl by done.
    split_and!; [unfold PAGE_SIZE in *; lia|unfold PAGE_SIZE in *; lia|done].
  - intros q d Hq Hne (bq & Hbq & Hi & Hin & ->)%disk_page_Some. apply disk_page_Some.
    rewrite (Hother q Hq Hne) by (by exists bq).
    destruct (decide (table_id q = table_id p)) as [Heq|Hneq].
    + rewrite Heq in *. eexists. split; [exact Hb'|]. rewrite Hb in Hbq. injection Hbq as <-.
      rewrite zlen_file_write by done. split_and!; [done|lia|done].
    + exists bq. by rewrite Ho by (done || apply Hq).
Qed.

#[export] Instance disk_store_laws : PageStoreLaws state.
Proof.
  refine {| ps_inv := dm_inv; ps_page := disk_page |}.
  - intros s p d _ (b & Hb & Hi & Hl & ->)%disk_page_Some. by eapply page_data_length.
  - intros t s Hinv Ht. cbn. pose proof (allocate_page_ok s t Hinv Ht) as Ha.
    destruct (allocate_page t s) as [[p|e|] s']; [|apply Ha|done].
    destruct Ha as (b & Hb & -> & Hinv' & _ & Hb' & Hn & Ho).
    assert (pid_ok (mkPageId t (next_index s t b))) as Hp.
    { split; [done|]. cbn. unfold next_index. destruct (next_page_ids s.1 !! t) as [n|] eqn:Hn'.
      - by apply (dm_range _ Hinv t).
      - by apply wrap_range. }
    split; [done|]. split; [done|]. split; [done|].
    by apply (disk_page_written s s' _ _ b).
  - intros p buffer s Hinv Hp Hl. cbn. pose proof (read_page_ok p buffer s Hinv Hp Hl) as Hr.
    assert (forall s', base_path s'.1 = base_path s.1 -> fs_same s.2 s'.2 ->
      forall q, disk_page s' q = disk_page s q) as Hsame.
    { intros s' Hb Hs q. unfold disk_page, page_data. by rewrite !(table_data_same s s') by done. }
    destruct (read_page p buffer s) as [[got|e|] s']; [| |done].
    + destruct Hr as (Hinv' & Hb & Hs & d & n & Hd & Hn & Hmax & _ & ->).
      split; [done|]. split; [by apply Hsame|].
      unfold page_data. rewrite Hd. simpl. destruct (page_bounds p Hp) as [Hoff _].
      unfold zlen, sub, PAGE_SIZE in *. rewrite length_app, !length_take, !length_drop, length_take, length_drop. lia.
    + destruct Hr as (Hinv' & Hb & Hs). split; [done|by apply Hsame].
  - intros p data s Hinv Hp Hl. cbn. pose proof (write_page_ok p data s Hinv Hp Hl) as Hw.
    destruct (write_page p data s) as [[[]|e|] s']; [|apply Hw|done].
    destruct Hw as (Hinv' & _ & (b & Hb & Hb') & Ho). split; [done|]. by apply (disk_page_written s s' p data b).
Defined.

#[export] Instance disk_full_pages `{!FullReads W H} : FullPages state.
Proof.
  intros p buffer s d got s' Hinv [Ht Hi] Hl (b & Hb & _ & Hin & ->)%disk_page_Some Hr. cbn in Hr.
  assert (match read_page p buffer s with (Ok got, _) => got = page_data s p | _ => True end) as Hall;
    [|by rewrite Hr in Hall].
  unfold read_page. apply with_handle; [done| |done]. intros h s1 G.
  destruct (cached_data s1 (table_id p) h) as [d1 Hd1]; [apply G|apply G|].
  rewrite (got_table_data _ _ _ _ _ G), Hb in Hd1. injection Hd1 as <-.
  destruct (page_offset_eq (page_index p) Hi) as [-> Hoff].
  assert (table_data s1 (table_id p) = Some b) as Hb1 by (by rewrite (got_table_data _ _ _ _ _ G)).
  pose proof (read_table s1 (table_id p) h b (got_inv _ _ _ _ G) (got_cached _ _ _ _ G) Hb1 buffer _ Hoff) as Hrt.
  pose proof (handle_data s1 (table_id p) h b (got_inv _ _ _ _ G) (got_cached _ _ _ _ G) Hb1) as Hh.
  unfold mbind, stateM_bind. destruct (on_fs _ s1) as [[[n buf]|e|] s2] eqn:Hon; [|done|done]. cbn.
  destruct Hrt as (_ & _ & _ & _ & _ & ->). destruct s1 as [dm w]. unfold on_fs in Hon. cbn in Hon.
  destruct (read_at h buffer (page_index p * PAGE_SIZE) w) as [r w'] eqn:Hra. injection Hon as -> _.
  rewrite (read_at_full h buffer _ w b n _ w' Hh Hoff ltac:(unfold PAGE_SIZE in *; lia) Hra).
  rewrite Hl, Z.sub_diag, sub_0, app_nil_r. unfold page_data. by rewrite Hb.
Qed.
End Disk.

(** The file system in memory never reads short. *)
#[export] Instance mem_full_reads : FullReads MemFs MemFile.
Proof.
  intros h buffer off w d n got w' Hd Hoff Hin. cbn. unfold mbind, stateM_bind, sget, smodify, mret, stateM_ret. cbn.
  unfold mem_file, mem_seek. cbn. cbn in Hd. rewrite Hd. unfold mem_cursor. cbn. rewrite lookup_insert_eq. cbn.
  pose proof (zlen_nonneg buffer). intros [= <- _ _]. rewrite zlen_sub by lia. lia.
Qed.
