(* ===== verification/Prog.v ===== *)
(** Methods that other threads can interleave with: a program is a tree of
    atomic accesses to the shared state, some of which can be blocked.  The
    same program can be run alone to its end or scheduled with others. *)
From stdpp Require Import relations.
From S2P Require Import Prelude.

(** * Programs *)

(** An access is a function of the shared state; [None] is a thread that has to
    wait (for a lock or a message). *)
Inductive prog (S E A : Type) : Type :=
| Done (r : outcome E A)
| Act (f : S -> option (prog S E A * S)).
Arguments Done {S E A} r.
Arguments Act {S E A} f.

Section Prog.
Context {S E : Type}.

(** [p], then [k] of what it ended with: a value, an error or a panic. *)
Fixpoint on_result {E' A B} (p : prog S E A) (k : outcome E A -> prog S E' B) : prog S E' B :=
  match p with
  | Done r => k r
  | Act f => Act (fun s =>
      match f s with
      | Some (p', s') => Some (on_result p' k, s')
      | None => None
      end)
  end.

#[export] Instance prog_ret : MRet (prog S E) := fun _ a => Done (Ok a).
#[export] Instance prog_bind : MBind (prog S E) := fun _ _ k p =>
  on_result p (fun r =>
    match r with
    | Ok a => k a
    | Err e => Done (Err e)
    | Panic => Done Panic
    end).

(** One access. *)
Definition atomic {A} (m : stateM S E A) : prog S E A := Act (fun s =>
  let '(r, s') := m s in Some (Done r, s')).

(** [p], then the access [m] whatever [p] ended with: what a scope does at its
    end. *)
Definition finally {A} (p : prog S E A) (m : outcome E A -> S -> S) : prog S E A :=
  on_result p (fun r => atomic (fun s => (r, m r s))).

(** [result.map_err(f)]. *)
Definition prog_map_err {E' A} (f : E -> E') (p : prog S E A) : prog S E' A :=
  on_result p (fun r =>
    Done (match r with Ok a => Ok a | Err e => Err (f e) | Panic => Panic end)).

(** ** Mutexes *)

Inductive MutexState := Unlocked | Locked | Poisoned.

Record Mutex := mkMutex { mutex_get : S -> MutexState; mutex_set : MutexState -> S -> S }.

(** [mutex.lock().unwrap()]. *)
Definition lock (l : Mutex) : prog S E unit := Act (fun s =>
  match mutex_get l s with
  | Unlocked => Some (Done (Ok tt), mutex_set l Locked s)
  | Locked => None
  | Poisoned => Some (Done Panic, s)
  end).

(** A guard dropped while its thread panics poisons the mutex. *)
Definition unlock {A} (l : Mutex) (r : outcome E A) : S -> S :=
  mutex_set l (match r with Panic => Poisoned | _ => Unlocked end).

(** The scope of a guard. *)
Definition with_lock {A} (l : Mutex) (body : prog S E A) : prog S E A :=
  lock l ≫= fun _ => finally body (unlock l).

(** * Running a program alone *)

(** [None]: it waits for ever. *)
Fixpoint run {A} (p : prog S E A) (s : S) : option (outcome E A * S) :=
  match p with
  | Done r => Some (r, s)
  | Act f =>
      match f s with
      | Some (p', s') => run p' s'
      | None => None
      end
  end.
End Prog.

(** [m] on a part of the state. *)
Definition on_part {S T E A} (get : S -> T) (put : T -> S -> S) (m : stateM T E A) : stateM S E A :=
  fun s => let '(r, t) := m (get s) in (r, put t s).

(** * Running programs together *)

(** A step of thread [j]. *)
Definition thread_step {S E A} (j : nat) (c : list (prog S E A) * S) : option (list (prog S E A) * S) :=
  match c.1 !! j with
  | Some (Act f) =>
      match f c.2 with
      | Some (p', s') => Some (<[j := p']> c.1, s')
      | None => None
      end
  | _ => None
  end.

Inductive interleave {S E A} : relation (list (prog S E A) * S) :=
| interleave_step j c c' : thread_step j c = Some c' -> interleave c c'.

(** Some accesses of one program. *)
Inductive prog_step {S E A} : relation (prog S E A * S) :=
| prog_access f s p s' : f s = Some (p, s') -> prog_step (Act f, s) (p, s').
Definition prog_steps {S E A} : relation (prog S E A * S) := rtc prog_step.

(** A program that has to wait, in this state. *)
Definition blocked {S E A} (p : prog S E A) (s : S) : Prop :=
  match p with Done _ => False | Act f => f s = None end.

(** The threads in the given order; [None] when one of them is blocked. *)
Fixpoint run_threads {S E A} (js : list nat) (c : list (prog S E A) * S) :
    option (list (prog S E A) * S) :=
  match js with
  | [] => Some c
  | j :: js => c' ← thread_step j c; run_threads js c'
  end.

(** * Facts *)

Section Facts.
Context {S E : Type}.

Lemma prog_induction {A} (P : prog S E A -> Prop) :
  (forall r, P (Done r)) ->
  (forall f, (forall s p s', f s = Some (p, s') -> P p) -> P (Act f)) ->
  forall p, P p.
Proof.
  intros Hd Ha. refine (fix IH p := match p with Done r => Hd r | Act f => Ha f _ end).
  intros s q s' Hf. destruct (f s) as [[q' s'']|]; [|discriminate].
  injection Hf as <- _. apply IH.
Qed.

(** ** Alone *)

Lemma run_on_result {E' A B} (p : prog S E A) (k : outcome E A -> prog S E' B) s :
  run (on_result p k) s = match run p s with Some (r, s') => run (k r) s' | None => None end.
Proof.
  revert s. induction p as [r|f IH] using prog_induction; intros s; simpl; [done|].
  destruct (f s) as [[p' s']|] eqn:Hf; [|done]. by eapply IH.
Qed.

Lemma run_bind {A B} (p : prog S E A) (k : A -> prog S E B) s :
  run (p ≫= k) s =
  match run p s with
  | Some (Ok a, s') => run (k a) s'
  | Some (Err e, s') => Some (Err e, s')
  | Some (Panic, s') => Some (Panic, s')
  | None => None
  end.
Proof. unfold mbind, prog_bind. rewrite run_on_result. by destruct (run p s) as [[[a|e|] s']|]. Qed.

Lemma run_ret {A} (a : A) (s : S) : run (mret a : prog S E A) s = Some (Ok a, s).
Proof. done. Qed.

Lemma run_atomic {A} (m : stateM S E A) s : run (atomic m) s = Some (m s).
Proof. simpl. by destruct (m s). Qed.

Lemma run_finally {A} (p : prog S E A) m s :
  run (finally p m) s = match run p s with Some (r, s') => Some (r, m r s') | None => None end.
Proof. unfold finally. rewrite run_on_result. by destruct (run p s) as [[r s']|]. Qed.

Lemma run_map_err {E' A} (f : E -> E') (p : prog S E A) s :
  run (prog_map_err f p) s =
  match run p s with
  | Some (Ok a, s') => Some (Ok a, s')
  | Some (Err e, s') => Some (Err (f e), s')
  | Some (Panic, s') => Some (Panic, s')
  | None => None
  end.
Proof. unfold prog_map_err. rewrite run_on_result. by destruct (run p s) as [[[a|e|] s']|]. Qed.

Lemma run_with_lock {A} (l : Mutex) (body : prog S E A) s :
  mutex_get l s = Unlocked ->
  run (with_lock l body) s =
  match run body (mutex_set l Locked s) with Some (r, s') => Some (r, unlock l r s') | None => None end.
Proof. intros Hl. unfold with_lock. rewrite run_bind. simpl. rewrite Hl. apply run_finally. Qed.

Lemma run_with_lock_poisoned {A} (l : Mutex) (body : prog S E A) s :
  mutex_get l s = Poisoned -> run (with_lock l body) s = Some (Panic, s).
Proof. intros Hl. unfold with_lock. rewrite run_bind. simpl. by rewrite Hl. Qed.

(** ** Together *)

Lemma run_threads_steps {A} js (c c' : list (prog S E A) * S) :
  run_threads js c = Some c' -> rtc interleave c c'.
Proof.
  revert c. induction js as [|j js IH]; intros c; simpl; [by intros [= <-]|].
  destruct (thread_step j c) as [c1|] eqn:Hs; [|done]. simpl. intros Hr.
  eapply rtc_l; [by econstructor|by apply IH].
Qed.

(** ** A program stopped on its way *)

Lemma steps_on_result {E' A B} (p p' : prog S E A) (k : outcome E A -> prog S E' B) s s' :
  prog_steps (p, s) (p', s') -> prog_steps (on_result p k, s) (on_result p' k, s').
Proof.
  intros Hs. remember (p, s) as c eqn:Hc. remember (p', s') as c' eqn:Hc'. revert p s Hc p' s' Hc'.
  induction Hs as [|c1 c2 c3 Hstep Hs IH]; intros p s -> p' s' Hc'.
  - injection Hc' as -> ->. done.
  - inversion Hstep as [f s0 p1 s1 Hf]; subst. eapply rtc_l; [|by apply IH]. apply prog_access. by rewrite Hf.
Qed.

Lemma run_steps {A} (p : prog S E A) s r s' : run p s = Some (r, s') -> prog_steps (p, s) (Done r, s').
Proof.
  revert s. induction p as [r0|f IH] using prog_induction; intros s; simpl; [by intros [= <- <-]|].
  destruct (f s) as [[p' s1]|] eqn:Hf; [|done]. intros Hr. eapply rtc_l; [by apply prog_access|]. by eapply IH.
Qed.

(** The first part of a program, run to its end. *)
Lemma steps_part {E' A B} (p : prog S E A) (k : outcome E A -> prog S E' B) s r s' c :
  run p s = Some (r, s') -> prog_steps (k r, s') c -> prog_steps (on_result p k, s) c.
Proof. intros Hr Hk. etrans; [|exact Hk]. apply (steps_on_result p (Done r)). by apply run_steps. Qed.

Lemma blocked_on_result {E' A B} f (k : outcome E A -> prog S E' B) s :
  blocked (on_result (Act f) k) s <-> blocked (Act f) s.
Proof. cbn. by destruct (f s) as [[p' s']|]. Qed.

Lemma blocked_step {A} (ts : list (prog S E A)) s c :
  Forall (fun p => (exists r, p = Done r) \/ blocked p s) ts -> ~ interleave (ts, s) c.
Proof.
  intros Hts Hi. inversion Hi as [j c0 c' Hj]; subst. unfold thread_step in Hj. cbn [fst snd] in Hj.
  destruct (ts !! j) as [p|] eqn:Hp; [|done]. rewrite Forall_lookup in Hts.
  destruct (Hts j p Hp) as [[r ->]|Hb]; [done|]. destruct p as [r|f]; [done|]. cbn in Hb. by rewrite Hb in Hj.
Qed.

Lemma interleave_steps {A} (ts : list (prog S E A)) (j : nat) p s p' s' :
  ts !! j = Some p -> prog_steps (p, s) (p', s') -> rtc interleave (ts, s) (<[j := p']> ts, s').
Proof.
  intros Hj Hs. remember (p, s) as c eqn:Hc. remember (p', s') as c' eqn:Hc'. revert ts p s Hj Hc p' s' Hc'.
  induction Hs as [|c1 c2 c3 Hstep Hs IH]; intros ts p s Hj -> p' s' Hc'.
  - injection Hc' as -> ->. by rewrite list_insert_id.
  - inversion Hstep as [f s0 p1 s1 Hf]; subst. pose proof (lookup_lt_Some _ _ _ Hj).
    eapply rtc_l; [apply (interleave_step j); unfold thread_step; cbn [fst snd]; by rewrite Hj, Hf|].
    rewrite <- (list_insert_insert_eq ts j p' p1). eapply IH; [|done..]. by apply list_lookup_insert_eq.
Qed.

(** A thread that is never interrupted does what it does alone. *)
Lemma run_interleave {A} (ts : list (prog S E A)) (j : nat) p s r s' :
  ts !! j = Some p -> run p s = Some (r, s') ->
  rtc interleave (ts, s) (<[j := Done r]> ts, s').
Proof. intros Hj Hr. eapply interleave_steps; [done|by apply run_steps]. Qed.
End Facts.

Create Rewrite HintDb prog.
#[export] Hint Rewrite @run_bind @run_ret @run_atomic @run_finally @run_map_err : prog.
