(* ===== verification/ProgLogic.v ===== *)
(** Reasoning about interleaved programs by what each thread owns.

    A thread owns a list of tokens (a lock it holds, a pin it has taken); an
    account says what the shared state must be for the tokens of all threads
    together.  A program is safe when each of its accesses keeps the account,
    whatever the others own. *)
From stdpp Require Import relations.
From S2P Require Import Prelude.
From S2P Require Import Prog.

(** [acc_waits l s]: how a thread that owns [l] may be waiting in [s]. *)
Class Accounts (S T : Type) := {
  acc_ok : list T -> S -> Prop;
  acc_waits : list T -> S -> Prop;
  acc_ok_perm : forall l l' s, l ≡ₚ l' -> acc_ok l s -> acc_ok l' s;
  acc_waits_perm : forall l l' s, l ≡ₚ l' -> acc_waits l s -> acc_waits l' s;
}.

Section Logic.
Context {S T : Type} `{Accounts S T}.
Implicit Types (l : list T) (s : S).

(** * Safe programs *)

(** [p] started with [l] ends with a result and tokens that satisfy [Q]. *)
Fixpoint safe {E A} l (p : prog S E A) (Q : outcome E A -> list T -> Prop) : Prop :=
  match p with
  | Done r => exists l', l ≡ₚ l' /\ Q r l'
  | Act f => forall s rest, acc_ok (l ++ rest) s ->
      match f s with
      | Some (p', s') => exists l', acc_ok (l' ++ rest) s' /\ safe l' p' Q
      | None => acc_waits l s
      end
  end.

Lemma safe_perm {E A} l l' (p : prog S E A) Q : l ≡ₚ l' -> safe l p Q -> safe l' p Q.
Proof.
  intros Hp. destruct p as [r|f]; simpl.
  - intros (l1 & Hl & HQ). exists l1. split; [by rewrite <- Hp|done].
  - intros Hs s rest Hok. specialize (Hs s rest).
    destruct (f s) as [[p' s']|].
    + apply Hs. eapply acc_ok_perm; [|exact Hok]. by rewrite Hp.
    + eapply acc_waits_perm; [exact Hp|]. apply Hs. eapply acc_ok_perm; [|exact Hok]. by rewrite Hp.
Qed.

Lemma safe_conseq {E A} l (p : prog S E A) (Q Q' : outcome E A -> list T -> Prop) :
  (forall r l', Q r l' -> Q' r l') -> safe l p Q -> safe l p Q'.
Proof.
  intros HQ. revert l. induction p as [r|f IH] using prog_induction; intros l; simpl.
  - intros (l' & ? & ?). exists l'. auto.
  - intros Hs s rest Hok. specialize (Hs s rest Hok). destruct (f s) as [[p' s']|] eqn:Hf; [|done].
    destruct Hs as (l' & Hok' & Hs'). exists l'. split; [done|]. by eapply IH.
Qed.

Lemma safe_done {E A} l (r : outcome E A) (Q : outcome E A -> list T -> Prop) : Q r l -> safe l (Done r) Q.
Proof. intros. by exists l. Qed.

Lemma safe_on_result {E E' A B} l (p : prog S E A) (k : outcome E A -> prog S E' B) Q :
  safe l p (fun r l' => safe l' (k r) Q) -> safe l (on_result p k) Q.
Proof.
  revert l. induction p as [r|f IH] using prog_induction; intros l; simpl.
  - intros (l' & Hp & Hs). by apply (safe_perm l').
  - intros Hs s rest Hok. specialize (Hs s rest Hok). destruct (f s) as [[p' s']|] eqn:Hf; [|done].
    destruct Hs as (l' & Hok' & Hs'). exists l'. split; [done|]. by eapply IH.
Qed.

(** The end of a scope releases what the scope has taken. *)
Lemma safe_finally {E A} l (p : prog S E A) m (Q : outcome E A -> list T -> Prop) :
  safe l p (fun r l' => forall s rest, acc_ok (l' ++ rest) s ->
              exists l'', acc_ok (l'' ++ rest) (m r s) /\ Q r l'') ->
  safe l (finally p m) Q.
Proof.
  intros Hs. apply safe_on_result. eapply safe_conseq; [|exact Hs]. intros r l' Hm s rest Hok.
  simpl. destruct (Hm s rest Hok) as (l'' & Hok' & HQ). exists l''. split; [done|]. by exists l''.
Qed.

Lemma safe_map_err {E E' A} l (p : prog S E A) (g : E -> E') (Q : outcome E' A -> list T -> Prop) :
  safe l p (fun r l' => Q (match r with Ok a => Ok a | Err e => Err (g e) | Panic => Panic end) l') ->
  safe l (prog_map_err g p) Q.
Proof.
  intros Hs. apply safe_on_result. eapply safe_conseq; [|exact Hs]. intros r l' HQ. by apply safe_done.
Qed.

(** * Threads *)

(** What the threads own together. *)
Definition threads_safe {E A} (Q : outcome E A -> list T -> Prop) (c : list (prog S E A) * S) : Prop :=
  exists ls, Forall2 (fun l p => safe l p Q) ls c.1 /\ acc_ok (mjoin ls) c.2.

Lemma mjoin_middle (ls1 ls2 : list (list T)) l : mjoin (ls1 ++ l :: ls2) ≡ₚ l ++ mjoin (ls1 ++ ls2).
Proof.
  rewrite !join_app. cbn [mjoin list_join]. rewrite !app_assoc. by rewrite (Permutation_app_comm (mjoin ls1) l).
Qed.

Lemma threads_safe_step {E A} Q (c c' : list (prog S E A) * S) :
  interleave c c' -> threads_safe Q c -> threads_safe Q c'.
Proof.
  intros [j [ts s] c1 Hj] (ls & Hls & Hok). unfold thread_step in Hj. cbn [fst snd] in *.
  destruct (ts !! j) as [[r|f]|] eqn:Hp; [done| |done].
  destruct (f s) as [[p' s']|] eqn:Hf; [|done]. injection Hj as <-.
  destruct (Forall2_lookup_r _ _ _ _ _ Hls Hp) as (l & Hl & Hsafe).
  apply list_elem_of_split_length in Hl as (ls1 & ls2 & -> & Hlen).
  assert (acc_ok (l ++ mjoin (ls1 ++ ls2)) s) as Hok1.
  { eapply acc_ok_perm; [|exact Hok]. apply mjoin_middle. }
  specialize (Hsafe s _ Hok1). cbn in Hsafe. rewrite Hf in Hsafe. destruct Hsafe as (l' & Hok' & Hsafe').
  exists (<[j := l']> (ls1 ++ l :: ls2)). cbn [fst snd]. split; [by apply Forall2_insert|].
  rewrite insert_app_r_alt by lia. rewrite Hlen, Nat.sub_diag. cbn [insert list_insert].
  eapply acc_ok_perm; [symmetry; apply mjoin_middle|done].
Qed.

Lemma threads_safe_steps {E A} Q (c c' : list (prog S E A) * S) :
  rtc interleave c c' -> threads_safe Q c -> threads_safe Q c'.
Proof. induction 1 as [|c1 c2 c3 Hs _ IH]; [done|]. intros. apply IH. by eapply threads_safe_step. Qed.

(** A thread that cannot take a step has ended or waits. *)
Lemma threads_safe_blocked {E A} Q ts s (l rest : list T) (p : prog S E A) j :
  ts !! j = Some p -> safe l p Q -> acc_ok (l ++ rest) s -> (forall c', ~ interleave (ts, s) c') ->
  (exists r, p = Done r /\ exists l', l ≡ₚ l' /\ Q r l') \/ acc_waits l s.
Proof.
  intros Hj Hs Hok Hno. destruct p as [r|f]; [by left; eexists|right].
  specialize (Hs s rest Hok). destruct (f s) as [[p' s']|] eqn:Hf; [|done].
  destruct (Hno (<[j := p']> ts, s')). apply (interleave_step j). unfold thread_step. cbn [fst snd].
  by rewrite Hj, Hf.
Qed.
End Logic.
