(* ===== verification/Frame.v ===== *)
(** Frames of the buffer pool ([frame.rs]): a page buffer under a reader-writer
    lock, and the atomic fields around it.  Every method takes [&self]. *)
From S2P Require Import Prelude.
From S2P Require Import Bytes.
From S2P Require Import Page.

(** * Reader-writer locks *)

(** [std::sync::RwLock]: its readers, its writer, or poisoned by a panic of the
    writer. *)
Inductive RwState := RwReaders (n : nat) | RwWriter | RwPoisoned.

#[export] Instance RwState_eq_dec : EqDecision RwState.
Proof. solve_decision. Defined.

(** [lock.read().unwrap()], [lock.write().unwrap()]; [None] when the caller has
    to wait. *)
Definition rw_read {E} (l : RwState) : option (outcome E unit * RwState) :=
  match l with
  | RwReaders n => Some (Ok tt, RwReaders (S n))
  | RwWriter => None
  | RwPoisoned => Some (Panic, RwPoisoned)
  end.
Definition rw_write {E} (l : RwState) : option (outcome E unit * RwState) :=
  match l with
  | RwReaders O => Some (Ok tt, RwWriter)
  | RwReaders (S _) | RwWriter => None
  | RwPoisoned => Some (Panic, RwPoisoned)
  end.

(** The guards dropped; the writer's, while its thread panics. *)
Definition rw_read_drop (l : RwState) : RwState :=
  match l with RwReaders (S n) => RwReaders n | _ => l end.
Definition rw_write_drop (panicking : bool) (l : RwState) : RwState :=
  match l with
  | RwWriter => if panicking then RwPoisoned else RwReaders 0
  | _ => l
  end.

(** * Frames *)

Record Frame := mkFrame {
  frame_data : list Z;
  frame_lock : RwState;
  frame_id : nat;
  frame_dirty : bool;
  frame_page_id : option PageId;
  frame_pins : Z;
}.

Definition with_data (d : list Z) (f : Frame) : Frame :=
  mkFrame d (frame_lock f) (frame_id f) (frame_dirty f) (frame_page_id f) (frame_pins f).
Definition with_rw (l : RwState) (f : Frame) : Frame :=
  mkFrame (frame_data f) l (frame_id f) (frame_dirty f) (frame_page_id f) (frame_pins f).
Definition with_dirty (b : bool) (f : Frame) : Frame :=
  mkFrame (frame_data f) (frame_lock f) (frame_id f) b (frame_page_id f) (frame_pins f).
Definition with_page_id (p : option PageId) (f : Frame) : Frame :=
  mkFrame (frame_data f) (frame_lock f) (frame_id f) (frame_dirty f) p (frame_pins f).
Definition with_pins (n : Z) (f : Frame) : Frame :=
  mkFrame (frame_data f) (frame_lock f) (frame_id f) (frame_dirty f) (frame_page_id f) n.

Definition frame_new (id : nat) : Frame :=
  mkFrame (fill 0 PAGE_SIZE) (RwReaders 0) id false None 0.
Definition frame_default : Frame := frame_new 0.

Section Methods.
Context {E : Type}.
#[local] Abbreviation frameM := (stateM Frame E).

(** [fetch_sub] wraps; the count is 2^64 - 1 when the assertion then fails. *)
Definition decrement_pin_count : frameM Z := fun f =>
  let prev_count := frame_pins f in
  let f := with_pins (wrap 64 (prev_count - 1)) f in
  if 0 <? prev_count then (Ok prev_count, f) else (Panic, f).

Definition get_id : frameM nat := sget (fun f => Ok (frame_id f)).
Definition get_page_id : frameM (option PageId) := sget (fun f => Ok (frame_page_id f)).
Definition get_pin_count : frameM Z := sget (fun f => Ok (frame_pins f)).

Definition increment_pin_count : frameM Z := fun f =>
  (Ok (frame_pins f), with_pins (wrap 64 (frame_pins f + 1)) f).

Definition is_dirty : frameM bool := sget (fun f => Ok (frame_dirty f)).
Definition set_dirty (val : bool) : frameM unit := smodify (with_dirty val).
Definition set_page_id (p : option PageId) : frameM unit := smodify (with_page_id p).

(** The locks are taken here and released when the guards are dropped. *)
Definition read_data (f : Frame) : option (outcome E unit * Frame) :=
  match rw_read (frame_lock f) with Some (r, l) => Some (r, with_rw l f) | None => None end.
Definition write_data (f : Frame) : option (outcome E unit * Frame) :=
  match rw_write (frame_lock f) with Some (r, l) => Some (r, with_rw l f) | None => None end.
End Methods.

Definition drop_read (f : Frame) : Frame := with_rw (rw_read_drop (frame_lock f)) f.
Definition drop_write (panicking : bool) (f : Frame) : Frame :=
  with_rw (rw_write_drop panicking (frame_lock f)) f.

(** * The unit tests *)

(** What a method returns on a frame, and the frame after it. *)
Definition result {A} (m : stateM Frame unit A) (f : Frame) : outcome unit A := (m f).1.
Definition after {A} (m : stateM Frame unit A) (f : Frame) : Frame := (m f).2.

Definition test_frame_new_initializes_empty_state : Prop :=
  let frame := frame_new 0 in
  result get_page_id frame = Ok None /\ result get_pin_count frame = Ok 0
  /\ result is_dirty frame = Ok false
  /\ is_Some (@read_data unit frame) /\ frame_data frame = fill 0 PAGE_SIZE.

Definition test_frame_metadata_and_data_mutability : Prop :=
  let frame := frame_new 0 in
  let page_id := mkPageId 10 5 in
  let frame := after (set_page_id (Some page_id)) frame in
  let pinned := after increment_pin_count (after increment_pin_count frame) in
  let unpinned := after decrement_pin_count pinned in
  let dirty := after (set_dirty true) unpinned in
  let clean := after (set_dirty false) dirty in
  result get_page_id frame = Ok (Some page_id)
  /\ result get_pin_count pinned = Ok 2 /\ result get_pin_count unpinned = Ok 1
  /\ result is_dirty dirty = Ok true /\ result is_dirty clean = Ok false
  /\ match @write_data unit clean with
     | Some (Ok _, f) =>
         let d := <[Z.to_nat (PAGE_SIZE - 1) := 99]> (<[0%nat := 42]> (frame_data f)) in
         match @read_data unit (drop_write false (with_data d f)) with
         | Some (Ok _, f) =>
             frame_data f !! 0%nat = Some 42 /\ frame_data f !! Z.to_nat (PAGE_SIZE - 1) = Some 99
             /\ frame_data f !! 1%nat = Some 0
         | _ => False
         end
     | _ => False
     end.

Lemma frame_tests :
  test_frame_new_initializes_empty_state /\ test_frame_metadata_and_data_mutability.
Proof. split; [|split_and!; by vm_compute]. split_and!; try by vm_compute. by eexists. Qed.
