(* ===== verification/Broadcast.v ===== *)
(** The broadcast channels of [tokio::sync] that the buffer pool waits on: the
    operations it uses as a class, the part of their documented behaviour it
    relies on as laws, and an instance for the concrete runs. *)
From stdpp Require Import gmap.
From Stdlib Require Import String.
From S2P Require Import Prelude.
From S2P Require Import RustStr.

(** The messages: [Result<(), String>]. *)
Definition Message : Type := outcome rstr unit.

(** [C] is the state of all channels, [Tx] a sender, [Rx] a receiver;
    [bc_channel] is [broadcast::channel(1)], [bc_drop] the drop of a sender,
    [bc_recv] is [None] while the receiver has to wait, and its error is the
    text of the [RecvError]. *)
Class Broadcast (C Tx Rx : Type) := {
  bc_channel : C -> (Tx * Rx) * C;
  bc_clone : Tx -> C -> Tx * C;
  bc_drop : Tx -> C -> C;
  bc_subscribe : Tx -> C -> Rx * C;
  bc_send : Message -> Tx -> C -> C;
  bc_recv : Rx -> C -> option (outcome rstr Message * C);
}.

(** A receiver subscribed through a live sender waits until something is sent,
    and as long as a sender is alive.  A new sender is none of those that are
    alive, and a sender lives until it is dropped. *)
Class BroadcastLaws (C Tx Rx : Type) `{Broadcast C Tx Rx} := {
  bc_live : C -> Tx -> Prop;
  bc_channel_law : forall c, bc_live (bc_channel c).2 (bc_channel c).1.1;
  bc_clone_law : forall tx c, bc_live c tx ->
    bc_live (bc_clone tx c).2 (bc_clone tx c).1;
  bc_channel_keeps : forall tx c, bc_live c tx -> bc_live (bc_channel c).2 tx /\ (bc_channel c).1.1 <> tx;
  bc_clone_keeps : forall tx tx' c, bc_live c tx' ->
    bc_live (bc_clone tx c).2 tx' /\ (bc_clone tx c).1 <> tx';
  bc_subscribe_keeps : forall tx tx' c, bc_live c tx' -> bc_live (bc_subscribe tx c).2 tx';
  bc_send_keeps : forall m tx tx' c, bc_live c tx' -> bc_live (bc_send m tx c) tx';
  bc_recv_keeps : forall rx c r c' tx, bc_recv rx c = Some (r, c') -> bc_live c tx -> bc_live c' tx;
  bc_drop_law : forall tx tx' c, tx' <> tx -> bc_live c tx' -> bc_live (bc_drop tx c) tx';
  bc_subscribe_law : forall tx c, bc_live c tx ->
    bc_live (bc_subscribe tx c).2 tx /\ bc_recv (bc_subscribe tx c).1 (bc_subscribe tx c).2 = None;
  bc_recv_panic : forall rx c c', bc_recv rx c <> Some (Panic, c');
}.

(** * An instance *)

(** The messages sent on each channel, the channel of each live sender, and the
    next number for either. *)
Record Channels := mkChannels {
  ch_sent : gmap nat (list Message);
  ch_senders : gmap nat nat;
  ch_fresh : nat;
}.

Definition channels_new : Channels := mkChannels ∅ ∅ 0.
Definition sent_on (ch : nat) (c : Channels) : list Message := default [] (ch_sent c !! ch).

#[export] Instance channels_broadcast : Broadcast Channels nat (nat * nat) := {
  bc_channel c :=
    let n := ch_fresh c in
    ((n, (n, 0%nat)), mkChannels (<[n := []]> (ch_sent c)) (<[n := n]> (ch_senders c)) (S n));
  bc_clone tx c :=
    let n := ch_fresh c in
    (n, mkChannels (ch_sent c)
          (match ch_senders c !! tx with Some ch => <[n := ch]> (ch_senders c) | None => ch_senders c end)
          (S n));
  bc_drop tx c := mkChannels (ch_sent c) (delete tx (ch_senders c)) (ch_fresh c);
  bc_subscribe tx c :=
    let ch := default 0%nat (ch_senders c !! tx) in
    ((ch, length (sent_on ch c)), c);
  bc_send m tx c :=
    match ch_senders c !! tx with
    | Some ch => mkChannels (<[ch := sent_on ch c ++ [m]]> (ch_sent c)) (ch_senders c) (ch_fresh c)
    | None => c
    end;
  bc_recv '(ch, n) c :=
    match drop n (sent_on ch c) with
    | [m] => Some (Ok m, c)
    | _ :: _ => Some (Err (str "channel lagged"), c)
    | [] =>
        if bool_decide (ch ∈ (map_to_list (ch_senders c)).*2) then None
        else Some (Err (str "channel closed"), c)
    end;
}.

(** Senders are numbered below the next number. *)
Definition sender_live (c : Channels) (tx : nat) : Prop :=
  (tx < ch_fresh c)%nat /\ is_Some (ch_senders c !! tx).

#[export] Instance channels_laws : BroadcastLaws Channels nat (nat * nat).
Proof.
  refine {| bc_live := sender_live |}.
  - intros c. split; cbn; [lia|]. rewrite lookup_insert_eq. by eexists.
  - intros tx c [Hlt [ch Hc]]. cbn. rewrite Hc. split; cbn; [lia|].
    rewrite lookup_insert_eq. by eexists.
  - intros tx c [Hlt Hc]. cbn. split; [|lia]. split; cbn; [lia|]. rewrite lookup_insert_ne by lia. done.
  - intros tx tx' c [Hlt Hc]. cbn. split; [|lia]. split; cbn; [lia|].
    destruct (ch_senders c !! tx); [|done]. rewrite lookup_insert_ne by lia. done.
  - done.
  - intros m tx tx' c Hl. cbn. by destruct (ch_senders c !! tx).
  - intros [ch n] c r c' tx. cbn. destruct (drop n (sent_on ch c)) as [|m [|]]; [case_bool_decide; [done|]|..];
      by intros [= <- <-].
  - intros tx tx' c Hne [Hlt Hc]. split; cbn; [done|]. by rewrite lookup_delete_ne.
  - intros tx c [Hlt [ch Hc]]. split; [by split|]. cbn. rewrite Hc. cbn.
    rewrite drop_ge by lia. rewrite bool_decide_eq_true_2; [done|].
    apply list_elem_of_fmap. exists (tx, ch). split; [done|]. by apply elem_of_map_to_list.
  - intros [ch n] c c'. cbn. destruct (drop n (sent_on ch c)) as [|m [|]]; [|done..].
    by case_bool_decide.
Defined.
