(* ===== verification/BufferPool.v ===== *)
(** The buffer pool ([buffer_pool_manager.rs], [page_processing_map.rs],
    [bpm_error.rs]) and the page guards ([page_guard.rs]).  A method is a program
    of atomic accesses to the shared state: one for each access to an atomic
    field, to what a held lock protects, to the evictor or to the disk manager,
    and for each lock taken or released. *)
From stdpp Require Import gmap.
From Stdlib Require Import String.
From S2P Require Import Prelude.
From S2P Require Import Bytes.
From S2P Require Import RustStr.
From S2P Require Import Page.
From S2P Require Import Evictor.
From S2P Require Import FileSystem.
From S2P Require Import PageStore.
From S2P Require Import Prog.
From S2P Require Import Frame.
From S2P Require Import Broadcast.

Inductive BufferPoolError :=
| BufferFull
| DiskRead (message : rstr)
| DiskWrite (message : rstr)
| Generic (message : rstr)
| PageProcessingBroadcast (message : rstr)
| PageAllocation (message : rstr).

#[export] Instance BufferPoolError_eq_dec : EqDecision BufferPoolError.
Proof. solve_decision. Defined.

(** [format!("{}", page_id)]. *)
Definition page_id_fmt (p : PageId) : rstr :=
  str "Table: " ++ show_unsigned (table_id p) ++ str ", Page: " ++ show_unsigned (page_index p).

(** * The shared state *)

Record PageProcessingMap (Tx : Type) := mkProcessing { fetches : gmap PageId Tx; flushes : gmap PageId Tx }.
Arguments mkProcessing {Tx} _ _.
Arguments fetches {Tx} _.
Arguments flushes {Tx} _.

Definition processing_new {Tx} : PageProcessingMap Tx := mkProcessing ∅ ∅.

(** [disk_manager] and [channels] are what the pool's methods reach outside of
    it; each mutex is a field with what it protects beside it. *)
Record BufferPoolManager (Ev C Tx W : Type) := mkBpm {
  disk_manager : W;
  channels : C;
  evictor : Ev;
  frames : list Frame;
  free_frames : list nat;
  free_frames_state : MutexState;
  page_io_processing : PageProcessingMap Tx;
  page_io_state : MutexState;
  page_table : gmap PageId nat;
  page_table_state : MutexState;
}.
Arguments mkBpm {Ev C Tx W} _ _ _ _ _ _ _ _ _ _.
Arguments disk_manager {Ev C Tx W} _.
Arguments channels {Ev C Tx W} _.
Arguments evictor {Ev C Tx W} _.
Arguments frames {Ev C Tx W} _.
Arguments free_frames {Ev C Tx W} _.
Arguments free_frames_state {Ev C Tx W} _.
Arguments page_io_processing {Ev C Tx W} _.
Arguments page_io_state {Ev C Tx W} _.
Arguments page_table {Ev C Tx W} _.
Arguments page_table_state {Ev C Tx W} _.

Section Fields.
Context {Ev C Tx W : Type}.
#[local] Abbreviation Bpm := (BufferPoolManager Ev C Tx W).

Definition set_disk (x : W) (s : Bpm) : Bpm :=
  mkBpm x (channels s) (evictor s) (frames s) (free_frames s) (free_frames_state s)
    (page_io_processing s) (page_io_state s) (page_table s) (page_table_state s).
Definition set_channels (x : C) (s : Bpm) : Bpm :=
  mkBpm (disk_manager s) x (evictor s) (frames s) (free_frames s) (free_frames_state s)
    (page_io_processing s) (page_io_state s) (page_table s) (page_table_state s).
Definition set_evictor (x : Ev) (s : Bpm) : Bpm :=
  mkBpm (disk_manager s) (channels s) x (frames s) (free_frames s) (free_frames_state s)
    (page_io_processing s) (page_io_state s) (page_table s) (page_table_state s).
Definition set_frames (x : list Frame) (s : Bpm) : Bpm :=
  mkBpm (disk_manager s) (channels s) (evictor s) x (free_frames s) (free_frames_state s)
    (page_io_processing s) (page_io_state s) (page_table s) (page_table_state s).
Definition set_free (x : list nat) (s : Bpm) : Bpm :=
  mkBpm (disk_manager s) (channels s) (evictor s) (frames s) x (free_frames_state s)
    (page_io_processing s) (page_io_state s) (page_table s) (page_table_state s).
Definition set_free_state (x : MutexState) (s : Bpm) : Bpm :=
  mkBpm (disk_manager s) (channels s) (evictor s) (frames s) (free_frames s) x
    (page_io_processing s) (page_io_state s) (page_table s) (page_table_state s).
Definition set_io (x : PageProcessingMap Tx) (s : Bpm) : Bpm :=
  mkBpm (disk_manager s) (channels s) (evictor s) (frames s) (free_frames s) (free_frames_state s)
    x (page_io_state s) (page_table s) (page_table_state s).
Definition set_io_state (x : MutexState) (s : Bpm) : Bpm :=
  mkBpm (disk_manager s) (channels s) (evictor s) (frames s) (free_frames s) (free_frames_state s)
    (page_io_processing s) x (page_table s) (page_table_state s).
Definition set_table (x : gmap PageId nat) (s : Bpm) : Bpm :=
  mkBpm (disk_manager s) (channels s) (evictor s) (frames s) (free_frames s) (free_frames_state s)
    (page_io_processing s) (page_io_state s) x (page_table_state s).
Definition set_table_state (x : MutexState) (s : Bpm) : Bpm :=
  mkBpm (disk_manager s) (channels s) (evictor s) (frames s) (free_frames s) (free_frames_state s)
    (page_io_processing s) (page_io_state s) (page_table s) x.

Definition set_fetches (x : gmap PageId Tx) (s : Bpm) : Bpm :=
  set_io (mkProcessing x (flushes (page_io_processing s))) s.
Definition set_flushes (x : gmap PageId Tx) (s : Bpm) : Bpm :=
  set_io (mkProcessing (fetches (page_io_processing s)) x) s.

Definition free_frames_mutex : Mutex (S := Bpm) := mkMutex free_frames_state set_free_state.
Definition page_io_mutex : Mutex (S := Bpm) := mkMutex page_io_state set_io_state.
Definition page_table_mutex : Mutex (S := Bpm) := mkMutex page_table_state set_table_state.

(** ** Accesses *)

(** [self.frames[i].m()]. *)
Definition on_frame {E A} (i : nat) (m : stateM Frame E A) : prog Bpm E A := atomic (fun s =>
  match frames s !! i with
  | Some f => let '(r, f') := m f in (r, set_frames (<[i := f']> (frames s)) s)
  | None => (Panic, s)
  end).

(** A lock of [self.frames[i]] that may have to wait. *)
Definition frame_lock_on {E A} (i : nat) (m : Frame -> option (outcome E A * Frame)) : prog Bpm E A :=
  Act (fun s =>
    match frames s !! i with
    | Some f =>
        match m f with
        | Some (r, f') => Some (Done r, set_frames (<[i := f']> (frames s)) s)
        | None => None
        end
    | None => Some (Done Panic, s)
    end).

Definition release_on (i : nat) (g : Frame -> Frame) (s : Bpm) : Bpm :=
  match frames s !! i with
  | Some f => set_frames (<[i := g f]> (frames s)) s
  | None => s
  end.

Definition on_evictor {E A} (m : stateM Ev E A) : prog Bpm E A := atomic (on_part evictor set_evictor m).
Definition on_disk {A} (m : stateM W IoError A) : prog Bpm IoError A :=
  atomic (on_part disk_manager set_disk m).

(** An operation on the channels. *)
Definition on_channels {E A} (m : C -> A * C) : prog Bpm E A := atomic (fun s =>
  let '(a, c) := m (channels s) in (Ok a, set_channels c s)).
End Fields.

Section Pool.
Context {Ev C Tx Rx W : Type} `{Evictor Ev, Broadcast C Tx Rx, PageStore W}.
#[local] Abbreviation Bpm := (BufferPoolManager Ev C Tx W).
#[local] Abbreviation bpmP := (prog Bpm BufferPoolError).

(** The text of an [io::Error]. *)
Variable show_io : IoError -> rstr.

(** * Pins *)

Definition pin_frame {E} (frame_id : nat) : prog Bpm E unit :=
  prev ← on_frame frame_id increment_pin_count;
  if prev =? 0 then on_evictor (ev_remove frame_id) else mret tt.

Definition unpin_frame {E} (frame_id : nat) : prog Bpm E unit :=
  prev ← on_frame frame_id decrement_pin_count;
  if prev =? 1 then on_evictor (ev_add frame_id) else mret tt.

(** * Guards *)

(** A guard holds the lock of its frame; [PageReadGuard::new] and
    [PageWriteGuard::new] only store it. *)
Inductive PageGuard := PageReadGuard (frame : nat) | PageWriteGuard (frame : nat).

Definition guard_frame (g : PageGuard) : nat :=
  match g with PageReadGuard i | PageWriteGuard i => i end.

(** The buffer a guard dereferences to. *)
Definition guard_deref {E} (g : PageGuard) : prog Bpm E (list Z) :=
  on_frame (guard_frame g) (sget (fun f => Ok (frame_data f))).

(** Writing through a mutable reference to it. *)
Definition guard_deref_mut {E} (i : nat) (data : list Z) : prog Bpm E unit :=
  on_frame i (smodify (with_data data)).

Definition mark_dirty {E} (i : nat) : prog Bpm E unit := on_frame i (set_dirty true).

Definition guard_page_id {E} (i : nat) : prog Bpm E PageId :=
  p ← on_frame i get_page_id; atomic (slift (unwrap_opt p)).

(** The end of a guard's scope: [drop], then the fields of the guard. *)
Definition guard_release (g : PageGuard) (panicking : bool) : Frame -> Frame :=
  match g with PageReadGuard _ => drop_read | PageWriteGuard _ => drop_write panicking end.

Definition panicked {E A} (r : outcome E A) : bool := match r with Panic => true | _ => false end.

Definition guard_drop {E} (g : PageGuard) : prog Bpm E unit :=
  finally
    (prev ← on_frame (guard_frame g) decrement_pin_count;
     if prev =? 1 then
       id ← on_frame (guard_frame g) get_id;
       on_evictor (ev_add id)
     else mret tt)
    (fun r => release_on (guard_frame g) (guard_release g (panicked r))).

(** * Waiting *)

(** [channels.get(&page_id)], and a subscription to what is there. *)
Definition subscribe_to {E} (which : PageProcessingMap Tx -> gmap PageId Tx) (page_id : PageId) :
    prog Bpm E (option Rx) :=
  with_lock page_io_mutex
    (ch ← atomic (sget (fun s => Ok (which (page_io_processing s) !! page_id)));
     match ch with
     | Some tx => rx ← on_channels (bc_subscribe tx); mret (Some rx)
     | None => mret None
     end).

(** [sub.recv().await]; a message that is received is not looked at. *)
Definition receive (page_id : PageId) (rx : Rx) : bpmP unit := Act (fun s =>
  match bc_recv rx (channels s) with
  | Some (Ok _, c) => Some (Done (Ok tt), set_channels c s)
  | Some (Err e, c) =>
      Some (Done (Err (PageProcessingBroadcast
              (str "Error waiting on in flight fetch for page " ++ page_id_fmt page_id
               ++ str ": " ++ e))), set_channels c s)
  | Some (Panic, c) => Some (Done Panic, set_channels c s)
  | None => None
  end).

Definition wait_for_page_fetch (page_id : PageId) : bpmP unit :=
  rx ← subscribe_to fetches page_id;
  match rx with Some rx => receive page_id rx | None => mret tt end.

Definition wait_for_page_flush (page_id : PageId) : bpmP unit :=
  rx ← subscribe_to flushes page_id;
  match rx with Some rx => receive page_id rx | None => mret tt end.

(** * Eviction *)

Definition evict_page : bpmP (nat * option (PageId * list Z)) :=
  victim ← on_evictor ev_victim;
  match victim with
  | Some free_frame_id =>
      p ← on_frame free_frame_id get_page_id;
      victim_page_id ← atomic (slift (unwrap_opt p));
      atomic (smodify (fun s => set_table (delete victim_page_id (page_table s)) s));;
      dirty ← on_frame free_frame_id is_dirty;
      if dirty : bool then
        frame_lock_on free_frame_id read_data;;
        page_data ← finally (on_frame free_frame_id (sget (fun f => Ok (frame_data f))))
                      (fun _ => release_on free_frame_id drop_read);
        p ← on_frame free_frame_id get_page_id;
        id ← atomic (slift (unwrap_opt p));
        mret (free_frame_id, Some (id, page_data))
      else mret (free_frame_id, None)
  | None => Done (Err BufferFull)
  end.

(** The processing channel of an evicted page that is to be flushed; the local
    sender is dropped at the end of the block. *)
Definition announce_flush {E} (free_frame_id : nat) (page_data : option (PageId * list Z)) :
    prog Bpm E unit :=
  dirty ← on_frame free_frame_id is_dirty;
  if dirty : bool then
    d ← atomic (slift (unwrap_opt page_data));
    '(tx, _) ← on_channels bc_channel;
    tx' ← on_channels (bc_clone tx);
    atomic (smodify (fun s => set_flushes (<[d.1 := tx']> (flushes (page_io_processing s)))
      (match flushes (page_io_processing s) !! d.1 with
       | Some old => set_channels (bc_drop old (channels s)) s
       | None => s
       end)));;
    on_channels (fun c => (tt, bc_drop tx c))
  else mret tt.

(** [self.free_frames.lock().unwrap().pop()]: the last one. *)
Definition pop_free : stateM Bpm BufferPoolError (option nat) := fun s =>
  (Ok (last (free_frames s)), set_free (take (length (free_frames s) - 1) (free_frames s)) s).

(** Removing a page from the processing map and waking those who wait for it. *)
Definition finish (remove : PageId -> Bpm -> option Tx * Bpm) (page_id : PageId) : bpmP unit :=
  with_lock page_io_mutex
    (tx ← atomic (fun s => let '(o, s') := remove page_id s in (Ok o, s'));
     match tx with
     | Some tx => on_channels (fun c => (tt, bc_drop tx (bc_send (Ok tt) tx c)))
     | None => mret tt
     end).
Definition remove_fetch (page_id : PageId) (s : Bpm) : option Tx * Bpm :=
  (fetches (page_io_processing s) !! page_id,
   set_fetches (delete page_id (fetches (page_io_processing s))) s).
Definition remove_flush (page_id : PageId) (s : Bpm) : option Tx * Bpm :=
  (flushes (page_io_processing s) !! page_id,
   set_flushes (delete page_id (flushes (page_io_processing s))) s).

Definition write_error (page_id : PageId) (e : IoError) : BufferPoolError :=
  DiskWrite (str "Could not write page: " ++ page_id_fmt page_id ++ str " to disk! Error: " ++ show_io e).
Definition read_error (page_id : PageId) (e : IoError) : BufferPoolError :=
  DiskRead (str "Error reading page " ++ page_id_fmt page_id ++ str " from disk: " ++ show_io e).

(** * Creating a page *)

(** What is done under the lock of the page table: a frame is found, pinned and
    given to the page. *)
Definition create_lookup (page_id : PageId) : bpmP (nat * option (PageId * list Z)) :=
  free ← with_lock free_frames_mutex
    (free ← atomic pop_free;
     match free with
     | Some id => pin_frame id;; mret (Some id)
     | None => mret None
     end);
  '(frame_id, page_data) ←
    match free with
    | Some id => mret (id, None)
    | None =>
        with_lock page_io_mutex
          ('(free_frame_id, page_data) ← on_result evict_page (fun r => Done (unwrap_res r));
           pin_frame free_frame_id;;
           announce_flush free_frame_id page_data;;
           mret (free_frame_id, page_data))
    end;
  on_frame frame_id (set_page_id (Some page_id));;
  atomic (smodify (fun s => set_table (<[page_id := frame_id]> (page_table s)) s));;
  mret (frame_id, page_data).

Definition create_page (table_id : Z) : bpmP PageGuard :=
  page_id ← prog_map_err (fun e => PageAllocation (show_io e)) (on_disk (ps_allocate table_id));
  '(frame_id, page_data) ← with_lock page_table_mutex (create_lookup page_id);
  match page_data with
  | Some (page_to_flush_id, page_data) =>
      prog_map_err (write_error page_to_flush_id) (on_disk (ps_write page_to_flush_id page_data));;
      finish remove_flush page_to_flush_id
  | None => mret tt
  end;;
  frame_lock_on frame_id write_data;;
  mret (PageWriteGuard frame_id).

(** * Fetching a page *)

(** What is done under the lock of the page table: the frame of a page that is
    cached, or a frame to load it into, with what is to be flushed out of it
    and the sender that lives as long as the call. *)
Inductive FetchPlan :=
| Hit (frame_id : nat)
| Miss (frame_id : nat) (page_data_to_flush : option (PageId * list Z)) (tx : Tx).

Definition fetch_frame : bpmP (option (nat * option (PageId * list Z))) :=
  free ← with_lock free_frames_mutex (atomic pop_free);
  match free with
  | Some free_frame_id => mret (Some (free_frame_id, None))
  | None =>
      with_lock page_io_mutex
        (on_result evict_page (fun r =>
           match r with
           | Ok (evicted_frame_id, page_data) =>
               announce_flush evicted_frame_id page_data;;
               mret (Some (evicted_frame_id, page_data))
           | Err _ => mret None
           | Panic => Done Panic
           end))
  end.

Definition announce_fetch (page_id : PageId) : bpmP Tx :=
  with_lock page_io_mutex
    ('(tx, _) ← on_channels bc_channel;
     tx' ← on_channels (bc_clone tx);
     atomic (smodify (fun s => set_fetches (<[page_id := tx']> (fetches (page_io_processing s)))
       (match fetches (page_io_processing s) !! page_id with
        | Some old => set_channels (bc_drop old (channels s)) s
        | None => s
        end)));;
     mret tx).

Definition fetch_lookup (page_id : PageId) : bpmP FetchPlan :=
  cached ← atomic (sget (fun s => Ok (page_table s !! page_id)));
  match cached with
  | Some frame_id => pin_frame frame_id;; mret (Hit frame_id)
  | None =>
      available ← fetch_frame;
      match available with
      | None => Done (Err BufferFull)
      | Some (frame_id, page_data_to_flush) =>
          atomic (smodify (fun s => set_table (<[page_id := frame_id]> (page_table s)) s));;
          on_frame frame_id (set_page_id (Some page_id));;
          on_frame frame_id (set_dirty false);;
          pin_frame frame_id;;
          tx ← announce_fetch page_id;
          mret (Miss frame_id page_data_to_flush tx)
      end
  end.

(** The write of the page that was evicted. *)
Definition flush_evicted (page_to_flush_id : PageId) (page_data : list Z) : bpmP unit :=
  on_result (on_disk (ps_write page_to_flush_id page_data)) (fun result =>
    match result with
    | Ok _ => finish remove_flush page_to_flush_id
    | Err error =>
        finish remove_flush page_to_flush_id;;
        Done (Err (write_error page_to_flush_id error))
    | Panic => Done Panic
    end).

(** After a miss: the page is loaded; the write guard of the frame lives until
    the end of the call. *)
Definition fetch_load (page_id : PageId) (frame_id : nat)
    (page_data_to_flush : option (PageId * list Z)) : bpmP unit :=
  wait_for_page_flush page_id;;
  read_buffer ← prog_map_err (read_error page_id) (on_disk (ps_read page_id (fill 0 PAGE_SIZE)));
  frame_lock_on frame_id write_data;;
  finally
    (on_frame frame_id (smodify (with_data read_buffer));;
     finish remove_fetch page_id;;
     match page_data_to_flush with
     | Some (page_to_flush_id, page_data) => flush_evicted page_to_flush_id page_data
     | None => mret tt
     end)
    (fun r => release_on frame_id (drop_write (panicked r))).

Definition fetch_and_pin_frame (page_id : PageId) : bpmP nat :=
  plan ← with_lock page_table_mutex (fetch_lookup page_id);
  match plan with
  | Hit frame_id =>
      on_result (wait_for_page_fetch page_id) (fun result =>
        match result with
        | Ok _ => mret frame_id
        | Err e => unpin_frame frame_id;; Done (Err e)
        | Panic => Done Panic
        end)
  | Miss frame_id page_data_to_flush tx =>
      finally (fetch_load page_id frame_id page_data_to_flush)
        (fun _ s => set_channels (bc_drop tx (channels s)) s);;
      mret frame_id
  end.

Definition fetch_page_read (page_id : PageId) : bpmP PageGuard :=
  on_result (fetch_and_pin_frame page_id) (fun r =>
    match r with
    | Ok frame => frame_lock_on frame read_data;; mret (PageReadGuard frame)
    | Err _ => Done (Err BufferFull)
    | Panic => Done Panic
    end).

Definition fetch_page_write (page_id : PageId) : bpmP PageGuard :=
  on_result (fetch_and_pin_frame page_id) (fun r =>
    match r with
    | Ok frame => frame_lock_on frame write_data;; mret (PageWriteGuard frame)
    | Err _ => Done (Err BufferFull)
    | Panic => Done Panic
    end).

(** * The test helpers *)

Definition get_free_frame_count : bpmP nat :=
  with_lock free_frames_mutex (atomic (sget (fun s => Ok (length (free_frames s))))).

Definition bpm_get_pin_count (page_id : PageId) : bpmP (option Z) :=
  with_lock page_table_mutex
    (f ← atomic (sget (fun s => Ok (page_table s !! page_id)));
     match f with
     | Some frame_id => n ← on_frame frame_id get_pin_count; mret (Some n)
     | None => mret None
     end).
End Pool.

(** [BufferPoolManager::new]. *)
Definition bpm_new {C Tx W} (size : nat) (disk : W) (c : C) :
    BufferPoolManager ClockEvictorState C Tx W :=
  mkBpm disk c (clock_new size) (frame_new <$> seq 0 size) (seq 0 size) Unlocked
    processing_new Unlocked ∅ Unlocked.
