(* ===== verification/BufferPoolTests.v ===== *)
(** The unit tests of [buffer_pool_manager.rs] and [page_guard.rs] on the clock
    replacer and the disk manager over the file system in memory: each
    definition says what the test of that name asserts. *)
From stdpp Require Import gmap.
From Stdlib Require Import String.
From S2P Require Import Prelude.
From S2P Require Import Bytes.
From S2P Require Import RustStr.
From S2P Require Import Page.
From S2P Require Import Evictor.
From S2P Require Import FileSystem.
From S2P Require Import FileSystemProps.
From S2P Require Import DiskManager.
From S2P Require Import PageStore.
From S2P Require Import Prog.
From S2P Require Import Frame.
From S2P Require Import Broadcast.
From S2P Require Import BufferPool.

#[local] Abbreviation Disk := (DiskManager MemFile * MemFs)%type.
#[local] Abbreviation Bpm := (BufferPoolManager ClockEvictorState Channels nat Disk).
#[local] Abbreviation bpmP := (prog Bpm BufferPoolError).

Definition io_text (e : IoError) : rstr := [].

(** A pool of [size] frames on an empty folder, after [setup] of the disk. *)
Definition pool_on {A} (size : nat) (setup : stateM Disk IoError A) : Bpm :=
  bpm_new size (setup (disk_manager_new [], mem_empty)).2 channels_new.

(** What a test observes; [None] if it would never end. *)
Definition observed {A} (s : Bpm) (p : bpmP A) : option (outcome BufferPoolError A) :=
  match run p s with Some (r, _) => Some r | None => None end.

Definition bytes_at (buffer : list Z) (ixs : list Z) : list Z := (fun i => default 0 (buffer !! Z.to_nat i)) <$> ixs.

(** A page with bytes set. *)
Definition page_with (l : list (Z * Z)) : list Z :=
  foldr (fun '(i, b) d => <[Z.to_nat i := b]> d) (fill 0 PAGE_SIZE) l.

Definition create := create_page (Ev := ClockEvictorState) (C := Channels) (Tx := nat) (Rx := nat * nat)
                       (W := Disk) io_text.
Definition read := fetch_page_read (Ev := ClockEvictorState) (C := Channels) (Tx := nat) (Rx := nat * nat)
                       (W := Disk) io_text.
Definition write := fetch_page_write (Ev := ClockEvictorState) (C := Channels) (Tx := nat) (Rx := nat * nat)
                       (W := Disk) io_text.
Definition evict := evict_page (Ev := ClockEvictorState) (C := Channels) (Tx := nat) (W := Disk).

(** [guard[i] = b] for each of [l], then [guard.mark_dirty()]. *)
Definition poke (g : PageGuard) (l : list (Z * Z)) : bpmP unit :=
  d ← guard_deref g;
  guard_deref_mut (guard_frame g) (foldr (fun '(i, b) d => <[Z.to_nat i := b]> d) d l);;
  mark_dirty (guard_frame g).

Definition peek (g : PageGuard) (ixs : list Z) : bpmP (list Z) := d ← guard_deref g; mret (bytes_at d ixs).

Definition disk {A} (m : stateM Disk IoError A) : bpmP A := prog_map_err (fun _ => Generic []) (on_disk m).

(** ** [page_guard.rs] *)

Definition one_frame : Bpm := pool_on 1 (mret tt).
Definition pins : bpmP Z := on_frame 0 get_pin_count.

Definition test_page_read_guard_decrements_pin_count_on_drop : Prop :=
  observed one_frame
    (on_frame 0 increment_pin_count;; before ← pins;
     frame_lock_on 0 read_data;;
     d ← peek (PageReadGuard 0) [0];
     guard_drop (PageReadGuard 0);; after ← pins; mret (before, d, after))
  = Some (Ok (1, [0], 0)).

Definition test_page_write_guard_mutates_data_and_cleans_up_on_drop : Prop :=
  observed one_frame
    (on_frame 0 increment_pin_count;; before ← pins;
     frame_lock_on 0 write_data;;
     poke (PageWriteGuard 0) [(0, 42); (PAGE_SIZE - 1, 99)];;
     guard_drop (PageWriteGuard 0);; after ← pins;
     dirty ← on_frame 0 is_dirty; frame_lock_on 0 read_data;;
     d ← peek (PageReadGuard 0) [0; PAGE_SIZE - 1]; mret (before, after, dirty, d))
  = Some (Ok (1, 0, true, [42; 99])).

(** ** [buffer_pool_manager.rs] *)

Definition test_bpm_create_page_allocates_and_returns_write_guard : Prop :=
  let table_id := 100 in
  observed (pool_on 2 (create_table_file table_id))
    (page_guard ← create table_id; poke page_guard [(0, 42); (1, 99)];;
     bpm_get_pin_count (mkPageId table_id 0))
  = Some (Ok (Some 1)).

Definition test_bpm_create_page_evicts_dirty_frame_and_flushes : Prop :=
  let table_id := 200 in
  observed (pool_on 1 (create_table_file table_id))
    (guard1 ← create table_id; poke guard1 [(0, 111); (PAGE_SIZE - 1, 222)];; guard_drop guard1;;
     guard2 ← create table_id;
     page1 ← bpm_get_pin_count (mkPageId table_id 1);
     page0 ← bpm_get_pin_count (mkPageId table_id 0);
     guard_drop guard2;;
     handle ← disk (on_fs (open_file [show_unsigned table_id ++ str ".tbl"]));
     '(_, buffer) ← disk (on_fs (read_at handle (fill 0 PAGE_SIZE) 0));
     mret (page1, page0, bytes_at buffer [0; PAGE_SIZE - 1]))
  = Some (Ok (Some 1, None, [111; 222])).

Definition test_evict_page_returns_error_when_pool_full : Prop :=
  observed (pool_on 1 (mret tt)) (pin_frame 0;; with_lock page_table_mutex evict) = Some (Err BufferFull).

(** Frame 0 made to cache [page_id] by hand. *)
Definition cache_by_hand (page_id : PageId) (dirty : bool) : bpmP unit :=
  atomic (smodify (set_free []));;
  on_frame 0 (set_page_id (Some page_id));;
  on_frame 0 (set_dirty dirty);;
  atomic (smodify (fun s => set_table (<[page_id := 0%nat]> (page_table s)) s)).

Definition test_evict_page_evicts_clean_page_and_updates_page_table : Prop :=
  let page_id := mkPageId 10 0 in
  observed (pool_on 1 (mret tt))
    (cache_by_hand page_id false;; on_evictor (ev_add 0);;
     result ← with_lock page_table_mutex evict;
     pin_count ← bpm_get_pin_count page_id; mret (result, pin_count))
  = Some (Ok ((0%nat, None), None)).

Definition test_evict_page_evicts_dirty_page_and_returns_data_to_flush : Prop :=
  let page_id := mkPageId 20 1 in
  let data := page_with [(0, 123); (PAGE_SIZE - 1, 234)] in
  observed (pool_on 1 (mret tt))
    (cache_by_hand page_id true;;
     frame_lock_on 0 write_data;; on_frame 0 (smodify (with_data data));;
     atomic (smodify (release_on 0 (drop_write false)));;
     on_evictor (ev_add 0);;
     result ← with_lock page_table_mutex evict;
     pin_count ← bpm_get_pin_count page_id; mret (result, pin_count))
  = Some (Ok ((0%nat, Some (page_id, data)), None)).

(** A table with a page of each of [l], written past the pool. *)
Fixpoint write_pages (table_id : Z) (l : list (list (Z * Z))) : stateM Disk IoError unit :=
  match l with
  | [] => mret tt
  | bytes :: l =>
      page_id ← allocate_page table_id; write_page page_id (page_with bytes);; write_pages table_id l
  end.
Definition table_of (table_id : Z) (l : list (list (Z * Z))) : stateM Disk IoError unit :=
  create_table_file table_id;; write_pages table_id l.

Definition test_bpm_fetch_page_miss_loads_from_disk_then_hit_returns_cached_frame : Prop :=
  let table_id := 300 in
  let page_id := mkPageId table_id 0 in
  observed (pool_on 2 (table_of table_id [[(0, 77); (PAGE_SIZE - 1, 88)]]))
    (guard1 ← read page_id; d ← peek guard1 [0; PAGE_SIZE - 1];
     once ← bpm_get_pin_count page_id;
     _guard2 ← read page_id;
     twice ← bpm_get_pin_count page_id;
     free ← get_free_frame_count; mret (d, once, twice, free))
  = Some (Ok ([77; 88], Some 1, Some 2, 1%nat)).

Definition test_bpm_fetch_page_cache_hit : Prop :=
  let table_id := 200 in
  observed (pool_on 2 (create_table_file table_id))
    (page_guard ← create table_id; poke page_guard [(0, 88); (1, 99)];;
     page_id ← guard_page_id (guard_frame page_guard); guard_drop page_guard;;
     read_guard ← read page_id; peek read_guard [0; 1])
  = Some (Ok [88; 99]).

Definition test_bpm_fetch_page_write_cache_hit : Prop :=
  let table_id := 300 in
  observed (pool_on 2 (create_table_file table_id))
    (page_guard ← create table_id; poke page_guard [(0, 11); (1, 22)];;
     page_id ← guard_page_id (guard_frame page_guard); guard_drop page_guard;;
     write_guard ← write page_id; old ← peek write_guard [0; 1];
     poke write_guard [(0, 33); (1, 44)];; guard_drop write_guard;;
     read_guard ← read page_id; new ← peek read_guard [0; 1]; mret (old, new))
  = Some (Ok ([11; 22], [33; 44])).

Definition test_bpm_fetch_page_cache_miss_with_free_frame : Prop :=
  let table_id := 400 in
  observed (pool_on 2 (table_of table_id [[(0, 77); (1, 88)]]))
    (read_guard ← read (mkPageId table_id 0); peek read_guard [0; 1])
  = Some (Ok [77; 88]).

Definition test_bpm_fetch_page_evicts_unpinned_frame_when_full : Prop :=
  let table_id := 600 in
  observed (pool_on 2 (table_of table_id [[(0, 11)]; [(0, 22)]; [(0, 33)]]))
    (guard1 ← read (mkPageId table_id 0); guard2 ← read (mkPageId table_id 1);
     d1 ← peek guard1 [0]; d2 ← peek guard2 [0]; free ← get_free_frame_count;
     guard_drop guard2;; guard_drop guard1;;
     guard3 ← read (mkPageId table_id 2); d3 ← peek guard3 [0]; mret (d1, d2, free, d3))
  = Some (Ok ([11], [22], 0%nat, [33])).

Definition test_bpm_evicts_dirty_frame_and_writes_to_disk : Prop :=
  let table_id := 700 in
  let page_id_1 := mkPageId table_id 0 in
  observed (pool_on 1 (create_table_file table_id;; allocate_page table_id;; allocate_page table_id))
    (guard1 ← write page_id_1; poke guard1 [(0, 123); (1, 234)];; guard_drop guard1;;
     guard2 ← read (mkPageId table_id 1); d2 ← peek guard2 [0]; guard_drop guard2;;
     guard1_reloaded ← read page_id_1; d1 ← peek guard1_reloaded [0; 1]; mret (d2, d1))
  = Some (Ok ([0], [123; 234])).

Definition test_bpm_fetch_page_returns_error_when_all_frames_pinned : Prop :=
  let table_id := 800 in
  observed (pool_on 1 (create_table_file table_id;; allocate_page table_id;; allocate_page table_id))
    (_guard1 ← read (mkPageId table_id 0); read (mkPageId table_id 1))
  = Some (Err BufferFull).

Definition test_bpm_create_page_evicts_frame_when_full : Prop :=
  let table_id := 900 in
  observed (pool_on 1 (create_table_file table_id;; allocate_page table_id))
    (_guard1 ← read (mkPageId table_id 0); guard_drop _guard1;;
     guard2 ← create table_id; page_id ← guard_page_id (guard_frame guard2); mret (page_index page_id))
  = Some (Ok 1).

(** A reader of the concurrent test: the frame, a guard on it, its first byte. *)
Definition rush (page_id : PageId) : bpmP (list Z) :=
  frame ← fetch_and_pin_frame (Rx := nat * nat) io_text page_id;
  frame_lock_on frame read_data;;
  d ← peek (PageReadGuard frame) [0];
  guard_drop (PageReadGuard frame);; mret d.

(** Ten of them step in turn, a thread that has to wait being passed over; the
    disk read of the first is held back for [delay] turns. *)
Fixpoint turns (n : nat) (js : list nat) (c : list (bpmP (list Z)) * Bpm) :
    list (bpmP (list Z)) * Bpm :=
  match n with
  | O => c
  | S n => turns n js (fold_left (fun c j => default c (thread_step j c)) js c)
  end.

Definition test_bpm_concurrent_cache_miss_prevents_phantom_fetch : Prop :=
  let table_id := 500 in
  let page_id := mkPageId table_id 0 in
  let s := pool_on 10 (table_of table_id [[(0, 99)]]) in
  let c := turns 20 (seq 0 10) (replicate 10 (rush page_id), s) in
  let c := turns 30 (seq 1 9) c in
  let '(ts, s) := turns 60 (seq 0 10) c in
  (forallb (fun p => match p with Done (Ok [b]) => b =? 99 | _ => false end) ts,
   length (free_frames s))
  = (true, 9%nat).

Lemma page_guard_tests :
  test_page_read_guard_decrements_pin_count_on_drop
  /\ test_page_write_guard_mutates_data_and_cleans_up_on_drop.
Proof. split; by vm_compute. Qed.

Lemma buffer_pool_tests :
  test_bpm_create_page_allocates_and_returns_write_guard
  /\ test_bpm_create_page_evicts_dirty_frame_and_flushes
  /\ test_evict_page_returns_error_when_pool_full
  /\ test_evict_page_evicts_clean_page_and_updates_page_table
  /\ test_evict_page_evicts_dirty_page_and_returns_data_to_flush
  /\ test_bpm_fetch_page_miss_loads_from_disk_then_hit_returns_cached_frame
  /\ test_bpm_fetch_page_cache_hit /\ test_bpm_fetch_page_write_cache_hit
  /\ test_bpm_fetch_page_cache_miss_with_free_frame.
Proof. do 8 (split; [by vm_compute|]). by vm_compute. Qed.

Lemma buffer_pool_eviction_tests :
  test_bpm_fetch_page_evicts_unpinned_frame_when_full
  /\ test_bpm_evicts_dirty_frame_and_writes_to_disk
  /\ test_bpm_fetch_page_returns_error_when_all_frames_pinned
  /\ test_bpm_create_page_evicts_frame_when_full
  /\ test_bpm_concurrent_cache_miss_prevents_phantom_fetch.
Proof. do 4 (split; [by vm_compute|]). by vm_compute. Qed.
