(* ===== verification/BufferPoolSpec.v ===== *)
(** The buffer pool, for one caller at a time: its invariant, what its pages
    hold, and what each part of a method does. *)
From stdpp Require Import gmap.
From Stdlib Require Import String.
From S2P Require Import Prelude.
From S2P Require Import Bytes.
From S2P Require Import RustStr.
From S2P Require Import Page.
From S2P Require Import Evictor.
From S2P Require Import FileSystem.
From S2P Require Import DiskManagerSpec.
From S2P Require Import DiskManagerProps.
From S2P Require Import PageStore.
From S2P Require Import Prog.
From S2P Require Import Frame.
From S2P Require Import Broadcast.
From S2P Require Import BufferPool.

(** Equal states, up to what is known of the fields. *)
Ltac same_state :=
  repeat match goal with s : BufferPoolManager _ _ _ _ |- _ => destruct s end;
  cbn in *; repeat match goal with m : PageProcessingMap _ |- _ => destruct m end; cbn in *; by subst.

(** Unfolds the accessors of the state. *)
Ltac bpm_cbn :=
  cbn [disk_manager channels evictor frames free_frames free_frames_state page_io_processing
       page_io_state page_table page_table_state fetches flushes
       set_disk set_channels set_evictor set_frames set_free set_free_state set_io set_io_state
       set_table set_table_state set_fetches set_flushes mutex_get mutex_set free_frames_mutex
       page_io_mutex page_table_mutex fst snd] in *.

(** * Guards held *)

Definition is_writer (g : PageGuard) : bool :=
  match g with PageWriteGuard _ => true | PageReadGuard _ => false end.
Definition guards_on (gs : list PageGuard) (i : nat) : list PageGuard :=
  filter (fun g => guard_frame g = i) gs.
Definition lock_of (l : list PageGuard) : RwState :=
  if existsb is_writer l then RwWriter else RwReaders (length l).
(** A writer is alone. *)
Definition compatible (l : list PageGuard) : Prop := existsb is_writer l = true -> length l = 1%nat.

Lemma guards_on_cons g gs i :
  guards_on (g :: gs) i = if decide (guard_frame g = i) then g :: guards_on gs i else guards_on gs i.
Proof. unfold guards_on. by rewrite filter_cons. Qed.
Lemma guards_on_same g gs : guards_on (g :: gs) (guard_frame g) = g :: guards_on gs (guard_frame g).
Proof. rewrite guards_on_cons. by rewrite decide_True. Qed.
Lemma guards_on_other g gs i : guard_frame g <> i -> guards_on (g :: gs) i = guards_on gs i.
Proof. intros. rewrite guards_on_cons. by rewrite decide_False. Qed.

Lemma guards_on_length gs i : 0 <= zlen (guards_on gs i) <= zlen gs.
Proof.
  split; [apply zlen_nonneg|]. unfold guards_on, zlen.
  pose proof (length_filter (fun g => guard_frame g = i) gs). lia.
Qed.

(** The mode of a new guard, against those there. *)
Definition admits (l : list PageGuard) (g : PageGuard) : Prop :=
  if is_writer g then l = [] else existsb is_writer l = false.
#[export] Instance admits_dec l g : Decision (admits l g).
Proof. unfold admits. destruct (is_writer g); apply _. Defined.

(** The lock a guard takes. *)
Definition guard_lock {E} (g : PageGuard) : Frame -> option (outcome E unit * Frame) :=
  match g with PageReadGuard _ => read_data | PageWriteGuard _ => write_data end.

Lemma guard_lock_admits {E} g l f :
  frame_lock f = lock_of l ->
  guard_lock (E := E) g f =
    if decide (admits l g) then Some (Ok tt, with_rw (lock_of (g :: l)) f) else None.
Proof.
  intros Hl. destruct g as [i|i]; unfold guard_lock, read_data, write_data, admits; simpl; rewrite Hl;
    unfold lock_of; simpl; case_decide as Ha; try done.
  - by rewrite Ha.
  - by destruct (existsb is_writer l).
  - by subst l.
  - destruct (existsb is_writer l); [done|]. by destruct l.
Qed.

Lemma admits_compatible g l : admits l g -> compatible (g :: l).
Proof. unfold admits, compatible. destruct g; simpl; [intros ->; done|by intros ->]. Qed.

(** The lock after a guard is dropped. *)
Lemma guard_release_lock g l f :
  compatible (g :: l) -> frame_lock f = lock_of (g :: l) ->
  guard_release g false f = with_rw (lock_of l) f.
Proof.
  unfold compatible, lock_of. intros Hc Hl.
  destruct g as [i|i]; simpl in *; unfold drop_read, drop_write; rewrite Hl.
  - destruct (existsb is_writer l); [by specialize (Hc eq_refl)|]. done.
  - specialize (Hc eq_refl). by destruct l.
Qed.

Section Spec.
Context {Ev C Tx Rx W : Type} `{EvictorLaws Ev, Broadcast C Tx Rx, PageStoreLaws W}.
#[local] Abbreviation Bpm := (BufferPoolManager Ev C Tx W).
#[local] Abbreviation bpmP := (prog Bpm BufferPoolError).
Variable show_io : IoError -> rstr.

(** * The invariant *)

(** [gs] are the guards held; [o] is a frame that a method is working on, which
    is neither free nor eligible. *)
Record pool_core (o : option nat) (gs : list PageGuard) (s : Bpm) : Prop := {
  pc_ev : ev_inv (evictor s);
  pc_cap : ev_capacity (evictor s) = length (frames s);
  pc_disk : ps_inv (disk_manager s);
  pc_few : zlen gs < 2 ^ 63;
  pc_frame : forall j f, frames s !! j = Some f ->
    frame_id f = j /\ zlen (frame_data f) = PAGE_SIZE
    /\ (o <> Some j -> frame_pins f = zlen (guards_on gs j) /\ frame_lock f = lock_of (guards_on gs j));
  pc_table : forall q j, page_table s !! q = Some j ->
    pid_ok q /\ (j < length (frames s))%nat
    /\ (o <> Some j -> forall f, frames s !! j = Some f -> frame_page_id f = Some q);
  pc_free : NoDup (free_frames s);
  pc_split : forall j, j ∈ free_frames s <->
    (j < length (frames s))%nat /\ o <> Some j /\ forall q, page_table s !! q <> Some j;
  pc_eligible : forall j, j ∈ ev_eligible (evictor s) <->
    o <> Some j /\ guards_on gs j = [] /\ exists q, page_table s !! q = Some j;
  pc_guards : forall g, g ∈ gs -> o <> Some (guard_frame g) /\ exists q, page_table s !! q = Some (guard_frame g);
  pc_compat : forall j, compatible (guards_on gs j);
  pc_loose : forall i, o = Some i -> (i < length (frames s))%nat;
  pc_fresh : forall j f, j ∈ free_frames s -> frames s !! j = Some f ->
    frame_data f = fill 0 PAGE_SIZE /\ frame_dirty f = false /\ frame_page_id f = None;
}.

(** No method is running. *)
Record quiet (s : Bpm) : Prop := {
  qu_free : free_frames_state s = Unlocked;
  qu_io : page_io_state s = Unlocked;
  qu_table : page_table_state s = Unlocked;
  qu_fetches : fetches (page_io_processing s) = ∅;
  qu_flushes : flushes (page_io_processing s) = ∅;
}.

Definition pool_inv (gs : list PageGuard) (s : Bpm) : Prop := pool_core None gs s /\ quiet s.

(** What the pages of [m] hold: the cached copy, which is on the disk as well
    unless it is dirty, or else the page on the disk. *)
Definition holds (s : Bpm) (p : PageId) (d : list Z) : Prop :=
  match page_table s !! p with
  | Some j => exists f, frames s !! j = Some f /\ frame_data f = d
                /\ (frame_dirty f = false -> ps_page (disk_manager s) p = Some d)
  | None => ps_page (disk_manager s) p = Some d
  end.
Definition contents (m : gmap PageId (list Z)) (s : Bpm) : Prop :=
  forall p d, m !! p = Some d -> pid_ok p /\ holds s p d.

(** ** Pages whose cached copy is not what the disk holds

    A page created in a used frame shows bytes that are on the disk for another
    page, and lapses to zeros when it is evicted clean.  What is known of a page
    is what it shows and, perhaps, what it can lapse to. *)
Definition Known : Type := list Z * option (list Z).
Definition settled (d : list Z) : Known := (d, Some d).

(** What an eviction of a clean copy leaves on the disk. *)
Definition backed (s : Bpm) (p : PageId) (k : Known) : Prop :=
  ps_page (disk_manager s) p = Some k.1 \/ forall d, k.2 = Some d -> ps_page (disk_manager s) p = Some d.

Definition shows (s : Bpm) (p : PageId) (k : Known) : Prop :=
  match page_table s !! p with
  | Some j => exists f, frames s !! j = Some f /\ frame_data f = k.1 /\ (frame_dirty f = false -> backed s p k)
  | None => backed s p k
  end.
Definition knows (m : gmap PageId Known) (s : Bpm) : Prop :=
  forall p k, m !! p = Some k -> pid_ok p /\ shows s p k.

(** The lapse that is known of a page. *)
Definition lapse (m : gmap PageId Known) (p : PageId) : option (list Z) := k ← m !! p; k.2.

(** A page read as [d], against what is known of it. *)
Definition fits_known (m : gmap PageId Known) (p : PageId) (d : list Z) : Prop :=
  forall k, m !! p = Some k -> d = k.1 \/ k.2 = Some d \/ k.2 = None.

Lemma backed_settled (s : Bpm) p d : backed s p (settled d) <-> ps_page (disk_manager s) p = Some d.
Proof. unfold backed, settled. cbn. split; [intros [?|Hd]; [done|by apply Hd]|by left]. Qed.

Lemma shows_settled (s : Bpm) p d : shows s p (settled d) <-> holds s p d.
Proof.
  unfold shows, holds. destruct (page_table s !! p) as [j|]; [|apply backed_settled].
  split; intros (f & ? & ? & Hc); exists f; split_and!; try done; intros Hd; by apply backed_settled, Hc.
Qed.

Lemma contents_knows m (s : Bpm) : contents m s <-> knows (settled <$> m) s.
Proof.
  split.
  - intros Hm p k. rewrite lookup_fmap_Some. intros (d & <- & Hd). destruct (Hm p d Hd).
    split; [done|]. by apply shows_settled.
  - intros Hm p d Hd. destruct (Hm p (settled d)) as [? Hs]; [by rewrite lookup_fmap, Hd|].
    split; [done|]. by apply shows_settled.
Qed.

(** ** What an eviction writes *)

(** The page that has to be written before a frame can be had: the victim's,
    when no frame is free and it is dirty. *)
Definition flush_due (s : Bpm) : option (PageId * list Z) :=
  match free_frames s, (ev_victim (E := BufferPoolError) (evictor s)).1 with
  | [], Ok (Some i) =>
      f ← frames s !! i; q ← frame_page_id f;
      if frame_dirty f then Some (q, frame_data f) else None
  | _, _ => None
  end.

(** The error of that write, on a disk that is then [w]. *)
Definition flush_error (s : Bpm) (w : W) : option (PageId * IoError) :=
  '(q, d) ← flush_due s;
  match ps_write q d w with (Err e, _) => Some (q, e) | _ => None end.

Lemma flush_due_ext (s s' : Bpm) :
  free_frames s' = free_frames s -> evictor s' = evictor s -> frames s' = frames s ->
  flush_due s' = flush_due s.
Proof. intros E1 E2 E3. unfold flush_due. by rewrite E1, E2, E3. Qed.

(** ** Order of the guards *)

Lemma guards_on_perm gs gs' i : gs ≡ₚ gs' -> guards_on gs i ≡ₚ guards_on gs' i.
Proof. intros Hp. unfold guards_on. by rewrite Hp. Qed.

Lemma lock_of_perm l l' : l ≡ₚ l' -> lock_of l = lock_of l'.
Proof.
  intros Hp. unfold lock_of. rewrite (Permutation_length Hp).
  assert (existsb is_writer l = existsb is_writer l') as ->; [|done].
  induction Hp; simpl; [done|congruence| |congruence]. destruct (is_writer x), (is_writer y); done.
Qed.

Lemma compatible_perm l l' : l ≡ₚ l' -> compatible l -> compatible l'.
Proof.
  intros Hp Hc. unfold compatible in *. rewrite <- (Permutation_length Hp). intros He. apply Hc.
  pose proof (lock_of_perm _ _ Hp) as Hl. unfold lock_of in Hl. rewrite He in Hl.
  by destruct (existsb is_writer l).
Qed.

Lemma pool_core_perm o gs gs' s : gs ≡ₚ gs' -> pool_core o gs s -> pool_core o gs' s.
Proof.
  intros Hp [I1 I2 I3 I4 I5 I6 I7 I8 I9 I10 I11 I12 I13].
  pose proof (guards_on_perm gs gs') as Hon. split; try done.
  - unfold zlen in *. by rewrite <- (Permutation_length Hp).
  - intros j f Hf. destruct (I5 j f Hf) as (? & ? & Hpl). split_and!; [done..|]. intros Hj.
    destruct (Hpl Hj) as [E1 E2]. rewrite E1, E2. split.
    + unfold zlen. by rewrite (Permutation_length (Hon j Hp)).
    + apply lock_of_perm. by apply Hon.
  - intros j. rewrite I9. specialize (Hon j Hp). split; intros (? & Hn & ?); split_and!; try done;
      rewrite Hn in Hon; [by apply Permutation_nil in Hon|symmetry in Hon; by apply Permutation_nil in Hon].
  - intros g Hg. apply I10. by rewrite Hp.
  - intros j. eapply compatible_perm; [by apply Hon|]. apply I11.
Qed.
End Spec.
