(* ===== verification/BufferPoolSteps.v ===== *)
(** What each part of a method of the buffer pool does when it runs alone. *)
From stdpp Require Import gmap.
From Stdlib Require Import String.
From S2P Require Import Prelude.
From S2P Require Import Bytes.
From S2P Require Import RustStr.
From S2P Require Import Page.
From S2P Require Import Evictor.
From S2P Require Import FileSystem.
From S2P Require Import DiskManagerSpec.
From S2P Require Import DiskManagerProps.
From S2P Require Import PageStore.
From S2P Require Import Prog.
From S2P Require Import Frame.
From S2P Require Import Broadcast.
From S2P Require Import BufferPool.
From S2P Require Import BufferPoolSpec.

Section Steps.
Context {Ev C Tx Rx W : Type} `{EvictorLaws Ev, BroadcastLaws C Tx Rx, PageStoreLaws W}.
#[local] Abbreviation Bpm := (BufferPoolManager Ev C Tx W).
#[local] Abbreviation bpmP := (prog Bpm BufferPoolError).

(** * Accesses *)

Lemma run_on_frame {E A} i f (m : stateM Frame E A) (s : Bpm) :
  frames s !! i = Some f ->
  run (on_frame i m) s = Some ((m f).1, set_frames (<[i := (m f).2]> (frames s)) s).
Proof. intros Hf. unfold on_frame. rewrite run_atomic, Hf. by destruct (m f). Qed.

(** On a frame that has just been changed. *)
Lemma set_frames_twice i f f' fs (s : Bpm) :
  set_frames (<[i := f']> (frames (set_frames (<[i := f]> fs) s))) (set_frames (<[i := f]> fs) s)
  = set_frames (<[i := f']> fs) s.
Proof. bpm_cbn. by rewrite list_insert_insert_eq. Qed.

Lemma run_on_frame_again {E A} i f fs (m : stateM Frame E A) (s : Bpm) :
  (i < length fs)%nat ->
  run (on_frame i m) (set_frames (<[i := f]> fs) s) = Some ((m f).1, set_frames (<[i := (m f).2]> fs) s).
Proof. intros. by rewrite (run_on_frame i f), set_frames_twice by (by apply list_lookup_insert_eq). Qed.

(** An access that only reads. *)
Lemma run_frame_get {E A} i f (g : Frame -> A) (s : Bpm) :
  frames s !! i = Some f ->
  run (on_frame (E := E) i (sget (fun f => Ok (g f)))) s = Some (Ok (g f), s).
Proof. intros Hf. rewrite (run_on_frame i f) by done. cbn. rewrite list_insert_id by done. by same_state. Qed.

Lemma run_frame_lock {E A} i f (m : Frame -> option (outcome E A * Frame)) (s : Bpm) :
  frames s !! i = Some f ->
  run (frame_lock_on i m) s =
  match m f with Some (r, f') => Some (r, set_frames (<[i := f']> (frames s)) s) | None => None end.
Proof. intros Hf. unfold frame_lock_on. simpl. rewrite Hf. by destruct (m f) as [[r f']|]. Qed.

Lemma run_on_evictor {E A} (m : stateM Ev E A) (s : Bpm) :
  run (on_evictor m) s = Some ((m (evictor s)).1, set_evictor (m (evictor s)).2 s).
Proof. unfold on_evictor, on_part. rewrite run_atomic. by destruct (m (evictor s)). Qed.

Lemma run_on_disk {A} (m : stateM W IoError A) (s : Bpm) :
  run (on_disk m) s = Some ((m (disk_manager s)).1, set_disk (m (disk_manager s)).2 s).
Proof. unfold on_disk, on_part. rewrite run_atomic. by destruct (m (disk_manager s)). Qed.

Lemma run_on_channels {E A} (m : C -> A * C) (s : Bpm) :
  run (on_channels (E := E) m) s = Some (Ok (m (channels s)).1, set_channels (m (channels s)).2 s).
Proof. unfold on_channels. rewrite run_atomic. by destruct (m (channels s)). Qed.

(** * Pins *)

Lemma run_pin_frame {E} i f (s : Bpm) :
  frames s !! i = Some f -> ev_inv (evictor s) -> ev_capacity (evictor s) = length (frames s) ->
  0 <= frame_pins f < 2 ^ 63 ->
  exists ev',
    run (pin_frame (E := E) i) s =
      Some (Ok tt, set_evictor ev' (set_frames (<[i := with_pins (frame_pins f + 1) f]> (frames s)) s))
    /\ ev_inv ev' /\ ev_capacity ev' = length (frames s)
    /\ ev_eligible ev' = if decide (frame_pins f = 0) then ev_eligible (evictor s) ∖ {[i]}
                         else ev_eligible (evictor s).
Proof.
  intros Hf Hev Hcap Hp. unfold pin_frame. rewrite run_bind, (run_on_frame i f) by done. cbn.
  rewrite wrap_small by lia. destruct (Z.eqb_spec (frame_pins f) 0) as [E0|E0].
  - rewrite run_on_evictor. cbn. rewrite decide_True by done.
    destruct (ev_remove_law E (evictor s) i Hev) as (ev' & -> & ? & ? & ?).
    { rewrite Hcap. by apply lookup_lt_Some in Hf. }
    exists ev'. split; [done|]. split_and!; congruence.
  - exists (evictor s). rewrite decide_False by done. split_and!; try done.
Qed.

(** * Eviction *)

Lemma frame_of_lock (s : Bpm) i f :
  frames s !! i = Some f -> frame_lock f = RwReaders 0 ->
  set_frames (<[i := f]> (frames s)) s = s.
Proof. intros Hf _. rewrite list_insert_id by done. by same_state. Qed.

(** A page whose frame is eligible. *)
Lemma run_evict_page gs (s : Bpm) :
  pool_core None gs s ->
  exists ev', ev_inv ev' /\ ev_capacity ev' = length (frames s) /\
  ((ev_eligible (evictor s) = ∅ /\ ev_eligible ev' = ∅
    /\ run evict_page s = Some (Err BufferFull, set_evictor ev' s))
   \/ exists i f q, i ∈ ev_eligible (evictor s) /\ ev_eligible ev' = ev_eligible (evictor s) ∖ {[i]}
      /\ frames s !! i = Some f /\ page_table s !! q = Some i /\ frame_page_id f = Some q
      /\ frame_pins f = 0 /\ frame_lock f = RwReaders 0
      /\ (free_frames s = [] -> flush_due s = if frame_dirty f then Some (q, frame_data f) else None)
      /\ run evict_page s =
         Some (Ok (i, if frame_dirty f then Some (q, frame_data f) else None),
               set_table (delete q (page_table s)) (set_evictor ev' s))).
Proof.
  intros [I1 I2 I3 I4 I5 I6 I7 I8 I9 I10 I11 I12 I13].
  destruct (ev_victim_law BufferPoolError (evictor s) I1) as (v & ev' & Hv & Hi & Hc & Hel).
  exists ev'. split; [done|]. split; [congruence|]. unfold evict_page.
  rewrite run_bind, run_on_evictor, Hv. cbn [fst snd].
  destruct v as [i|]; [|left; by destruct Hel]. right.
  destruct Hel as [Hin Hel]. apply I9 in Hin as Hin'. destruct Hin' as (_ & Hg & q & Hq).
  destruct (I6 q i Hq) as (_ & Hlt & Hpg). apply lookup_lt_is_Some_2 in Hlt as [f Hf].
  specialize (Hpg ltac:(done) f Hf).
  destruct (I5 i f Hf) as (_ & _ & Hpl). destruct (Hpl ltac:(done)) as [Hpins Hlock].
  rewrite Hg in Hpins, Hlock. exists i, f, q. split_and!; try done.
  { intros Hfree. unfold flush_due. rewrite Hfree, Hv. cbn [fst]. rewrite Hf. cbn [mbind option_bind]. by rewrite Hpg. }
  set (s1 := set_evictor ev' s). assert (frames s1 !! i = Some f) as Hf1 by done.
  rewrite run_bind. unfold get_page_id. rewrite (run_frame_get i f) by done. cbn beta iota.
  rewrite Hpg. rewrite run_bind, run_atomic. cbn [unwrap_opt slift].
  rewrite run_bind, run_atomic. cbn [smodify].
  set (s2 := set_table (delete q (page_table s1)) s1). assert (frames s2 !! i = Some f) as Hf2 by done.
  rewrite run_bind. unfold is_dirty. rewrite (run_frame_get i f) by done. cbn beta iota.
  destruct (frame_dirty f); [|done].
  rewrite run_bind, (run_frame_lock i f) by done. unfold read_data, rw_read. rewrite Hlock. cbn beta iota.
  change (lock_of []) with (RwReaders 0) in *. cbn beta iota.
  set (f3 := with_rw (RwReaders 1) f). set (s3 := set_frames (<[i:=f3]> (frames s2)) s2).
  assert (i < length (frames s))%nat as Hlt by (by apply lookup_lt_Some in Hf).
  assert (frames s3 !! i = Some f3) as Hf3 by (by apply list_lookup_insert_eq).
  rewrite run_bind, run_finally, (run_frame_get i f3) by done. cbn beta iota.
  unfold release_on. rewrite Hf3. set (s4 := set_frames _ s3).
  assert (s4 = s2) as ->.
  { unfold s4, s3, f3, drop_read. bpm_cbn. rewrite list_insert_insert_eq.
    assert (with_rw (rw_read_drop (RwReaders 1)) (with_rw (RwReaders 1) f) = f) as E.
    { destruct f; cbn in *. by subst. }
    cbn in E. cbn. rewrite E, list_insert_id by done. done. }
  rewrite run_bind, (run_frame_get i f) by done. cbn beta iota. rewrite Hpg.
  rewrite run_bind, run_atomic. done.
Qed.

(** * The processing map *)

(** The pages to be flushed by one call. *)
Definition flush_page (flush : option (PageId * list Z)) : option PageId := fst <$> flush.

Lemma run_announce_flush {E} i f q d (s : Bpm) :
  frames s !! i = Some f -> flushes (page_io_processing s) = ∅ ->
  let flush := if frame_dirty f then Some (q, d) else None in
  exists c' fl, run (announce_flush (E := E) i flush) s = Some (Ok tt, set_channels c' (set_flushes fl s))
    /\ (forall q', is_Some (fl !! q') <-> flush_page flush = Some q')
    /\ forall q' t, fl !! q' = Some t -> bc_live c' t.
Proof.
  intros Hf Hfl flush. unfold announce_flush. rewrite run_bind. unfold is_dirty.
  rewrite (run_frame_get i f) by done. cbn beta iota. subst flush. destruct (frame_dirty f).
  - rewrite run_bind, run_atomic. cbn [slift unwrap_opt]. pose proof (bc_channel_law (channels s)) as Hl.
    rewrite run_bind, run_on_channels. destruct (bc_channel (channels s)) as [[tx rx] c1]. cbn [fst snd] in *.
    pose proof (bc_clone_law tx c1 Hl) as Hl'. pose proof (bc_clone_keeps tx tx c1 Hl) as [_ Hne].
    rewrite run_bind, run_on_channels. bpm_cbn. destruct (bc_clone tx c1) as [tx' c2]. cbn [fst snd] in *.
    rewrite run_bind, run_atomic. cbn [smodify]. bpm_cbn. rewrite Hfl, lookup_empty.
    rewrite run_on_channels. bpm_cbn. eexists _, _. split; [reflexivity|].
    split; intros q'; cbn.
    + split; [|intros [= <-]; rewrite lookup_insert_eq; by eexists].
      intros [t [[<- _]|[_ Ht]]%lookup_insert_Some]; [done|by rewrite lookup_empty in Ht].
    + intros t [[_ <-]|[_ Ht]]%lookup_insert_Some; [by apply bc_drop_law|by rewrite lookup_empty in Ht].
  - exists (channels s), ∅. split; [|split; intros q'; rewrite lookup_empty; [by split; [intros [? ?]|]|done]].
    rewrite run_ret. f_equal. f_equal. same_state.
Qed.

Ltac run_finish :=
  intros Hu; unfold finish; rewrite run_with_lock by done; bpm_cbn;
  rewrite run_bind, run_atomic; cbn [remove_flush remove_fetch]; bpm_cbn;
  match goal with |- context [match ?m !! ?p with Some _ => _ | None => _ end] => destruct (m !! p) as [tx|] end;
  [rewrite run_on_channels|rewrite run_ret]; eexists; f_equal; f_equal; cbn; rewrite <- Hu; reflexivity.

Lemma run_finish_flush p (s : Bpm) :
  page_io_state s = Unlocked ->
  exists c', run (finish remove_flush p) s =
    Some (Ok tt, set_channels c' (set_flushes (delete p (flushes (page_io_processing s))) s)).
Proof. run_finish. Qed.

Lemma run_finish_fetch p (s : Bpm) :
  page_io_state s = Unlocked ->
  exists c', run (finish remove_fetch p) s =
    Some (Ok tt, set_channels c' (set_fetches (delete p (fetches (page_io_processing s))) s)).
Proof. run_finish. Qed.

Lemma run_announce_fetch p (s : Bpm) :
  page_io_state s = Unlocked -> fetches (page_io_processing s) = ∅ ->
  exists c' tx tx', run (announce_fetch p) s = Some (Ok tx, set_channels c' (set_fetches {[p := tx']} s))
    /\ bc_live c' tx' /\ tx' <> tx /\ forall t, bc_live (channels s) t -> t <> tx'.
Proof.
  intros Hu Hf. pose proof (bc_channel_law (channels s)) as Hlive.
  assert (forall t, bc_live (channels s) t -> t <> (bc_clone (bc_channel (channels s)).1.1 (bc_channel (channels s)).2).1)
    as Hnew.
  { intros t Ht Heq. apply bc_channel_keeps in Ht as [Ht _].
    apply (bc_clone_keeps (bc_channel (channels s)).1.1) in Ht as [_ Ht]. by apply Ht. }
  unfold announce_fetch. rewrite run_with_lock by done. bpm_cbn.
  rewrite run_bind, run_on_channels. bpm_cbn. destruct (bc_channel (channels s)) as [[tx rx] c1]. bpm_cbn.
  pose proof (bc_clone_keeps tx tx c1 Hlive) as [_ Hne]. apply bc_clone_law in Hlive.
  rewrite run_bind, run_on_channels. bpm_cbn. destruct (bc_clone tx c1) as [tx' c2]. bpm_cbn.
  rewrite run_bind, run_atomic. cbn [smodify]. bpm_cbn. rewrite Hf, lookup_empty, run_ret.
  exists c2, tx, tx'. split; [|done]. f_equal. f_equal. cbn. by rewrite <- Hu.
Qed.

(** Nothing to wait for. *)
Lemma run_subscribe_none {E} which p (s : Bpm) :
  page_io_state s = Unlocked -> which (page_io_processing s) !! p = None ->
  run (subscribe_to (E := E) which p) s = Some (Ok None, s).
Proof.
  intros Hu Hw. unfold subscribe_to. rewrite run_with_lock by done. bpm_cbn.
  rewrite run_bind, run_atomic. cbn. rewrite Hw, run_ret. f_equal. f_equal. same_state.
Qed.

Lemma run_no_fetch p (s : Bpm) : quiet s -> run (wait_for_page_fetch p) s = Some (Ok tt, s).
Proof.
  intros [_ Hu _ Hf _]. unfold wait_for_page_fetch.
  by rewrite run_bind, run_subscribe_none by (done || by rewrite Hf, lookup_empty).
Qed.

(** ** The free list *)

Lemma run_pop_free (s : Bpm) :
  free_frames_state s = Unlocked ->
  run (with_lock free_frames_mutex (atomic pop_free)) s =
  Some (Ok (last (free_frames s)), set_free (take (length (free_frames s) - 1) (free_frames s)) s).
Proof.
  intros Hu. rewrite run_with_lock by done. bpm_cbn. rewrite run_atomic. unfold pop_free. bpm_cbn.
  f_equal. f_equal. cbn. by rewrite <- Hu.
Qed.
End Steps.
