(* ===== verification/BufferPoolCore.v ===== *)
(** How the invariant of the buffer pool is kept: a frame taken out of the pool
    to work on, the frame given to a page and to a guard, a guard dropped. *)
From stdpp Require Import gmap.
From S2P Require Import Prelude.
From S2P Require Import Bytes.
From S2P Require Import Page.
From S2P Require Import Evictor.
From S2P Require Import DiskManagerSpec.
From S2P Require Import DiskManagerProps.
From S2P Require Import PageStore.
From S2P Require Import Prog.
From S2P Require Import Frame.
From S2P Require Import Broadcast.
From S2P Require Import BufferPool.
From S2P Require Import BufferPoolSpec.

Section Core.
Context {Ev C Tx Rx W : Type} `{EvictorLaws Ev, Broadcast C Tx Rx, PageStoreLaws W}.
#[local] Abbreviation Bpm := (BufferPoolManager Ev C Tx W).
Implicit Types (s : Bpm) (gs : list PageGuard).

(** The other fields do not matter. *)
Lemma pool_core_ext o gs s s' :
  evictor s' = evictor s -> frames s' = frames s -> disk_manager s' = disk_manager s ->
  page_table s' = page_table s -> free_frames s' = free_frames s ->
  pool_core o gs s -> pool_core o gs s'.
Proof.
  intros E1 E2 E3 E4 E5 [I1 I2 I3 I4 I5 I6 I7 I8 I9 I10 I11 I12 I13].
  split; rewrite ?E1, ?E2, ?E3, ?E4, ?E5; try done.
Qed.

(** * Taking a frame *)

(** Two pages never share a frame. *)
Lemma table_inj o gs s p q i :
  pool_core o gs s -> o <> Some i ->
  page_table s !! p = Some i -> page_table s !! q = Some i -> p = q.
Proof.
  intros I Ho Hp Hq. destruct (pc_table _ _ _ I _ _ Hp) as (_ & Hlt & Hp').
  destruct (pc_table _ _ _ I _ _ Hq) as (_ & _ & Hq').
  apply lookup_lt_is_Some_2 in Hlt as [f Hf]. specialize (Hp' Ho f Hf). specialize (Hq' Ho f Hf). congruence.
Qed.

Lemma no_guards_loose gs s i : pool_core (Some i) gs s -> guards_on gs i = [].
Proof.
  intros I. destruct (guards_on gs i) as [|g l] eqn:E; [done|].
  assert (g ∈ guards_on gs i) as Hg by (rewrite E; apply elem_of_cons; by left).
  apply list_elem_of_filter in Hg as [Hi Hg]. destruct (pc_guards _ _ _ I g Hg) as [Hn _]. congruence.
Qed.

Lemma core_free gs s fl i :
  pool_core None gs s -> free_frames s = fl ++ [i] ->
  pool_core (Some i) gs (set_free fl s) /\ forall q, page_table s !! q <> Some i.
Proof.
  intros [I1 I2 I3 I4 I5 I6 I7 I8 I9 I10 I11 I12 I13] Hfl.
  assert (i ∈ free_frames s) as Hi by (rewrite Hfl, elem_of_app, list_elem_of_singleton; by right).
  apply I8 in Hi as Hi'. destruct Hi' as (Hlt & _ & Hno). split; [|done].
  assert (forall j, j ∈ free_frames s <-> j ∈ fl \/ j = i) as Hfree
    by (intros j; by rewrite Hfl, elem_of_app, list_elem_of_singleton).
  assert (i ∉ fl) as Hni.
  { rewrite Hfl in I7. apply NoDup_app in I7 as (_ & Hd & _). intros Hin.
    apply (Hd _ Hin). by apply list_elem_of_singleton. }
  split; cbn; try done.
  - intros j f Hf. destruct (I5 j f Hf) as (? & ? & ?). split_and!; try done. naive_solver.
  - intros q j Hq. destruct (I6 q j Hq) as (? & ? & ?). split_and!; try done. naive_solver.
  - rewrite Hfl in I7. by apply NoDup_app in I7 as (? & _ & _).
  - intros j. split.
    + intros Hj. destruct (proj1 (I8 j)) as (? & _ & ?); [apply Hfree; by left|].
      split_and!; try done. intros [= ->]. done.
    + intros (Hj & Hne & Hn). destruct (proj1 (Hfree j)) as [?|E]; [by apply I8|done|congruence].
  - intros j. rewrite I9. split; [|naive_solver]. intros (_ & Hg & q & Hq).
    split_and!; [|done|by exists q]. intros [= ->]. by apply (Hno q).
  - intros g Hg. destruct (I10 g Hg) as (_ & q & Hq). split; [|by exists q]. intros [= E].
    apply (Hno q). congruence.
  - by intros j [= <-].
  - intros j f Hj. apply I13, Hfree. by left.
Qed.

Lemma core_victim gs s i q ev' :
  pool_core None gs s -> i ∈ ev_eligible (evictor s) -> page_table s !! q = Some i ->
  ev_inv ev' -> ev_capacity ev' = length (frames s) -> ev_eligible ev' = ev_eligible (evictor s) ∖ {[i]} ->
  pool_core (Some i) gs (set_table (delete q (page_table s)) (set_evictor ev' s))
  /\ forall q', delete q (page_table s) !! q' <> Some i.
Proof.
  intros I Hi Hq Hev Hcap Hel. pose proof I as [I1 I2 I3 I4 I5 I6 I7 I8 I9 I10 I11 I12 I13].
  destruct (proj1 (I9 i) Hi) as (_ & Hgi & _).
  assert (forall q', delete q (page_table s) !! q' <> Some i) as Hno.
  { intros q' [Hne Hq']%lookup_delete_Some. apply Hne. by apply (table_inj None gs s q q' i I). }
  assert (forall q' j, j <> i -> delete q (page_table s) !! q' = Some j <-> page_table s !! q' = Some j) as Hsame.
  { intros q' j Hj. rewrite lookup_delete_Some. split; [by intros [_ ?]|]. intros Hq'.
    split; [|done]. intros ->. congruence. }
  split; [|done]. split; cbn; try done.
  - intros j f Hf. destruct (I5 j f Hf) as (? & ? & ?). split_and!; try done. naive_solver.
  - intros q' j [_ Hq']%lookup_delete_Some. destruct (I6 q' j Hq') as (? & ? & ?). split_and!; try done. naive_solver.
  - intros j. rewrite I8. split.
    + intros (Hj & _ & Hn). split_and!; [done| |].
      * intros [= ->]. by apply (Hn q).
      * intros q' [_ Hq']%lookup_delete_Some. by apply (Hn q').
    + intros (Hj & Hne & Hn). split_and!; [done..|]. intros q' Hq'. apply (Hn q'). apply Hsame; congruence.
  - intros j. rewrite Hel, elem_of_difference, elem_of_singleton, I9. split.
    + intros ((_ & Hg & q' & Hq') & Hne). split_and!; [congruence|done|]. exists q'. by apply Hsame.
    + intros (Hne & Hg & q' & Hq'). assert (j <> i) as Hji by congruence.
      split; [|done]. split_and!; [done|done|]. exists q'. by apply Hsame in Hq'.
  - intros g Hg. destruct (I10 g Hg) as (_ & q' & Hq').
    assert (guard_frame g <> i) as Hgne.
    { intros E. assert (g ∈ guards_on gs i) as Hin by (by apply list_elem_of_filter). by rewrite Hgi in Hin; inversion Hin. }
    split; [congruence|]. exists q'. by apply Hsame.
  - intros j [= <-]. by destruct (I6 q i Hq) as (_ & ? & _).
Qed.

(** * Working on it *)

Lemma core_step i gs s s' f' :
  pool_core (Some i) gs s ->
  ev_inv (evictor s') -> ev_capacity (evictor s') = length (frames s) ->
  ev_eligible (evictor s') = ev_eligible (evictor s) ->
  ps_inv (disk_manager s') -> free_frames s' = free_frames s ->
  frames s' = <[i := f']> (frames s) -> frame_id f' = i -> zlen (frame_data f') = PAGE_SIZE ->
  (page_table s' = page_table s
   \/ exists p, pid_ok p /\ page_table s !! p = None /\ page_table s' = <[p := i]> (page_table s)) ->
  pool_core (Some i) gs s'.
Proof.
  intros [I1 I2 I3 I4 I5 I6 I7 I8 I9 I10 I11 I12 I13] Hev Hcap Hel Hps Hfree Hfr Hid Hl Ht.
  assert (forall q j, j <> i -> page_table s' !! q = Some j <-> page_table s !! q = Some j) as Hsame.
  { intros q j Hj. destruct Ht as [->|(p & _ & Hp & ->)]; [done|].
    rewrite lookup_insert_Some. split; [by intros [[_ ?]|[_ ?]]|]. intros Hq.
    right. split; [|done]. intros ->. congruence. }
  assert (forall j, j <> i -> frames s' !! j = frames s !! j) as Hfs
    by (intros; rewrite Hfr; by apply list_lookup_insert_ne).
  assert (length (frames s') = length (frames s)) as Hlen by (by rewrite Hfr, length_insert).
  split; try done; try congruence.
  - intros j f Hf. destruct (decide (j = i)) as [->|Hj].
    + rewrite Hfr, list_lookup_insert_eq in Hf by (by apply I12). injection Hf as <-. split_and!; done.
    + rewrite Hfs in Hf by done. apply (I5 j f Hf).
  - intros q j Hq. rewrite Hlen. destruct (decide (j = i)) as [->|Hj].
    + split_and!; [|by apply I12|done]. destruct Ht as [E|(p & Hp & _ & E)]; rewrite E in Hq.
      * apply (I6 q i Hq).
      * apply lookup_insert_Some in Hq as [[<- _]|[_ Hq]]; [done|apply (I6 q i Hq)].
    + apply Hsame in Hq; [|done]. destruct (I6 q j Hq) as (? & ? & ?). rewrite Hfs by done. done.
  - intros j. rewrite Hfree, I8, Hlen. split; intros (? & Hne & Hn); split_and!; try done;
      intros q Hq; apply (Hn q); apply Hsame; congruence.
  - intros j. rewrite Hel, I9. split; intros (Hne & ? & q & Hq); split_and!; try done; exists q;
      apply Hsame; congruence.
  - intros g Hg. destruct (I10 g Hg) as (Hne & q & Hq). split; [done|]. exists q. apply Hsame; congruence.
  - intros j Hj. rewrite Hlen. by apply I12.
  - intros j f Hj. rewrite Hfree in Hj. destruct (proj1 (I8 j) Hj) as (_ & Hne & _).
    rewrite Hfs by congruence. by apply I13.
Qed.

(** The frame done with, under a guard. *)
Lemma core_close i gs s p f g :
  pool_core (Some i) gs s -> page_table s !! p = Some i -> (forall q, page_table s !! q = Some i -> q = p) ->
  frames s !! i = Some f -> frame_page_id f = Some p -> frame_pins f = 1 ->
  frame_lock f = lock_of [g] -> guard_frame g = i -> zlen gs + 1 < 2 ^ 63 ->
  pool_core None (g :: gs) s.
Proof.
  intros I Hp Hu Hf Hpg Hpins Hlock Hg Hfew. pose proof (no_guards_loose _ _ _ I) as Hnone.
  destruct I as [I1 I2 I3 I4 I5 I6 I7 I8 I9 I10 I11 I12 I13].
  assert (guards_on (g :: gs) i = [g]) as Hone by (rewrite guards_on_cons, decide_True by done; by rewrite Hnone).
  assert (forall j, j <> i -> guards_on (g :: gs) j = guards_on gs j) as Hoth
    by (intros; apply guards_on_other; congruence).
  split; try done.
  - rewrite zlen_cons. lia.
  - intros j f' Hf'. destruct (I5 j f' Hf') as (? & ? & Hpl). split_and!; [done..|]. intros _.
    destruct (decide (j = i)) as [->|Hj]; [|rewrite Hoth by done; apply Hpl; congruence].
    rewrite Hf in Hf'. injection Hf' as <-. rewrite Hone. done.
  - intros q j Hq. destruct (I6 q j Hq) as (? & ? & Hpl). split_and!; [done..|]. intros _ f' Hf'.
    destruct (decide (j = i)) as [->|Hj]; [|apply Hpl; congruence].
    rewrite (Hu q Hq). congruence.
  - intros j. rewrite I8. split; intros (? & ? & Hn); split_and!; try done. intros [= <-]. by apply (Hn p).
  - intros j. rewrite I9. destruct (decide (j = i)) as [->|Hj].
    + rewrite Hone. split; [by intros [? _]|by intros (_ & ? & _)].
    + rewrite Hoth by done. split; intros (? & ?); split; try done. congruence.
  - intros g' [->|Hg']%elem_of_cons; [split; [done|]; exists p; congruence|].
    destruct (I10 g' Hg') as [_ ?]. done.
  - intros j. destruct (decide (j = i)) as [->|Hj]; [rewrite Hone; unfold compatible; done|].
    rewrite Hoth by done. apply I11.
Qed.

(** * Guards on a cached page *)

(** The frame of a new guard. *)
Definition guarded (g : PageGuard) (gs : list PageGuard) (f : Frame) : Frame :=
  with_rw (lock_of (g :: guards_on gs (guard_frame g))) (with_pins (frame_pins f + 1) f).

Lemma core_hit gs s p f g ev' :
  pool_core None gs s -> page_table s !! p = Some (guard_frame g) ->
  frames s !! guard_frame g = Some f -> admits (guards_on gs (guard_frame g)) g ->
  ev_inv ev' -> ev_capacity ev' = length (frames s) ->
  ev_eligible ev' = (if decide (frame_pins f = 0) then ev_eligible (evictor s) ∖ {[guard_frame g]}
                     else ev_eligible (evictor s)) ->
  zlen gs + 1 < 2 ^ 63 ->
  pool_core None (g :: gs) (set_evictor ev' (set_frames (<[guard_frame g := guarded g gs f]> (frames s)) s)).
Proof.
  intros [I1 I2 I3 I4 I5 I6 I7 I8 I9 I10 I11 I12 I13] Hp Hf Ha Hev Hcap Hel Hfew. set (i := guard_frame g) in *.
  destruct (I5 i f Hf) as (Hid & Hl & Hpl). destruct (Hpl ltac:(done)) as [Hpins Hlock].
  assert (guards_on (g :: gs) i = g :: guards_on gs i) as Hone by apply guards_on_same.
  assert (forall j, j <> i -> guards_on (g :: gs) j = guards_on gs j) as Hoth
    by (intros j Hj; apply guards_on_other; by apply not_eq_sym).
  assert (i < length (frames s))%nat as Hlt by (by apply lookup_lt_Some in Hf).
  split; bpm_cbn; rewrite ?length_insert; try done.
  - rewrite zlen_cons. lia.
  - intros j f' Hf'. destruct (decide (j = i)) as [->|Hj].
    + rewrite list_lookup_insert_eq in Hf' by done. injection Hf' as <-.
      split_and!; [done..|]. intros _. rewrite Hone. cbn. rewrite zlen_cons. split; [lia|done].
    + rewrite list_lookup_insert_ne in Hf' by done. rewrite Hoth by done. by apply I5.
  - intros q j Hq. destruct (I6 q j Hq) as (? & ? & Hpl'). split_and!; [done..|]. intros _ f' Hf'.
    destruct (decide (j = i)) as [->|Hj].
    + rewrite list_lookup_insert_eq in Hf' by done. injection Hf' as <-. exact (Hpl' ltac:(done) f Hf).
    + rewrite list_lookup_insert_ne in Hf' by done. by apply Hpl'.
  - intros j. rewrite Hel. destruct (decide (j = i)) as [->|Hj].
    + rewrite Hone. split; [|by intros (_ & ? & _)]. case_decide as Hz; [set_solver|].
      rewrite I9. intros (_ & Hn & _). by rewrite Hn in Hpins.
    + rewrite Hoth by done. rewrite <- I9. case_decide; set_solver.
  - intros g' [->|Hg']%elem_of_cons; [split; [done|]; by exists p|]. by apply I10.
  - intros j. destruct (decide (j = i)) as [->|Hj]; [rewrite Hone; by apply admits_compatible|].
    rewrite Hoth by done. apply I11.
  - intros j f' Hj Hf'. destruct (decide (j = i)) as [->|Hne].
    + rewrite list_lookup_insert_eq in Hf' by done. injection Hf' as <-. exact (I13 i f Hj Hf).
    + rewrite list_lookup_insert_ne in Hf' by done. by eapply I13.
Qed.

(** The frame of a guard that is dropped. *)
Definition unguarded (g : PageGuard) (gs : list PageGuard) (f : Frame) : Frame :=
  with_rw (lock_of (guards_on gs (guard_frame g))) (with_pins (frame_pins f - 1) f).

Lemma core_drop gs s f g ev' :
  pool_core None (g :: gs) s -> frames s !! guard_frame g = Some f ->
  ev_inv ev' -> ev_capacity ev' = length (frames s) ->
  ev_eligible ev' = (if decide (frame_pins f = 1) then {[guard_frame g]} ∪ ev_eligible (evictor s)
                     else ev_eligible (evictor s)) ->
  pool_core None gs (set_evictor ev' (set_frames (<[guard_frame g := unguarded g gs f]> (frames s)) s)).
Proof.
  intros [I1 I2 I3 I4 I5 I6 I7 I8 I9 I10 I11 I12 I13] Hf Hev Hcap Hel. set (i := guard_frame g) in *.
  destruct (I5 i f Hf) as (Hid & Hl & Hpl). destruct (Hpl ltac:(done)) as [Hpins Hlock].
  assert (guards_on (g :: gs) i = g :: guards_on gs i) as Hone by apply guards_on_same.
  assert (forall j, j <> i -> guards_on (g :: gs) j = guards_on gs j) as Hoth
    by (intros j Hj; apply guards_on_other; by apply not_eq_sym).
  assert (i < length (frames s))%nat as Hlt by (by apply lookup_lt_Some in Hf).
  rewrite zlen_cons in I4. pose proof (zlen_nonneg gs).
  rewrite Hone, zlen_cons in Hpins.
  split; bpm_cbn; rewrite ?length_insert; try done.
  - lia.
  - intros j f' Hf'. destruct (decide (j = i)) as [->|Hj].
    + rewrite list_lookup_insert_eq in Hf' by done. injection Hf' as <-.
      split_and!; [done..|]. intros _. cbn. split; [lia|done].
    + rewrite list_lookup_insert_ne in Hf' by done. rewrite <- Hoth by done. by apply I5.
  - intros q j Hq. destruct (I6 q j Hq) as (? & ? & Hpl'). split_and!; [done..|]. intros _ f' Hf'.
    destruct (decide (j = i)) as [->|Hj].
    + rewrite list_lookup_insert_eq in Hf' by done. injection Hf' as <-. exact (Hpl' ltac:(done) f Hf).
    + rewrite list_lookup_insert_ne in Hf' by done. by apply Hpl'.
  - intros j. rewrite Hel. destruct (decide (j = i)) as [->|Hj].
    + destruct (I10 g) as (_ & q & Hq); [apply elem_of_cons; by left|].
      case_decide as Hz.
      * split; [|set_solver]. intros _. split_and!; [done| |by exists q].
        apply zlen_0_nil. lia.
      * rewrite I9, Hone. split; [by intros (_ & ? & _)|]. intros (_ & Hn & _). rewrite Hn in Hpins.
        rewrite zlen_nil in Hpins. exfalso. lia.
    + rewrite <- Hoth by done. rewrite <- I9. case_decide; set_solver.
  - intros g' Hg'. apply I10. apply elem_of_cons. by right.
  - intros j. destruct (decide (j = i)) as [->|Hj]; [|rewrite <- Hoth by done; apply I11].
    specialize (I11 i). rewrite Hone in I11. unfold compatible in *. cbn in I11. intros He.
    rewrite He, orb_true_r in I11. specialize (I11 eq_refl). by destruct (guards_on gs i).
  - intros j f' Hj Hf'. destruct (decide (j = i)) as [->|Hne].
    + rewrite list_lookup_insert_eq in Hf' by done. injection Hf' as <-. exact (I13 i f Hj Hf).
    + rewrite list_lookup_insert_ne in Hf' by done. by eapply I13.
Qed.
End Core.
