(* ===== verification/BufferPoolFetch.v ===== *)
(** Fetching and creating pages, alone: the methods of the buffer pool from one
    quiet state to the next. *)
From stdpp Require Import gmap.
From Stdlib Require Import String.
From S2P Require Import Prelude.
From S2P Require Import Bytes.
From S2P Require Import RustStr.
From S2P Require Import Page.
From S2P Require Import Evictor.
From S2P Require Import FileSystem.
From S2P Require Import DiskManagerSpec.
From S2P Require Import DiskManagerProps.
From S2P Require Import PageStore.
From S2P Require Import Prog.
From S2P Require Import Frame.
From S2P Require Import Broadcast.
From S2P Require Import BufferPool.
From S2P Require Import BufferPoolSpec.
From S2P Require Import BufferPoolSteps.
From S2P Require Import BufferPoolCore.

Section Fetch.
Context {Ev C Tx Rx W : Type} `{EvictorLaws Ev, BroadcastLaws C Tx Rx, PageStoreLaws W}.
#[local] Abbreviation Bpm := (BufferPoolManager Ev C Tx W).
#[local] Abbreviation bpmP := (prog Bpm BufferPoolError).
Variable show_io : IoError -> rstr.
Implicit Types (s : Bpm) (gs : list PageGuard) (m : gmap PageId Known).

(** * A frame for a page *)

(** The frame that was found for a page, and what is to be flushed out of it;
    [old] is the page it held, which is no longer cached. *)
Record taken_frame gs s (i : nat) (flush : option (PageId * list Z)) (old : option PageId) s' : Prop := {
  tf_core : pool_core (Some i) gs s';
  tf_unmapped : forall q, page_table s' !! q <> Some i;
  tf_frames : frames s' = frames s;
  tf_disk : disk_manager s' = disk_manager s;
  tf_free_state : free_frames_state s' = free_frames_state s;
  tf_io_state : page_io_state s' = page_io_state s;
  tf_table_state : page_table_state s' = page_table_state s;
  tf_fetches : fetches (page_io_processing s') = fetches (page_io_processing s);
  tf_flushes : forall q, is_Some (flushes (page_io_processing s') !! q) <-> flush_page flush = Some q;
  tf_avail : ~ (free_frames s = [] /\ ev_eligible (evictor s) = ∅);
  tf_due : flush = flush_due s;
  tf_flush_live : forall q t, flushes (page_io_processing s') !! q = Some t -> bc_live (channels s') t;
  tf_frame : exists f, frames s !! i = Some f /\ frame_pins f = 0 /\ frame_lock f = RwReaders 0
    /\ match old with
       | None => flush = None /\ page_table s' = page_table s /\ i ∈ free_frames s
       | Some q => page_table s !! q = Some i /\ page_table s' = delete q (page_table s)
                   /\ flush = if frame_dirty f then Some (q, frame_data f) else None
       end;
}.

(** The state of the mutexes and of the processing map in which a frame is
    looked for: the page table is locked. *)
Record looking s : Prop := {
  lk_free : free_frames_state s = Unlocked;
  lk_io : page_io_state s = Unlocked;
  lk_fetches : fetches (page_io_processing s) = ∅;
  lk_flushes : flushes (page_io_processing s) = ∅;
}.

Lemma free_frame_quiet gs s i :
  pool_core None gs s -> i ∈ free_frames s ->
  exists f, frames s !! i = Some f /\ frame_pins f = 0 /\ frame_lock f = RwReaders 0.
Proof.
  intros I Hi. apply (pc_split _ _ _ I) in Hi as (Hlt & _ & Hno).
  apply lookup_lt_is_Some_2 in Hlt as [f Hf]. exists f.
  destruct (pc_frame _ _ _ I i f Hf) as (_ & _ & Hpl). destruct (Hpl ltac:(done)) as [Hp Hl].
  assert (guards_on gs i = []) as Hg.
  { destruct (guards_on gs i) as [|g l] eqn:E; [done|].
    assert (g ∈ guards_on gs i) as Hg by (rewrite E; apply elem_of_cons; by left).
    apply list_elem_of_filter in Hg as [Hgi Hg]. destruct (pc_guards _ _ _ I g Hg) as (_ & q & Hq).
    destruct (Hno q). congruence. }
  by rewrite Hp, Hl, Hg.
Qed.

Lemma run_fetch_frame gs s :
  pool_core None gs s -> looking s ->
  (exists ev', ev_eligible (evictor s) = ∅ /\ free_frames s = [] /\ pool_core None gs (set_evictor ev' s)
     /\ run fetch_frame s = Some (Ok None, set_evictor ev' s))
  \/ exists i flush old s', taken_frame gs s i flush old s'
     /\ run fetch_frame s = Some (Ok (Some (i, flush)), s').
Proof.
  intros I [L1 L2 L3 L4]. unfold fetch_frame. rewrite run_bind, run_pop_free by done. cbn beta iota.
  destruct (last (free_frames s)) as [i|] eqn:Hlast.
  - apply last_Some in Hlast as [fl Hfl]. right. destruct (core_free gs s fl i I Hfl) as [I' Hno].
    assert (i ∈ free_frames s) as Hin by (rewrite Hfl, elem_of_app, list_elem_of_singleton; by right).
    destruct (free_frame_quiet gs s i I Hin) as (f & Hf & Hp & Hl).
    exists i, None, None, (set_free fl s).
    split; [|by rewrite run_ret, Hfl, length_app, Nat.add_sub, take_app_length].
    split; try done; [intros q; bpm_cbn; rewrite L4, lookup_empty; by split; [intros [? ?]|]| | | |].
    { intros [E _]. rewrite E in Hin. by apply not_elem_of_nil in Hin. }
    { unfold flush_due. destruct (free_frames s); [by apply not_elem_of_nil in Hin|done]. }
    { intros q t. bpm_cbn. by rewrite L4, lookup_empty. }
    exists f. split_and!; done.
  - apply last_None in Hlast. rewrite Hlast. cbn [length take Nat.sub].
    assert (set_free [] s = s) as -> by same_state.
    rewrite run_with_lock, run_on_result by done. cbn [mutex_set page_io_mutex].
    destruct (run_evict_page gs (set_io_state Locked s)) as (ev' & Hev & Hcap & [(He & He' & ->)|Hs]).
    { by apply (pool_core_ext None gs s). }
    + left. exists ev'. split; [done|]. split; [done|]. split.
      2:{ cbn. f_equal. f_equal. same_state. }
      destruct I as [I1 I2 I3 I4 I5 I6 I7 I8 I9 I10 I11 I12 I13]. split; try done.
      intros j. bpm_cbn. rewrite He', <- He. apply I9.
    + right. destruct Hs as (i & f & q & Hi & Hel & Hf & Hq & Hpg & Hp & Hl & Hdue & ->). bpm_cbn.
      destruct (core_victim gs s i q ev' I Hi Hq Hev Hcap Hel) as [I' Hno].
      set (s1 := set_table _ _).
      destruct (run_announce_flush (E := BufferPoolError) i f q (frame_data f) s1 Hf L4) as (c' & fl & Hrun & Hfl & Hfll).
      rewrite run_bind, Hrun. cbn beta iota. rewrite run_ret. eexists i, _, (Some q), _. split; [|reflexivity].
      split; bpm_cbn; try done.
      * by eapply pool_core_ext; [..|exact I'].
      * intros [_ E]. rewrite E in Hi. by apply not_elem_of_empty in Hi.
      * by rewrite <- Hdue.
      * exists f. split_and!; done.
Qed.
(** * A miss, under the lock of the page table *)

(** The frame [i] is the page's, and is about to be loaded; [tx] is in the
    processing map. *)
Record loading gs s (p : PageId) (i : nat) (flush : option (PageId * list Z)) (old : option PageId)
    (tx : Tx) s' : Prop := {
  ld_core : pool_core (Some i) gs s';
  ld_table : page_table s' = <[p := i]> (match old with Some q => delete q (page_table s) | None => page_table s end);
  ld_unique : forall q, page_table s' !! q = Some i -> q = p;
  ld_disk : disk_manager s' = disk_manager s;
  ld_free_state : free_frames_state s' = free_frames_state s;
  ld_io_state : page_io_state s' = page_io_state s;
  ld_table_state : page_table_state s' = page_table_state s;
  ld_fetches : fetches (page_io_processing s') = {[p := tx]};
  ld_live : bc_live (channels s') tx;
  ld_flushes : forall q, is_Some (flushes (page_io_processing s') !! q) <-> flush_page flush = Some q;
  ld_avail : ~ (free_frames s = [] /\ ev_eligible (evictor s) = ∅);
  ld_due : flush = flush_due s;
  ld_flush_tx : forall q, flushes (page_io_processing s') !! q <> Some tx;
  ld_frame : exists f, frames s !! i = Some f
    /\ frames s' = <[i := mkFrame (frame_data f) (RwReaders 0) i false (Some p) 1]> (frames s)
    /\ match old with
       | None => flush = None /\ i ∈ free_frames s
       | Some q => page_table s !! q = Some i /\ flush = if frame_dirty f then Some (q, frame_data f) else None
       end;
}.

Lemma run_fetch_lookup_miss gs s p :
  pool_core None gs s -> looking s -> page_table s !! p = None -> pid_ok p ->
  (exists ev', ev_eligible (evictor s) = ∅ /\ free_frames s = [] /\ pool_core None gs (set_evictor ev' s)
     /\ run (fetch_lookup p) s = Some (Err BufferFull, set_evictor ev' s))
  \/ exists i flush old tx tx' s', loading gs s p i flush old tx' s' /\ tx' <> tx
     /\ run (fetch_lookup p) s = Some (Ok (Miss i flush tx), s').
Proof.
  intros I L Hp Hpid. pose proof L as [L1 L2 L3 L4]. unfold fetch_lookup.
  rewrite run_bind, run_atomic. cbn [sget]. rewrite Hp. cbn beta iota. rewrite run_bind.
  destruct (run_fetch_frame gs s I L) as [(ev' & ? & ? & ? & ->)|(i & flush & old & s1 & T & ->)].
  { left. by exists ev'. }
  right. cbn beta iota. destruct T as [T1 T2 T3 T4 T5 T6 T7 T8 T9 T9' T9'' T9f (f & Hf & Hpins & Hlock & Hold)].
  rewrite run_bind, run_atomic. cbn [smodify]. set (s2 := set_table _ s1).
  assert (frames s2 !! i = Some f) as Hf2 by (unfold s2; bpm_cbn; by rewrite T3).
  assert (i < length (frames s2))%nat as Hlt by (by apply lookup_lt_Some in Hf2).
  rewrite run_bind, (run_on_frame i f) by done. cbn [set_page_id smodify fst snd].
  rewrite run_bind, run_on_frame_again by done. cbn [set_dirty smodify fst snd].
  set (f3 := with_dirty false (with_page_id (Some p) f)). set (s3 := set_frames _ s2).
  destruct (run_pin_frame (E := BufferPoolError) i f3 s3) as (ev' & Hrun & Hev & Hcap & Hel);
    [by apply list_lookup_insert_eq|apply T1| |unfold f3; cbn; lia|].
  { unfold s3, s2. bpm_cbn. rewrite length_insert. apply T1. }
  rewrite run_bind, Hrun. cbn beta iota. unfold s3. rewrite set_frames_twice.
  set (f4 := with_pins _ f3). set (s4 := set_evictor ev' _).
  assert (f4 = mkFrame (frame_data f) (RwReaders 0) i false (Some p) 1) as Hf4.
  { destruct (pc_frame _ _ _ I i f Hf) as (Hid & _ & _). unfold f4, f3, with_pins. cbn. by rewrite Hlock, Hid, Hpins. }
  destruct (run_announce_fetch p s4) as (c' & tx & tx' & Ha & Hlive & Hne & Hnew);
    [unfold s4, s2; bpm_cbn; congruence..|].
  rewrite run_bind, Ha. cbn beta iota. rewrite run_ret.
  exists i, flush, old, tx, tx', (set_channels c' (set_fetches {[p := tx']} s4)).
  split; [|done]. pose proof (pc_frame _ _ _ T1 i f ltac:(by rewrite T3)) as (_ & Hl & _).
  assert (page_table s1 !! p = None) as Hp1.
  { destruct old as [q|]; destruct Hold as (? & -> & ?); [by rewrite lookup_delete_None; right|].
    done. }
  split; unfold s4, s2; bpm_cbn; try done.
  - eapply (core_step i gs s1 _ f4); bpm_cbn; rewrite ?Hf4; try done; try congruence.
    + rewrite Hcap. unfold s3, s2. bpm_cbn. by rewrite length_insert.
    + rewrite Hel. unfold s3, s2. bpm_cbn. rewrite decide_True by done.
      apply set_eq. intros j. rewrite elem_of_difference, elem_of_singleton.
      split; [by intros [? _]|]. intros Hj. split; [done|]. intros ->.
      apply (pc_eligible _ _ _ T1) in Hj as [? _]. done.
    + apply T1.
    + right. by exists p.
  - destruct old as [q|]; by destruct Hold as (? & -> & ?).
  - intros q [[<- _]|[_ Hq]]%lookup_insert_Some; [done|by destruct (T2 q)].
  - intros q Hq. apply T9f in Hq. by apply (Hnew tx').
  - exists f. split; [done|]. rewrite Hf4, T3. split; [done|]. destruct old as [q|]; destruct Hold as (? & ? & ?); done.
Qed.
(** * Loading the page *)

(** What is known of the page to be flushed. *)
Lemma flush_known gs s p i flush old tx s1 q d :
  pool_core None gs s -> loading gs s p i flush old tx s1 -> flush = Some (q, d) ->
  old = Some q /\ page_table s !! q = Some i /\ pid_ok q /\ zlen d = PAGE_SIZE
  /\ exists f, frames s !! i = Some f /\ frame_dirty f = true /\ frame_data f = d.
Proof.
  intros I L ->. destruct (ld_frame _ _ _ _ _ _ _ _ L) as (f & Hf & _ & Hold).
  destruct old as [q'|]; [|by destruct Hold]. destruct Hold as [Hq E].
  destruct (frame_dirty f) eqn:Hdirty; [|done]. injection E as -> ->.
  destruct (pc_table _ _ _ I _ _ Hq) as (Hpid & _ & _). destruct (pc_frame _ _ _ I _ _ Hf) as (_ & Hl & _).
  split_and!; try done. by exists f.
Qed.

(** The frame of the page, with its bytes and its lock. *)
Definition page_frame (p : PageId) (i : nat) (d : list Z) (l : RwState) : Frame := mkFrame d l i false (Some p) 1.

(** The state when the call is over: the page in its frame, the maps empty. *)
Definition loaded (p : PageId) (i : nat) (got : list Z) (w : W) (c : C) s1 : Bpm :=
  set_channels c (set_flushes ∅ (set_fetches ∅
    (set_frames (<[i := page_frame p i got (RwReaders 0)]> (frames s1)) (set_disk w s1)))).

Lemma run_flush_evicted q d s :
  page_io_state s = Unlocked ->
  (forall q', is_Some (flushes (page_io_processing s) !! q') <-> Some q = Some q') ->
  exists c', run (flush_evicted show_io q d) s =
    match ps_write q d (disk_manager s) with
    | (Ok _, w') => Some (Ok tt, set_channels c' (set_flushes ∅ (set_disk w' s)))
    | (Err e, w') => Some (Err (write_error show_io q e), set_channels c' (set_flushes ∅ (set_disk w' s)))
    | (Panic, w') => Some (Panic, set_disk w' s)
    end.
Proof.
  intros Hu Hfl. unfold flush_evicted. rewrite run_on_result, run_on_disk.
  destruct (ps_write q d (disk_manager s)) as [r w']. cbn [fst snd].
  destruct (run_finish_flush q (set_disk w' s) Hu) as [c' Hrun]. exists c'.
  assert (delete q (flushes (page_io_processing (set_disk w' s))) = ∅) as Hd.
  { apply map_eq. intros q'. rewrite lookup_empty, lookup_delete_None. bpm_cbn.
    destruct (decide (q = q')) as [->|Hne]; [by left|right].
    destruct (flushes (page_io_processing s) !! q') eqn:E; [|done].
    assert (Some q = Some q') by (apply Hfl; by eexists). congruence. }
  rewrite Hd in Hrun. destruct r as [[]|e|]; [done| |done]. by rewrite run_bind, Hrun.
Qed.

Lemma run_fetch_load gs s p i flush old tx s1 :
  pool_core None gs s -> loading gs s p i flush old tx s1 -> page_io_state s1 = Unlocked ->
  page_table s !! p = None -> pid_ok p ->
  match ps_read p (fill 0 PAGE_SIZE) (disk_manager s) with
  | (Err e, w1) => run (fetch_load show_io p i flush) s1 = Some (Err (read_error show_io p e), set_disk w1 s1)
  | (Panic, _) => False
  | (Ok got, w1) =>
      match flush with
      | None => exists c', run (fetch_load show_io p i flush) s1 = Some (Ok tt, loaded p i got w1 c' s1)
      | Some (q, d) =>
          match ps_write q d w1 with
          | (Ok _, w2) => exists c', run (fetch_load show_io p i flush) s1 = Some (Ok tt, loaded p i got w2 c' s1)
          | (Err e, w2) => exists c', run (fetch_load show_io p i flush) s1 =
                             Some (Err (write_error show_io q e), loaded p i got w2 c' s1)
          | (Panic, _) => False
          end
      end
  end.
Proof.
  intros I L Hu Hp Hpid. pose proof L as [L1 L2 L3 L4 L5 L6 L7 L8 L9 L10 L10' L10'' L10f (f & Hf & L11 & Hold)].
  pose proof (ps_read_law p (fill 0 PAGE_SIZE) (disk_manager s) (pc_disk _ _ _ I) Hpid) as Hread.
  unfold fetch_load. rewrite run_bind.
  assert (flushes (page_io_processing s1) !! p = None) as Hnf.
  { destruct (flushes (page_io_processing s1) !! p) as [t|] eqn:E; [|done].
    assert (flush_page flush = Some p) as Hfp by (apply L10; by eexists).
    destruct flush as [[q d]|]; [|done].
    destruct (flush_known _ _ _ _ _ _ _ _ q d I L eq_refl) as (_ & Hq & _). injection Hfp as ->. congruence. }
  assert (run (wait_for_page_flush p) s1 = Some (Ok tt, s1)) as ->.
  { unfold wait_for_page_flush. by rewrite run_bind, run_subscribe_none. }
  cbn beta iota. rewrite run_bind, run_map_err, run_on_disk, L4.
  destruct (ps_read p (fill 0 PAGE_SIZE) (disk_manager s)) as [[got|e|] w1]; cbn [fst snd]; [|done|].
  2:{ apply Hread. by apply zlen_fill; unfold PAGE_SIZE. }
  destruct Hread as (Hw1 & Hpages & Hgot); [by apply zlen_fill; unfold PAGE_SIZE|].
  set (s2 := set_disk w1 s1). assert (i < length (frames s1))%nat as Hlt.
  { rewrite L11, length_insert. by apply lookup_lt_Some in Hf. }
  assert (frames s2 !! i = Some (page_frame p i (frame_data f) (RwReaders 0))) as Hf2.
  { unfold s2. bpm_cbn. rewrite L11, list_lookup_insert_eq; [done|by apply lookup_lt_Some in Hf]. }
  cbn beta iota. rewrite run_bind, (run_frame_lock i _ _ _ Hf2). cbn [write_data rw_write page_frame frame_lock].
  cbn beta iota. rewrite run_finally, run_bind, run_on_frame_again by done. cbn [smodify fst snd].
  cbn beta iota. rewrite run_bind. set (s3 := set_frames _ s2).
  destruct (run_finish_fetch p s3) as [c1 Hfin]; [done|]. rewrite Hfin. cbn beta iota.
  assert (delete p (fetches (page_io_processing s3)) = ∅) as ->.
  { unfold s3, s2. bpm_cbn. rewrite L8. by rewrite delete_singleton, decide_True. }
  set (s4 := set_channels c1 _).
  assert (forall st : Bpm, frames st = frames s4 -> release_on i (drop_write false) st
    = set_frames (<[i := page_frame p i got (RwReaders 0)]> (frames s1)) st) as Hrel.
  { intros st E. unfold release_on. rewrite E. unfold s4, s3, s2. bpm_cbn.
    rewrite list_lookup_insert_eq by done. by rewrite list_insert_insert_eq. }
  destruct flush as [[q d]|].
  - destruct (flush_known _ _ _ _ _ _ _ _ q d I L eq_refl) as (_ & _ & Hq & Hd & _).
    pose proof (ps_write_law q d w1 Hw1 Hq Hd) as Hwrite.
    destruct (run_flush_evicted q d s4) as [c2 ->]; [done|exact L10|].
    assert (disk_manager s4 = w1) as -> by done.
    destruct (ps_write q d w1) as [[[]|e|] w2]; [..|done]; exists c2; rewrite Hrel by done; done.
  - exists c1. rewrite run_ret, Hrel by done. unfold loaded. do 2 f_equal. unfold s4, s3, s2. bpm_cbn.
    assert (flushes (page_io_processing s1) = ∅) as Hnone.
    { apply map_eq. intros q. rewrite lookup_empty. destruct (flushes (page_io_processing s1) !! q) eqn:E; [|done].
      assert (flush_page None = Some q) as E' by (apply L10; by eexists). done. }
    unfold set_channels, set_flushes, set_fetches, set_io, set_frames, set_disk. bpm_cbn. by rewrite Hnone.
Qed.
(** * What the pages hold *)

(** A frame that was [old]'s, or free, is now the page [p]'s; what was dirty in
    it is on the disk. *)
Lemma knows_moved gs m s s' p i f old :
  pool_core None gs s -> knows m s -> page_table s !! p = None ->
  frames s !! i = Some f ->
  match old with Some q => page_table s !! q = Some i | None => i ∈ free_frames s end ->
  page_table s' = <[p := i]> (match old with Some q => delete q (page_table s) | None => page_table s end) ->
  (forall j, j <> i -> frames s' !! j = frames s !! j) ->
  (forall q d, pid_ok q -> q <> p -> ~ (old = Some q /\ frame_dirty f = true) ->
    ps_page (disk_manager s) q = Some d -> ps_page (disk_manager s') q = Some d) ->
  (forall q, old = Some q -> frame_dirty f = true -> ps_page (disk_manager s') q = Some (frame_data f)) ->
  knows (delete p m) s'.
Proof.
  intros I Hm Hp Hf Hold Ht Hfr Hdisk Hflush q k [Hne Hq]%lookup_delete_Some.
  destruct (Hm q k Hq) as [Hpid Hh]. split; [done|].
  assert (~ (old = Some q /\ frame_dirty f = true) -> backed s q k -> backed s' q k) as Hback.
  { intros Hno [Hb|Hb]; [left; by apply Hdisk|right]. intros d Hd. apply Hdisk; [done..|]. by apply Hb. }
  unfold shows in *. rewrite Ht, lookup_insert_ne by done.
  assert (forall j, page_table s !! q = Some j -> j = i -> old = Some q) as Hin.
  { intros j Hj ->. destruct old as [q'|].
    - f_equal. by apply (table_inj None gs s q' q i).
    - apply (pc_split _ _ _ I) in Hold as (_ & _ & Hno). by destruct (Hno q). }
  destruct (page_table s !! q) as [j|] eqn:Hj.
  - destruct Hh as (g & Hg & Hd & Hclean). destruct (decide (j = i)) as [->|Hji].
    + specialize (Hin i eq_refl eq_refl) as ->. rewrite lookup_delete_eq.
      rewrite Hf in Hg. injection Hg as <-. destruct (frame_dirty f) eqn:Hdirty.
      * left. by rewrite (Hflush q), Hd.
      * apply Hback; [by intros [_ ?]|by apply Hclean].
    + assert (match old with Some q' => delete q' (page_table s) | None => page_table s end !! q = Some j) as ->.
      { destruct old as [q'|]; [|done]. rewrite lookup_delete_ne; [done|]. intros ->. congruence. }
      exists g. split; [by rewrite Hfr|]. split; [done|]. intros Hc. apply Hback; [|by apply Hclean].
      intros [-> _]. congruence.
  - assert (match old with Some q' => delete q' (page_table s) | None => page_table s end !! q = None) as ->.
    { destruct old as [q'|]; [|done]. rewrite lookup_delete_ne; [done|]. intros ->. congruence. }
    apply Hback; [|done]. intros [-> _]. congruence.
Qed.

Lemma knows_with m s p k :
  knows (delete p m) s -> pid_ok p -> shows s p k -> knows (<[p := k]> m) s.
Proof.
  intros Hm Hp Hs q k' [[<- <-]|[Hne Hq]]%lookup_insert_Some; [done|].
  apply Hm. by rewrite lookup_delete_ne.
Qed.

(** What a page shows depends on the table, the buffers and the disk. *)
Lemma shows_ext s s' p k :
  page_table s' = page_table s -> disk_manager s' = disk_manager s ->
  (forall i f, frames s !! i = Some f -> exists f', frames s' !! i = Some f' /\ frame_data f' = frame_data f
     /\ frame_dirty f' = frame_dirty f) ->
  shows s p k -> shows s' p k.
Proof.
  intros E1 E2 Hfr. unfold shows, backed. rewrite E1, E2. destruct (page_table s !! p) as [i|]; [|done].
  intros (f & Hf & Hd & Hc). destruct (Hfr i f Hf) as (f' & ? & ? & E). exists f'.
  split; [done|]. split; [congruence|]. rewrite E. done.
Qed.
End Fetch.
