(* ===== verification/BufferPoolMethods.v ===== *)
(** The methods of the buffer pool and the guards, run alone from one quiet
    state to the next. *)
From stdpp Require Import gmap.
From Stdlib Require Import String.
From S2P Require Import Prelude.
From S2P Require Import Bytes.
From S2P Require Import RustStr.
From S2P Require Import Page.
From S2P Require Import Evictor.
From S2P Require Import FileSystem.
From S2P Require Import DiskManagerSpec.
From S2P Require Import DiskManagerProps.
From S2P Require Import PageStore.
From S2P Require Import Prog.
From S2P Require Import Frame.
From S2P Require Import Broadcast.
From S2P Require Import BufferPool.
From S2P Require Import BufferPoolSpec.
From S2P Require Import BufferPoolSteps.
From S2P Require Import BufferPoolCore.
From S2P Require Import BufferPoolFetch.

Section Methods.
Context {Ev C Tx Rx W : Type} `{EvictorLaws Ev, BroadcastLaws C Tx Rx, !PageStore W, !PageStoreLaws W, !FullPages W}.
#[local] Abbreviation Bpm := (BufferPoolManager Ev C Tx W).
#[local] Abbreviation bpmP := (prog Bpm BufferPoolError).
Variable show_io : IoError -> rstr.
Implicit Types (s : Bpm) (gs : list PageGuard) (m : gmap PageId Known).

(** * A cached page *)

Lemma cached_frame gs s p i :
  pool_core None gs s -> page_table s !! p = Some i ->
  exists f, frames s !! i = Some f /\ frame_page_id f = Some p /\ zlen (frame_data f) = PAGE_SIZE
    /\ frame_pins f = zlen (guards_on gs i) /\ frame_lock f = lock_of (guards_on gs i).
Proof.
  intros I Hp. destruct (pc_table _ _ _ I _ _ Hp) as (_ & Hlt & Hpg).
  apply lookup_lt_is_Some_2 in Hlt as [f Hf]. exists f.
  destruct (pc_frame _ _ _ I i f Hf) as (_ & Hl & Hpl). destruct (Hpl ltac:(done)).
  split_and!; try done. by apply Hpg.
Qed.

Lemma quiet_ext s s' :
  free_frames_state s' = free_frames_state s -> page_io_state s' = page_io_state s ->
  page_table_state s' = page_table_state s -> page_io_processing s' = page_io_processing s ->
  quiet s -> quiet s'.
Proof. intros E1 E2 E3 E4 [? ? ? ? ?]. by split; rewrite ?E1, ?E2, ?E3, ?E4. Qed.

Lemma quiet_looking s : quiet s -> looking (set_table_state Locked s).
Proof. by intros [? ? ? ? ?]. Qed.

(** * Fetching *)

(** [fetch_page_read] and [fetch_page_write] differ in the guard they make. *)
Definition fetch_guard (mk : nat -> PageGuard) (p : PageId) : bpmP PageGuard :=
  on_result (fetch_and_pin_frame show_io p) (fun r =>
    match r with
    | Ok frame => frame_lock_on frame (guard_lock (mk frame));; mret (mk frame)
    | Err _ => Done (Err BufferFull)
    | Panic => Done Panic
    end).

Lemma fetch_read_guard p : fetch_page_read show_io p = fetch_guard PageReadGuard p.
Proof. done. Qed.
Lemma fetch_write_guard p : fetch_page_write show_io p = fetch_guard PageWriteGuard p.
Proof. done. Qed.

(** The page is cached and nothing is announced for it. *)
Lemma run_fetch_cached s p i f :
  quiet s -> page_table s !! p = Some i -> frames s !! i = Some f -> 0 <= frame_pins f < 2 ^ 63 ->
  ev_inv (evictor s) -> ev_capacity (evictor s) = length (frames s) ->
  exists ev',
    run (fetch_and_pin_frame show_io p) s =
      Some (Ok i, set_evictor ev' (set_frames (<[i := with_pins (frame_pins f + 1) f]> (frames s)) s))
    /\ ev_inv ev' /\ ev_capacity ev' = length (frames s)
    /\ ev_eligible ev' = if decide (frame_pins f = 0) then ev_eligible (evictor s) ∖ {[i]}
                         else ev_eligible (evictor s).
Proof.
  intros Q Hp Hf Hpins Hevi Hevc. pose proof Q as [Q1 Q2 Q3 Q4 Q5].
  destruct (run_pin_frame (E := BufferPoolError) i f (set_table_state Locked s)) as (ev' & Hrun & Hev & Hcap & Hel);
    [done..|].
  exists ev'. split; [|done]. unfold fetch_and_pin_frame. rewrite run_bind, run_with_lock by done.
  cbn [mutex_set page_table_mutex]. unfold fetch_lookup. rewrite run_bind, run_atomic. cbn [sget].
  bpm_cbn. rewrite Hp. cbn beta iota. rewrite run_bind, Hrun. cbn beta iota. rewrite run_ret.
  rewrite run_on_result.
  set (s1 := set_evictor ev' (set_frames _ s)). assert (unlock page_table_mutex (Ok (Hit (Tx := Tx) i))
    (set_evictor ev' (set_frames (<[i:=with_pins (frame_pins f + 1) f]> (frames (set_table_state Locked s)))
       (set_table_state Locked s))) = s1) as ->.
  { unfold s1, unlock. bpm_cbn. unfold set_evictor, set_frames, set_table_state. bpm_cbn. by rewrite <- Q3. }
  rewrite (run_no_fetch p s1) by (by apply (quiet_ext s)). done.
Qed.

Lemma run_fetch_hit gs s p i f :
  pool_inv gs s -> page_table s !! p = Some i -> frames s !! i = Some f -> zlen gs + 1 < 2 ^ 63 ->
  exists ev',
    run (fetch_and_pin_frame show_io p) s =
      Some (Ok i, set_evictor ev' (set_frames (<[i := with_pins (frame_pins f + 1) f]> (frames s)) s))
    /\ ev_inv ev' /\ ev_capacity ev' = length (frames s)
    /\ ev_eligible ev' = if decide (frame_pins f = 0) then ev_eligible (evictor s) ∖ {[i]}
                         else ev_eligible (evictor s).
Proof.
  intros [I Q] Hp Hf Hfew. destruct (pc_frame _ _ _ I i f Hf) as (_ & _ & Hpl). destruct (Hpl ltac:(done)) as [Hpins _].
  pose proof (guards_on_length gs i). apply run_fetch_cached; [done..|lia|apply I|apply I].
Qed.

(** The lock of a frame with a new guard. *)
Lemma run_guard_lock {E} g gs i f s :
  frames s !! i = Some f -> frame_lock f = lock_of (guards_on gs i) -> guard_frame g = i ->
  run (frame_lock_on (E := E) i (guard_lock g)) s =
  if decide (admits (guards_on gs i) g)
  then Some (Ok tt, set_frames (<[i := with_rw (lock_of (g :: guards_on gs i)) f]> (frames s)) s) else None.
Proof.
  intros Hf Hl Hg. rewrite (run_frame_lock i f _ _ Hf), (guard_lock_admits g _ f Hl). by case_decide.
Qed.

(** A page fetched under the guard [g]: what is known of it now. *)
Definition fetched gs m (p : PageId) (g : PageGuard) s s' : Prop :=
  pool_inv (g :: gs) s' /\ page_table s' !! p = Some (guard_frame g)
  /\ (forall q, q <> p -> is_Some (page_table s' !! q) -> is_Some (page_table s !! q))
  /\ exists f, frames s' !! guard_frame g = Some f
      /\ fits_known m p (frame_data f) /\ knows (<[p := (frame_data f, lapse m p)]> m) s'.

Lemma fetch_guard_hit gs m s p i mk :
  pool_inv gs s -> knows m s -> page_table s !! p = Some i -> zlen gs + 1 < 2 ^ 63 ->
  guard_frame (mk i) = i ->
  if decide (admits (guards_on gs i) (mk i))
  then exists s', run (fetch_guard mk p) s = Some (Ok (mk i), s') /\ fetched gs m p (mk i) s s'
         /\ page_table s' = page_table s /\ free_frames s' = free_frames s
  else run (fetch_guard mk p) s = None.
Proof.
  intros Hinv Hm Hp Hfew Hmk. pose proof Hinv as [I Q].
  destruct (cached_frame gs s p i I Hp) as (f & Hf & Hpg & Hl & Hpins & Hlock).
  destruct (run_fetch_hit gs s p i f Hinv Hp Hf Hfew) as (ev' & Hrun & Hev & Hcap & Hel).
  assert (i < length (frames s))%nat as Hlt by (by apply lookup_lt_Some in Hf).
  unfold fetch_guard. rewrite run_on_result, Hrun. cbn beta iota. rewrite run_bind.
  erewrite (run_guard_lock (mk i) gs i); [|by apply list_lookup_insert_eq|done|done].
  destruct (decide (admits (guards_on gs i) (mk i))) as [Ha|Ha]; [|done].
  cbn beta iota. rewrite run_ret. eexists. split; [reflexivity|].
  set (s' := set_frames _ _).
  assert (s' = set_evictor ev' (set_frames (<[i := guarded (mk i) gs f]> (frames s)) s)) as ->.
  { unfold s', set_evictor, set_frames, guarded. bpm_cbn. by rewrite list_insert_insert_eq, Hmk. }
  set (s' := set_evictor _ _). split; [|done]. unfold fetched. rewrite Hmk.
  assert (forall q k, shows s q k -> shows s' q k) as Hh.
  { intros q k. apply shows_ext; [done|done|]. intros j f0 Hj. unfold s'. bpm_cbn.
    destruct (decide (j = i)) as [->|Hne].
    - rewrite list_lookup_insert_eq by done. eexists. split; [done|]. rewrite Hf in Hj. by injection Hj as <-.
    - rewrite list_lookup_insert_ne by done. by exists f0. }
  assert (frames s' !! i = Some (guarded (mk i) gs f)) as Hf' by (unfold s'; bpm_cbn; by apply list_lookup_insert_eq).
  destruct (pc_table _ _ _ I _ _ Hp) as (Hpid & _ & _).
  split; [|split; [done|split; [done|]]].
  - split; [|by apply (quiet_ext s)]. pose proof (core_hit gs s p f (mk i) ev') as Hc. rewrite Hmk in Hc. by apply Hc.
  - eexists. split; [exact Hf'|]. change (frame_data (guarded (mk i) gs f)) with (frame_data f).
    assert (forall k, m !! p = Some k -> frame_data f = k.1) as Hk.
    { intros k Hk. destruct (Hm p k Hk) as [_ Hs]. unfold shows in Hs. rewrite Hp in Hs.
      destruct Hs as (f0 & Hf0 & Hd0 & _). congruence. }
    split; [intros k ?; left; by apply Hk|]. apply knows_with; [|done|].
    + intros q k [_ Hq]%lookup_delete_Some. destruct (Hm q k Hq). split; [done|by apply Hh].
    + unfold lapse. destruct (m !! p) as [[d b]|] eqn:Hmp; cbn [mbind option_bind snd].
      * rewrite (Hk _ eq_refl). cbn [fst]. apply Hh. by apply (Hm p).
      * unfold shows. change (page_table s') with (page_table s). rewrite Hp. eexists. split; [exact Hf'|].
        split; [done|]. intros _. by right.
Qed.
(** ** A miss *)

Lemma loading_unlock gs s p i flush old tx s1 :
  page_table_state s = Unlocked -> loading gs (set_table_state Locked s) p i flush old tx s1 ->
  loading gs s p i flush old tx (set_table_state Unlocked s1).
Proof.
  intros Hu [L1 L2 L3 L4 L5 L6 L7 L8 L9 L10 L10' L10'' L10f L11]. split; bpm_cbn; try done.
  by eapply pool_core_ext; [..|exact L1].
Qed.

Lemma run_fetch_miss gs s p :
  pool_inv gs s -> page_table s !! p = None -> pid_ok p ->
  (exists ev', ev_eligible (evictor s) = ∅ /\ free_frames s = [] /\ pool_core None gs (set_evictor ev' s)
     /\ run (fetch_and_pin_frame show_io p) s = Some (Err BufferFull, set_evictor ev' s))
  \/ exists i flush old tx s1, loading gs s p i flush old tx s1 /\
     match ps_read p (fill 0 PAGE_SIZE) (disk_manager s) with
     | (Err e, w1) => exists c, bc_live c tx
         /\ run (fetch_and_pin_frame show_io p) s = Some (Err (read_error show_io p e), set_channels c (set_disk w1 s1))
     | (Panic, _) => False
     | (Ok got, w1) =>
         match flush with
         | None => exists c, run (fetch_and_pin_frame show_io p) s = Some (Ok i, loaded p i got w1 c s1)
         | Some (q, d) =>
             match ps_write q d w1 with
             | (Ok _, w2) => exists c, run (fetch_and_pin_frame show_io p) s = Some (Ok i, loaded p i got w2 c s1)
             | (Err e, w2) => exists c, run (fetch_and_pin_frame show_io p) s =
                                Some (Err (write_error show_io q e), loaded p i got w2 c s1)
             | (Panic, _) => False
             end
         end
     end.
Proof.
  intros [I Q] Hp Hpid. pose proof Q as [Q1 Q2 Q3 Q4 Q5].
  assert (pool_core None gs (set_table_state Locked s)) as I' by (by eapply pool_core_ext; [..|exact I]).
  destruct (run_fetch_lookup_miss gs (set_table_state Locked s) p I' (quiet_looking s Q) Hp Hpid)
    as [(ev' & He & Hfree & Hc & Hrun)|(i & flush & old & tx & tx' & s1 & L & Hne & Hrun)].
  - left. exists ev'. split; [done|]. split; [done|]. split; [by eapply pool_core_ext; [..|exact Hc]|].
    unfold fetch_and_pin_frame. rewrite run_bind, run_with_lock by done. cbn [mutex_set page_table_mutex].
    rewrite Hrun. unfold unlock, set_evictor, set_table_state. bpm_cbn. by rewrite <- Q3.
  - right. exists i, flush, old, tx', (set_table_state Unlocked s1).
    pose proof (loading_unlock gs s p i flush old tx' s1 Q3 L) as L'. split; [done|].
    pose proof (run_fetch_load show_io gs s p i flush old tx' (set_table_state Unlocked s1) I L') as Hload.
    rewrite (ld_io_state _ _ _ _ _ _ _ _ L') in Hload. specialize (Hload Q2 Hp Hpid).
    assert (run (fetch_and_pin_frame show_io p) s =
      match run (fetch_load show_io p i flush) (set_table_state Unlocked s1) with
      | Some (Ok _, s2) => Some (Ok i, set_channels (bc_drop tx (channels s2)) s2)
      | Some (Err e, s2) => Some (Err e, set_channels (bc_drop tx (channels s2)) s2)
      | Some (Panic, s2) => Some (Panic, set_channels (bc_drop tx (channels s2)) s2)
      | None => None
      end) as ->.
    { unfold fetch_and_pin_frame. rewrite run_bind, run_with_lock by done. cbn [mutex_set page_table_mutex].
      rewrite Hrun. cbn beta iota. rewrite run_bind, run_finally.
      change (unlock page_table_mutex (Ok (Miss i flush tx)) s1) with (set_table_state Unlocked s1).
      by destruct (run (fetch_load show_io p i flush) (set_table_state Unlocked s1)) as [[[[]|e|] s2]|]. }
    destruct (ps_read p (fill 0 PAGE_SIZE) (disk_manager s)) as [[got|e|] w1]; [| |done].
    2:{ rewrite Hload. eexists. split; [|reflexivity]. apply bc_drop_law; [done|].
        apply (ld_live _ _ _ _ _ _ _ _ L). }
    destruct flush as [[q d]|].
    + destruct (ps_write q d w1) as [[[]|e|] w2]; [| |done]; destruct Hload as [c ->]; by eexists.
    + destruct Hload as [c ->]. by eexists.
Qed.

(** The loaded page under a guard. *)
Lemma guard_loaded gs s p i flush old tx s1 got w c g :
  pool_inv gs s -> loading gs s p i flush old tx s1 ->
  ps_inv w -> zlen got = PAGE_SIZE -> guard_frame g = i -> zlen gs + 1 < 2 ^ 63 ->
  exists s', run (frame_lock_on (E := BufferPoolError) i (guard_lock g)) (loaded p i got w c s1) = Some (Ok tt, s')
    /\ pool_inv (g :: gs) s' /\ page_table s' = page_table s1 /\ disk_manager s' = w
    /\ frames s' = <[i := page_frame p i got (lock_of [g])]> (frames s1).
Proof.
  intros [I Q] L Hw Hgot Hg Hfew. pose proof L as [L1 L2 L3 L4 L5 L6 L7 L8 L9 L10 L10' L10'' L10f (f & Hf & L11 & _)].
  assert (i < length (frames s1))%nat as Hlt.
  { rewrite L11, length_insert. by apply lookup_lt_Some in Hf. }
  pose proof (no_guards_loose _ _ _ L1) as Hnone.
  erewrite (run_guard_lock g gs i); [|by apply list_lookup_insert_eq|by rewrite Hnone|done].
  rewrite Hnone, decide_True by (unfold admits; by destruct (is_writer g)).
  eexists. split; [reflexivity|]. set (s' := set_frames _ _).
  assert (frames s' = <[i := page_frame p i got (lock_of [g])]> (frames s1)) as Hfr.
  { unfold s', loaded. bpm_cbn. by rewrite list_insert_insert_eq. }
  assert (page_table s' = page_table s1) as Ht by done.
  split; [|done]. split.
  - apply (core_close i gs s' p (page_frame p i got (lock_of [g]))); try done.
    + apply (core_step i gs s1 s' (page_frame p i got (lock_of [g]))); try done; [apply L1..|by left].
    + rewrite Ht, L2. by rewrite lookup_insert_eq.
    + by rewrite Hfr, list_lookup_insert_eq.
  - destruct Q as [Q1 Q2 Q3 Q4 Q5]. split; unfold s', loaded; bpm_cbn; try done; congruence.
Qed.

Lemma read_length p w got w1 :
  ps_inv w -> pid_ok p -> ps_read p (fill 0 PAGE_SIZE) w = (Ok got, w1) ->
  ps_inv w1 /\ zlen got = PAGE_SIZE /\ (forall q, ps_page w1 q = ps_page w q)
  /\ forall d, ps_page w p = Some d -> got = d.
Proof.
  intros Hw Hp Hr. assert (zlen (fill 0 PAGE_SIZE) = PAGE_SIZE) as Hz by (by apply zlen_fill).
  pose proof (ps_read_law p (fill 0 PAGE_SIZE) w Hw Hp Hz) as Hl. rewrite Hr in Hl.
  destruct Hl as (? & ? & ?). split_and!; try done. intros d Hd. exact (ps_read_full p _ w d got w1 Hw Hp Hz Hd Hr).
Qed.

(** The read of the page fails, or else the write of the page that has to be
    evicted. *)
Definition fetch_error (p : PageId) s : option BufferPoolError :=
  match ps_read p (fill 0 PAGE_SIZE) (disk_manager s) with
  | (Ok _, w1) => '(q, e) ← flush_error s w1; Some (write_error show_io q e)
  | (Err e, _) => Some (read_error show_io p e)
  | (Panic, _) => None
  end.

(** The pool has no frame to give. *)
Definition pool_full s : Prop := free_frames s = [] /\ ev_eligible (evictor s) = ∅.
#[export] Instance pool_full_dec s : Decision (pool_full s).
Proof. unfold pool_full. apply _. Defined.

(** The page read into the frame, once what was in it is on the disk. *)
Lemma fetch_guard_loaded gs m s p i flush old tx s1 got w1 w2 c g :
  pool_inv gs s -> knows m s -> page_table s !! p = None -> pid_ok p -> zlen gs + 1 < 2 ^ 63 ->
  loading gs s p i flush old tx s1 -> guard_frame g = i ->
  ps_read p (fill 0 PAGE_SIZE) (disk_manager s) = (Ok got, w1) -> ps_inv w2 ->
  (forall q d, pid_ok q -> ~ (flush_page flush = Some q) -> ps_page w1 q = Some d -> ps_page w2 q = Some d) ->
  (forall q d, flush = Some (q, d) -> ps_page w2 q = Some d) ->
  exists s', run (frame_lock_on (E := BufferPoolError) i (guard_lock g)) (loaded p i got w2 c s1) = Some (Ok tt, s')
    /\ fetched gs m p g s s'.
Proof.
  intros Hinv Hm Hp Hpid Hfew L Hg Hread Hw2 Hkept Hflushed. pose proof Hinv as [I Q].
  destruct (read_length p _ got w1 (pc_disk _ _ _ I) Hpid Hread) as (Hw1 & Hgot & Hpages & Hfull).
  destruct (guard_loaded gs s p i flush old tx s1 got w2 c g Hinv L Hw2 Hgot Hg Hfew)
    as (s' & Hrun & Hinv' & Ht & Hd & Hfr). exists s'. split; [done|]. split; [done|]. rewrite Hg.
  pose proof L as [L1 L2 L3 L4 L5 L6 L7 L8 L9 L10 L10' L10'' L10f (f & Hf & L11 & Hold)].
  assert (i < length (frames s1))%nat as Hlt by (rewrite L11, length_insert; by apply lookup_lt_Some in Hf).
  assert (page_table s' !! p = Some i) as Hpt by (by rewrite Ht, L2, lookup_insert_eq).
  assert (frames s' !! i = Some (page_frame p i got (lock_of [g]))) as Hfi by (by rewrite Hfr, list_lookup_insert_eq).
  split; [done|]. split.
  { intros q Hq. rewrite Ht, L2, lookup_insert_ne by done. destruct old as [q'|]; [|done].
    intros [j [_ Hj]%lookup_delete_Some]. by exists j. }
  eexists. split; [exact Hfi|]. cbn [page_frame frame_data].
  assert (forall d, ps_page (disk_manager s) p = Some d -> ps_page (disk_manager s') p = Some got /\ d = got) as Hpd.
  { intros d Hdp. pose proof (Hfull d Hdp) as Hgd. split; [|done]. rewrite Hd. apply Hkept; [done| |].
    2:{ by rewrite Hpages, Hgd. }
    destruct flush as [[q0 d0]|]; [|done].
    destruct (flush_known _ _ _ _ _ _ _ _ q0 d0 I L eq_refl) as (_ & Hq0 & _). intros [= ->]. congruence. }
  assert (forall k, m !! p = Some k -> backed s p k) as Hb.
  { intros k Hk. destruct (Hm p k Hk) as [_ Hs]. unfold shows in Hs. by rewrite Hp in Hs. }
  split.
  { intros k Hk. destruct (Hb k Hk) as [Hd1|Hd1]; [left; by destruct (Hpd _ Hd1)|right].
    destruct (k.2) as [d|]; [left|by right]. destruct (Hpd d) as [_ ->]; [by apply Hd1|done]. }
  apply knows_with; [|done|].
  - apply (knows_moved gs m s s' p i f old I Hm Hp Hf).
    + destruct old as [q|]; apply Hold.
    + by rewrite Ht, L2.
    + intros j Hj. rewrite Hfr, list_lookup_insert_ne, L11, list_lookup_insert_ne by done. done.
    + intros q d Hq _ Hno Hdq. rewrite Hd. apply Hkept; [done| |by rewrite Hpages]. intros Hfq. apply Hno.
      destruct old as [q'|]; [|by destruct Hold as [-> _]]. destruct Hold as [_ Hold].
      rewrite Hold in Hfq. destruct (frame_dirty f); [|done]. injection Hfq as ->. done.
    + intros q -> Hdirty. destruct Hold as [_ Hold]. rewrite Hdirty in Hold. rewrite Hd. by apply Hflushed.
  - unfold shows. rewrite Hpt. eexists. split; [exact Hfi|]. split; [done|]. intros _.
    unfold lapse. destruct (m !! p) as [k|] eqn:Hk; [|by right]. cbn [mbind option_bind].
    destruct (Hb k eq_refl) as [Hd1|Hd1]; [left; by apply (Hpd (k.1))|]. right. intros d Hkd. cbn [snd] in Hkd.
    destruct (Hpd d) as [Hs' ->]; [by apply Hd1|done].
Qed.

Lemma fetch_guard_miss gs m s p mk :
  pool_inv gs s -> knows m s -> page_table s !! p = None -> pid_ok p -> zlen gs + 1 < 2 ^ 63 ->
  (forall i, guard_frame (mk i) = i) ->
  match run (fetch_guard mk p) s with
  | Some (Ok g, s') => g = mk (guard_frame g) /\ ~ pool_full s /\ fetch_error p s = None /\ fetched gs m p g s s'
  | Some (Err e, s') =>
      e = BufferFull /\ ((pool_full s /\ pool_inv gs s' /\ knows m s' /\ page_table s' = page_table s)
                         \/ (~ pool_full s /\ is_Some (fetch_error p s)))
  | Some (Panic, _) => False
  | None => False
  end.
Proof.
  intros Hinv Hm Hp Hpid Hfew Hmk. pose proof Hinv as [I Q]. unfold fetch_guard. rewrite run_on_result.
  destruct (run_fetch_miss gs s p Hinv Hp Hpid) as [(ev' & He & Hfree & Hc & ->)|(i & flush & old & tx & s1 & L & Hrun)].
  { cbn beta iota. simpl. split; [done|]. left. split; [done|]. split; [|by split].
    split; [done|]. by apply (quiet_ext s). }
  pose proof (ld_avail _ _ _ _ _ _ _ _ L) as Hav. pose proof (ld_due _ _ _ _ _ _ _ _ L) as Hdue.
  unfold fetch_error, flush_error. rewrite <- Hdue.
  destruct (ps_read p (fill 0 PAGE_SIZE) (disk_manager s)) as [[got|e|] w1] eqn:Hread; [| |done].
  2:{ destruct Hrun as (c & _ & ->). simpl. split; [done|]. right. split; [done|by eexists]. }
  destruct (read_length p _ got w1 (pc_disk _ _ _ I) Hpid Hread) as (Hw1 & _ & Hpages & _).
  assert (forall w2 c, ps_inv w2 ->
    (forall q d, pid_ok q -> ~ (flush_page flush = Some q) -> ps_page w1 q = Some d -> ps_page w2 q = Some d) ->
    (forall q d, flush = Some (q, d) -> ps_page w2 q = Some d) ->
    exists s', run (frame_lock_on (E := BufferPoolError) i (guard_lock (mk i));; mret (mk i)) (loaded p i got w2 c s1)
      = Some (Ok (mk i), s') /\ fetched gs m p (mk i) s s') as Hgood.
  { intros w2 c Hw2 Hk Hfl.
    destruct (fetch_guard_loaded gs m s p i flush old tx s1 got w1 w2 c (mk i)) as (s' & Hl & Hd); try done.
    exists s'. by rewrite run_bind, Hl. }
  destruct flush as [[q d]|].
  - destruct (flush_known _ _ _ _ _ _ _ _ q d I L eq_refl) as (_ & Hq & Hqid & Hdl & _).
    pose proof (ps_write_law q d w1 Hw1 Hqid Hdl) as Hwr. cbn [mbind option_bind].
    destruct (ps_write q d w1) as [[[]|e|] w2] eqn:Hw; [| |done]; destruct Hrun as [c ->]; cbn beta iota.
    + destruct Hwr as (Hw2 & Hpq & Hoth).
      destruct (Hgood w2 c Hw2) as (s' & -> & ?); [..|by rewrite !Hmk].
      * intros q' d' Hq' Hne Hd'. apply Hoth; [done| |done]. intros ->. by apply Hne.
      * by intros q' d' [= <- <-].
    + split; [done|]. right. split; [done|by eexists].
  - destruct Hrun as [c ->]. destruct (Hgood w1 c Hw1) as (s' & -> & ?); [done..|by rewrite !Hmk].
Qed.
End Methods.
