(* ===== verification/BufferPoolCreate.v ===== *)
(** The guards, and what is done to create a page under the lock of the page
    table, alone. *)
From stdpp Require Import gmap.
From Stdlib Require Import String.
From S2P Require Import Prelude.
From S2P Require Import Bytes.
From S2P Require Import RustStr.
From S2P Require Import Page.
From S2P Require Import Evictor.
From S2P Require Import FileSystem.
From S2P Require Import DiskManagerSpec.
From S2P Require Import DiskManagerProps.
From S2P Require Import PageStore.
From S2P Require Import Prog.
From S2P Require Import Frame.
From S2P Require Import Broadcast.
From S2P Require Import BufferPool.
From S2P Require Import BufferPoolSpec.
From S2P Require Import BufferPoolSteps.
From S2P Require Import BufferPoolCore.
From S2P Require Import BufferPoolFetch.
From S2P Require Import BufferPoolMethods.

Section Create.
Context {Ev C Tx Rx W : Type} `{EvictorLaws Ev, BroadcastLaws C Tx Rx, !PageStore W, !PageStoreLaws W}.
#[local] Abbreviation Bpm := (BufferPoolManager Ev C Tx W).
#[local] Abbreviation bpmP := (prog Bpm BufferPoolError).
Variable show_io : IoError -> rstr.
Implicit Types (s : Bpm) (gs : list PageGuard) (m : gmap PageId Known).

(** * Guards *)

Lemma guard_cached gs s g :
  pool_core None gs s -> g ∈ gs -> exists p f, page_table s !! p = Some (guard_frame g)
    /\ frames s !! guard_frame g = Some f /\ frame_page_id f = Some p /\ zlen (frame_data f) = PAGE_SIZE
    /\ frame_pins f = zlen (guards_on gs (guard_frame g)) /\ frame_lock f = lock_of (guards_on gs (guard_frame g)).
Proof.
  intros I Hg. destruct (pc_guards _ _ _ I g Hg) as (_ & p & Hp).
  destruct (cached_frame gs s p _ I Hp) as (f & ? & ? & ? & ? & ?). by exists p, f.
Qed.

(** Changes of one frame that keep what is in it. *)
Lemma knows_frame m s s' i f f' :
  frames s !! i = Some f -> frames s' = <[i := f']> (frames s) ->
  frame_data f' = frame_data f -> frame_dirty f' = frame_dirty f ->
  page_table s' = page_table s -> disk_manager s' = disk_manager s -> knows m s -> knows m s'.
Proof.
  intros Hf Hfr Hd Hc Ht Hdisk Hm q d Hq. destruct (Hm q d Hq) as [? Hh]. split; [done|].
  eapply shows_ext; [..|exact Hh]; try done. intros j g Hj. rewrite Hfr.
  destruct (decide (j = i)) as [->|Hne].
  - rewrite list_lookup_insert_eq by (by apply lookup_lt_Some in Hf). rewrite Hf in Hj. injection Hj as <-.
    by exists f'.
  - rewrite list_lookup_insert_ne by done. by exists g.
Qed.

Lemma run_guard_drop {E} gs m s g :
  pool_inv (g :: gs) s -> knows m s ->
  exists s', run (guard_drop (E := E) g) s = Some (Ok tt, s') /\ pool_inv gs s' /\ knows m s'
    /\ page_table s' = page_table s /\ free_frames s' = free_frames s.
Proof.
  intros [I Q] Hm. destruct (guard_cached (g :: gs) s g I) as (p & f & Hp & Hf & Hpg & Hl & Hpins & Hlock);
    [apply elem_of_cons; by left|].
  rewrite guards_on_same in Hpins, Hlock. rewrite zlen_cons in Hpins.
  pose proof (pc_few _ _ _ I) as Hfew. rewrite zlen_cons in Hfew.
  pose proof (guards_on_length gs (guard_frame g)) as Hg.
  set (i := guard_frame g) in *. assert (i < length (frames s))%nat as Hlt by (by apply lookup_lt_Some in Hf).
  set (f1 := with_pins (frame_pins f - 1) f).
  assert (run (on_frame (E := E) i decrement_pin_count) s =
    Some (Ok (frame_pins f), set_frames (<[i := f1]> (frames s)) s)) as Hdec.
  { rewrite (run_on_frame i f) by done. unfold decrement_pin_count. rewrite wrap_small by lia.
    destruct (Z.ltb_spec 0 (frame_pins f)); [done|lia]. }
  pose proof (pc_compat _ _ _ I i) as Hcompat. unfold i in Hcompat. rewrite guards_on_same in Hcompat. fold i in Hcompat.
  assert (guard_release g false f1 = unguarded g gs f) as Hrel.
  { rewrite (guard_release_lock g (guards_on gs i) f1) by done. done. }
  assert (forall ev', release_on i (guard_release g false) (set_evictor ev' (set_frames (<[i := f1]> (frames s)) s))
    = set_evictor ev' (set_frames (<[i := unguarded g gs f]> (frames s)) s)) as Hend.
  { intros ev'. unfold release_on. bpm_cbn. rewrite list_lookup_insert_eq by done.
    unfold set_frames, set_evictor. bpm_cbn. by rewrite list_insert_insert_eq, Hrel. }
  assert (forall ev', ev_inv ev' -> ev_capacity ev' = length (frames s) ->
    ev_eligible ev' = (if decide (frame_pins f = 1) then {[i]} ∪ ev_eligible (evictor s) else ev_eligible (evictor s)) ->
    exists s', release_on i (guard_release g false) (set_evictor ev' (set_frames (<[i := f1]> (frames s)) s)) = s'
      /\ pool_inv gs s' /\ knows m s' /\ page_table s' = page_table s /\ free_frames s' = free_frames s) as Hdone.
  { intros ev' Hev Hcap Hel. eexists. split; [reflexivity|]. rewrite Hend. split; [|split; [|done]].
    - split; [by apply (core_drop gs s f g ev')|by apply (quiet_ext s)].
    - by eapply (knows_frame m s _ i f). }
  unfold guard_drop. rewrite run_finally, run_bind. fold i. rewrite Hdec. cbn beta iota.
  destruct (Z.eqb_spec (frame_pins f) 1) as [E1|E1].
  - rewrite run_bind. unfold get_id. rewrite (run_frame_get i f1) by (by apply list_lookup_insert_eq). cbn beta iota.
    rewrite run_on_evictor. bpm_cbn.
    assert (frame_id f1 = i) as -> by (by destruct (pc_frame _ _ _ I i f Hf)).
    destruct (ev_add_law E (evictor s) i (pc_ev _ _ _ I)) as (ev' & -> & Hev & Hcap & Hel).
    { by rewrite (pc_cap _ _ _ I). }
    destruct (Hdone ev') as (s' & Hs' & ?); [done|by rewrite Hcap, (pc_cap _ _ _ I)|by rewrite decide_True|].
    exists s'. split; [|done]. cbn [fst snd panicked]. by rewrite Hs'.
  - rewrite run_ret. destruct (Hdone (evictor s)) as (s' & Hs' & ?);
      [apply I|apply (pc_cap _ _ _ I)|by rewrite decide_False|].
    exists s'. split; [|done]. cbn [panicked]. by rewrite <- Hs'.
Qed.

Lemma run_guard_deref {E} gs s g :
  pool_core None gs s -> g ∈ gs -> exists f, frames s !! guard_frame g = Some f
    /\ run (guard_deref (E := E) g) s = Some (Ok (frame_data f), s).
Proof.
  intros I Hg. destruct (guard_cached gs s g I Hg) as (p & f & _ & Hf & _).
  exists f. split; [done|]. unfold guard_deref. by rewrite (run_frame_get _ f).
Qed.

(** Writing a whole page through a write guard, and marking it. *)
Definition guard_update {E} (i : nat) (data : list Z) : prog Bpm E unit := guard_deref_mut i data;; mark_dirty i.

Lemma run_guard_update {E} gs m s g data :
  pool_inv gs s -> knows m s -> g ∈ gs -> zlen data = PAGE_SIZE ->
  exists s' p, run (guard_update (E := E) (guard_frame g) data) s = Some (Ok tt, s')
    /\ pool_inv gs s' /\ page_table s !! p = Some (guard_frame g) /\ page_table s' = page_table s
    /\ free_frames s' = free_frames s
    /\ knows (<[p := settled data]> m) s'.
Proof.
  intros [I Q] Hm Hg Hl. destruct (guard_cached gs s g I Hg) as (p & f & Hp & Hf & Hpg & Hlf & Hpins & Hlock).
  set (i := guard_frame g) in *. assert (i < length (frames s))%nat as Hlt by (by apply lookup_lt_Some in Hf).
  unfold guard_update, guard_deref_mut, mark_dirty. rewrite run_bind, (run_on_frame i f) by done.
  cbn [smodify fst snd]. rewrite run_on_frame_again by done. cbn [set_dirty smodify fst snd].
  set (f' := with_dirty true (with_data data f)). eexists _, p. split; [reflexivity|].
  set (s' := set_frames (<[i := f']> (frames s)) s).
  assert (forall j, frames s' !! j = if decide (j = i) then Some f' else frames s !! j) as Hfr.
  { intros j. unfold s'. bpm_cbn. case_decide as E0; [subst j; by apply list_lookup_insert_eq|].
    by apply list_lookup_insert_ne. }
  assert (length (frames s') = length (frames s)) as Hlen by (unfold s'; bpm_cbn; by rewrite length_insert).
  split.
  { split; [|by apply (quiet_ext s)].
    pose proof I as [I1 I2 I3 I4 I5 I6 I7 I8 I9 I10 I11 I12 I13].
    split; rewrite ?Hlen; try done.
    - intros j g0. rewrite Hfr. case_decide as E0; [|by apply I5]. intros [= <-]. subst j.
      destruct (I5 i f Hf) as (? & ? & Hpl). by split_and!.
    - intros q j Hq. destruct (I6 q j Hq) as (? & ? & Hpl). split_and!; try done. intros Hj g0. rewrite Hfr.
      case_decide as E0; [|by apply Hpl]. intros [= <-]. subst j. by apply (Hpl Hj f).
    - intros j g0 Hj. rewrite Hfr. case_decide as E0; [|by apply I13]. subst j.
      apply I8 in Hj as (_ & _ & Hno). by destruct (Hno p). }
  split; [done|]. split; [done|]. split; [done|].
  intros q k [[<- <-]|[Hne Hq]]%lookup_insert_Some.
  - destruct (pc_table _ _ _ I _ _ Hp) as (? & _). split; [done|]. apply shows_settled. unfold holds.
    assert (page_table s' !! p = Some i) as -> by done. exists f'. rewrite Hfr, decide_True by done. done.
  - destruct (Hm q k Hq) as [? Hh]. split; [done|]. unfold shows, backed in *.
    assert (page_table s' = page_table s) as -> by done. assert (disk_manager s' = disk_manager s) as -> by done.
    destruct (page_table s !! q) as [j|] eqn:Hj; [|done]. rewrite Hfr, decide_False; [done|].
    intros ->. apply Hne. by apply (table_inj None gs s p q i).
Qed.
(** * Creating a page *)

(** The frame [i] is the new page's, and pinned; its bytes and its dirty flag
    are as they were. *)
Record creating gs s (p : PageId) (i : nat) (flush : option (PageId * list Z)) (old : option PageId) s' : Prop := {
  cr_core : pool_core (Some i) gs s';
  cr_table : page_table s' = <[p := i]> (match old with Some q => delete q (page_table s) | None => page_table s end);
  cr_unique : forall q, page_table s' !! q = Some i -> q = p;
  cr_disk : disk_manager s' = disk_manager s;
  cr_free_state : free_frames_state s' = free_frames_state s;
  cr_io_state : page_io_state s' = page_io_state s;
  cr_table_state : page_table_state s' = page_table_state s;
  cr_fetches : fetches (page_io_processing s') = fetches (page_io_processing s);
  cr_flushes : forall q, is_Some (flushes (page_io_processing s') !! q) <-> flush_page flush = Some q;
  cr_free : free_frames s <> [] -> old = None;
  cr_due : flush = flush_due s;
  cr_frame : exists f, frames s !! i = Some f /\ zlen (frame_data f) = PAGE_SIZE
    /\ frames s' = <[i := mkFrame (frame_data f) (RwReaders 0) i (frame_dirty f) (Some p) 1]> (frames s)
    /\ match old with
       | None => flush = None /\ i ∈ free_frames s
       | Some q => page_table s !! q = Some i /\ flush = if frame_dirty f then Some (q, frame_data f) else None
       end;
}.

(** A frame out of the pool, pinned. *)
Lemma core_pinned i gs s s1 ev' f :
  pool_core (Some i) gs s1 -> frames s1 !! i = Some f ->
  ev_inv ev' -> ev_capacity ev' = length (frames s1) -> ev_eligible ev' = ev_eligible (evictor s1) ∖ {[i]} ->
  pool_core (Some i) gs (set_evictor ev' (set_frames (<[i := with_pins 1 f]> (frames s1)) s1)).
Proof.
  intros I Hf Hev Hcap Hel. destruct (pc_frame _ _ _ I i f Hf) as (Hid & Hl & _).
  apply (core_step i gs s1 _ (with_pins 1 f)); bpm_cbn; try done; [|apply I|by left].
  rewrite Hel. apply set_eq. intros j. rewrite elem_of_difference, elem_of_singleton.
  split; [by intros [? _]|]. intros Hj. split; [done|]. intros ->.
  apply (pc_eligible _ _ _ I) in Hj as [? _]. done.
Qed.

Lemma run_create_lookup gs s p :
  pool_core None gs s -> looking s -> page_table s !! p = None -> pid_ok p ->
  if decide (pool_full s) then exists s', run (create_lookup p) s = Some (Panic, s') /\ page_table_state s' = page_table_state s
  else exists i flush old s', creating gs s p i flush old s'
         /\ run (create_lookup p) s = Some (Ok (i, flush), s').
Proof.
  intros I L Hp Hpid. pose proof L as [L1 L2 L3 L4].
  (* the end of it, once there is a pinned frame *)
  assert (forall s1 i f flush old, pool_core (Some i) gs s1 -> (forall q, page_table s1 !! q <> Some i) ->
    frames s !! i = Some f -> frames s1 = <[i := with_pins 1 f]> (frames s) ->
    frame_lock f = RwReaders 0 -> frame_id f = i -> zlen (frame_data f) = PAGE_SIZE ->
    disk_manager s1 = disk_manager s -> free_frames_state s1 = free_frames_state s ->
    page_io_state s1 = page_io_state s -> page_table_state s1 = page_table_state s ->
    fetches (page_io_processing s1) = fetches (page_io_processing s) ->
    (forall q, is_Some (flushes (page_io_processing s1) !! q) <-> flush_page flush = Some q) ->
    page_table s1 = match old with Some q => delete q (page_table s) | None => page_table s end ->
    match old with
    | None => flush = None /\ i ∈ free_frames s
    | Some q => page_table s !! q = Some i /\ flush = if frame_dirty f then Some (q, frame_data f) else None
    end -> (free_frames s <> [] -> old = None) -> flush = flush_due s ->
    exists s', creating gs s p i flush old s' /\
      run (on_frame (E := BufferPoolError) i (set_page_id (Some p));;
           atomic (smodify (fun s => set_table (<[p := i]> (page_table s)) s));; mret (i, flush)) s1
      = Some (Ok (i, flush), s')) as Hend.
  { intros s1 i f flush old T1 T2 Hf Hfr Hlock Hid Hl T4 T5 T6 T7 T8 T9 Ht Hold Hwas Hdue.
    assert (i < length (frames s))%nat as Hlt by (by apply lookup_lt_Some in Hf).
    rewrite run_bind, (run_on_frame i (with_pins 1 f)) by (by rewrite Hfr, list_lookup_insert_eq).
    cbn [set_page_id smodify fst snd]. cbn beta iota. rewrite run_bind, run_atomic. cbn [smodify]. rewrite run_ret.
    eexists. split; [|reflexivity]. set (f2 := with_page_id (Some p) (with_pins 1 f)).
    assert (f2 = mkFrame (frame_data f) (RwReaders 0) i (frame_dirty f) (Some p) 1) as Hf2.
    { unfold f2, with_page_id, with_pins. cbn. by rewrite Hlock, Hid. }
    assert (page_table s1 !! p = None) as Hp1.
    { rewrite Ht. destruct old as [q|]; [by rewrite lookup_delete_None; right|done]. }
    split; bpm_cbn; try done.
    - apply (core_step i gs s1 _ f2); bpm_cbn; try done; try apply T1.
      right. by exists p.
    - by rewrite Ht.
    - intros q [[<- _]|[_ Hq]]%lookup_insert_Some; [done|by destruct (T2 q)].
    - exists f. split; [done|]. split; [done|]. rewrite Hfr, list_insert_insert_eq. by rewrite Hf2. }
  unfold create_lookup. rewrite run_bind, run_with_lock by done. cbn [mutex_set free_frames_mutex].
  rewrite run_bind, run_atomic. unfold pop_free. cbn [free_frames set_free_state]. cbn beta iota.
  destruct (last (free_frames s)) as [i|] eqn:Hlast.
  - apply last_Some in Hlast as [fl Hfl]. destruct (core_free gs s fl i I Hfl) as [I' Hno].
    assert (i ∈ free_frames s) as Hin by (rewrite Hfl, elem_of_app, list_elem_of_singleton; by right).
    rewrite decide_False by (intros [E _]; rewrite E in Hin; by apply not_elem_of_nil in Hin).
    destruct (free_frame_quiet gs s i I Hin) as (f & Hf & Hpins & Hlock).
    assert (take (length (free_frames s) - 1) (free_frames s) = fl) as ->
      by (by rewrite Hfl, length_app, Nat.add_sub, take_app_length).
    destruct (run_pin_frame (E := BufferPoolError) i f (set_free fl (set_free_state Locked s)))
      as (ev' & Hrun & Hev & Hcap & Hel); [done|apply I|apply I|lia|].
    rewrite run_bind, Hrun. cbn beta iota. rewrite run_ret. cbn beta iota. rewrite run_bind, run_ret.
    rewrite Hpins in *. set (s1 := unlock _ _ _).
    destruct (pc_frame _ _ _ I i f Hf) as (Hid & Hl & _).
    destruct (Hend s1 i f None None) as (s' & Hcr & Hr); try done.
    + eapply pool_core_ext; [..|apply (core_pinned i gs s (set_free fl s) ev' f)]; try done.
    + intros q. change (flushes (page_io_processing s1)) with (flushes (page_io_processing s)). rewrite L4, lookup_empty. by split; [intros [? ?]|].
    + unfold flush_due. destruct (free_frames s); [by apply not_elem_of_nil in Hin|done].
    + by exists i, None, None, s'.
  - apply last_None in Hlast. rewrite Hlast. cbn [length take Nat.sub]. cbn beta iota. rewrite run_ret.
    set (s0 := unlock _ _ _). assert (s0 = s) as ->.
    { unfold s0, unlock. bpm_cbn. unfold set_free, set_free_state. bpm_cbn. rewrite <- L1 at 1. rewrite <- Hlast. by destruct s. }
    rewrite run_bind, run_with_lock by done. cbn [mutex_set page_io_mutex].
    rewrite run_bind, run_on_result.
    destruct (run_evict_page gs (set_io_state Locked s)) as (ev' & Hev & Hcap & [(He & He' & ->)|Hs]).
    { by eapply pool_core_ext; [..|exact I]. }
    + rewrite decide_True by done. eexists. split; [reflexivity|]. done.
    + destruct Hs as (i & f & q & Hi & Hel & Hf & Hq & Hpg & Hpins & Hlock & Hdue & ->). bpm_cbn.
      rewrite decide_False by (intros [_ E]; rewrite E in Hi; by apply not_elem_of_empty in Hi).
      destruct (core_victim gs s i q ev' I Hi Hq Hev Hcap Hel) as [I' Hno].
      destruct (pc_frame _ _ _ I i f Hf) as (Hid & Hl & _).
      cbn [unwrap_res run]. cbn beta iota.
      set (s1 := set_table (delete q (page_table s)) (set_evictor ev' (set_io_state Locked s))).
      destruct (run_pin_frame (E := BufferPoolError) i f s1) as (ev2 & Hrun & Hev2 & Hcap2 & Hel2);
        [done|done|done|lia|].
      rewrite run_bind, Hrun. cbn beta iota. rewrite Hpins in *. change (0 + 1) with 1.
      set (s2 := set_evictor ev2 _). assert (frames s2 !! i = Some (with_pins 1 f)) as Hf2
        by (apply list_lookup_insert_eq; by apply lookup_lt_Some in Hf).
      destruct (run_announce_flush (E := BufferPoolError) i _ q (frame_data f) s2 Hf2 L4) as (c' & fl & Hann & Hflush & _).
      change (frame_dirty (with_pins 1 f)) with (frame_dirty f) in *.
      rewrite run_bind, Hann. cbn beta iota. rewrite run_ret. cbn beta iota.
      set (flush := if frame_dirty f then _ else None) in *. set (s3 := unlock _ _ _).
      destruct (Hend s3 i f flush (Some q)) as (s' & Hcr & Hr); try done.
      * eapply pool_core_ext; [..|apply (core_pinned i gs s (set_table (delete q (page_table s)) (set_evictor ev' s)) ev2 f)];
          try done.
      * by rewrite <- Hdue.
      * by exists i, flush, (Some q), s'.
Qed.
End Create.
