(* ===== verification/BufferPoolProps.v ===== *)
(** The buffer pool, for one caller: [create_page] on every branch. *)
From stdpp Require Import gmap.
From Stdlib Require Import String.
From S2P Require Import Prelude.
From S2P Require Import Bytes.
From S2P Require Import RustStr.
From S2P Require Import Page.
From S2P Require Import Evictor.
From S2P Require Import FileSystem.
From S2P Require Import DiskManagerSpec.
From S2P Require Import DiskManagerProps.
From S2P Require Import PageStore.
From S2P Require Import Prog.
From S2P Require Import Frame.
From S2P Require Import Broadcast.
From S2P Require Import BufferPool.
From S2P Require Import BufferPoolSpec.
From S2P Require Import BufferPoolSteps.
From S2P Require Import BufferPoolCore.
From S2P Require Import BufferPoolFetch.
From S2P Require Import BufferPoolMethods.
From S2P Require Import BufferPoolCreate.

Section Props.
Context {Ev C Tx Rx W : Type} `{EvictorLaws Ev, BroadcastLaws C Tx Rx, !PageStore W, !PageStoreLaws W}.
#[local] Abbreviation Bpm := (BufferPoolManager Ev C Tx W).
#[local] Abbreviation bpmP := (prog Bpm BufferPoolError).
Variable show_io : IoError -> rstr.
Implicit Types (s : Bpm) (gs : list PageGuard) (m : gmap PageId Known).

(** * [create_page] *)

(** The allocation of the page fails, or else the write of the page that has to
    be evicted. *)
Definition create_error (t : Z) s : option BufferPoolError :=
  match ps_allocate t (disk_manager s) with
  | (Ok _, w1) => '(q, e) ← flush_error s w1; Some (write_error show_io q e)
  | (Err e, _) => Some (PageAllocation (show_io e))
  | (Panic, _) => None
  end.

(** The page the disk manager is about to hand out is not cached. *)
Definition fresh_page (t : Z) s : Prop :=
  match ps_allocate t (disk_manager s) with (Ok p, _) => page_table s !! p = None | _ => True end.

Lemma core_disk o gs s w : ps_inv w -> pool_core o gs s -> pool_core o gs (set_disk w s).
Proof. intros Hw [I1 I2 I3 I4 I5 I6 I7 I8 I9 I10 I11 I12 I13]. by split. Qed.

(** What is known of a page that has been created in frame [i], which held the
    bytes of [f] before. *)
Definition created gs m (p : PageId) (i : nat) (f : Frame) s s' : Prop :=
  pool_inv (PageWriteGuard i :: gs) s' /\ page_table s !! p = None /\ page_table s' !! p = Some i
  /\ (forall q, q <> p -> is_Some (page_table s' !! q) -> is_Some (page_table s !! q))
  /\ frames s !! i = Some f
  /\ (exists f', frames s' !! i = Some f' /\ frame_data f' = frame_data f /\ frame_page_id f' = Some p)
  /\ knows (<[p := (frame_data f, Some (fill 0 PAGE_SIZE))]> m) s'
  /\ (if decide (free_frames s = []) then exists q, page_table s !! q = Some i
      else frame_data f = fill 0 PAGE_SIZE).

(** The new page's frame, once what was in it is on the disk. *)
Lemma create_done gs m s w1 w2 p i flush old s1 s2 c :
  pool_inv gs s -> knows m s -> ps_inv w2 -> pid_ok p -> zlen gs + 1 < 2 ^ 63 -> page_table s !! p = None ->
  others_kept ps_page p (disk_manager s) w1 -> ps_page w2 p = Some (fill 0 PAGE_SIZE) ->
  (forall q d, q <> p -> pid_ok q -> ~ (flush_page flush = Some q) -> ps_page w1 q = Some d -> ps_page w2 q = Some d) ->
  (forall q d, flush = Some (q, d) -> ps_page w2 q = Some d) ->
  creating gs (set_disk w1 s) p i flush old s1 ->
  s2 = set_channels c (set_flushes ∅ (set_disk w2 s1)) -> page_table_state s2 = Unlocked ->
  exists s' f, run (frame_lock_on (E := BufferPoolError) i write_data) s2 = Some (Ok tt, s')
    /\ created gs m p i f s s'.
Proof.
  intros [I Q] Hm Hw2 Hpid Hfew Hp Hkept Hzero Hk2 Hflushed
    [R1 R2 R3 R4 R5 R6 R7 R8 R9 R9' R9'' (f & Hf & Hl & R10 & Hold)] -> Htab.
  bpm_cbn. assert (i < length (frames s))%nat as Hlt by (by apply lookup_lt_Some in Hf).
  set (f2 := mkFrame (frame_data f) (RwReaders 0) i (frame_dirty f) (Some p) 1) in *.
  set (s2 := set_channels c _). assert (frames s2 !! i = Some f2) as Hf2.
  { unfold s2. bpm_cbn. by rewrite R10, list_lookup_insert_eq. }
  rewrite (run_frame_lock i f2 _ _ Hf2). unfold write_data, rw_write. cbn [f2 frame_lock].
  eexists _, f. split; [reflexivity|]. set (f3 := with_rw RwWriter f2). set (s' := set_frames _ s2).
  assert (frames s' = <[i := f3]> (frames s)) as Hfr.
  { unfold s', s2. bpm_cbn. by rewrite R10, list_insert_insert_eq. }
  assert (page_table s' = page_table s1) as Ht by done.
  assert (disk_manager s' = w2) as Hd by done.
  assert (page_table s' !! p = Some i) as Hpt by (by rewrite Ht, R2, lookup_insert_eq).
  assert (frames s' !! i = Some f3) as Hf3 by (by rewrite Hfr, list_lookup_insert_eq).
  assert (knows (delete p m) s') as Hm'.
  { apply (knows_moved gs m s s' p i f old I Hm Hp Hf).
    - destruct old as [q|]; apply Hold.
    - by rewrite Ht, R2.
    - intros j Hj. by rewrite Hfr, list_lookup_insert_ne.
    - intros q d Hq Hne Hno Hdq. rewrite Hd. apply Hk2; [done|done| |by apply Hkept]. intros Hfq. apply Hno.
      destruct old as [q'|]; [|by destruct Hold as [-> _]]. destruct Hold as [_ Hold].
      rewrite Hold in Hfq. destruct (frame_dirty f); [|done]. injection Hfq as ->. done.
    - intros q -> Hdirty. destruct Hold as [_ Hold]. rewrite Hdirty in Hold. rewrite Hd. by apply Hflushed. }
  split; [split|split; [done|split; [done|split; [|split; [done|split; [by exists f3|split]]]]]].
  - apply (core_close i gs s' p f3); try done.
    apply (core_step i gs s1 s' f3); try done; try (by apply R1); try (by left);
      by rewrite Hfr, R10, list_insert_insert_eq.
  - destruct Q as [Q1 Q2 Q3 Q4 Q5]. split; unfold s', s2 in *; bpm_cbn; try done; congruence.
  - intros q Hq. rewrite Ht, R2, lookup_insert_ne by done. destruct old as [q'|]; [|done].
    intros [j [_ Hj]%lookup_delete_Some]. by exists j.
  - apply knows_with; [done..|]. unfold shows. rewrite Hpt. exists f3. split; [done|]. split; [done|].
    intros _. right. intros d. cbn [snd]. intros [= <-]. by rewrite Hd.
  - case_decide as Hfree.
    + destruct old as [q|]; [exists q; apply Hold|]. destruct Hold as [_ Hi]. rewrite Hfree in Hi.
      by apply not_elem_of_nil in Hi.
    + rewrite (R9' Hfree) in Hold. destruct Hold as [_ Hi]. by apply (pc_fresh _ _ _ I i f).
Qed.

Lemma creating_unlock gs s p i flush old s1 :
  page_table_state s = Unlocked -> creating gs (set_table_state Locked s) p i flush old s1 ->
  creating gs s p i flush old (set_table_state Unlocked s1).
Proof.
  intros Hu [L1 L2 L3 L4 L5 L6 L7 L8 L9 L10 L10' L11]. split; bpm_cbn; try done.
  by eapply pool_core_ext; [..|exact L1].
Qed.

Lemma flushes_empty s (flush : option (PageId * list Z)) q :
  (forall q', is_Some (flushes (page_io_processing s) !! q') <-> flush_page flush = Some q') ->
  flush = None \/ flush_page flush = Some q -> delete q (flushes (page_io_processing s)) = ∅.
Proof.
  intros Hfl Hor. apply map_eq. intros q'. rewrite lookup_empty, lookup_delete_None.
  destruct (decide (q = q')) as [->|Hne]; [by left|right].
  destruct (flushes (page_io_processing s) !! q') eqn:E; [|done].
  assert (flush_page flush = Some q') by (apply Hfl; by eexists). destruct Hor as [->|?]; [done|congruence].
Qed.

(** A full pool has no page to write. *)
Lemma full_no_flush gs s : pool_core None gs s -> pool_full s -> flush_due s = None.
Proof.
  intros I [Hfree Hel]. unfold flush_due. rewrite Hfree.
  destruct (ev_victim_law BufferPoolError (evictor s) (pc_ev _ _ _ I)) as (v & ev' & -> & _ & _ & Hi).
  destruct v as [i|]; [|done]. destruct Hi as [Hi _]. rewrite Hel in Hi. by apply not_elem_of_empty in Hi.
Qed.

Lemma create_page_ok gs m s t :
  pool_inv gs s -> knows m s -> id_ok t -> zlen gs + 1 < 2 ^ 63 -> fresh_page t s ->
  match run (create_page show_io t) s with
  | Some (Ok g, s') => exists i p f, g = PageWriteGuard i /\ table_id p = t /\ pid_ok p
      /\ ~ pool_full s /\ create_error t s = None /\ created gs m p i f s s'
  | Some (Err e, s') => create_error t s = Some e
  | Some (Panic, s') => pool_full s /\ create_error t s = None /\ page_table_state s' = Poisoned
  | None => False
  end.
Proof.
  intros Hinv Hm Ht Hfew Hfresh. pose proof Hinv as [I Q]. pose proof Q as [Q1 Q2 Q3 Q4 Q5].
  unfold fresh_page in Hfresh. unfold create_error, create_page.
  rewrite run_bind, run_map_err, run_on_disk.
  pose proof (ps_allocate_law t (disk_manager s) (pc_disk _ _ _ I) Ht) as Ha.
  destruct (ps_allocate t (disk_manager s)) as [[p|e|] w1] eqn:Halloc; cbn [fst snd]; [|done|done].
  destruct Ha as (Hw1 & Hpid & Htid & Hzero & Hkept). cbn beta iota.
  assert (pool_core None gs (set_table_state Locked (set_disk w1 s))) as I1
    by (eapply pool_core_ext; [..|exact (core_disk None gs s w1 Hw1 I)]; done).
  pose proof (run_create_lookup gs _ p I1 (quiet_looking (set_disk w1 s) (quiet_ext s (set_disk w1 s) eq_refl eq_refl eq_refl eq_refl Q)) Hfresh Hpid) as Hlook.
  rewrite run_bind, run_with_lock by done. cbn [mutex_set page_table_mutex].
  case_decide as Hfull.
  { destruct Hlook as (s1 & -> & _). cbn beta iota. split; [done|]. split; [|done].
    unfold flush_error. by rewrite (full_no_flush gs s I). }
  destruct Hlook as (i & flush & old & s1 & Hcr & ->). cbn beta iota.
  change (unlock page_table_mutex (Ok (i, flush)) s1) with (set_table_state Unlocked s1).
  apply (creating_unlock gs (set_disk w1 s)) in Hcr; [|done]. set (s1u := set_table_state Unlocked s1) in *.
  pose proof (cr_due _ _ _ _ _ _ _ Hcr) as Hdue. rewrite (flush_due_ext s) in Hdue by done.
  unfold flush_error. rewrite <- Hdue.
  assert (forall w2 c, ps_inv w2 -> ps_page w2 p = Some (fill 0 PAGE_SIZE) ->
    (forall q d, q <> p -> pid_ok q -> ~ (flush_page flush = Some q) -> ps_page w1 q = Some d -> ps_page w2 q = Some d) ->
    (forall q d, flush = Some (q, d) -> ps_page w2 q = Some d) ->
    exists s' f, run (frame_lock_on (E := BufferPoolError) i write_data;; mret (PageWriteGuard i))
                   (set_channels c (set_flushes ∅ (set_disk w2 s1u))) = Some (Ok (PageWriteGuard i), s')
      /\ created gs m p i f s s') as Hend.
  { intros w2 c Hw2 Hz2 Hk2 Hf2.
    destruct (create_done gs m s w1 w2 p i flush old s1u _ c Hinv Hm Hw2 Hpid Hfew Hfresh Hkept Hz2 Hk2 Hf2 Hcr eq_refl)
      as (s' & f & Hr & ?); [done|].
    exists s', f. by rewrite run_bind, Hr. }
  destruct flush as [[q d]|].
  - assert (page_table s !! q = Some i /\ zlen d = PAGE_SIZE) as [Hq Hdl].
    { destruct (cr_frame _ _ _ _ _ _ _ Hcr) as (f & Hf & Hl & _ & Hold). destruct old as [q'|]; [|by destruct Hold].
      destruct Hold as [Hq E]. destruct (frame_dirty f); [|done]. injection E as -> ->. done. }
    destruct (pc_table _ _ _ I _ _ Hq) as (Hqid & _ & _).
    assert (q <> p) as Hqp by congruence.
    rewrite run_bind, run_bind, run_map_err, run_on_disk. rewrite (cr_disk _ _ _ _ _ _ _ Hcr). cbn [disk_manager set_disk].
    pose proof (ps_write_law q d w1 Hw1 Hqid Hdl) as Hwr. cbn [mbind option_bind].
    destruct (ps_write q d w1) as [[[]|e|] w2] eqn:Hw; cbn [fst snd]; [|done|done].
    destruct Hwr as (Hw2 & Hpq & Hoth). cbn beta iota.
    destruct (run_finish_flush q (set_disk w2 s1u)) as [c ->].
    { bpm_cbn. pose proof (cr_io_state _ _ _ _ _ _ _ Hcr) as E. by rewrite E. }
    cbn beta iota. change (flushes (page_io_processing (set_disk w2 s1u))) with (flushes (page_io_processing s1u)).
    rewrite (flushes_empty s1u (Some (q, d)) q) by (apply Hcr || by right).
    destruct (Hend w2 c Hw2) as (s' & f & -> & ?).
    + apply Hoth; done.
    + intros q' d' Hne Hq' Hno Hd'. apply Hoth; [done| |done]. intros ->. by apply Hno.
    + by intros q' d' [= <- <-].
    + by exists i, p, f.
  - rewrite run_bind, run_ret. cbn beta iota.
    assert (s1u = set_channels (channels s1u) (set_flushes ∅ (set_disk w1 s1u))) as ->.
    { pose proof (flushes_empty s1u None p (cr_flushes _ _ _ _ _ _ _ Hcr) (or_introl eq_refl)) as E1.
      pose proof (cr_flushes _ _ _ _ _ _ _ Hcr p) as E3.
      pose proof (cr_disk _ _ _ _ _ _ _ Hcr) as E2. cbn [disk_manager set_disk] in E2.
      assert (flushes (page_io_processing s1u) = ∅) as E4.
      { rewrite <- E1. symmetry. apply delete_id. destruct (flushes _ !! p) eqn:E; [|done].
        assert (flush_page None = Some p) by (apply E3; by eexists). done. }
      unfold set_channels, set_flushes, set_io, set_disk. bpm_cbn. rewrite <- E4, <- E2. by destruct s1u as [? ? ? ? ? ? [] ? ? ?]. }
    destruct (Hend w1 (channels s1u) Hw1 Hzero) as (s' & f & -> & ?); [done..|].
    by exists i, p, f.
Qed.
End Props.
