(* ===== verification/BufferPoolHistory.v ===== *)
(** Any history of calls of the buffer pool by one caller: what it reads through
    a guard is what was last written to that page. *)
From stdpp Require Import gmap.
From Stdlib Require Import String.
From S2P Require Import Prelude.
From S2P Require Import Bytes.
From S2P Require Import RustStr.
From S2P Require Import Page.
From S2P Require Import Evictor.
From S2P Require Import FileSystem.
From S2P Require Import FileSystemProps.
From S2P Require Import DiskManager.
From S2P Require Import DiskManagerSpec.
From S2P Require Import DiskManagerProps.
From S2P Require Import PageStore.
From S2P Require Import Prog.
From S2P Require Import Frame.
From S2P Require Import Broadcast.
From S2P Require Import BufferPool.
From S2P Require Import BufferPoolSpec.
From S2P Require Import BufferPoolSteps.
From S2P Require Import BufferPoolCore.
From S2P Require Import BufferPoolFetch.
From S2P Require Import BufferPoolMethods.
From S2P Require Import BufferPoolCreate.
From S2P Require Import BufferPoolProps.

(** * Histories *)

(** What a caller does: the guards it holds are numbered, the last one first;
    an update writes a whole page through a write guard and marks it dirty. *)
Inductive Op :=
| OpCreate (table_id : Z)
| OpRead (page_id : PageId)
| OpWrite (page_id : PageId)
| OpUpdate (k : nat) (data : list Z)
| OpDrop (k : nat).

(** What it sees. *)
Inductive Event :=
| Created (p : PageId) (data : list Z)
| Fetched (p : PageId) (data : list Z)
| Updated (p : PageId) (data : list Z)
| Dropped
| Refused
| Ignored.

(** The events of a history, [m] being what is known of each page: a page is
    fetched with what it showed last, or with what it lapses to.  An update
    settles what a page shows; a created page shows zeros or the bytes of the
    page that was evicted for it, and lapses to zeros. *)
Fixpoint coherent (m : gmap PageId Known) (evs : list Event) : Prop :=
  match evs with
  | [] => True
  | Created p d :: evs =>
      (d = fill 0 PAGE_SIZE \/ exists q b, q <> p /\ m !! q = Some (d, b))
      /\ coherent (<[p := (d, Some (fill 0 PAGE_SIZE))]> m) evs
  | Fetched p d :: evs => fits_known m p d /\ coherent (<[p := (d, lapse m p)]> m) evs
  | Updated p d :: evs => coherent (<[p := settled d]> m) evs
  | _ :: evs => coherent m evs
  end.

Section History.
Context {Ev C Tx Rx W : Type} `{EvictorLaws Ev, BroadcastLaws C Tx Rx, !PageStore W, !PageStoreLaws W}.
#[local] Abbreviation Bpm := (BufferPoolManager Ev C Tx W).
#[local] Abbreviation bpmP := (prog Bpm BufferPoolError).
Variable show_io : IoError -> rstr.
Implicit Types (s : Bpm) (gs : list PageGuard) (m : gmap PageId Known).

Definition client_fetch (fetch : bpmP PageGuard) (p : PageId) gs : bpmP (Event * list PageGuard) :=
  g ← fetch; d ← guard_deref g; mret (Fetched p d, g :: gs).

Definition client_op (op : Op) gs : bpmP (Event * list PageGuard) :=
  match op with
  | OpCreate t =>
      g ← create_page show_io t; p ← guard_page_id (guard_frame g);
      d ← guard_deref g; mret (Created p d, g :: gs)
  | OpRead p => client_fetch (fetch_page_read show_io p) p gs
  | OpWrite p => client_fetch (fetch_page_write show_io p) p gs
  | OpUpdate k data =>
      match gs !! k with
      | Some (PageWriteGuard i) =>
          p ← guard_page_id i; guard_update i data;; mret (Updated p data, gs)
      | _ => mret (Ignored, gs)
      end
  | OpDrop k =>
      match gs !! k with
      | Some g => guard_drop g;; mret (Dropped, delete k gs)
      | None => mret (Ignored, gs)
      end
  end.

(** How a history ends: all of it done; at an error other than a full pool; at
    a panic; at a call that never returns; or because the disk manager was
    about to hand out a page that is cached. *)
Inductive Ending :=
| Finished gs s
| Failed (op : Op) s (e : BufferPoolError)
| Panicked (op : Op) s s'
| Waiting (op : Op) gs s
| Recreated (t : Z) s.

Definition recreates (op : Op) s : bool :=
  match op with
  | OpCreate t =>
      match ps_allocate t (disk_manager s) with
      | (Ok p, _) => bool_decide (is_Some (page_table s !! p))
      | _ => false
      end
  | _ => false
  end.

Definition is_fetch (op : Op) : bool := match op with OpRead _ | OpWrite _ => true | _ => false end.

Fixpoint client_run (ops : list Op) gs s : list Event * Ending :=
  match ops with
  | [] => ([], Finished gs s)
  | op :: ops =>
      if recreates op s then ([], match op with OpCreate t => Recreated t s | _ => Finished gs s end)
      else
        match run (client_op op gs) s with
        | Some (Ok (ev, gs'), s') => let '(evs, e) := client_run ops gs' s' in (ev :: evs, e)
        | Some (Err e, s') =>
            if is_fetch op && bool_decide (pool_full s)
            then let '(evs, e) := client_run ops gs s' in (Refused :: evs, e)
            else ([], Failed op s e)
        | Some (Panic, s') => ([], Panicked op s s')
        | None => ([], Waiting op gs s)
        end
  end.

Definition valid_op (op : Op) : Prop :=
  match op with
  | OpCreate t => id_ok t
  | OpRead p | OpWrite p => pid_ok p
  | OpUpdate _ data => zlen data = PAGE_SIZE
  | OpDrop _ => True
  end.

(** The I/O of the call fails: what it then returns. *)
Definition op_fails (op : Op) s (e : BufferPoolError) : Prop :=
  match op with
  | OpCreate t => create_error show_io t s = Some e
  | OpRead p | OpWrite p =>
      e = BufferFull /\ page_table s !! p = None /\ ~ pool_full s /\ is_Some (fetch_error show_io p s)
  | _ => False
  end.

(** The caller itself holds a guard on the page that excludes the one asked for. *)
Definition op_conflicts (op : Op) gs s : Prop :=
  exists p i, page_table s !! p = Some i
  /\ ((op = OpRead p /\ ~ admits (guards_on gs i) (PageReadGuard i))
      \/ (op = OpWrite p /\ ~ admits (guards_on gs i) (PageWriteGuard i))).

(** ** One call *)

Context `{!FullPages W}.

(** Every cached page is known. *)
Definition covers m s : Prop := forall p, is_Some (page_table s !! p) -> is_Some (m !! p).
Definition tracks m s : Prop := knows m s /\ covers m s.

(** What holds after a call: [m'] is what is known of the pages then. *)
Definition op_done gs m (r : outcome BufferPoolError (Event * list PageGuard)) s s' (op : Op) : Prop :=
  match r with
  | Ok (ev, gs') => exists m', pool_inv gs' s' /\ tracks m' s' /\ zlen gs' <= zlen gs + 1
      /\ forall evs, coherent m' evs -> coherent m (ev :: evs)
  | Err e => (is_fetch op = true /\ e = BufferFull /\ pool_full s /\ pool_inv gs s' /\ tracks m s')
             \/ (~ (is_fetch op = true /\ pool_full s) /\ op_fails op s e)
  | Panic => (exists t, op = OpCreate t /\ create_error show_io t s = None)
             /\ pool_full s /\ page_table_state s' = Poisoned
  end.

Lemma run_guard_page_id {E} i f p s :
  frames s !! i = Some f -> frame_page_id f = Some p ->
  run (guard_page_id (E := E) i) s = Some (Ok p, s).
Proof.
  intros Hf Hp. unfold guard_page_id, get_page_id. rewrite run_bind, (run_frame_get i f) by done.
  cbn beta iota. by rewrite Hp, run_atomic.
Qed.

Lemma covers_insert m s s' p k :
  covers m s -> (forall q, q <> p -> is_Some (page_table s' !! q) -> is_Some (page_table s !! q)) ->
  covers (<[p := k]> m) s'.
Proof.
  intros Hc Ht q Hq. destruct (decide (p = q)) as [->|Hne]; [rewrite lookup_insert_eq; by eexists|].
  rewrite lookup_insert_ne by done. apply Hc, Ht; [congruence|done].
Qed.

Lemma client_fetch_ok mk op p gs m s :
  pool_inv gs s -> tracks m s -> pid_ok p -> zlen gs + 1 < 2 ^ 63 -> (forall i, guard_frame (mk i) = i) ->
  is_fetch op = true -> (forall e, op_fails op s e = op_fails (OpRead p) s e) ->
  match run (client_fetch (fetch_guard show_io mk p) p gs) s with
  | Some (r, s') => op_done gs m r s s' op
  | None => exists i, page_table s !! p = Some i /\ ~ admits (guards_on gs i) (mk i)
  end.
Proof.
  intros Hinv [Hm Hcov] Hp Hfew Hmk Hop Hfail. unfold client_fetch. rewrite run_bind.
  assert (forall g s', fetched gs m p g s s' ->
    match run (d ← guard_deref g; mret (Fetched p d, g :: gs)) s' with
    | Some (r, s') => op_done gs m r s s' op
    | None => exists i, page_table s !! p = Some i /\ ~ admits (guards_on gs i) (mk i)
    end) as Hread.
  { intros g s' (Hinv' & Hpt & Ht & f & Hf & Hfit & Hm'). rewrite run_bind.
    unfold guard_deref. rewrite (run_frame_get _ f) by done. cbn beta iota. rewrite run_ret.
    exists (<[p := (frame_data f, lapse m p)]> m). split_and!; [done|split; [done|]|rewrite zlen_cons; lia|done].
    by apply (covers_insert m s). }
  destruct (page_table s !! p) as [i|] eqn:Hpt.
  - pose proof (fetch_guard_hit show_io gs m s p i mk Hinv Hm Hpt Hfew (Hmk i)) as Hh. case_decide as Ha.
    + destruct Hh as (s' & -> & Hd & _). cbn beta iota. by apply Hread.
    + rewrite Hh. by exists i.
  - pose proof (fetch_guard_miss show_io gs m s p mk Hinv Hm Hpt Hp Hfew Hmk) as Hh.
    destruct (run (fetch_guard show_io mk p) s) as [[[g|e|] s']|]; [..|done|done].
    + destruct Hh as (_ & _ & _ & Hd). by apply Hread.
    + destruct Hh as [-> [(? & ? & ? & Ht)|[Hno Hf]]]; [left; split_and!; try done|right].
      * split; [done|]. intros q. rewrite Ht. apply Hcov.
      * rewrite Hfail. split; [by intros [_ ?]|]. done.
Qed.

Lemma client_create_ok t gs m s :
  pool_inv gs s -> tracks m s -> id_ok t -> zlen gs + 1 < 2 ^ 63 -> fresh_page t s ->
  match run (client_op (OpCreate t) gs) s with
  | Some (r, s') => op_done gs m r s s' (OpCreate t)
  | None => False
  end.
Proof.
  intros Hinv [Hm Hcov] Ht Hfew Hfresh.
  pose proof (create_page_ok show_io gs m s t Hinv Hm Ht Hfew Hfresh) as Hc. cbn [client_op]. rewrite run_bind.
  destruct (run (create_page show_io t) s) as [[[g|e|] s']|]; [| | |done].
  - destruct Hc as (i & p & f & -> & _ & _ & _ & _ & Hinv' & Hnew & Hpt & Htab & Hf & (f' & Hf' & Hd & Hpg) & Hm' & Hz).
    cbn beta iota. rewrite run_bind, (run_guard_page_id _ f' p) by done. cbn beta iota. rewrite run_bind.
    unfold guard_deref. rewrite (run_frame_get _ f') by done. cbn beta iota. rewrite run_ret, Hd.
    exists (<[p := (frame_data f, Some (fill 0 PAGE_SIZE))]> m).
    split_and!; [done|split; [done|by apply (covers_insert m s)]|rewrite zlen_cons; lia|].
    intros evs Hevs. split; [|done]. case_decide as Hfree; [right|by left]. destruct Hz as [q Hq].
    destruct (Hcov q) as [[d b] Hk]; [by eexists|]. exists q, b.
    destruct (Hm q _ Hk) as [_ Hs]. unfold shows in Hs. rewrite Hq in Hs. destruct Hs as (f0 & Hf0 & Hd0 & _).
    assert (f0 = f) as -> by congruence. cbn in Hd0. split; [|by rewrite Hd0]. intros ->. by rewrite Hnew in Hq.
  - right. split; [by intros [? _]|done].
  - destruct Hc as (? & ? & ?). split; [by exists t|done].
Qed.

Lemma client_op_ok op gs m s :
  pool_inv gs s -> tracks m s -> valid_op op -> zlen gs + 1 < 2 ^ 63 -> recreates op s = false ->
  match run (client_op op gs) s with
  | Some (r, s') => op_done gs m r s s' op
  | None => op_conflicts op gs s
  end.
Proof.
  intros Hinv Hm Hv Hfew Hre. pose proof Hinv as [I Q]. destruct op as [t|p|p|k data|k].
  - assert (fresh_page t s) as Hfresh.
    { unfold fresh_page. cbn in Hre. destruct (ps_allocate t (disk_manager s)) as [[p|e|] w]; [|done..].
      apply bool_decide_eq_false in Hre. by apply eq_None_not_Some. }
    pose proof (client_create_ok t gs m s Hinv Hm Hv Hfew Hfresh) as Hc.
    by destruct (run _ s) as [[r s']|].
  - cbn [client_op]. rewrite fetch_read_guard.
    pose proof (client_fetch_ok PageReadGuard (OpRead p) p gs m s Hinv Hm Hv Hfew (fun _ => eq_refl) eq_refl (fun _ => eq_refl)) as Hc.
    destruct (run _ s) as [[r s']|]; [done|]. destruct Hc as (i & Hi & Ha). exists p, i. split; [done|]. by left.
  - cbn [client_op]. rewrite fetch_write_guard.
    pose proof (client_fetch_ok PageWriteGuard (OpWrite p) p gs m s Hinv Hm Hv Hfew (fun _ => eq_refl) eq_refl (fun _ => eq_refl)) as Hc.
    destruct (run _ s) as [[r s']|]; [done|]. destruct Hc as (i & Hi & Ha). exists p, i. split; [done|]. by right.
  - cbn [client_op]. destruct Hm as [Hm Hcov].
    destruct (gs !! k) as [[i|i]|] eqn:Hk; [..|]; try (exists m; split_and!; [done|done|lia|done]).
    apply list_elem_of_lookup_2 in Hk.
    destruct (run_guard_update (E := BufferPoolError) gs m s _ data Hinv Hm Hk Hv) as (s' & p & Hr & Hinv' & Hp & Ht & _ & Hm').
    destruct (cached_frame gs s p i I Hp) as (f & Hf & Hpg & _).
    rewrite run_bind, (run_guard_page_id i f p) by done. cbn beta iota. rewrite run_bind. cbn [guard_frame] in Hr.
    rewrite Hr. cbn beta iota. rewrite run_ret. exists (<[p := settled data]> m).
    split_and!; [done|split; [done|]|lia|done]. apply (covers_insert m s); [done|]. intros q _. by rewrite Ht.
  - cbn [client_op]. destruct Hm as [Hm Hcov].
    destruct (gs !! k) as [g|] eqn:Hk; [|exists m; split_and!; [done|done|lia|done]].
    pose proof (delete_Permutation gs k g Hk) as Hperm.
    assert (pool_inv (g :: delete k gs) s) as Hinv1 by (split; [by apply (pool_core_perm None gs)|done]).
    destruct (run_guard_drop (E := BufferPoolError) (delete k gs) m s g Hinv1 Hm) as (s' & Hr & Hinv' & Hm' & Ht & _).
    rewrite run_bind, Hr. cbn beta iota. rewrite run_ret. exists m.
    split_and!; [done|split; [done|]|unfold zlen; rewrite length_delete by (by eexists); lia|done].
    intros q. rewrite Ht. apply Hcov.
Qed.

(** C1: One caller of the buffer pool, doing anything in any order with any
    number of guards: each page it fetches shows what it last wrote to that
    page, or, before that, what the disk held, whatever was evicted and flushed
    in between.  A page it has created shows zeros, or the bytes of the page that
    was evicted for it, and until it writes the page a later fetch shows either
    these bytes again or the zeros on the disk.  A full pool refuses a fetch and
    is unharmed, so the caller can drop guards and go on.  The history ends early
    only where the read, the allocation or the flush that this very call makes
    fails (with the error of the call), at a page the caller has locked itself,
    at [create_page] in a full pool, which panics and poisons the page table, or
    where the page counter of a table has come round to a page that is cached. *)
Theorem pool_history ops gs m s :
  pool_inv gs s -> tracks m s -> Forall valid_op ops -> zlen gs + zlen ops < 2 ^ 63 ->
  let '(evs, e) := client_run ops gs s in
  coherent m evs
  /\ match e with
     | Finished gs' s' => pool_inv gs' s' /\ exists m', tracks m' s'
     | Failed op s' e => op_fails op s' e
     | Panicked op s' s'' =>
         (exists t, op = OpCreate t /\ create_error show_io t s' = None)
         /\ pool_full s' /\ page_table_state s'' = Poisoned
     | Waiting op gs' s' => op_conflicts op gs' s'
     | Recreated t s' => ~ fresh_page t s'
     end.
Proof.
  revert gs m s. induction ops as [|op ops IH]; intros gs m s Hinv Hm Hv Hfew; [split_and!; eauto; done|].
  apply Forall_cons in Hv as [Hv Hvs]. rewrite zlen_cons in Hfew. pose proof (zlen_nonneg ops). cbn [client_run].
  destruct (recreates op s) eqn:Hre.
  { destruct op; cbn in Hre; try done. split; [done|]. unfold fresh_page.
    destruct (ps_allocate table_id (disk_manager s)) as [[p|e|] w]; [|done..].
    apply bool_decide_eq_true in Hre as [i Hi]. by rewrite Hi. }
  pose proof (client_op_ok op gs m s Hinv Hm Hv ltac:(lia) Hre) as Hop.
  destruct (run (client_op op gs) s) as [[[[ev gs']|e|] s']|]; [| | |done].
  - destruct Hop as (m' & Hinv' & Hm' & Hlen & Hco). specialize (IH gs' m' s' Hinv' Hm' Hvs ltac:(lia)).
    destruct (client_run ops gs' s') as [evs e]. destruct IH as [Hevs He]. split; [by apply Hco|done].
  - destruct Hop as [(Hf & -> & Hfull & Hinv' & Hm')|[Hno Hf]].
    + rewrite Hf, bool_decide_eq_true_2 by done. cbn [andb].
      specialize (IH gs m s' Hinv' Hm' Hvs ltac:(lia)).
      destruct (client_run ops gs s') as [evs e]. by destruct IH.
    + destruct (is_fetch op && bool_decide (pool_full s)) eqn:Hb; [|done].
      apply andb_true_iff in Hb as [Hb1 Hb2]. apply bool_decide_eq_true in Hb2. by destruct Hno.
  - by split.
Qed.
End History.

(** * A new pool *)

Lemma bpm_new_inv {C Tx W} `{PageStoreLaws W} n (w : W) (c : C) :
  ps_inv w -> pool_inv [] (bpm_new (Tx := Tx) n w c).
Proof.
  intros Hw. destruct (clock_new_inv n) as [Hc He].
  assert (forall j f, (frame_new <$> seq 0 n) !! j = Some f -> f = frame_new j) as Hfr.
  { intros j f. rewrite list_lookup_fmap, fmap_Some. intros (i & [-> _]%lookup_seq & ->). done. }
  split; [split|done]; unfold bpm_new; bpm_cbn; try done.
  - cbn. by rewrite length_replicate, length_fmap, length_seq.
  - intros j f ->%Hfr. split_and!; [done|by apply zlen_fill|done].
  - apply NoDup_seq.
  - intros j. rewrite length_fmap, length_seq, elem_of_seq. split; [|lia].
    intros Hj. split_and!; [lia|done|]. intros q. by rewrite lookup_empty.
  - intros j. change (j ∈ eligible (clock_new n) <-> None <> Some j /\ guards_on [] j = []
      /\ exists q, (∅ : gmap PageId nat) !! q = Some j). rewrite He. split; [by intros ?%not_elem_of_empty|].
    intros (_ & _ & q & Hq). by rewrite lookup_empty in Hq.
  - by intros g Hg%not_elem_of_nil.
  - intros j f _ ->%Hfr. done.
Qed.

Lemma bpm_new_tracks {C Tx W} `{PageStoreLaws W} n (w : W) (c : C) (m : gmap PageId (list Z)) :
  (forall p d, m !! p = Some d -> pid_ok p /\ ps_page w p = Some d) ->
  tracks (settled <$> m) (bpm_new (Tx := Tx) n w c).
Proof.
  intros Hm. split; [|intros p [i Hi]; cbn in Hi; by rewrite lookup_empty in Hi].
  apply contents_knows. intros p d Hp. destruct (Hm p d Hp). split; [done|].
  unfold holds. cbn. by rewrite lookup_empty.
Qed.

(** ** In memory *)

(** Table 7 with two pages, and a pool of [n] frames on it. *)
Definition mem_pages : DiskManager MemFile * MemFs := (allocate_page 7 (allocate_page 7 mem_table).2).2.
Definition mem_pool (n : nat) :
  BufferPoolManager ClockEvictorState Channels nat (DiskManager MemFile * MemFs) := bpm_new n mem_pages channels_new.

Lemma mem_pages_inv : dm_inv mem_pages.
Proof.
  destruct mem_table_inv as [Hinv _]. assert (id_ok 7) as Hid by (unfold id_ok; lia).
  assert (is_ok (allocate_page 7 mem_table).1 = true) as H1 by (by vm_compute).
  assert (is_ok (allocate_page 7 (allocate_page 7 mem_table).2).1 = true) as H2 by (by vm_compute).
  unfold mem_pages. pose proof (allocate_page_ok mem_table 7 Hinv Hid) as Ha.
  destruct (allocate_page 7 mem_table) as [[p|e|] s1]; [|done|done]. destruct Ha as (d & _ & _ & Hinv1 & _).
  cbn [fst snd] in *. pose proof (allocate_page_ok s1 7 Hinv1 Hid) as Ha.
  destruct (allocate_page 7 s1) as [[q|e|] s2]; [|done|done]. by destruct Ha as (d2 & _ & _ & ? & _).
Qed.

Lemma mem_pool_inv n : pool_inv [] (mem_pool n).
Proof. apply bpm_new_inv, mem_pages_inv. Qed.

(** The bytes of page 0 show in the page that is created for it, until that page
    is evicted. *)
Lemma pool_history_witness :
  let p0 := mkPageId 7 0 in let p2 := mkPageId 7 2 in let nines := fill 9 PAGE_SIZE in
  let zeros := fill 0 PAGE_SIZE in
  let ops := [OpWrite p0; OpUpdate 0 nines; OpDrop 0; OpRead p0; OpDrop 0; OpRead (mkPageId 7 1); OpDrop 0;
              OpRead p0; OpDrop 0; OpCreate 7; OpDrop 0; OpRead p2; OpDrop 0; OpRead p0; OpDrop 0; OpRead p2] in
  let '(evs, e) := client_run (Rx := nat * nat) (fun _ => []) ops [] (mem_pool 1) in
  evs = [Fetched p0 zeros; Updated p0 nines; Dropped; Fetched p0 nines; Dropped; Fetched (mkPageId 7 1) zeros; Dropped;
         Fetched p0 nines; Dropped; Created p2 nines; Dropped; Fetched p2 nines; Dropped; Fetched p0 nines; Dropped;
         Fetched p2 zeros]
  /\ coherent {[p0 := settled zeros]} evs
  /\ match e with Finished gs s => pool_inv gs s | _ => True end.
Proof.
  intros p0 p2 nines zeros ops.
  assert (tracks {[p0 := settled zeros]} (mem_pool 1)) as Hm.
  { rewrite <- map_fmap_singleton. apply bpm_new_tracks. intros p d [<- <-]%lookup_singleton_Some.
    split; [split; unfold id_ok; cbn; lia|]. by vm_compute. }
  assert (Forall valid_op ops) as Hv.
  { repeat constructor; unfold id_ok; cbn; lia. }
  assert (Hh := pool_history (Rx := nat * nat) (fun _ => []) ops [] _ _ (mem_pool_inv 1) Hm Hv ltac:(done)).
  assert (He : (client_run (Rx := nat * nat) (fun _ => []) ops [] (mem_pool 1)).1
    = [Fetched p0 zeros; Updated p0 nines; Dropped; Fetched p0 nines; Dropped; Fetched (mkPageId 7 1) zeros; Dropped;
         Fetched p0 nines; Dropped; Created p2 nines; Dropped; Fetched p2 nines; Dropped; Fetched p0 nines; Dropped;
         Fetched p2 zeros]) by (by vm_compute).
  destruct (client_run (fun _ => []) ops [] (mem_pool 1)) as [evs e]. destruct Hh as [Hc He'].
  split; [exact He|]. split; [exact Hc|]. destruct e; try done. by destruct He'.
Defined.
