(* ===== verification/BufferPoolLost.v ===== *)
(** A page whose load has failed: it stays in the page table, and its fetch
    stays announced through a sender that nobody will use.  No later call of the
    pool changes that. *)
From stdpp Require Import gmap.
From Stdlib Require Import String.
From S2P Require Import Prelude.
From S2P Require Import Bytes.
From S2P Require Import RustStr.
From S2P Require Import Page.
From S2P Require Import Evictor.
From S2P Require Import FileSystem.
From S2P Require Import DiskManagerSpec.
From S2P Require Import DiskManagerProps.
From S2P Require Import PageStore.
From S2P Require Import Prog.
From S2P Require Import Frame.
From S2P Require Import Broadcast.
From S2P Require Import BufferPool.
From S2P Require Import BufferPoolSpec.
From S2P Require Import BufferPoolSteps.
From S2P Require Import BufferPoolMethods.
From S2P Require Import BufferPoolCreate.
From S2P Require Import BufferPoolHistory.

Section Lost.
Context {Ev C Tx Rx W : Type} `{EvictorLaws Ev, BroadcastLaws C Tx Rx, !PageStore W}.
#[local] Abbreviation Bpm := (BufferPoolManager Ev C Tx W).
#[local] Abbreviation bpmP := (prog Bpm BufferPoolError).
Variable show_io : IoError -> rstr.

(** The page [p] is lost in frame [i] out of [N]; [tx] is the sender in
    [fetches]. *)
Variables (p : PageId) (i N : nat) (tx : Tx).

Record lost (s : Bpm) : Prop := {
  lo_ev : ev_inv (evictor s);
  lo_cap : ev_capacity (evictor s) = N;
  lo_len : length (frames s) = N;
  lo_range : (i < N)%nat;
  lo_table : page_table s !! p = Some i;
  lo_alone : forall q, page_table s !! q = Some i -> q = p;
  lo_free : i ∉ free_frames s;
  lo_kept : i ∉ ev_eligible (evictor s);
  lo_ids : forall j f, frames s !! j = Some f -> frame_id f = j;
  lo_pages : forall j f, j <> i -> frames s !! j = Some f -> frame_page_id f <> Some p;
  lo_fetch : fetches (page_io_processing s) !! p = Some tx;
  lo_live : bc_live (channels s) tx;
  lo_fetches : forall q, q <> p -> fetches (page_io_processing s) !! q <> Some tx;
  lo_flushes : forall q, flushes (page_io_processing s) !! q <> Some tx;
}.

(** * Programs that keep it so *)

(** [m], run alone, ends with a result in [Q] if it ends. *)
Definition keeps_lost {E A} (m : prog Bpm E A) (Q : outcome E A -> Prop) : Prop :=
  forall s, lost s -> match run m s with Some (r, s') => lost s' /\ Q r | None => True end.

Definition on_ok {E A} (F : A -> Prop) (r : outcome E A) : Prop := match r with Ok a => F a | _ => True end.
Definition whatever {A} (_ : A) : Prop := True.

Lemma lost_done {E A} (r : outcome E A) (Q : _ -> Prop) : Q r -> keeps_lost (Done r) Q.
Proof. intros HQ s Hs. by split. Qed.

Lemma lost_ret {E A} (a : A) (F : A -> Prop) : F a -> keeps_lost (mret a : prog Bpm E A) (on_ok F).
Proof. intros. by apply lost_done. Qed.

Lemma lost_on_result {E E' A B} (m : prog Bpm E A) (k : outcome E A -> prog Bpm E' B) Q R :
  keeps_lost m Q -> (forall r, Q r -> keeps_lost (k r) R) -> keeps_lost (on_result m k) R.
Proof.
  intros Hm Hk s Hs. rewrite run_on_result. specialize (Hm s Hs).
  destruct (run m s) as [[r s']|]; [|done]. destruct Hm. by apply Hk.
Qed.

Lemma lost_bind {E A B} F (m : prog Bpm E A) (k : A -> prog Bpm E B) G :
  keeps_lost m (on_ok F) -> (forall a, F a -> keeps_lost (k a) (on_ok G)) -> keeps_lost (m ≫= k) (on_ok G).
Proof. intros Hm Hk. eapply lost_on_result; [exact Hm|]. intros [a|e|] Hr; [by apply Hk|by apply lost_done..]. Qed.

Lemma lost_mono {E A} (m : prog Bpm E A) (Q R : outcome E A -> Prop) :
  (forall r, Q r -> R r) -> keeps_lost m Q -> keeps_lost m R.
Proof.
  intros HQ Hm s Hs. specialize (Hm s Hs). destruct (run m s) as [[r s']|]; [|done]. destruct Hm. auto.
Qed.

Lemma lost_map_err {E E' A} (g : E -> E') (m : prog Bpm E A) F :
  keeps_lost m (on_ok F) -> keeps_lost (prog_map_err g m) (on_ok F).
Proof. intros Hm. eapply lost_on_result; [exact Hm|]. intros [a|e|] Hr; by apply lost_done. Qed.

Lemma lost_atomic {E A} (m : stateM Bpm E A) (Q : outcome E A -> Prop) :
  (forall s, lost s -> lost (m s).2 /\ Q (m s).1) -> keeps_lost (atomic m) Q.
Proof. intros Hm s Hs. rewrite run_atomic. specialize (Hm s Hs). by destruct (m s). Qed.

Lemma lost_finally {E A} (m : prog Bpm E A) rel (Q : outcome E A -> Prop) :
  (forall r s, lost s -> lost (rel r s)) -> keeps_lost m Q -> keeps_lost (finally m rel) Q.
Proof.
  intros Hrel Hm s Hs. rewrite run_finally. specialize (Hm s Hs).
  destruct (run m s) as [[r s']|]; [|done]. destruct Hm. auto.
Qed.

(** The fields that do not matter. *)
Ltac lost_fields := intros [L1 L2 L3 L4 L5 L6 L7 L8 L9 L10 L11 L12 L13 L14]; split; bpm_cbn; try done.

Lemma lost_scope {E A} (l : Mutex) (m : prog Bpm E A) F :
  (forall st s, lost s -> lost (mutex_set l st s)) ->
  keeps_lost m (on_ok F) -> keeps_lost (with_lock l m) (on_ok F).
Proof.
  intros Hl Hm. unfold with_lock. apply (lost_bind whatever).
  - intros s Hs. cbn. destruct (mutex_get l s); [split; [by apply Hl|done]|done|by split].
  - intros _ _. apply lost_finally; [|done]. intros r s. apply Hl.
Qed.

Lemma lost_io st s : lost s -> lost (mutex_set page_io_mutex st s).
Proof. lost_fields. Qed.
Lemma lost_free st s : lost s -> lost (mutex_set free_frames_mutex st s).
Proof. lost_fields. Qed.
Lemma lost_tbl st s : lost s -> lost (mutex_set page_table_mutex st s).
Proof. lost_fields. Qed.

(** ** Frames *)

Lemma lost_set_frame j f f' s :
  lost s -> frames s !! j = Some f -> frame_id f' = frame_id f ->
  (frame_page_id f' = frame_page_id f \/ frame_page_id f' <> Some p) ->
  lost (set_frames (<[j := f']> (frames s)) s).
Proof.
  intros Hs Hf Hid Hpg. revert Hs. lost_fields; rewrite ?length_insert; try done.
  - intros k g [(<- & <- & _)|[_ Hg]]%list_lookup_insert_Some; [|by apply L9]. rewrite Hid. by apply L9.
  - intros k g Hk [(<- & <- & _)|[_ Hg]]%list_lookup_insert_Some; [|by apply (L10 k)].
    destruct Hpg as [->|?]; [by apply (L10 j)|done].
Qed.

Lemma lost_frame {E A} j (m : stateM Frame E A) (F : A -> Prop) :
  (forall f, frame_id (m f).2 = frame_id f
    /\ (frame_page_id (m f).2 = frame_page_id f \/ frame_page_id (m f).2 <> Some p)
    /\ (frame_id f = j -> (j < N)%nat -> (j <> i -> frame_page_id f <> Some p) -> on_ok F (m f).1)) ->
  keeps_lost (on_frame j m) (on_ok F).
Proof.
  intros Hm. apply lost_atomic. intros s Hs. destruct (frames s !! j) as [f|] eqn:Hf; [|done].
  destruct (Hm f) as (Hid & Hpg & HF). destruct (m f) as [r f']. cbn [fst snd] in *. split.
  - by apply (lost_set_frame j f).
  - apply HF; [by apply (lo_ids s)|apply lookup_lt_Some in Hf; by rewrite (lo_len s Hs) in Hf|]. intros Hj. by apply (lo_pages s Hs j f).
Qed.

(** An access that changes neither. *)
Lemma lost_frame_keep {E A} j (m : stateM Frame E A) :
  (forall f, frame_id (m f).2 = frame_id f /\ frame_page_id (m f).2 = frame_page_id f) ->
  keeps_lost (on_frame j m) (on_ok whatever).
Proof.
  intros Hm. apply lost_frame. intros f. destruct (Hm f). split_and!; [done|by left|].
  by destruct (m f).1.
Qed.

Lemma lost_frame_lock {E A} j (m : Frame -> option (outcome E A * Frame)) :
  (forall f r f', m f = Some (r, f') -> frame_id f' = frame_id f /\ frame_page_id f' = frame_page_id f) ->
  keeps_lost (frame_lock_on j m) (on_ok whatever).
Proof.
  intros Hm s Hs. cbn. destruct (frames s !! j) as [f|] eqn:Hf; [|done].
  destruct (m f) as [[r f']|] eqn:Hmf; [|done]. destruct (Hm f r f' Hmf).
  split; [apply (lost_set_frame j f); by try left|by destruct r].
Qed.

Lemma lost_read_lock {E} j : keeps_lost (frame_lock_on (E := E) j read_data) (on_ok whatever).
Proof. apply lost_frame_lock. intros f r f'. unfold read_data. case_match; [case_match|done]. by intros [= <- <-]. Qed.
Lemma lost_write_lock {E} j : keeps_lost (frame_lock_on (E := E) j write_data) (on_ok whatever).
Proof. apply lost_frame_lock. intros f r f'. unfold write_data. case_match; [case_match|done]. by intros [= <- <-]. Qed.

Lemma lost_release j (g : Frame -> Frame) s :
  (forall f, frame_id (g f) = frame_id f /\ frame_page_id (g f) = frame_page_id f) ->
  lost s -> lost (release_on j g s).
Proof.
  intros Hg Hs. unfold release_on. destruct (frames s !! j) as [f|] eqn:Hf; [|done].
  destruct (Hg f). apply (lost_set_frame j f); by try left.
Qed.

(** ** The evictor *)

Lemma lost_set_evictor ev s :
  lost s -> ev_inv ev -> ev_capacity ev = ev_capacity (evictor s) ->
  (i ∉ ev_eligible ev) -> lost (set_evictor ev s).
Proof. intros Hs Hi Hc He. revert Hs. lost_fields. congruence. Qed.

Lemma lost_ev_remove {E} j s (f : Frame) :
  lost s -> frames s !! j = Some f ->
  exists ev, ev_remove (E := E) j (evictor s) = (Ok tt, ev) /\ lost (set_evictor ev s).
Proof.
  intros Hs Hf. apply lookup_lt_Some in Hf. rewrite (lo_len s Hs), <- (lo_cap s Hs) in Hf.
  destruct (ev_remove_law E (evictor s) j (lo_ev s Hs) Hf) as (ev & -> & ? & ? & He).
  exists ev. split; [done|]. apply lost_set_evictor; [done..|]. rewrite He. pose proof (lo_kept s Hs). set_solver.
Qed.

(** A pin of any frame, whatever its count is. *)
Lemma run_pin_lost {E} j f s :
  lost s -> frames s !! j = Some f ->
  exists s', run (pin_frame (E := E) j) s = Some (Ok tt, s') /\ lost s'
    /\ page_io_state s' = page_io_state s /\ page_table s' = page_table s.
Proof.
  intros Hs Hf. unfold pin_frame. rewrite run_bind, (run_on_frame j f) by done.
  cbn [increment_pin_count fst snd].
  set (s1 := set_frames _ s). assert (lost s1) as Hs1 by (apply (lost_set_frame j f); by try left).
  case_match; [|by exists s1].
  destruct (lost_ev_remove (E := E) j s1 (with_pins (wrap 64 (frame_pins f + 1)) f) Hs1) as (ev & Hev & Hlost).
  { unfold s1. bpm_cbn. apply list_lookup_insert_eq. by apply lookup_lt_Some in Hf. }
  rewrite run_on_evictor, Hev. by exists (set_evictor ev s1).
Qed.

Lemma lost_pin {E} j : keeps_lost (pin_frame (E := E) j) (on_ok whatever).
Proof.
  intros s Hs. destruct (frames s !! j) as [f|] eqn:Hf.
  - destruct (run_pin_lost (E := E) j f s Hs Hf) as (s' & -> & ? & _). done.
  - unfold pin_frame. rewrite run_bind. unfold on_frame at 1. rewrite run_atomic, Hf. done.
Qed.

Lemma lost_ev_add {E} j :
  j <> i -> (j < N)%nat -> keeps_lost (on_evictor (E := E) (ev_add j)) (on_ok whatever).
Proof.
  intros Hj Hlt s Hs. rewrite run_on_evictor. rewrite <- (lo_cap s Hs) in Hlt.
  destruct (ev_add_law E (evictor s) j (lo_ev s Hs) Hlt) as (ev & -> & ? & ? & He). cbn [fst snd].
  split; [|done]. apply lost_set_evictor; [done..|]. rewrite He. pose proof (lo_kept s Hs). set_solver.
Qed.

Lemma lost_victim {E} : keeps_lost (on_evictor (E := E) ev_victim) (on_ok (fun v => v <> Some i)).
Proof.
  intros s Hs. rewrite run_on_evictor.
  destruct (ev_victim_law E (evictor s) (lo_ev s Hs)) as (v & ev & -> & ? & ? & He). cbn [fst snd on_ok].
  pose proof (lo_kept s Hs). destruct v as [j|]; destruct He as [He1 He2].
  - split; [apply lost_set_evictor; [done..|]; rewrite He2; set_solver|]. intros [= ->]. done.
  - split; [apply lost_set_evictor; [done..|]; rewrite He2; set_solver|done].
Qed.

(** ** Channels *)

Lemma lost_set_channels c s : lost s -> bc_live c tx -> lost (set_channels c s).
Proof. intros Hs Hc. revert Hs. lost_fields. Qed.

Lemma lost_channel {E} : keeps_lost (on_channels (E := E) bc_channel) (on_ok (fun r => r.1 <> tx)).
Proof.
  intros s Hs. rewrite run_on_channels. destruct (bc_channel_keeps tx (channels s) (lo_live s Hs)).
  split; [by apply lost_set_channels|done].
Qed.
Lemma lost_clone {E} t : keeps_lost (on_channels (E := E) (bc_clone t)) (on_ok (fun t' => t' <> tx)).
Proof.
  intros s Hs. rewrite run_on_channels. destruct (bc_clone_keeps t tx (channels s) (lo_live s Hs)).
  split; [by apply lost_set_channels|done].
Qed.
Lemma lost_subscribe {E} t : keeps_lost (on_channels (E := E) (bc_subscribe t)) (on_ok whatever).
Proof.
  intros s Hs. rewrite run_on_channels. pose proof (bc_subscribe_keeps t tx (channels s) (lo_live s Hs)).
  split; [by apply lost_set_channels|done].
Qed.
Lemma lost_drop {E} t : t <> tx -> keeps_lost (on_channels (E := E) (fun c => (tt, bc_drop t c))) (on_ok whatever).
Proof.
  intros Ht s Hs. rewrite run_on_channels. split; [|done]. apply lost_set_channels; [done|].
  cbn [snd]. apply bc_drop_law; [congruence|apply Hs].
Qed.
Lemma lost_send_drop {E} t msg :
  t <> tx -> keeps_lost (on_channels (E := E) (fun c => (tt, bc_drop t (bc_send msg t c)))) (on_ok whatever).
Proof.
  intros Ht s Hs. rewrite run_on_channels. split; [|done]. apply lost_set_channels; [done|].
  cbn [snd]. apply bc_drop_law; [congruence|]. apply bc_send_keeps, Hs.
Qed.

Lemma lost_receive q (rx : Rx) : keeps_lost (receive q rx) (on_ok whatever).
Proof.
  intros s Hs. cbn. destruct (bc_recv rx (channels s)) as [[r c]|] eqn:Hr; [|done].
  pose proof (bc_recv_keeps rx (channels s) r c tx Hr (lo_live s Hs)).
  destruct r; (split; [by apply lost_set_channels|done]).
Qed.

(** ** The page table and the processing map *)

Lemma lost_set_table t s :
  lost s -> t !! p = Some i -> (forall q, t !! q = Some i -> q = p) -> lost (set_table t s).
Proof. intros Hs Hp Hq. revert Hs. lost_fields. Qed.

Lemma lost_get {E A} (g : Bpm -> A) (F : A -> Prop) :
  (forall s, lost s -> F (g s)) -> keeps_lost (atomic (sget (fun s => Ok (g s))) : prog Bpm E A) (on_ok F).
Proof. intros HF. apply lost_atomic. intros s Hs. split; [done|by apply HF]. Qed.

Lemma lost_unwrap {E A} (o : option A) (F : A -> Prop) :
  (forall a, o = Some a -> F a) -> keeps_lost (atomic (slift (unwrap_opt o)) : prog Bpm E A) (on_ok F).
Proof. intros HF. apply lost_atomic. intros s Hs. split; [done|]. destruct o; [by apply HF|done]. Qed.

Lemma lost_map {E} q j :
  q <> p -> j <> i ->
  keeps_lost (atomic (smodify (fun s => set_table (<[q := j]> (page_table s)) s)) : prog Bpm E unit) (on_ok whatever).
Proof.
  intros Hq Hj. apply lost_atomic. intros s Hs. split; [|done]. cbn. apply lost_set_table; [done|..].
  - rewrite lookup_insert_ne by done. apply Hs.
  - intros q' [[_ ?]|[_ Hq']]%lookup_insert_Some; [done|by apply (lo_alone s Hs)].
Qed.

Lemma lost_unmap {E} q :
  q <> p ->
  keeps_lost (atomic (smodify (fun s => set_table (delete q (page_table s)) s)) : prog Bpm E unit) (on_ok whatever).
Proof.
  intros Hq. apply lost_atomic. intros s Hs. split; [|done]. cbn. apply lost_set_table; [done|..].
  - rewrite lookup_delete_ne by done. apply Hs.
  - intros q' [_ Hq']%lookup_delete_Some. by apply (lo_alone s Hs).
Qed.

(** A sender put into the map in place of another one, which is dropped. *)
Lemma lost_put_flush {E} q t :
  t <> tx ->
  keeps_lost (atomic (smodify (fun s => set_flushes (<[q := t]> (flushes (page_io_processing s)))
    (match flushes (page_io_processing s) !! q with
     | Some old => set_channels (bc_drop old (channels s)) s
     | None => s
     end))) : prog Bpm E unit) (on_ok whatever).
Proof.
  intros Ht. apply lost_atomic. intros s Hs. split; [|done]. cbn [smodify snd].
  assert (forall s', lost s' -> lost (set_flushes (<[q := t]> (flushes (page_io_processing s'))) s')) as Hput.
  { intros s'. lost_fields. intros q' [[_ ?]|[_ Hq']]%lookup_insert_Some; [done|by apply (L14 q')]. }
  destruct (flushes (page_io_processing s) !! q) as [old|] eqn:Ho; [|by apply Hput].
  change (flushes (page_io_processing s)) with (flushes (page_io_processing (set_channels (bc_drop old (channels s)) s))).
  apply Hput, lost_set_channels; [done|]. apply bc_drop_law; [|apply Hs]. intros <-. by apply (lo_flushes s Hs q).
Qed.

Lemma lost_put_fetch {E} q t :
  t <> tx -> q <> p ->
  keeps_lost (atomic (smodify (fun s => set_fetches (<[q := t]> (fetches (page_io_processing s)))
    (match fetches (page_io_processing s) !! q with
     | Some old => set_channels (bc_drop old (channels s)) s
     | None => s
     end))) : prog Bpm E unit) (on_ok whatever).
Proof.
  intros Ht Hq. apply lost_atomic. intros s Hs. split; [|done]. cbn [smodify snd].
  assert (forall s', lost s' -> lost (set_fetches (<[q := t]> (fetches (page_io_processing s'))) s')) as Hput.
  { intros s'. lost_fields; [by rewrite lookup_insert_ne|].
    intros q' Hq' [[_ ?]|[_ Hin]]%lookup_insert_Some; [done|by apply (L13 q')]. }
  destruct (fetches (page_io_processing s) !! q) as [old|] eqn:Ho; [|by apply Hput].
  change (fetches (page_io_processing s)) with (fetches (page_io_processing (set_channels (bc_drop old (channels s)) s))).
  apply Hput, lost_set_channels; [done|]. apply bc_drop_law; [|apply Hs]. intros <-. by apply (lo_fetches s Hs q).
Qed.

Lemma lost_take_flush {E} q :
  keeps_lost (atomic (fun s => let '(o, s') := remove_flush q s in (Ok o, s')) : prog Bpm E _)
    (on_ok (fun o => o <> Some tx)).
Proof.
  apply lost_atomic. intros s Hs. cbn. split; [|by apply (lo_flushes s Hs)]. revert Hs. lost_fields.
  intros q' [_ Hin]%lookup_delete_Some. by apply (L14 q').
Qed.

Lemma lost_take_fetch {E} q :
  q <> p ->
  keeps_lost (atomic (fun s => let '(o, s') := remove_fetch q s in (Ok o, s')) : prog Bpm E _)
    (on_ok (fun o => o <> Some tx)).
Proof.
  intros Hq. apply lost_atomic. intros s Hs. cbn. split; [|by apply (lo_fetches s Hs)]. revert Hs. lost_fields.
  - by rewrite lookup_delete_ne.
  - intros q' Hq' [_ Hin]%lookup_delete_Some. by apply (L13 q').
Qed.

Lemma lost_pop : keeps_lost (atomic pop_free) (on_ok (fun o => o <> Some i)).
Proof.
  apply lost_atomic. intros s Hs. cbn. pose proof (lo_free s Hs) as Hf. split.
  - revert Hs. lost_fields. intros Hin. apply Hf. eapply elem_of_submseteq; [exact Hin|].
    apply sublist_submseteq, sublist_take.
  - intros Hl. apply Hf. apply last_Some in Hl as [l ->]. apply elem_of_app. right. by apply list_elem_of_singleton.
Qed.

Lemma lost_disk {A} (m : stateM W IoError A) (F : A -> Prop) :
  (forall w a w', m w = (Ok a, w') -> F a) -> keeps_lost (on_disk m) (on_ok F).
Proof.
  intros HF s Hs. rewrite run_on_disk. split; [revert Hs; lost_fields|].
  specialize (HF (disk_manager s)). destruct (m (disk_manager s)) as [[a|e|] w]; [by eapply HF|done|done].
Qed.

(** * The methods *)

(** One statement, and what follows whatever it returned. *)
Ltac lost_then lem := eapply (lost_bind whatever); [solve [lem]|intros ? _].
Ltac lost_keep := apply lost_frame_keep; by intros f; cbn; repeat case_match.

Lemma lost_page_id {E} j : j <> i -> keeps_lost (on_frame (E := E) j get_page_id) (on_ok (fun o => o <> Some p)).
Proof. intros Hj. apply lost_frame. intros f. split_and!; [done|by left|]. intros _ _ Hp. by apply Hp. Qed.

Lemma lost_set_page_id {E} j q :
  q <> p -> keeps_lost (on_frame (E := E) j (set_page_id (Some q))) (on_ok whatever).
Proof. intros Hq. apply lost_frame. intros f. split_and!; [done|right; cbn; congruence|done]. Qed.

Lemma lost_decrement {E} j :
  keeps_lost (on_frame (E := E) j decrement_pin_count) (on_ok (fun _ => (j < N)%nat)).
Proof.
  apply lost_frame. intros f. unfold decrement_pin_count. case_match; cbn; split_and!; try done; by left.
Qed.

Lemma lost_unpin {E} j : j <> i -> keeps_lost (unpin_frame (E := E) j) (on_ok whatever).
Proof.
  intros Hj. unfold unpin_frame. eapply lost_bind; [apply lost_decrement|]. cbn beta. intros prev Hlt.
  case_match; [by apply lost_ev_add|by apply lost_ret].
Qed.

Lemma lost_evict : keeps_lost evict_page (on_ok (fun r => r.1 <> i)).
Proof.
  unfold evict_page. eapply lost_bind; [apply lost_victim|]. cbn beta. intros [j|] Hj; [|by apply lost_done].
  assert (j <> i) as Hji by congruence.
  eapply lost_bind; [by apply lost_page_id|]. cbn beta. intros o Ho.
  eapply (lost_bind (fun q => q <> p)); [apply lost_unwrap; intros q ->; congruence|]. intros q Hq.
  lost_then ltac:(by apply lost_unmap). lost_then ltac:(lost_keep). case_match; [|by apply lost_ret].
  lost_then ltac:(apply lost_read_lock).
  lost_then ltac:(apply lost_finally; [intros; by apply lost_release|lost_keep]).
  eapply lost_bind; [by apply lost_page_id|]. cbn beta. intros o' Ho'.
  eapply (lost_bind whatever); [by apply lost_unwrap|]. intros q' _. by apply lost_ret.
Qed.

Lemma lost_announce_flush {E} j d : keeps_lost (announce_flush (E := E) j d) (on_ok whatever).
Proof.
  unfold announce_flush. lost_then ltac:(lost_keep). case_match; [|by apply lost_ret].
  lost_then ltac:(by apply lost_unwrap). eapply lost_bind; [apply lost_channel|]. intros [t rx] Ht. cbn in Ht.
  eapply lost_bind; [apply lost_clone|]. cbn beta. intros t' Ht'.
  lost_then ltac:(by apply lost_put_flush). by apply lost_drop.
Qed.

Lemma lost_announce_fetch q : q <> p -> keeps_lost (announce_fetch q) (on_ok (fun t => t <> tx)).
Proof.
  intros Hq. unfold announce_fetch. apply lost_scope; [apply lost_io|].
  eapply lost_bind; [apply lost_channel|]. intros [t rx] Ht. cbn in Ht.
  eapply lost_bind; [apply lost_clone|]. cbn beta. intros t' Ht'.
  lost_then ltac:(by apply lost_put_fetch). by apply lost_ret.
Qed.

Lemma lost_finish take q :
  keeps_lost (atomic (fun s => let '(o, s') := take q s in (Ok o, s')) : bpmP _) (on_ok (fun o => o <> Some tx)) ->
  keeps_lost (finish take q) (on_ok whatever).
Proof.
  intros Ht. unfold finish. apply lost_scope; [apply lost_io|]. eapply lost_bind; [exact Ht|]. cbn beta.
  intros [t|] Ho; [apply lost_send_drop; congruence|by apply lost_ret].
Qed.

Lemma lost_subscribe_to {E} which q : keeps_lost (subscribe_to (E := E) which q) (on_ok whatever).
Proof.
  unfold subscribe_to. apply lost_scope; [apply lost_io|]. lost_then ltac:(by apply lost_get).
  case_match; [|by apply lost_ret]. lost_then ltac:(apply lost_subscribe). by apply lost_ret.
Qed.

Lemma lost_wait_fetch q : keeps_lost (wait_for_page_fetch q) (on_ok whatever).
Proof.
  unfold wait_for_page_fetch. lost_then ltac:(apply lost_subscribe_to).
  case_match; [apply lost_receive|by apply lost_ret].
Qed.
Lemma lost_wait_flush q : keeps_lost (wait_for_page_flush q) (on_ok whatever).
Proof.
  unfold wait_for_page_flush. lost_then ltac:(apply lost_subscribe_to).
  case_match; [apply lost_receive|by apply lost_ret].
Qed.

(** ** Fetching another page *)

Lemma lost_fetch_frame : keeps_lost fetch_frame (on_ok (fun o => forall j d, o = Some (j, d) -> j <> i)).
Proof.
  unfold fetch_frame. eapply lost_bind; [apply lost_scope; [apply lost_free|apply lost_pop]|]. cbn beta.
  intros [j|] Hj; [apply lost_ret; intros j' d [= <- <-]; congruence|].
  apply lost_scope; [apply lost_io|]. eapply lost_on_result; [apply lost_evict|].
  intros [[j d]|e|] Hr; [|by apply lost_ret|by apply lost_done].
  lost_then ltac:(apply lost_announce_flush). apply lost_ret. by intros j' d' [= <- <-].
Qed.

Definition plan_ok (plan : FetchPlan (Tx := Tx)) : Prop :=
  match plan with Hit j => j <> i | Miss j _ t => j <> i /\ t <> tx end.

Lemma lost_fetch_lookup q : q <> p -> keeps_lost (fetch_lookup q) (on_ok plan_ok).
Proof.
  intros Hq. unfold fetch_lookup. eapply (lost_bind (fun o => o <> Some i)).
  { apply lost_get. intros s Hs Hi. by apply Hq, (lo_alone s Hs). }
  intros [j|] Hj; [lost_then ltac:(apply lost_pin); apply lost_ret; cbn; congruence|].
  eapply lost_bind; [apply lost_fetch_frame|]. cbn beta. intros [[j d]|] Hjd; [|by apply lost_done].
  specialize (Hjd j d eq_refl). lost_then ltac:(by apply lost_map). lost_then ltac:(by apply lost_set_page_id).
  lost_then ltac:(lost_keep). lost_then ltac:(apply lost_pin).
  eapply lost_bind; [by apply lost_announce_fetch|]. cbn beta. intros t Ht. by apply lost_ret.
Qed.

Lemma lost_flush_evicted q d : keeps_lost (flush_evicted show_io q d) (on_ok whatever).
Proof.
  unfold flush_evicted. eapply lost_on_result; [by apply (lost_disk _ whatever)|].
  intros [a|e|] _; [apply lost_finish, lost_take_flush| |by apply lost_done].
  lost_then ltac:(apply lost_finish, lost_take_flush). by apply lost_done.
Qed.

Lemma lost_fetch_load q j d : q <> p -> keeps_lost (fetch_load show_io q j d) (on_ok whatever).
Proof.
  intros Hq. unfold fetch_load. lost_then ltac:(apply lost_wait_flush).
  lost_then ltac:(by apply lost_map_err, lost_disk).
  lost_then ltac:(apply lost_write_lock).
  apply lost_finally; [intros; by apply lost_release|]. lost_then ltac:(lost_keep).
  lost_then ltac:(apply lost_finish; by apply lost_take_fetch).
  case_match; [case_match; apply lost_flush_evicted|by apply lost_ret].
Qed.

Lemma lost_fetch_pin q : q <> p -> keeps_lost (fetch_and_pin_frame show_io q) (on_ok (fun j => j <> i)).
Proof.
  intros Hq. unfold fetch_and_pin_frame.
  eapply lost_bind; [apply lost_scope; [apply lost_tbl|by apply lost_fetch_lookup]|].
  intros [j|j d t] Hplan; cbn in Hplan.
  - eapply lost_on_result; [apply lost_wait_fetch|]. intros [a|e|] _; [by apply lost_ret| |by apply lost_done].
    lost_then ltac:(by apply lost_unpin). by apply lost_done.
  - destruct Hplan as [Hj Ht].
    lost_then ltac:(apply lost_finally; [|by apply lost_fetch_load]; intros r s Hs;
      apply lost_set_channels; [done|]; apply bc_drop_law; [congruence|apply Hs]).
    by apply lost_ret.
Qed.

Lemma lost_fetch_guard mk q :
  q <> p -> (forall j, guard_frame (mk j) = j) ->
  keeps_lost (fetch_guard show_io mk q) (on_ok (fun g => guard_frame g <> i)).
Proof.
  intros Hq Hmk. unfold fetch_guard. eapply lost_on_result; [by apply lost_fetch_pin|].
  intros [j|e|] Hj; [|by apply lost_done..]. eapply (lost_bind whatever); [|intros _ _; apply lost_ret; by rewrite Hmk].
  destruct (mk j); [apply lost_read_lock|apply lost_write_lock].
Qed.

(** ** Creating another page *)

Lemma lost_create_lookup q : q <> p -> keeps_lost (create_lookup q) (on_ok (fun r => r.1 <> i)).
Proof.
  intros Hq. unfold create_lookup. eapply (lost_bind (fun o => o <> Some i)).
  { apply lost_scope; [apply lost_free|]. eapply lost_bind; [apply lost_pop|]. cbn beta.
    intros [j|] Hj; [lost_then ltac:(apply lost_pin)|]; by apply lost_ret. }
  intros free Hfree. eapply (lost_bind (fun r => r.1 <> i)).
  { destruct free as [j|]; [apply lost_ret; cbn; congruence|]. apply lost_scope; [apply lost_io|].
    eapply (lost_bind (fun r => r.1 <> i)).
    { eapply lost_on_result; [apply lost_evict|]. by intros [r|e|] Hr; apply lost_done. }
    intros [j d] Hj. lost_then ltac:(apply lost_pin). lost_then ltac:(apply lost_announce_flush).
    by apply lost_ret. }
  intros [j d] Hj. lost_then ltac:(by apply lost_set_page_id). lost_then ltac:(by apply lost_map).
  by apply lost_ret.
Qed.

Lemma lost_create t :
  (forall w w', ps_allocate t w <> (Ok p, w')) ->
  keeps_lost (create_page show_io t) (on_ok (fun g => guard_frame g <> i)).
Proof.
  intros Ht. unfold create_page. eapply (lost_bind (fun q => q <> p)).
  { apply lost_map_err, lost_disk. intros w q w' Hq ->. by apply (Ht w w'). }
  intros q Hq. eapply lost_bind; [apply lost_scope; [apply lost_tbl|by apply lost_create_lookup]|].
  intros [j d] Hj. eapply (lost_bind whatever); [|intros _ _].
  { destruct d as [[q' d]|]; [|by apply lost_ret].
    lost_then ltac:(by apply lost_map_err, lost_disk). apply lost_finish, lost_take_flush. }
  lost_then ltac:(apply lost_write_lock). by apply lost_ret.
Qed.

(** ** Guards *)

Lemma lost_guard_drop {E} g : guard_frame g <> i -> keeps_lost (guard_drop (E := E) g) (on_ok whatever).
Proof.
  intros Hg. unfold guard_drop. apply lost_finally; [intros r s; apply lost_release; by destruct g|].
  eapply lost_bind; [apply lost_decrement|]. cbn beta. intros prev Hlt. case_match; [|by apply lost_ret].
  eapply (lost_bind (fun j => j = guard_frame g)).
  - apply lost_frame. intros f. split_and!; [done|by left|done].
  - intros j ->. by apply lost_ev_add.
Qed.

(** ** Fetching the lost page *)

(** A new receiver waits. *)
Lemma run_wait_lost s : lost s -> page_io_state s = Unlocked -> run (wait_for_page_fetch p) s = None.
Proof.
  intros Hs Hio. unfold wait_for_page_fetch, subscribe_to. rewrite run_bind, run_with_lock by done.
  cbn [mutex_set page_io_mutex]. rewrite run_bind, run_atomic. cbn [sget]. bpm_cbn.
  rewrite (lo_fetch s Hs). cbn beta iota. rewrite run_bind, run_on_channels. bpm_cbn.
  destruct (bc_subscribe_law tx (channels s) (lo_live s Hs)) as [_ Hwait].
  destruct (bc_subscribe tx (channels s)) as [rx c]. cbn [fst snd] in *. cbn beta iota. rewrite run_ret.
  cbn [run receive]. unfold unlock. bpm_cbn. by rewrite Hwait.
Qed.

(** A fetch of the page waits for ever, unless one of the two mutexes is
    poisoned; then it panics. *)
Lemma fetch_lost mk s :
  lost s ->
  match run (fetch_guard show_io mk p) s with
  | None => True
  | Some (r, s') => r = Panic /\ lost s' /\ (page_table_state s = Poisoned \/ page_io_state s = Poisoned)
  end.
Proof.
  intros Hs. unfold fetch_guard. rewrite run_on_result. unfold fetch_and_pin_frame. rewrite run_bind.
  destruct (page_table_state s) eqn:Ht.
  - rewrite run_with_lock by done. set (s1 := mutex_set page_table_mutex Locked s).
    assert (lost s1) as Hs1 by (by apply lost_tbl).
    destruct (lookup_lt_is_Some_2 (frames s1) i) as [f Hf].
    { unfold s1. bpm_cbn. rewrite (lo_len s Hs). apply Hs. }
    destruct (run_pin_lost (E := BufferPoolError) i f s1 Hs1 Hf) as (s2 & Hpin & Hs2 & Hio & _).
    unfold fetch_lookup. rewrite run_bind, run_atomic. cbn [sget].
    rewrite (lo_table s1 Hs1). cbn beta iota. rewrite run_bind, Hpin. cbn beta iota. rewrite run_ret.
    cbn beta iota. set (s3 := unlock _ _ s2). assert (lost s3) as Hs3 by (by apply lost_tbl).
    assert (page_io_state s3 = page_io_state s) as Hio3 by exact Hio.
    rewrite run_on_result. destruct (page_io_state s) eqn:Hst.
    + by rewrite run_wait_lost.
    + unfold wait_for_page_fetch, subscribe_to, with_lock. rewrite !run_bind. cbn [run lock mutex_get page_io_mutex].
      by rewrite Hio3.
    + unfold wait_for_page_fetch, subscribe_to, with_lock. rewrite !run_bind. cbn [run lock mutex_get page_io_mutex].
      rewrite Hio3. cbn [run]. split_and!; [done..|by right].
  - unfold with_lock. rewrite run_bind. cbn [run lock mutex_get page_table_mutex]. by rewrite Ht.
  - rewrite run_with_lock_poisoned by done. split_and!; [done..|by left].
Qed.

(** * Any calls *)

Definition elsewhere (gs : list PageGuard) : Prop := forall g, g ∈ gs -> guard_frame g <> i.
Definition event_frames (r : Event * list PageGuard) : Prop := elsewhere r.2.

Lemma lost_fetch_client mk q gs :
  elsewhere gs -> (forall j, guard_frame (mk j) = j) ->
  keeps_lost (client_fetch (fetch_guard show_io mk q) q gs) (on_ok event_frames).
Proof.
  intros Hgs Hmk. unfold client_fetch. eapply (lost_bind (fun g => guard_frame g <> i)).
  - destruct (decide (q = p)) as [->|Hq]; [|by apply lost_fetch_guard].
    intros s Hs. pose proof (fetch_lost mk s Hs) as Hf. destruct (run _ s) as [[r s']|]; [|done].
    by destruct Hf as (-> & ? & _).
  - intros g Hg. lost_then ltac:(unfold guard_deref; lost_keep). apply lost_ret.
    by intros g' [->|?]%elem_of_cons; [|apply Hgs].
Qed.

Lemma lost_client_op op gs :
  elsewhere gs -> (forall t w w', op = OpCreate t -> ps_allocate t w <> (Ok p, w')) ->
  keeps_lost (client_op show_io op gs) (on_ok event_frames).
Proof.
  intros Hgs Hno. destruct op as [t|q|q|k d|k]; cbn [client_op].
  - eapply lost_bind; [apply lost_create; intros w w'; by apply Hno|]. cbn beta. intros g Hg.
    lost_then ltac:(unfold guard_page_id; lost_then ltac:(lost_keep); by apply lost_unwrap).
    lost_then ltac:(unfold guard_deref; lost_keep). apply lost_ret.
    by intros g' [->|?]%elem_of_cons; [|apply Hgs].
  - rewrite fetch_read_guard. by apply lost_fetch_client.
  - rewrite fetch_write_guard. by apply lost_fetch_client.
  - destruct (gs !! k) as [[j|j]|]; [by apply lost_ret| |by apply lost_ret].
    lost_then ltac:(unfold guard_page_id; lost_then ltac:(lost_keep); by apply lost_unwrap).
    lost_then ltac:(unfold guard_update, guard_deref_mut, mark_dirty; lost_then ltac:(lost_keep); lost_keep).
    by apply lost_ret.
  - destruct (gs !! k) as [g|] eqn:Hk; [|by apply lost_ret]. apply list_elem_of_lookup_2 in Hk as Hg.
    lost_then ltac:(by apply lost_guard_drop, Hgs). apply lost_ret. intros g' Hg'. apply Hgs.
    eapply elem_of_submseteq; [exact Hg'|]. apply sublist_submseteq, sublist_delete.
Qed.
End Lost.

(** Calls one after the other, whatever each of them returns; [None] when one of
    them never returns. *)
Fixpoint calls {Ev C Tx Rx W} `{Evictor Ev, Broadcast C Tx Rx, PageStore W} (show_io : IoError -> rstr)
    (ops : list Op) (gs : list PageGuard) (s : BufferPoolManager Ev C Tx W) :
    option (list PageGuard * BufferPoolManager Ev C Tx W) :=
  match ops with
  | [] => Some (gs, s)
  | op :: ops =>
      match run (client_op show_io op gs) s with
      | Some (Ok (_, gs'), s') => calls show_io ops gs' s'
      | Some (_, s') => calls show_io ops gs s'
      | None => None
      end
  end.

Lemma lost_calls {Ev C Tx Rx W} `{EvictorLaws Ev, BroadcastLaws C Tx Rx, !PageStore W} show_io p i N tx ops gs
    (s : BufferPoolManager Ev C Tx W) gs' s' :
  lost p i N tx s -> elsewhere i gs ->
  (forall t w w', OpCreate t ∈ ops -> ps_allocate t w <> (Ok p, w')) ->
  calls show_io ops gs s = Some (gs', s') -> lost p i N tx s' /\ elsewhere i gs'.
Proof.
  revert gs s. induction ops as [|op ops IH]; intros gs s Hs Hgs Hno; cbn [calls]; [by intros [= <- <-]|].
  pose proof (lost_client_op show_io p i N tx op gs Hgs) as Hop. unfold keeps_lost in Hop.
  specialize (fun Hn => Hop Hn s Hs). ospecialize (Hop _).
  { intros t w w' ->. apply Hno. by left. }
  assert (forall t w w', OpCreate t ∈ ops -> ps_allocate t w <> (Ok p, w')) as Hno' by (intros; apply Hno; by right).
  destruct (run (client_op show_io op gs) s) as [[[[ev gs1]|e|] s1]|]; [| | |done].
  - destruct Hop as [? Hev]. by apply IH.
  - destruct Hop. by apply IH.
  - destruct Hop. by apply IH.
Qed.
