(* ===== verification/BufferPoolErrors.v ===== *)
(** Where the buffer pool goes wrong for a single caller: a full pool, a page
    created in a used frame, a read that fails. *)
From stdpp Require Import gmap.
From Stdlib Require Import String.
From S2P Require Import Prelude.
From S2P Require Import Bytes.
From S2P Require Import RustStr.
From S2P Require Import Page.
From S2P Require Import Evictor.
From S2P Require Import FileSystem.
From S2P Require Import FileSystemProps.
From S2P Require Import DiskManager.
From S2P Require Import DiskManagerSpec.
From S2P Require Import DiskManagerProps.
From S2P Require Import PageStore.
From S2P Require Import Prog.
From S2P Require Import Frame.
From S2P Require Import Broadcast.
From S2P Require Import BufferPool.
From S2P Require Import BufferPoolSpec.
From S2P Require Import BufferPoolSteps.
From S2P Require Import BufferPoolCore.
From S2P Require Import BufferPoolFetch.
From S2P Require Import BufferPoolMethods.
From S2P Require Import BufferPoolCreate.
From S2P Require Import BufferPoolProps.
From S2P Require Import BufferPoolHistory.
From S2P Require Import BufferPoolLost.

Section Errors.
Context {Ev C Tx Rx W : Type} `{EvictorLaws Ev, BroadcastLaws C Tx Rx, !PageStore W, !PageStoreLaws W}.
#[local] Abbreviation Bpm := (BufferPoolManager Ev C Tx W).
#[local] Abbreviation bpmP := (prog Bpm BufferPoolError).
Variable show_io : IoError -> rstr.
Implicit Types (s : Bpm) (gs : list PageGuard) (m : gmap PageId (list Z)).

(** * A poisoned page table *)

Lemma run_fetch_poisoned mk p s :
  page_table_state s = Poisoned -> run (fetch_guard show_io mk p) s = Some (Panic, s).
Proof.
  intros Hp. unfold fetch_guard, fetch_and_pin_frame.
  by rewrite run_on_result, run_bind, run_with_lock_poisoned by done.
Qed.

Lemma run_create_poisoned t s p w :
  page_table_state s = Poisoned -> ps_allocate t (disk_manager s) = (Ok p, w) ->
  run (create_page show_io t) s = Some (Panic, set_disk w s).
Proof.
  intros Hp Ha. unfold create_page. rewrite run_bind, run_map_err, run_on_disk, Ha. cbn [fst snd]. cbn beta iota.
  by rewrite run_bind, run_with_lock_poisoned by done.
Qed.

(** C12: [create_page], on every branch: the page the disk manager allocated is
    cached in a pinned frame under a write guard, what was cached elsewhere
    keeps its contents, and a dirty page that is evicted is on the disk before
    the call returns.  The new page's buffer shows zeros only in a frame that
    was never used; in a frame taken from another page it shows that page's old
    bytes.  It returns an error exactly when the allocation or the write of the
    evicted page fails, and it is that error.  When no frame can be had the call
    panics with the page table locked, and from then on every fetch of any page
    panics, and so does every creation whose page is allocated. *)
Theorem create_page_spec gs m s t :
  pool_inv gs s -> contents m s -> id_ok t -> zlen gs + 1 < 2 ^ 63 -> fresh_page t s ->
  match run (create_page show_io t) s with
  | Some (Ok g, s') => create_error show_io t s = None /\ ~ pool_full s
      /\ exists i p f, g = PageWriteGuard i /\ table_id p = t /\ frames s !! i = Some f
      /\ pool_inv (g :: gs) s' /\ contents (delete p m) s' /\ page_table s' !! p = Some i
      /\ run (guard_page_id (E := BufferPoolError) i) s' = Some (Ok p, s')
      /\ run (guard_deref (E := BufferPoolError) g) s' = Some (Ok (frame_data f), s')
      /\ (free_frames s <> [] -> frame_data f = fill 0 PAGE_SIZE /\ contents (<[p := fill 0 PAGE_SIZE]> m) s')
      /\ (free_frames s = [] -> exists q, page_table s !! q = Some i)
  | Some (Err e, _) => create_error show_io t s = Some e
  | Some (Panic, s') =>
      pool_full s /\ create_error show_io t s = None
      /\ (forall p, run (fetch_page_read show_io p) s' = Some (Panic, s')
                 /\ run (fetch_page_write show_io p) s' = Some (Panic, s'))
      /\ forall t' p w, ps_allocate t' (disk_manager s') = (Ok p, w) ->
           run (create_page show_io t') s' = Some (Panic, set_disk w s')
  | None => False
  end.
Proof.
  intros Hinv Hm%contents_knows Ht Hfew Hfresh.
  pose proof (create_page_ok show_io gs _ s t Hinv Hm Ht Hfew Hfresh) as Hc.
  destruct (run (create_page show_io t) s) as [[[g|e|] s']|]; [|done| |done].
  - destruct Hc as (i & p & f & -> & Htid & _ & Hav & Herr & Hinv' & _ & Hp & _ & Hf & (f' & Hf' & Hd & Hpg) & Hm' & Hz).
    split; [done|]. split; [done|]. exists i, p, f. split_and!; try done.
    + apply contents_knows. rewrite fmap_delete. intros q k [Hne Hk]%lookup_delete_Some.
      apply Hm'. by rewrite lookup_insert_ne.
    + by apply (run_guard_page_id i f').
    + unfold guard_deref. cbn [guard_frame]. rewrite (run_frame_get i f') by done. by rewrite Hd.
    + intros Hne. rewrite decide_False in Hz by done. split; [done|].
      apply contents_knows. rewrite fmap_insert. by rewrite Hz in Hm'.
    + intros Hfree. by rewrite decide_True in Hz.
  - destruct Hc as (Hfull & Herr & Hpo). split; [done|]. split; [done|]. split.
    + intros p. rewrite fetch_read_guard, fetch_write_guard. split; by apply run_fetch_poisoned.
    + intros t' p w Ha. by apply (run_create_poisoned t' s' p).
Qed.

(** * A read that fails *)



End Errors.

(** * In memory *)

#[local] Abbreviation mem_create := (create_page (Rx := nat * nat) (fun _ => []) 7).
#[local] Abbreviation mem_read := (fetch_page_read (Rx := nat * nat) (fun _ => [])).

Lemma no_contents {Ev C Tx W} `{EvictorLaws Ev, PageStoreLaws W} (s : BufferPoolManager Ev C Tx W) : contents ∅ s.
Proof. intros p d Hp. by rewrite lookup_empty in Hp. Qed.

(** The first page of a pool of one frame reads as zeros; a pool of none is full. *)
Lemma create_page_spec_witness :
  match run mem_create (mem_pool 1) with
  | Some (Ok g, s') => run (guard_deref (E := BufferPoolError) g) s' = Some (Ok (fill 0 PAGE_SIZE), s')
  | _ => False
  end
  /\ match run mem_create (mem_pool 0) with
     | Some (Panic, s') => run (mem_read (mkPageId 7 0)) s' = Some (Panic, s')
     | _ => False
     end.
Proof.
  assert (id_ok 7) as Hid by (unfold id_ok; lia).
  assert (forall n, fresh_page 7 (mem_pool n)) as Hfresh.
  { intros n. unfold fresh_page. change (page_table (mem_pool n)) with (∅ : gmap PageId nat).
    by destruct (ps_allocate 7 (disk_manager (mem_pool n))) as [[p|e|] w]; [apply lookup_empty|..]. }
  assert (H1 := create_page_spec (Rx := nat * nat) (fun _ => []) [] ∅ (mem_pool 1) 7 (mem_pool_inv 1)
    (no_contents _) Hid ltac:(done) (Hfresh 1%nat)).
  assert (H0 := create_page_spec (Rx := nat * nat) (fun _ => []) [] ∅ (mem_pool 0) 7 (mem_pool_inv 0)
    (no_contents _) Hid ltac:(done) (Hfresh 0%nat)).
  assert (E1 : match run mem_create (mem_pool 1) with Some (Ok _, _) => true | _ => false end = true) by (by vm_compute).
  assert (E0 : match run mem_create (mem_pool 0) with Some (Panic, _) => true | _ => false end = true) by (by vm_compute).
  split.
  - destruct (run mem_create (mem_pool 1)) as [[[g|e|] s']|]; [|discriminate E1..].
    destruct H1 as (_ & _ & i & p & f & _ & _ & _ & _ & _ & _ & _ & Hd & Hz & _). rewrite Hd.
    destruct Hz as [-> _]; [discriminate|reflexivity].
  - destruct (run mem_create (mem_pool 0)) as [[[g|e|] s']|]; [discriminate E0..| |discriminate E0].
    destruct H0 as (_ & _ & Hp & _). apply Hp.
Defined.

