(* ===== verification/BufferPoolRace.v ===== *)
(** Threads of the buffer pool interleaved: a guard's drop takes the frame's pin
    count down and tells the evictor in two steps, and a fetch of the page can
    come between them. *)
From stdpp Require Import gmap relations.
From Stdlib Require Import String.
From S2P Require Import Prelude.
From S2P Require Import Bytes.
From S2P Require Import RustStr.
From S2P Require Import Page.
From S2P Require Import Evictor.
From S2P Require Import FileSystem.
From S2P Require Import FileSystemProps.
From S2P Require Import DiskManager.
From S2P Require Import DiskManagerSpec.
From S2P Require Import DiskManagerProps.
From S2P Require Import PageStore.
From S2P Require Import Prog.
From S2P Require Import Frame.
From S2P Require Import Broadcast.
From S2P Require Import BufferPool.
From S2P Require Import BufferPoolSpec.
From S2P Require Import BufferPoolSteps.
From S2P Require Import BufferPoolCore.
From S2P Require Import BufferPoolMethods.
From S2P Require Import BufferPoolCreate.
From S2P Require Import BufferPoolProps.
From S2P Require Import BufferPoolHistory.

Section Race.
Context {Ev C Tx Rx W : Type} `{EvictorLaws Ev, BroadcastLaws C Tx Rx, !PageStore W, !PageStoreLaws W}.
#[local] Abbreviation Bpm := (BufferPoolManager Ev C Tx W).
#[local] Abbreviation bpmP := (prog Bpm BufferPoolError).
Variable show_io : IoError -> rstr.
Implicit Types (s : Bpm) (gs : list PageGuard).

(** * The state of a race for one frame *)

(** The states of the mutexes of the processing map and the page table. *)
Definition Mutexes : Type := MutexState * MutexState.
Definition all_free : Mutexes := (Unlocked, Unlocked).

(** Of the state [s], the frame [i], the evictor and what is given have
    changed. *)
Record scene (s : Bpm) (i : nat) (mx : Mutexes) (w : W) (t : gmap PageId nat) (fe : gmap PageId Tx) (el : gset nat)
    (f : Frame) (s' : Bpm) : Prop := {
  sc_disk : disk_manager s' = w;
  sc_table : page_table s' = t;
  sc_fetches : fetches (page_io_processing s') = fe;
  sc_flushes : flushes (page_io_processing s') = ∅;
  sc_free_state : free_frames_state s' = Unlocked;
  sc_io_state : page_io_state s' = mx.1;
  sc_table_state : page_table_state s' = mx.2;
  sc_free : free_frames s' = free_frames s;
  sc_frames : frames s' = <[i := f]> (frames s);
  sc_range : (i < length (frames s))%nat;
  sc_ev : ev_inv (evictor s');
  sc_cap : ev_capacity (evictor s') = length (frames s);
  sc_el : ev_eligible (evictor s') = el;
}.

Section Scene.
Context {s : Bpm} {i : nat} {mx : Mutexes} {w : W} {t : gmap PageId nat} {fe : gmap PageId Tx} {el : gset nat} {f : Frame} {s' : Bpm}.
Hypothesis Sc : scene s i mx w t fe el f s'.

Lemma scene_lookup : frames s' !! i = Some f.
Proof. destruct Sc. rewrite sc_frames0. by apply list_lookup_insert_eq. Qed.

Lemma scene_frame f' : scene s i mx w t fe el f' (set_frames (<[i := f']> (frames s')) s').
Proof. destruct Sc. split; bpm_cbn; try done. by rewrite sc_frames0, list_insert_insert_eq. Qed.

Lemma scene_evictor ev :
  ev_inv ev -> ev_capacity ev = length (frames s) -> scene s i mx w t fe (ev_eligible ev) f (set_evictor ev s').
Proof. destruct Sc. by split. Qed.

Lemma scene_channels c : scene s i mx w t fe el f (set_channels c s').
Proof. destruct Sc. by split. Qed.
Lemma scene_disk w' : scene s i mx w' t fe el f (set_disk w' s').
Proof. destruct Sc. by split. Qed.
Lemma scene_table t' : scene s i mx w t' fe el f (set_table t' s').
Proof. destruct Sc. by split. Qed.
Lemma scene_fetches fe' : scene s i mx w t fe' el f (set_fetches fe' s').
Proof. destruct Sc. by split. Qed.

Lemma scene_io st : scene s i (st, mx.2) w t fe el f (set_io_state st s').
Proof. destruct Sc. by split. Qed.
Lemma scene_tbl st : scene s i (mx.1, st) w t fe el f (set_table_state st s').
Proof. destruct Sc. by split. Qed.

Lemma scene_quiet : fe = ∅ -> mx = all_free -> quiet s'.
Proof. intros -> ->. destruct Sc. by split. Qed.

(** An access to the frame. *)
Lemma run_scene_frame {E A} (m : stateM Frame E A) :
  exists s2, run (on_frame i m) s' = Some ((m f).1, s2) /\ scene s i mx w t fe el (m f).2 s2.
Proof. eexists. split; [by apply run_on_frame, scene_lookup|]. apply scene_frame. Qed.

Lemma run_scene_lock {E A} (m : Frame -> option (outcome E A * Frame)) r f' :
  m f = Some (r, f') -> exists s2, run (frame_lock_on i m) s' = Some (r, s2) /\ scene s i mx w t fe el f' s2.
Proof.
  intros Hm. eexists. split; [rewrite (run_frame_lock i f) by apply scene_lookup; by rewrite Hm|]. apply scene_frame.
Qed.

Lemma scene_release g : scene s i mx w t fe el (g f) (release_on i g s').
Proof. unfold release_on. rewrite scene_lookup. apply scene_frame. Qed.

Lemma run_scene_add {E} :
  exists s2, run (on_evictor (E := E) (ev_add i)) s' = Some (Ok tt, s2) /\ scene s i mx w t fe ({[i]} ∪ el) f s2.
Proof.
  destruct (ev_add_law E (evictor s') i (sc_ev _ _ _ _ _ _ _ _ _ Sc)) as (ev & Hadd & Hi & Hc & He).
  { rewrite (sc_cap _ _ _ _ _ _ _ _ _ Sc). apply Sc. }
  exists (set_evictor ev s'). split; [by rewrite run_on_evictor, Hadd|].
  rewrite <- (sc_el _ _ _ _ _ _ _ _ _ Sc), <- He. apply scene_evictor; [done|]. rewrite Hc. apply Sc.
Qed.

Lemma run_scene_pin {E} :
  0 <= frame_pins f < 2 ^ 63 ->
  exists s2, run (pin_frame (E := E) i) s' = Some (Ok tt, s2)
    /\ scene s i mx w t fe (if decide (frame_pins f = 0) then el ∖ {[i]} else el) (with_pins (frame_pins f + 1) f) s2.
Proof.
  intros Hp. destruct (run_pin_frame (E := E) i f s' scene_lookup) as (ev & Hrun & Hi & Hc & He); [apply Sc| |done|].
  { rewrite (sc_cap _ _ _ _ _ _ _ _ _ Sc), (sc_frames _ _ _ _ _ _ _ _ _ Sc). by rewrite length_insert. }
  eexists. split; [exact Hrun|]. rewrite (sc_el _ _ _ _ _ _ _ _ _ Sc) in He. rewrite <- He.
  assert (length (frames s') = length (frames s)) as Hlen by (by rewrite (sc_frames _ _ _ _ _ _ _ _ _ Sc), length_insert).
  rewrite Hlen in Hc. destruct (scene_frame (with_pins (frame_pins f + 1) f)). by split.
Qed.
(** The only frame that is eligible. *)
Lemma run_scene_victim {E} :
  el = {[i]} ->
  exists s2, run (on_evictor (E := E) ev_victim) s' = Some (Ok (Some i), s2) /\ scene s i mx w t fe ∅ f s2.
Proof.
  intros Hel. destruct (ev_victim_law E (evictor s') (sc_ev _ _ _ _ _ _ _ _ _ Sc)) as (v & ev & Hv & Hi & Hc & He).
  rewrite run_on_evictor, Hv. rewrite (sc_el _ _ _ _ _ _ _ _ _ Sc), Hel in He. cbn [fst snd].
  destruct v as [j|]; [|set_solver]. destruct He as [Hj He]. apply elem_of_singleton in Hj as ->.
  eexists. split; [reflexivity|]. assert (ev_eligible ev = ∅) as <- by set_solver.
  apply scene_evictor; [done|]. rewrite Hc. apply Sc.
Qed.

(** A scope of a mutex. *)
Lemma run_scene_io_lock {E A} (m : prog Bpm E A) :
  mx.1 = Unlocked ->
  run (with_lock page_io_mutex m) s' =
  match run m (set_io_state Locked s') with Some (r, s2) => Some (r, unlock page_io_mutex r s2) | None => None end.
Proof. intros Hm. apply run_with_lock. cbn. rewrite (sc_io_state _ _ _ _ _ _ _ _ _ Sc). done. Qed.
Lemma run_scene_tbl_lock {E A} (m : prog Bpm E A) :
  mx.2 = Unlocked ->
  run (with_lock page_table_mutex m) s' =
  match run m (set_table_state Locked s') with Some (r, s2) => Some (r, unlock page_table_mutex r s2) | None => None end.
Proof. intros Hm. apply run_with_lock. cbn. rewrite (sc_table_state _ _ _ _ _ _ _ _ _ Sc). done. Qed.
End Scene.

(** A guard dropped by its last holder but for one. *)
Lemma run_scene_drop {E} s i mx w t fe el f s' g :
  scene s i mx w t fe el f s' -> guard_frame g = i -> frame_id f = i -> 0 < frame_pins f < 2 ^ 63 ->
  exists s2, run (guard_drop (E := E) g) s' = Some (Ok tt, s2)
    /\ scene s i mx w t fe (if decide (frame_pins f = 1) then {[i]} ∪ el else el)
         (guard_release g false (with_pins (frame_pins f - 1) f)) s2.
Proof.
  intros Sc Hg Hid Hp. unfold guard_drop. rewrite Hg, run_finally, run_bind.
  destruct (run_scene_frame (E := E) Sc decrement_pin_count) as (s1 & -> & Sc1).
  unfold decrement_pin_count in *. rewrite (proj2 (Z.ltb_lt 0 (frame_pins f))) in * by lia.
  rewrite wrap_small in Sc1 by lia. cbn [fst snd] in *. cbn beta iota.
  destruct (Z.eqb_spec (frame_pins f) 1) as [E1|E1].
  - rewrite decide_True by done. rewrite run_bind. unfold get_id.
    rewrite (run_frame_get i _ _ _ (scene_lookup Sc1)). cbn beta iota. cbn [with_pins frame_id]. rewrite Hid.
    destruct (run_scene_add (E := E) Sc1) as (s2 & -> & Sc2). eexists. split; [reflexivity|].
    by apply (scene_release Sc2).
  - rewrite decide_False by done. rewrite run_ret. eexists. split; [reflexivity|]. by apply (scene_release Sc1).
Qed.

(** * A drop overtaken by a fetch *)

(** A frame with a page under one read guard. *)
Definition read_locked (p : PageId) (i : nat) (d : list Z) (dirty : bool) : Frame :=
  mkFrame d (RwReaders 1) i dirty (Some p) 1.
Definition write_locked (p : PageId) (i : nat) (d : list Z) (dirty : bool) (pins : Z) : Frame :=
  mkFrame d RwWriter i dirty (Some p) pins.

Lemma guards_on_reader gs i : guards_on (PageReadGuard i :: gs) i = PageReadGuard i :: guards_on gs i.
Proof. apply (guards_on_same (PageReadGuard i)). Qed.

Lemma last_guard gs s p i f :
  pool_core None (PageReadGuard i :: gs) s -> guards_on gs i = [] -> page_table s !! p = Some i ->
  frames s !! i = Some f -> f = read_locked p i (frame_data f) (frame_dirty f).
Proof.
  intros I Hgs Hp Hf. destruct (cached_frame _ s p i I Hp) as (f0 & Hf0 & Hpg & _ & Hpins & Hlock).
  destruct (pc_frame _ _ _ I i f Hf) as (Hid & _). rewrite Hf in Hf0. injection Hf0 as <-.
  rewrite guards_on_reader, Hgs in Hpins, Hlock. destruct f. cbn in *. by subst.
Qed.

(** The drop of a read guard, once the pin count is down. *)
Definition drop_rest (i : nat) : bpmP unit :=
  on_result (id ← on_frame i get_id; on_evictor (ev_add id))
    (fun r : outcome BufferPoolError unit => atomic (fun s : Bpm => (r, release_on i drop_read s))).

Lemma drop_begins s i mx w t fe el f s' :
  scene s i mx w t fe el f s' -> frame_pins f = 1 ->
  exists s2, prog_steps (guard_drop (PageReadGuard i), s') (drop_rest i, s2)
    /\ scene s i mx w t fe el (with_pins 0 f) s2.
Proof.
  intros Sc Hpins. destruct (run_scene_frame (E := BufferPoolError) Sc decrement_pin_count) as (s2 & Hrun & Sc2).
  unfold decrement_pin_count in *. rewrite Hpins in *. cbn [Z.ltb Z.compare fst snd] in *.
  exists s2. split; [|exact Sc2]. unfold guard_drop, finally. apply steps_on_result.
  eapply steps_part; [exact Hrun|reflexivity].
Qed.

Lemma run_drop_rest s i mx w t fe el f s' :
  scene s i mx w t fe el f s' -> frame_id f = i ->
  exists s2, run (drop_rest i) s' = Some (Ok tt, s2) /\ scene s i mx w t fe ({[i]} ∪ el) (drop_read f) s2.
Proof.
  intros Sc Hid. unfold drop_rest. rewrite run_on_result, run_bind. unfold get_id.
  rewrite (run_frame_get i _ _ _ (scene_lookup Sc)). cbn beta iota. rewrite Hid.
  destruct (run_scene_add (E := BufferPoolError) Sc) as (s2 & -> & Sc2).
  exists (release_on i drop_read s2). split; [done|]. apply (scene_release Sc2).
Qed.

(** A fetch that has pinned the frame and waits for its lock. *)
Definition awaiting (i : nat) (k : PageGuard -> bpmP unit) : bpmP unit :=
  on_result (frame_lock_on i write_data;; mret (PageWriteGuard i))
    (fun r : outcome BufferPoolError PageGuard =>
       match r with Ok g => k g | Err e => Done (Err e) | Panic => Done Panic end).

Lemma fetch_pins s i w t el f s' p k :
  scene s i all_free w t ∅ el f s' -> t !! p = Some i -> frame_pins f = 0 -> i ∉ el ->
  exists s2, prog_steps (fetch_page_write show_io p ≫= k, s') (awaiting i k, s2)
    /\ scene s i all_free w t ∅ el (with_pins 1 f) s2.
Proof.
  intros Sc Hp Hpins Hi. pose proof (sc_frames _ _ _ _ _ _ _ _ _ Sc) as Hfr.
  destruct (run_fetch_cached show_io s' p i f (scene_quiet Sc eq_refl eq_refl)) as (ev & Hrun & Hev & Hcap & Hel);
    [by rewrite (sc_table _ _ _ _ _ _ _ _ _ Sc)|by apply (scene_lookup Sc)|lia|apply Sc| |].
  { rewrite (sc_cap _ _ _ _ _ _ _ _ _ Sc), Hfr. by rewrite length_insert. }
  rewrite Hpins in *. rewrite decide_True, (sc_el _ _ _ _ _ _ _ _ _ Sc) in Hel by done.
  eexists. split; [apply steps_on_result; eapply steps_part; [exact Hrun|reflexivity]|].
  assert (ev_eligible ev = el) as <- by (rewrite Hel; set_solver). rewrite Hfr, length_insert in Hcap.
  by apply (scene_evictor (scene_frame Sc (with_pins 1 f))).
Qed.

Lemma awaiting_locks s i mx w t fe el f s' k :
  scene s i mx w t fe el f s' -> frame_lock f = RwReaders 0 ->
  exists s2, prog_steps (awaiting i k, s') (k (PageWriteGuard i), s2)
    /\ scene s i mx w t fe el (with_rw RwWriter f) s2.
Proof.
  intros Sc Hl. destruct (run_scene_lock (E := BufferPoolError) Sc write_data (Ok tt) (with_rw RwWriter f))
    as (s2 & Hr & Sc2); [by unfold write_data; rewrite Hl|].
  exists s2. split; [|exact Sc2]. eapply steps_part; [by rewrite run_bind, Hr|reflexivity].
Qed.

(** The drop stops once the count is down, the fetch pins the frame and waits
    for its lock, the drop goes on. *)
Lemma drop_overtaken gs s p i f (k : PageGuard -> bpmP unit) ts :
  pool_inv (PageReadGuard i :: gs) s -> guards_on gs i = [] -> page_table s !! p = Some i ->
  frames s !! i = Some f ->
  exists s1, rtc interleave (guard_drop (PageReadGuard i) :: (fetch_page_write show_io p ≫= k) :: ts, s)
                            (Done (Ok tt) :: k (PageWriteGuard i) :: ts, s1)
    /\ scene s i all_free (disk_manager s) (page_table s) ∅ ({[i]} ∪ ev_eligible (evictor s))
         (write_locked p i (frame_data f) (frame_dirty f) 1) s1.
Proof.
  intros [I Q] Hgs Hp Hf. pose proof (last_guard gs s p i f I Hgs Hp Hf) as Ef.
  set (d := frame_data f) in *. set (b := frame_dirty f) in *. rewrite Ef in Hf. clear Ef.
  assert (i < length (frames s))%nat as Hlt by (by apply lookup_lt_Some in Hf).
  assert (i ∉ ev_eligible (evictor s)) as Hnel.
  { intros Hi. apply (pc_eligible _ _ _ I) in Hi as (_ & Hg & _). by rewrite guards_on_reader in Hg. }
  assert (scene s i all_free (disk_manager s) (page_table s) ∅ (ev_eligible (evictor s)) (read_locked p i d b) s) as Sc.
  { destruct Q as [? ? ? ? ?]. split; try done; [by rewrite list_insert_id|apply I|apply I]. }
  destruct (drop_begins s i _ _ _ _ _ _ s Sc eq_refl) as (s1 & Hr1 & Sc1).
  destruct (fetch_pins s i _ _ _ _ s1 p k Sc1 Hp eq_refl Hnel) as (s2 & Hr2 & Sc2).
  destruct (run_drop_rest s i _ _ _ _ _ _ s2 Sc2 eq_refl) as (s3 & Hr3 & Sc3).
  destruct (awaiting_locks s i _ _ _ _ _ _ s3 k Sc3 eq_refl) as (s4 & Hr4 & Sc4).
  exists s4. split; [|exact Sc4].
  etrans; [exact (interleave_steps (_ :: _ :: ts) 0 _ _ _ _ eq_refl Hr1)|].
  etrans; [exact (interleave_steps (drop_rest i :: _ :: ts) 1 _ _ _ _ eq_refl Hr2)|].
  etrans; [exact (run_interleave (drop_rest i :: _ :: ts) 0 _ _ _ _ eq_refl Hr3)|].
  exact (interleave_steps (_ :: awaiting i k :: ts) 1 _ _ _ _ eq_refl Hr4).
Qed.

(** * A locked frame evicted *)

(** The victim's page is taken out of the table; its dirty flag decides how it
    goes on. *)
Lemma evict_steps s i mx w t fe f s' p :
  scene s i mx w t fe {[i]} f s' -> frame_page_id f = Some p ->
  exists s2 : Bpm, scene s i mx w (delete p t) fe ∅ f s2
    /\ prog_steps (evict_page, s')
         ((if frame_dirty f then
             frame_lock_on i read_data;;
             page_data ← finally (on_frame i (sget (fun f => Ok (frame_data f)))) (fun _ => release_on i drop_read);
             p ← on_frame i get_page_id;
             id ← atomic (slift (unwrap_opt p));
             mret (i, Some (id, page_data))
           else mret (i, None)) : bpmP (nat * option (PageId * list Z)), s2).
Proof.
  intros Sc Hpg. destruct (run_scene_victim (E := BufferPoolError) Sc eq_refl) as (s1 & Hv & Sc1).
  pose proof (scene_table Sc1 (delete p t)) as Sc2. set (s2 := set_table _ s1) in Sc2. exists s2. split; [done|].
  unfold evict_page. eapply steps_part; [exact Hv|]. cbn beta iota.
  eapply steps_part; [unfold get_page_id; apply (run_frame_get i _ _ _ (scene_lookup Sc1))|]. cbn beta iota.
  rewrite Hpg. eapply steps_part; [rewrite run_atomic; reflexivity|]. cbn [slift unwrap_opt]. cbn beta iota.
  eapply steps_part; [rewrite run_atomic; reflexivity|]. cbn [smodify]. cbn beta iota.
  rewrite (sc_table _ _ _ _ _ _ _ _ _ Sc1). fold s2.
  eapply steps_part; [unfold is_dirty; apply (run_frame_get i _ _ _ (scene_lookup Sc2))|]. reflexivity.
Qed.

Lemma steps_run {A} (m m' : bpmP A) s s' : prog_steps (m, s) (m', s') -> run m s = run m' s'.
Proof.
  intros Hs. remember (m, s) as c eqn:Hc. remember (m', s') as c' eqn:Hc'. revert m s Hc.
  induction Hs as [|c1 c2 c3 Hstep Hs IH]; intros m s ->; [by injection Hc' as -> ->|].
  inversion Hstep as [f s0 m1 s1 Hf]; subst. cbn [run]. rewrite Hf. by apply IH.
Qed.

(** A page put into the frame of another one that is clean, under the lock of
    the page table. *)
Lemma run_scene_steal s i w t f s' p q :
  scene s i (Unlocked, Locked) w t ∅ {[i]} f s' -> free_frames s = [] -> t !! q = None ->
  frame_page_id f = Some p -> frame_dirty f = false -> 0 < frame_pins f < 2 ^ 63 ->
  exists tx tx' s2, run (fetch_lookup q) s' = Some (Ok (Miss i None tx), s2)
    /\ scene s i (Unlocked, Locked) w (<[q := i]> (delete p t)) {[q := tx']} ∅
         (with_pins (frame_pins f + 1) (with_dirty false (with_page_id (Some q) f))) s2.
Proof.
  intros Sc Hfree Hq Hpg Hclean Hpins. unfold fetch_lookup. rewrite run_bind, run_atomic. cbn [sget].
  rewrite (sc_table _ _ _ _ _ _ _ _ _ Sc), Hq. cbn beta iota. rewrite run_bind. unfold fetch_frame.
  rewrite run_bind, run_pop_free by apply Sc. rewrite (sc_free _ _ _ _ _ _ _ _ _ Sc), Hfree. cbn [last length take Nat.sub].
  assert (set_free [] s' = s') as ->.
  { pose proof (sc_free _ _ _ _ _ _ _ _ _ Sc) as E. rewrite Hfree in E. destruct s'. cbn in E. by subst. }
  rewrite (run_scene_io_lock Sc) by done. rewrite run_on_result.
  destruct (evict_steps s i (Locked, Locked) w t ∅ f (set_io_state Locked s') p) as (s1 & Sc1 & Hev);
    [exact (scene_io Sc Locked)|done|].
  rewrite (steps_run _ _ _ _ Hev), Hclean, run_ret. unfold announce_flush. rewrite run_bind, run_bind.
  unfold is_dirty. rewrite (run_frame_get i _ _ _ (scene_lookup Sc1)), Hclean, run_ret, run_ret. cbn beta iota.
  unfold unlock. cbn [mutex_set page_io_mutex]. pose proof (scene_io Sc1 Unlocked) as Sc2. cbn [snd] in Sc2.
  set (s2 := set_io_state Unlocked s1) in *. rewrite run_bind, run_atomic. cbn [smodify].
  rewrite (sc_table _ _ _ _ _ _ _ _ _ Sc2). pose proof (scene_table Sc2 (<[q := i]> (delete p t))) as Sc3.
  destruct (run_scene_frame (E := BufferPoolError) Sc3 (set_page_id (Some q))) as (s4 & Hr4 & Sc4).
  rewrite run_bind, Hr4. cbn [set_page_id smodify fst snd] in *. cbn beta iota.
  destruct (run_scene_frame (E := BufferPoolError) Sc4 (set_dirty false)) as (s5 & Hr5 & Sc5).
  rewrite run_bind, Hr5. cbn [set_dirty smodify fst snd] in *. cbn beta iota.
  destruct (run_scene_pin (E := BufferPoolError) Sc5) as (s6 & Hr6 & Sc6); [cbn; lia|].
  rewrite run_bind, Hr6. cbn beta iota. rewrite decide_False in Sc6 by (cbn; lia).
  destruct (run_announce_fetch q s6) as (c & tx & tx' & Hann & _); [apply Sc6..|].
  rewrite run_bind, Hann. cbn beta iota. rewrite run_ret. exists tx, tx'. eexists. split; [reflexivity|].
  apply (scene_channels (scene_fetches Sc6 {[q := tx']})).
Qed.

(** ** The load, up to the lock of the frame *)

(** What is left of the fetch of [q] when its bytes have been read. *)
Definition load_rest (q : PageId) (i : nat) (got : list Z) (tx : Tx) : bpmP nat :=
  finally
    (frame_lock_on i write_data;;
     finally (on_frame i (smodify (with_data got));; finish remove_fetch q;; mret tt)
       (fun r => release_on i (drop_write (panicked r))))
    (fun _ s => set_channels (bc_drop tx (channels s)) s);;
  mret i.

Lemma fetch_stolen s i w t f s' p q got w1 :
  scene s i all_free w t ∅ {[i]} f s' -> free_frames s = [] -> t !! q = None ->
  frame_page_id f = Some p -> frame_dirty f = false -> 0 < frame_pins f < 2 ^ 63 ->
  ps_read q (fill 0 PAGE_SIZE) w = (Ok got, w1) ->
  exists tx tx' s2, prog_steps (fetch_and_pin_frame show_io q, s') (load_rest q i got tx, s2)
    /\ scene s i all_free w1 (<[q := i]> (delete p t)) {[q := tx']} ∅
         (with_pins (frame_pins f + 1) (with_dirty false (with_page_id (Some q) f))) s2.
Proof.
  intros Sc Hfree Hq Hpg Hclean Hpins Hread.
  destruct (run_scene_steal s i w t f (set_table_state Locked s') p q) as (tx & tx' & s1 & Hlook & Sc1);
    [exact (scene_tbl Sc Locked)|done..|].
  pose proof (scene_tbl Sc1 Unlocked) as Sc2. cbn [fst] in Sc2. set (s2 := set_table_state Unlocked s1) in *.
  exists tx, tx', (set_disk w1 s2). split; [|by apply (scene_disk Sc2)].
  unfold fetch_and_pin_frame. eapply steps_part; [rewrite (run_scene_tbl_lock Sc) by done; by rewrite Hlook|].
  cbn beta iota. change (unlock page_table_mutex (Ok (Miss i None tx)) s1) with s2.
  apply steps_on_result, steps_on_result. unfold fetch_load.
  eapply steps_part.
  { unfold wait_for_page_flush. rewrite run_bind, run_subscribe_none; [apply run_ret|apply Sc2|].
    rewrite (sc_flushes _ _ _ _ _ _ _ _ _ Sc2). apply lookup_empty. }
  eapply steps_part; [rewrite run_map_err, run_on_disk, (sc_disk _ _ _ _ _ _ _ _ _ Sc2), Hread; reflexivity|].
  reflexivity.
Qed.

(** The rest of it, when the lock can be had. *)
Lemma run_load_rest s i w t f s' q got tx tx' :
  scene s i all_free w t {[q := tx']} ∅ f s' -> frame_lock f = RwReaders 0 ->
  exists s2, run (load_rest q i got tx) s' = Some (Ok i, s2)
    /\ scene s i all_free w t ∅ ∅ (with_data got f) s2.
Proof.
  intros Sc Hl. unfold load_rest. rewrite run_bind, run_finally, run_bind.
  destruct (run_scene_lock (E := BufferPoolError) Sc write_data (Ok tt) (with_rw RwWriter f)) as (s1 & -> & Sc1).
  { unfold write_data. by rewrite Hl. }
  cbn beta iota. rewrite run_finally, run_bind.
  destruct (run_scene_frame (E := BufferPoolError) Sc1 (smodify (with_data got))) as (s2 & -> & Sc2).
  cbn [smodify fst snd] in *. cbn beta iota.
  destruct (run_finish_fetch q s2) as [c Hfin]; [apply Sc2|]. rewrite run_bind, Hfin. cbn beta iota. rewrite run_ret.
  cbn [panicked]. rewrite (sc_fetches _ _ _ _ _ _ _ _ _ Sc2), delete_singleton_eq.
  pose proof (scene_release (scene_channels (scene_fetches Sc2 ∅) c) (drop_write false)) as Sc3.
  cbn beta iota. rewrite run_ret. eexists. split; [reflexivity|].
  assert (drop_write false (with_data got (with_rw RwWriter f)) = with_data got f) as <-.
  { unfold drop_write. cbn. destruct f; cbn in *. by subst. }
  by apply scene_channels.
Qed.

(** * The race, and the same calls in turn *)

(** The holder of a read guard of page [p] drops it; a writer of the page; a
    reader of page [q]. *)
Definition dropper (i : nat) : bpmP unit := guard_drop (PageReadGuard i).
Definition write_on (data : list Z) (g : PageGuard) : bpmP unit := guard_update (guard_frame g) data;; guard_drop g.
Definition writer (p : PageId) (data : list Z) : bpmP unit := fetch_page_write show_io p ≫= write_on data.
Definition reader (q : PageId) : bpmP unit := fetch_page_read show_io q ≫= guard_drop.

Lemma run_scene_update s i mx w t fe el f s' data :
  scene s i mx w t fe el f s' ->
  exists s2, run (guard_update (E := BufferPoolError) i data) s' = Some (Ok tt, s2)
    /\ scene s i mx w t fe el (with_dirty true (with_data data f)) s2.
Proof.
  intros Sc. unfold guard_update, guard_deref_mut, mark_dirty. rewrite run_bind.
  destruct (run_scene_frame (E := BufferPoolError) Sc (smodify (with_data data))) as (s1 & -> & Sc1).
  cbn [smodify fst snd] in *. exact (run_scene_frame (E := BufferPoolError) Sc1 (set_dirty true)).
Qed.

Lemma run_write_on s i mx w t fe el f s' data :
  scene s i mx w t fe el f s' -> frame_lock f = RwWriter -> frame_id f = i -> frame_pins f = 2 ->
  exists s2, run (write_on data (PageWriteGuard i)) s' = Some (Ok tt, s2)
    /\ scene s i mx w t fe el (mkFrame data (RwReaders 0) i true (frame_page_id f) 1) s2.
Proof.
  intros Sc Hl Hid Hpins. unfold write_on. cbn [guard_frame]. rewrite run_bind.
  destruct (run_scene_update s i _ _ _ _ _ _ _ data Sc) as (s2 & -> & Sc2). cbn beta iota.
  destruct (run_scene_drop (E := BufferPoolError) s i _ _ _ _ _ _ _ (PageWriteGuard i) Sc2) as (s3 & -> & Sc3);
    [done|done|cbn; lia|].
  exists s3. split; [done|]. rewrite decide_False in Sc3 by (cbn; lia).
  assert (guard_release (PageWriteGuard i) false (with_pins (frame_pins (with_dirty true (with_data data f)) - 1)
    (with_dirty true (with_data data f))) = mkFrame data (RwReaders 0) i true (frame_page_id f) 1) as <-; [|done].
  destruct f. cbn in *. by subst.
Qed.

(** The reader's fetch, from the lock of the frame on. *)
Definition reader_rest (q : PageId) (i : nat) (got : list Z) (tx : Tx) : bpmP unit :=
  on_result (load_rest q i got tx) (fun r =>
    match r with
    | Ok frame => frame_lock_on frame read_data;; mret (PageReadGuard frame)
    | Err _ => Done (Err BufferFull)
    | Panic => Done Panic
    end) ≫= guard_drop.

Lemma run_reader_rest s i w t q data got s' tx tx' :
  scene s i all_free w t {[q := tx']} ∅ (mkFrame data (RwReaders 0) i true (Some q) 1) s' ->
  exists s2, run (reader_rest q i got tx) s' = Some (Ok tt, s2)
    /\ scene s i all_free w t ∅ {[i]} (mkFrame got (RwReaders 0) i true (Some q) 0) s2.
Proof.
  intros Sc. unfold reader_rest. rewrite run_bind, run_on_result.
  destruct (run_load_rest s i w t _ s' q got tx tx' Sc eq_refl) as (s1 & -> & Sc1). cbn beta iota.
  destruct (run_scene_lock (E := BufferPoolError) Sc1 read_data (Ok tt) (mkFrame got (RwReaders 1) i true (Some q) 1))
    as (s2 & Hr & Sc2); [done|].
  rewrite run_bind, Hr. cbn beta iota. rewrite run_ret. cbn beta iota.
  destruct (run_scene_drop (E := BufferPoolError) s i _ _ _ _ _ _ _ (PageReadGuard i) Sc2) as (s3 & -> & Sc3); [done..|].
  exists s3. split; [done|]. by rewrite union_empty_r_L in Sc3.
Qed.

(** The pool is sound after the race: the frame is [q]'s. *)
Lemma race_end gs s p i f q got w1 sA sB sG fA fB mxA mxB wA wB tA tB feA feB :
  pool_core None (PageReadGuard i :: gs) s -> guards_on gs i = [] -> page_table s !! p = Some i ->
  frames s !! i = Some f -> ev_eligible (evictor s) = ∅ -> page_table s !! q = None -> pid_ok q ->
  ps_inv w1 -> zlen got = PAGE_SIZE -> zlen gs + 1 < 2 ^ 63 ->
  scene s i mxA wA tA feA {[i]} fA sA -> scene s i mxB wB tB feB ∅ fB sB ->
  scene s i all_free w1 (<[q := i]> (delete p (page_table s))) ∅ {[i]} (mkFrame got (RwReaders 0) i true (Some q) 0) sG ->
  pool_core None gs sG.
Proof.
  intros I Hgs Hp Hf Hel Hq Hqid Hw1 Hgot Hfew SA SB SG.
  assert (i < length (frames s))%nat as Hlt by (by apply lookup_lt_Some in Hf).
  pose proof (last_guard gs s p i f I Hgs Hp Hf) as Ef.
  assert (pool_core None gs (set_evictor (evictor sA) (set_frames (<[i := unguarded (PageReadGuard i) gs f]> (frames s)) s))) as I1.
  { apply (core_drop gs s f (PageReadGuard i)); [done|done|apply SA|apply SA|].
    rewrite (sc_el _ _ _ _ _ _ _ _ _ SA), Hel, Ef, decide_True by done. cbn. set_solver. }
  destruct (core_victim gs _ i p (evictor sB) I1) as [I2 _]; bpm_cbn; try done.
  - rewrite (sc_el _ _ _ _ _ _ _ _ _ SA). set_solver.
  - apply SB.
  - rewrite length_insert. apply SB.
  - rewrite (sc_el _ _ _ _ _ _ _ _ _ SA), (sc_el _ _ _ _ _ _ _ _ _ SB). set_solver.
  - set (f3 := mkFrame got (RwReaders 1) i true (Some q) 1).
    set (s3 := mkBpm w1 (channels s) (evictor sB) (<[i := f3]> (frames s)) (free_frames s) Unlocked
      (page_io_processing s) Unlocked (<[q := i]> (delete p (page_table s))) Unlocked).
    eapply (core_step i gs _ s3 f3) in I2; unfold s3 in *; bpm_cbn; try done.
    + apply (core_close i gs _ q f3 (PageReadGuard i)) in I2; bpm_cbn; try done.
      * apply (core_drop gs _ f3 (PageReadGuard i) (evictor sG)) in I2; bpm_cbn.
        -- eapply pool_core_ext; [..|exact I2]; bpm_cbn; try done; try apply SG.
           rewrite (sc_frames _ _ _ _ _ _ _ _ _ SG), list_insert_insert_eq. f_equal.
           unfold unguarded, f3. cbn. by rewrite Hgs.
        -- by apply list_lookup_insert_eq.
        -- apply SG.
        -- rewrite length_insert. apply SG.
        -- cbn [f3 frame_pins]. rewrite decide_True by done.
           rewrite (sc_el _ _ _ _ _ _ _ _ _ SG), (sc_el _ _ _ _ _ _ _ _ _ SB). set_solver.
      * by rewrite lookup_insert_eq.
      * intros q' [[<- _]|[_ [Hne Hq']%lookup_delete_Some]]%lookup_insert_Some; [done|].
        destruct Hne. symmetry. by apply (table_inj None _ s q' p i I).
      * by apply list_lookup_insert_eq.
    + apply SB.
    + rewrite length_insert. apply SB.
    + by rewrite list_insert_insert_eq.
    + right. exists q. split; [done|]. split; [|done]. by rewrite lookup_delete_None; right.
Qed.
End Race.

Section Properties.
Context {Ev C Tx Rx W : Type} `{EvictorLaws Ev, BroadcastLaws C Tx Rx, !PageStore W, !PageStoreLaws W, !FullPages W}.
#[local] Abbreviation Bpm := (BufferPoolManager Ev C Tx W).
#[local] Abbreviation bpmP := (prog Bpm BufferPoolError).
Variable show_io : IoError -> rstr.
Implicit Types (s : Bpm) (gs : list PageGuard).

Lemma settled_singleton (p : PageId) (d : list Z) s : contents {[p := d]} s <-> knows {[p := settled d]} s.
Proof. rewrite contents_knows. by rewrite map_fmap_singleton. Qed.

(** The page written alone, when nobody else has a guard on it. *)
Lemma run_held gs s p i data :
  pool_inv gs s -> guards_on gs i = [] -> page_table s !! p = Some i -> zlen data = PAGE_SIZE ->
  zlen gs + 1 < 2 ^ 63 ->
  exists s', (forall k : PageGuard -> bpmP unit,
                run (fetch_page_write show_io p ≫= fun g => guard_update (guard_frame g) data;; k g) s
                = run (k (PageWriteGuard i)) s')
    /\ pool_inv (PageWriteGuard i :: gs) s' /\ page_table s' = page_table s /\ free_frames s' = free_frames s
    /\ contents {[p := data]} s'.
Proof.
  intros Hinv Hgs Hp Hl Hfew.
  assert (knows ∅ s) as Hm by (intros q k Hq; by rewrite lookup_empty in Hq).
  pose proof (fetch_guard_hit show_io gs ∅ s p i PageWriteGuard Hinv Hm Hp Hfew eq_refl) as Hh.
  rewrite decide_True in Hh by (by rewrite Hgs). destruct Hh as (s1 & Hr1 & Hfetched & Ht1 & Hfree1).
  destruct Hfetched as (Hinv1 & _ & _ & f1 & _ & _ & Hm1).
  destruct (run_guard_update (E := BufferPoolError) _ _ s1 _ data Hinv1 Hm1 (list_elem_of_here _ _) Hl)
    as (s2 & p' & Hr2 & Hinv2 & Hp' & Ht2 & Hfree2 & Hm2).
  assert (p' = p) as ->.
  { cbn [guard_frame] in Hp'. rewrite Ht1 in Hp'. destruct Hinv as [I _]. by apply (table_inj None gs s p' p i). }
  exists s2. split; [|split; [done|split; [congruence|split; [congruence|]]]].
  - intros k. rewrite fetch_write_guard, run_bind, Hr1. cbn beta iota. by rewrite run_bind, Hr2.
  - apply settled_singleton. intros q k [<- <-]%lookup_singleton_Some. apply Hm2. by rewrite lookup_insert_eq.
Qed.

(** A guard dropped, when only what a page holds is looked at. *)
Lemma run_drop_contents gs s g p d :
  pool_inv (g :: gs) s -> contents {[p := d]} s ->
  exists s', run (guard_drop (E := BufferPoolError) g) s = Some (Ok tt, s') /\ pool_inv gs s'
    /\ page_table s' = page_table s /\ contents {[p := d]} s'.
Proof.
  intros Hinv Hm%settled_singleton. destruct (run_guard_drop (E := BufferPoolError) gs _ s g Hinv Hm) as (s' & Hr & Hinv' & Hm' & Ht & _).
  exists s'. split; [exact Hr|]. split; [done|]. split; [done|]. by apply settled_singleton.
Qed.

Lemma run_writer gs s p i data :
  pool_inv gs s -> guards_on gs i = [] -> page_table s !! p = Some i -> zlen data = PAGE_SIZE ->
  zlen gs + 1 < 2 ^ 63 ->
  exists s', run (writer show_io p data) s = Some (Ok tt, s') /\ pool_inv gs s'
    /\ page_table s' = page_table s /\ contents {[p := data]} s'.
Proof.
  intros Hinv Hgs Hp Hl Hfew. destruct (run_held gs s p i data Hinv Hgs Hp Hl Hfew) as (s1 & Hr1 & Hinv1 & Ht1 & _ & Hm1).
  destruct (run_drop_contents gs s1 _ p data Hinv1 Hm1) as (s2 & Hr2 & Hinv2 & Ht2 & Hm2).
  exists s2. split; [|split; [done|split; [congruence|done]]]. unfold writer, write_on.
  rewrite (Hr1 guard_drop). exact Hr2.
Qed.

(** A reader of another page, when the frame of [p] can be given. *)
Lemma run_reader gs s p i q data :
  pool_inv gs s -> guards_on gs i = [] -> page_table s !! p = Some i -> contents {[p := data]} s ->
  page_table s !! q = None -> pid_ok q -> zlen gs + 1 < 2 ^ 63 ->
  match run (reader show_io q) s with
  | Some (Ok _, s') => contents {[p := data]} s'
  | Some (Err e, _) => e = BufferFull /\ is_Some (fetch_error show_io q s)
  | _ => False
  end.
Proof.
  intros Hinv Hgs Hp Hm%settled_singleton Hq Hqid Hfew. unfold reader. rewrite run_bind, fetch_read_guard.
  pose proof (fetch_guard_miss show_io gs _ s q PageReadGuard Hinv Hm Hq Hqid Hfew (fun _ => eq_refl)) as Hmiss.
  destruct (run (fetch_guard show_io PageReadGuard q) s) as [[[g|e|] s3]|]; [|..|done|done].
  - destruct Hmiss as (_ & _ & _ & Hinv3 & _ & _ & f & _ & _ & Hm3).
    destruct (run_drop_contents gs s3 g p data Hinv3) as (s4 & -> & _ & _ & Hm4); [|done].
    apply settled_singleton. intros p' k [<- <-]%lookup_singleton_Some. apply Hm3.
    rewrite lookup_insert_ne by congruence. by rewrite lookup_singleton_eq.
  - destruct Hmiss as [-> [(Hfull & _)|[_ ?]]]; [|done]. destruct Hfull as [_ Hel]. exfalso.
    assert (i ∈ ev_eligible (evictor s)) as Hi; [|rewrite Hel in Hi; by apply not_elem_of_empty in Hi].
    apply (pc_eligible _ _ _ (proj1 Hinv)). split_and!; [done|done|]. by exists p.
Qed.

(** The holder of a guard drops it. *)
Lemma run_dropper gs s i :
  pool_inv (PageReadGuard i :: gs) s ->
  exists s', run (dropper i) s = Some (Ok tt, s') /\ pool_inv gs s' /\ page_table s' = page_table s
    /\ free_frames s' = free_frames s.
Proof.
  intros Hinv. destruct (run_guard_drop (E := BufferPoolError) gs ∅ s _ Hinv) as (s' & Hr & Hinv' & _ & Ht & Hf).
  - intros q k Hq. by rewrite lookup_empty in Hq.
  - by exists s'.
Qed.

(** A guard dropped, the page written and another one read, in turn. *)
Lemma race_in_turn gs s p i q data :
  pool_inv (PageReadGuard i :: gs) s -> guards_on gs i = [] -> page_table s !! p = Some i ->
  page_table s !! q = None -> pid_ok q -> zlen data = PAGE_SIZE -> zlen gs + 1 < 2 ^ 63 ->
  exists s1 s2, run (dropper i) s = Some (Ok tt, s1) /\ run (writer show_io p data) s1 = Some (Ok tt, s2)
    /\ match run (reader show_io q) s2 with
       | Some (Ok _, s3) => contents {[p := data]} s3
       | Some (Err e, _) => e = BufferFull /\ is_Some (fetch_error show_io q s2)
       | _ => False
       end.
Proof.
  intros Hinv Hgs Hp Hq Hqid Hl Hfew. destruct (run_dropper gs s i Hinv) as (s1 & Hr1 & Hinv1 & Ht1 & _).
  destruct (run_writer gs s1 p i data Hinv1 Hgs) as (s2 & Hr2 & Hinv2 & Ht2 & Hm2); [by rewrite Ht1|done..|].
  exists s1, s2. split; [done|]. split; [done|]. apply (run_reader gs s2 p i q data); try done; by rewrite Ht2, Ht1.
Qed.

(** C14: The pin counts and the evictor can come apart, in any pool whose only
    frame to give is about to be the one of a clean page [p].  Its last read
    guard is dropped, a writer of the page and a reader of a page that is not
    cached run beside it.  The drop takes the count down, the writer pins the
    frame, the drop tells the evictor: the writer has its guard, and the frame,
    pinned and write-locked, is eligible for eviction.  The reader then evicts
    the page while the writer still has its guard: it is out of the page table
    and the frame is the other page's.  The writer writes and drops its guard,
    the reader loads its page, all three calls return without an error and the
    pool is sound, but the write is gone: the page is not cached and holds what
    it held before.  The same calls one after the other keep what was written,
    unless the reader's call reports that its own I/O failed. *)
Theorem guard_drop_race gs s p i f q got w1 data :
  pool_inv (PageReadGuard i :: gs) s -> guards_on gs i = [] -> page_table s !! p = Some i ->
  frames s !! i = Some f -> frame_dirty f = false -> contents {[p := frame_data f]} s ->
  free_frames s = [] -> ev_eligible (evictor s) = ∅ ->
  page_table s !! q = None -> pid_ok q -> ps_read q (fill 0 PAGE_SIZE) (disk_manager s) = (Ok got, w1) ->
  zlen data = PAGE_SIZE -> zlen gs + 1 < 2 ^ 63 ->
  (exists r1 s1 r2 s2 s3 f1 f2,
    rtc interleave ([dropper i; writer show_io p data; reader show_io q], s)
                   ([Done (Ok tt); write_on data (PageWriteGuard i); r1], s1)
    /\ page_table s1 !! p = Some i /\ frames s1 !! i = Some f1 /\ frame_lock f1 = RwWriter /\ frame_pins f1 = 1
    /\ i ∈ ev_eligible (evictor s1)
    /\ rtc interleave ([Done (Ok tt); write_on data (PageWriteGuard i); r1], s1)
                      ([Done (Ok tt); write_on data (PageWriteGuard i); r2], s2)
    /\ page_table s2 !! p = None /\ page_table s2 !! q = Some i /\ frames s2 !! i = Some f2 /\ frame_lock f2 = RwWriter
    /\ rtc interleave ([Done (Ok tt); write_on data (PageWriteGuard i); r2], s2)
                      ([Done (Ok tt); Done (Ok tt); Done (Ok tt)], s3)
    /\ pool_inv gs s3 /\ page_table s3 !! p = None /\ contents {[p := frame_data f]} s3)
  /\ exists s1 s2, run (dropper i) s = Some (Ok tt, s1) /\ run (writer show_io p data) s1 = Some (Ok tt, s2)
    /\ match run (reader show_io q) s2 with
       | Some (Ok _, s3) => contents {[p := data]} s3
       | Some (Err e, _) => e = BufferFull /\ is_Some (fetch_error show_io q s2)
       | _ => False
       end.
Proof.
  intros Hinv Hgs Hp Hf Hclean Hm Hfree Hel Hq Hqid Hread Hl Hfew. pose proof Hinv as [I Q].
  split; [|by apply (race_in_turn gs s p i q data)].
  destruct (drop_overtaken show_io gs s p i f (write_on data) [reader show_io q] Hinv Hgs Hp Hf) as (s1 & Hr1 & Sc1).
  rewrite Hclean, Hel, union_empty_r_L in Sc1.
  destruct (fetch_stolen show_io s i _ _ _ s1 p q got w1 Sc1 Hfree Hq eq_refl eq_refl) as (tx & tx' & s2 & Hr2 & Sc2);
    [cbn; lia|done|].
  assert (prog_steps (reader show_io q, s1) (reader_rest q i got tx, s2)) as Hr2' by (by do 2 apply steps_on_result).
  destruct (run_write_on s i _ _ _ _ _ _ s2 data Sc2 eq_refl eq_refl eq_refl) as (s3 & Hr3 & Sc3).
  destruct (run_reader_rest s i _ _ q data got s3 tx tx' Sc3) as (s4 & Hr4 & Sc4).
  pose proof (ps_read_law q (fill 0 PAGE_SIZE) (disk_manager s) (pc_disk _ _ _ I) Hqid ltac:(done)) as Hlaw.
  rewrite Hread in Hlaw. destruct Hlaw as (Hw1 & Hpages & Hgot).
  eexists _, s1, (reader_rest q i got tx), s2, s4, _, _. split; [exact Hr1|].
  split; [by rewrite (sc_table _ _ _ _ _ _ _ _ _ Sc1)|]. split; [by apply (scene_lookup Sc1)|].
  split; [done|]. split; [done|]. split; [rewrite (sc_el _ _ _ _ _ _ _ _ _ Sc1); set_solver|].
  split; [exact (interleave_steps [_; _; reader show_io q] 2 _ _ _ _ eq_refl Hr2')|].
  assert (q <> p) as Hqp by congruence.
  split; [rewrite (sc_table _ _ _ _ _ _ _ _ _ Sc2), lookup_insert_ne by done; by apply lookup_delete_eq|].
  split; [rewrite (sc_table _ _ _ _ _ _ _ _ _ Sc2); by rewrite lookup_insert_eq|].
  split; [by apply (scene_lookup Sc2)|]. split; [done|]. split.
  { etrans; [exact (run_interleave [_; write_on data (PageWriteGuard i); _] 1 _ _ _ _ eq_refl Hr3)|].
    exact (run_interleave [_; _; reader_rest q i got tx] 2 _ _ _ _ eq_refl Hr4). }
  assert (page_table s4 !! p = None) as Hp4.
  { rewrite (sc_table _ _ _ _ _ _ _ _ _ Sc4), lookup_insert_ne by done. by apply lookup_delete_eq. }
  split; [split; [|by apply (scene_quiet Sc4)]|split; [done|]].
  - by eapply (race_end gs s p i f q got w1 s1 s2 s4).
  - intros p' d [<- <-]%lookup_singleton_Some. destruct (Hm p (frame_data f)) as [Hpid Hh]; [by apply lookup_singleton_eq|].
    split; [done|]. unfold holds in *. rewrite Hp4, (sc_disk _ _ _ _ _ _ _ _ _ Sc4), Hpages. rewrite Hp, Hf in Hh.
    destruct Hh as (? & [= <-] & _ & Hc). by apply Hc.
Qed.
End Properties.

(** * In memory *)

#[local] Abbreviation page_a := (mkPageId 7 0).
#[local] Abbreviation page_b := (mkPageId 7 1).
#[local] Abbreviation zeros := (fill 0 PAGE_SIZE).
#[local] Abbreviation nines := (fill 9 PAGE_SIZE).
#[local] Abbreviation mem_reader := (reader (Rx := nat * nat) (fun _ => [])).
#[local] Abbreviation mem_writer := (writer (Rx := nat * nat) (fun _ => [])).

(** One frame, with page A under a read guard. *)
Definition race_pool : BufferPoolManager ClockEvictorState Channels nat (DiskManager MemFile * MemFs) :=
  match run (fetch_page_read (Rx := nat * nat) (fun _ => []) page_a) (mem_pool 1) with
  | Some (_, s) => s
  | None => mem_pool 1
  end.

Lemma page_id_ok n : id_ok n -> pid_ok (mkPageId 7 n).
Proof. split; [by unfold id_ok|done]. Qed.

Lemma race_pool_frame : frames race_pool !! 0%nat = Some (mkFrame zeros (RwReaders 1) 0 false (Some page_a) 1).
Proof. by vm_compute. Qed.
Lemma race_pool_table : page_table race_pool !! page_a = Some 0%nat /\ page_table race_pool !! page_b = None.
Proof. split; by vm_compute. Qed.
Lemma race_pool_eligible : ev_eligible (evictor race_pool) = ∅.
Proof. apply (bool_decide_eq_true_1 _). by vm_compute. Qed.
Lemma race_pool_free : free_frames race_pool = [].
Proof. by vm_compute. Qed.
Lemma race_pool_read :
  (ps_read page_b zeros (disk_manager race_pool)).1 = Ok zeros.
Proof. by vm_compute. Qed.

Lemma race_pool_inv : pool_inv [PageReadGuard 0] race_pool /\ contents {[page_a := zeros]} race_pool.
Proof.
  assert (pid_ok page_a) as Ha by (by apply page_id_ok).
  assert (knows {[page_a := settled zeros]} (mem_pool 1)) as Hm.
  { rewrite <- map_fmap_singleton. apply bpm_new_tracks. intros p d [<- <-]%lookup_singleton_Some.
    split; [done|]. by vm_compute. }
  pose proof (fetch_guard_miss (Rx := nat * nat) (fun _ => []) [] _ _ page_a PageReadGuard (mem_pool_inv 1) Hm
    eq_refl Ha ltac:(done) (fun _ => eq_refl)) as Hf.
  assert (E : match run (fetch_page_read (Rx := nat * nat) (fun _ => []) page_a) (mem_pool 1) with
              | Some (Ok (PageReadGuard 0), _) => true | _ => false end = true) by (by vm_compute).
  rewrite <- fetch_read_guard in Hf. unfold race_pool.
  destruct (run (fetch_page_read _ page_a) (mem_pool 1)) as [[[[[|i]|i]|e|] s]|]; try discriminate E.
  destruct Hf as (_ & _ & _ & Hinv & _ & _ & f & _ & Hfit & Hk). split; [exact Hinv|]. apply settled_singleton.
  assert (frame_data f = zeros) as Hd.
  { destruct (Hfit (settled zeros)) as [->|[[= ->]|?]]; [by apply lookup_singleton_eq|done|done|done]. }
  rewrite Hd in Hk. unfold lapse in Hk. by rewrite lookup_singleton_eq, insert_singleton_eq in Hk.
Qed.

Lemma guard_drop_race_witness :
  (exists s, rtc interleave ([dropper 0; mem_writer page_a nines; mem_reader page_b], race_pool)
                            ([Done (Ok tt); Done (Ok tt); Done (Ok tt)], s)
     /\ pool_inv [] s /\ contents {[page_a := zeros]} s)
  /\ exists s1 s2 s3, run (dropper 0) race_pool = Some (Ok tt, s1) /\ run (mem_writer page_a nines) s1 = Some (Ok tt, s2)
     /\ run (mem_reader page_b) s2 = Some (Ok tt, s3) /\ contents {[page_a := nines]} s3.
Proof.
  assert (E : match run (dropper 0) race_pool with
              | Some (Ok _, s1) =>
                  match run (mem_writer page_a nines) s1 with
                  | Some (Ok _, s2) => match run (mem_reader page_b) s2 with Some (Ok _, _) => true | _ => false end
                  | _ => false
                  end
              | _ => false
              end = true) by (by vm_compute).
  destruct race_pool_inv as [Hinv Hm]. destruct race_pool_table as [Ha Hb].
  assert (Hread : ps_read page_b zeros (disk_manager race_pool) = (Ok zeros, (ps_read page_b zeros (disk_manager race_pool)).2)).
  { rewrite <- race_pool_read. apply surjective_pairing. }
  pose proof (guard_drop_race (Rx := nat * nat) (fun _ => []) [] race_pool page_a 0 _ page_b zeros _ nines Hinv eq_refl Ha
    race_pool_frame eq_refl Hm race_pool_free race_pool_eligible Hb (page_id_ok 1 ltac:(unfold id_ok; lia)) Hread
    ltac:(by vm_compute) ltac:(done))
    as [(r1 & s1 & r2 & s2 & s3 & f1 & f2 & H1 & _ & _ & _ & _ & _ & H2 & _ & _ & _ & _ & H3 & Hinv3 & _ & Hc) Hturn].
  split.
  - exists s3. split; [etrans; [exact H1|]; etrans; [exact H2|exact H3]|]. split; [exact Hinv3|exact Hc].
  - destruct Hturn as (t1 & t2 & E1 & E2 & E3). exists t1, t2. rewrite E1, E2 in E.
    destruct (run (mem_reader page_b) t2) as [[[[]|e|] t3]|]; [|discriminate E..]. exists t3.
    split; [exact E1|]. split; [exact E2|]. split; [reflexivity|exact E3].
Defined.
