(* ===== verification/BufferPoolStandstill.v ===== *)
(** Threads of the buffer pool that wait for each other: eviction waits for the
    lock of a frame under the locks of the page table and of the page
    processing. *)
From stdpp Require Import gmap relations.
From Stdlib Require Import String.
From S2P Require Import Prelude.
From S2P Require Import Bytes.
From S2P Require Import RustStr.
From S2P Require Import Page.
From S2P Require Import Evictor.
From S2P Require Import FileSystem.
From S2P Require Import FileSystemProps.
From S2P Require Import DiskManager.
From S2P Require Import DiskManagerSpec.
From S2P Require Import DiskManagerProps.
From S2P Require Import PageStore.
From S2P Require Import Prog.
From S2P Require Import Frame.
From S2P Require Import Broadcast.
From S2P Require Import BufferPool.
From S2P Require Import BufferPoolSpec.
From S2P Require Import BufferPoolSteps.
From S2P Require Import BufferPoolCore.
From S2P Require Import BufferPoolMethods.
From S2P Require Import BufferPoolCreate.
From S2P Require Import BufferPoolProps.
From S2P Require Import BufferPoolHistory.
From S2P Require Import BufferPoolRace.

Section Standstill.
Context {Ev C Tx Rx W : Type} `{EvictorLaws Ev, BroadcastLaws C Tx Rx, !PageStore W, !PageStoreLaws W, !FullPages W}.
#[local] Abbreviation Bpm := (BufferPoolManager Ev C Tx W).
#[local] Abbreviation bpmP := (prog Bpm BufferPoolError).
Variable show_io : IoError -> rstr.
Implicit Types (s : Bpm) (gs : list PageGuard).

(** The holder of a guard that asks for another page before it drops it; it
    goes on without the page when the pool is full. *)
Definition asker (r : PageId) (g : PageGuard) : bpmP unit :=
  on_result (fetch_page_read show_io r) (fun x =>
    match x with
    | Ok h => guard_drop h
    | Err _ => mret tt
    | Panic => Done Panic
    end);;
  guard_drop g.

(** A writer of page [p] that asks for page [r]. *)
Definition greedy (p : PageId) (data : list Z) (r : PageId) : bpmP unit :=
  g ← fetch_page_write show_io p; guard_update (guard_frame g) data;; asker r g.

Lemma asker_waits r g s : blocked (asker r g) s <-> page_table_state s = Locked.
Proof.
  cbn. destruct (page_table_state s); cbn; done.
Qed.

(** A reader that evicts a dirty page stops at the lock of its frame. *)
Lemma reader_stopped s i w t f s' p q :
  scene s i all_free w t ∅ {[i]} f s' -> free_frames s = [] -> t !! q = None ->
  frame_page_id f = Some p -> frame_dirty f = true ->
  exists rd s2, prog_steps (reader show_io q, s') (rd, s2)
    /\ scene s i (Locked, Locked) w (delete p t) ∅ ∅ f s2
    /\ forall s3, blocked rd s3 <-> exists f3, frames s3 !! i = Some f3 /\ frame_lock f3 = RwWriter.
Proof.
  intros Sc Hfree Hq Hpg Hdirty.
  pose proof (scene_tbl Sc Locked) as Sc1. cbn [fst all_free] in Sc1.
  assert (set_free [] (set_table_state Locked s') = set_table_state Locked s') as Hset.
  { pose proof (sc_free _ _ _ _ _ _ _ _ _ Sc1) as E. rewrite Hfree in E. destruct s'. cbn in *. by subst. }
  pose proof (scene_io Sc1 Locked) as Sc2. cbn [snd] in Sc2.
  destruct (evict_steps s i _ w t ∅ f _ p Sc2 Hpg) as (s2 & Sc3 & Hev). rewrite Hdirty in Hev.
  eexists _, s2. split; [|split; [exact Sc3|]].
  - unfold reader, fetch_page_read, fetch_and_pin_frame, with_lock at 1, lock.
    do 3 apply steps_on_result.
    eapply steps_part; [cbn [run]; cbn [mutex_get page_table_mutex]; rewrite (sc_table_state _ _ _ _ _ _ _ _ _ Sc); reflexivity|].
    apply steps_on_result. unfold fetch_lookup.
    eapply steps_part; [rewrite run_atomic; reflexivity|]. cbn [sget mutex_set page_table_mutex]. cbn beta iota.
    rewrite (sc_table _ _ _ _ _ _ _ _ _ Sc1), Hq. cbn beta iota. apply steps_on_result. unfold fetch_frame.
    eapply steps_part; [apply run_pop_free, Sc1|].
    rewrite (sc_free _ _ _ _ _ _ _ _ _ Sc1), Hfree. cbn [last length take Nat.sub]. cbn beta iota. rewrite Hset.
    unfold with_lock at 1, lock.
    eapply steps_part; [cbn [run]; cbn [mutex_get page_io_mutex]; rewrite (sc_io_state _ _ _ _ _ _ _ _ _ Sc1); reflexivity|].
    cbn [mutex_set page_io_mutex]. cbn beta iota. apply steps_on_result, steps_on_result. exact Hev.
  - intros s3. cbn. destruct (frames s3 !! i) as [f3|]; [|split; [done|by intros (? & ? & _)]].
    unfold read_data. destruct (frame_lock f3) eqn:El; cbn.
    1, 3: split; [done|]; intros (f4 & [= <-] & ?); congruence.
    split; [|done]. intros _. by exists f3.
Qed.

(** The page taken for writing, when a drop of its guard is overtaken. *)
Lemma greedy_holds gs s p i f data r ts :
  pool_inv (PageReadGuard i :: gs) s -> guards_on gs i = [] -> page_table s !! p = Some i ->
  frames s !! i = Some f -> ev_eligible (evictor s) = ∅ ->
  exists s1, rtc interleave (dropper i :: greedy p data r :: ts, s) (Done (Ok tt) :: asker r (PageWriteGuard i) :: ts, s1)
    /\ scene s i all_free (disk_manager s) (page_table s) ∅ {[i]} (write_locked p i data true 1) s1.
Proof.
  intros Hinv Hgs Hp Hf Hel.
  destruct (drop_overtaken show_io gs s p i f (fun g => guard_update (guard_frame g) data;; asker r g) ts Hinv Hgs Hp Hf)
    as (s1 & Hr1 & Sc1). rewrite Hel, union_empty_r_L in Sc1.
  destruct (run_scene_update s i _ _ _ _ _ _ s1 data Sc1) as (s2 & Hr2 & Sc2). exists s2. split; [|exact Sc2].
  etrans; [exact Hr1|]. eapply (interleave_steps (_ :: _ :: ts) 1); [reflexivity|].
  eapply steps_part; [exact Hr2|reflexivity].
Qed.

(** Alone, the writer is refused the other page. *)
Lemma run_asker gs s r g p d :
  pool_inv (g :: gs) s -> pool_full s -> page_table s !! r = None -> pid_ok r -> zlen gs + 2 < 2 ^ 63 ->
  contents {[p := d]} s ->
  exists s1 s2, run (fetch_page_read show_io r) s = Some (Err BufferFull, s1)
    /\ run (asker r g) s = Some (Ok tt, s2) /\ pool_inv gs s2
    /\ page_table s2 = page_table s /\ contents {[p := d]} s2.
Proof.
  intros Hinv Hfull Hr Hrid Hfew Hm%settled_singleton. unfold asker. rewrite run_bind, run_on_result, fetch_read_guard.
  pose proof (fetch_guard_miss show_io (g :: gs) _ s r PageReadGuard Hinv Hm Hr Hrid
    ltac:(rewrite zlen_cons; lia) (fun _ => eq_refl)) as Hmiss.
  destruct (run (fetch_guard show_io PageReadGuard r) s) as [[[h|e|] s1]|]; [|..|done|done].
  { destruct Hmiss as (_ & Hno & _). by destruct Hno. }
  destruct Hmiss as [-> [(_ & Hinv1 & Hm1 & Ht1)|[Hno _]]]; [|by destruct Hno].
  destruct (run_drop_contents gs s1 g p d Hinv1) as (s2 & Hr2 & Hinv2 & Ht2 & Hm2); [by apply settled_singleton|].
  exists s1, s2. split; [done|]. cbn beta iota. rewrite run_ret. cbn beta iota. rewrite Hr2, Ht2, Ht1. done.
Qed.

(** A pool whose frames are all under guards stays full when a guard is changed
    for another one on the frame. *)
Lemma pool_full_guard gs s s' g g' :
  pool_core None (g :: gs) s -> pool_core None (g' :: gs) s' -> guard_frame g' = guard_frame g ->
  page_table s' = page_table s -> free_frames s' = free_frames s -> pool_full s -> pool_full s'.
Proof.
  intros I I' Hg Ht Hfr [Hfree Hel]. split; [congruence|]. apply set_eq. intros j. split; [|set_solver].
  rewrite <- Hel, (pc_eligible _ _ _ I'), (pc_eligible _ _ _ I), Ht, !guards_on_cons, Hg. intros (H1' & H2' & H3').
  split_and!; [done| |done]. by case_decide.
Qed.

Lemma standstill_in_turn gs s p i q r data :
  pool_inv (PageReadGuard i :: gs) s -> guards_on gs i = [] -> page_table s !! p = Some i -> pool_full s ->
  page_table s !! q = None -> pid_ok q -> page_table s !! r = None -> pid_ok r ->
  zlen data = PAGE_SIZE -> zlen gs + 2 < 2 ^ 63 ->
  exists s1 s2, run (dropper i) s = Some (Ok tt, s1) /\ run (greedy p data r) s1 = Some (Ok tt, s2)
    /\ match run (reader show_io q) s2 with
       | Some (Ok _, s3) => contents {[p := data]} s3
       | Some (Err e, _) => e = BufferFull /\ is_Some (fetch_error show_io q s2)
       | _ => False
       end.
Proof.
  intros Hinv Hgs Hp Hfull Hq Hqid Hr Hrid Hl Hfew.
  destruct (run_dropper gs s i Hinv) as (s1 & Hr1 & Hinv1 & Ht1 & Hf1).
  destruct (run_held show_io gs s1 p i data Hinv1 Hgs) as (s2 & Hr2 & Hinv2 & Ht2 & Hf2 & Hm2);
    [by rewrite Ht1|done|lia|].
  destruct (run_asker gs s2 r (PageWriteGuard i) p data Hinv2) as (_ & s3 & _ & Hr3 & Hinv3 & Ht3 & Hm3); try done.
  - apply (pool_full_guard gs s s2 (PageReadGuard i) (PageWriteGuard i)); [apply Hinv|apply Hinv2|done|congruence..|done].
  - by rewrite Ht2, Ht1.
  - exists s1, s3. split; [done|]. split; [by rewrite <- Hr3, <- (Hr2 (asker r))|].
    apply (run_reader show_io gs s3 p i q data); try done; [by rewrite Ht3, Ht2, Ht1..|lia].
Qed.

(** C15: The pool can come to a standstill: eviction copies a dirty page under
    the locks of the page table and of the page processing, and waits there for
    the frame's lock.  In any full pool, let the last read guard of a page [p] be
    dropped while a writer of [p] and a reader of a page [q] that is not cached
    run beside it, the writer asking for a page [r] while it has its guard.  The
    drop can be overtaken so that the writer has its guard, has written, and is
    about to ask for [r], while no mutex is locked.  The reader alone then goes
    on until it waits for the lock of the writer's frame, with both mutexes
    locked; the writer waits for the mutex of the page table, whatever page it
    asks for; the drop has ended: no thread can take a step.  The same calls one
    after the other all end (the writer is refused [r], the pool is full), the
    reader's unless its own I/O fails with an error, and what was written is
    kept. *)
Theorem eviction_standstill gs s p i q r data :
  pool_inv (PageReadGuard i :: gs) s -> guards_on gs i = [] -> page_table s !! p = Some i -> pool_full s ->
  page_table s !! q = None -> pid_ok q -> page_table s !! r = None -> pid_ok r ->
  zlen data = PAGE_SIZE -> zlen gs + 2 < 2 ^ 63 ->
  (exists s1 rd s2 f,
    rtc interleave ([dropper i; greedy p data r; reader show_io q], s)
                   ([Done (Ok tt); asker r (PageWriteGuard i); reader show_io q], s1)
    /\ page_table_state s1 = Unlocked /\ page_io_state s1 = Unlocked
    /\ prog_steps (reader show_io q, s1) (rd, s2)
    /\ page_table_state s2 = Locked /\ page_io_state s2 = Locked
    /\ frames s2 !! i = Some f /\ frame_lock f = RwWriter /\ frame_data f = data
    /\ (forall s' : Bpm, blocked rd s' <-> exists f', frames s' !! i = Some f' /\ frame_lock f' = RwWriter)
    /\ (forall s' : Bpm, blocked (asker r (PageWriteGuard i)) s' <-> page_table_state s' = Locked)
    /\ forall c, ~ interleave ([Done (Ok tt); asker r (PageWriteGuard i); rd], s2) c)
  /\ exists s1 s2, run (dropper i) s = Some (Ok tt, s1) /\ run (greedy p data r) s1 = Some (Ok tt, s2)
    /\ match run (reader show_io q) s2 with
       | Some (Ok _, s3) => contents {[p := data]} s3
       | Some (Err e, _) => e = BufferFull /\ is_Some (fetch_error show_io q s2)
       | _ => False
       end.
Proof.
  intros Hinv Hgs Hp Hfull Hq Hqid Hr Hrid Hl Hfew. split; [|by apply (standstill_in_turn gs s p i q r data)].
  destruct (cached_frame _ s p i (proj1 Hinv) Hp) as (f & Hf & _). pose proof Hfull as [Hfree Hel].
  destruct (greedy_holds gs s p i f data r [reader show_io q] Hinv Hgs Hp Hf Hel) as (s1 & Hr1 & Sc1).
  destruct (reader_stopped s i _ _ _ s1 p q Sc1 Hfree Hq eq_refl eq_refl) as (rd & s2 & Hr2 & Sc2 & Hrd).
  exists s1, rd, s2, (write_locked p i data true 1).
  split; [exact Hr1|]. split; [apply Sc1|]. split; [apply Sc1|]. split; [exact Hr2|].
  split; [apply Sc2|]. split; [apply Sc2|]. pose proof (scene_lookup Sc2) as Hf2. split_and!; [done..| |].
  - intros s'. apply asker_waits.
  - intros c. apply blocked_step. apply Forall_cons; split; [left; by eexists|].
    apply Forall_cons; split; [right; apply asker_waits, Sc2|]. apply Forall_singleton. right. apply Hrd.
    by exists (write_locked p i data true 1).
Qed.
End Standstill.

(** * In memory *)

#[local] Abbreviation page_a := (mkPageId 7 0).
#[local] Abbreviation page_b := (mkPageId 7 1).
#[local] Abbreviation nines := (fill 9 PAGE_SIZE).

Lemma eviction_standstill_witness :
  let threads := [dropper 0; greedy (Rx := nat * nat) (fun _ => []) page_a nines page_b;
                  reader (Rx := nat * nat) (fun _ => []) page_b] in
  (exists w rd s, rtc interleave (threads, race_pool) ([Done (Ok tt); w; rd], s)
     /\ blocked w s /\ blocked rd s /\ page_table_state s = Locked)
  /\ exists s1 s2, run (dropper 0) race_pool = Some (Ok tt, s1)
     /\ run (greedy (Rx := nat * nat) (fun _ => []) page_a nines page_b) s1 = Some (Ok tt, s2).
Proof.
  intros threads. destruct race_pool_inv as [Hinv _]. destruct race_pool_table as [Ha Hb].
  pose proof (page_id_ok 1 ltac:(unfold id_ok; lia)) as Hbid.
  pose proof (eviction_standstill (Rx := nat * nat) (fun _ => []) [] race_pool page_a 0 page_b page_b nines Hinv eq_refl Ha
    (conj race_pool_free race_pool_eligible) Hb Hbid Hb Hbid ltac:(by vm_compute) ltac:(done))
    as [(s1 & rd & s2 & f & H1 & _ & _ & H2 & Ht & _ & Hf & Hl & _ & Hrd & Hw & _) (t1 & t2 & E1 & E2 & _)].
  split; [|exists t1, t2; split; [exact E1|exact E2]].
  eexists _, rd, s2. split; [etrans; [exact H1|exact (interleave_steps [_; _; _] 2 _ _ _ _ eq_refl H2)]|].
  split; [apply Hw; exact Ht|]. split; [apply Hrd; exists f; split; [exact Hf|exact Hl]|exact Ht].
Defined.
