(* ===== verification/BufferPoolAccounts.v ===== *)
(** What a thread of the buffer pool owns: the mutexes it holds, the pins it has
    taken and the frame locks of its guards, and whether it has panicked in the
    scope of a lock; and what each access to the shared
    state does to that account. *)
From stdpp Require Import gmap.
From Stdlib Require Import String.
From S2P Require Import Prelude.
From S2P Require Import Bytes.
From S2P Require Import RustStr.
From S2P Require Import Page.
From S2P Require Import Evictor.
From S2P Require Import FileSystem.
From S2P Require Import PageStore.
From S2P Require Import Prog.
From S2P Require Import ProgLogic.
From S2P Require Import Frame.
From S2P Require Import Broadcast.
From S2P Require Import BufferPool.
From S2P Require Import BufferPoolSpec.

(** * Tokens *)

Inductive MutexId := MTable | MFree | MIo.

Inductive Token :=
| THold (m : MutexId)
| TPin (frame : nat)
| TRead (frame : nat)
| TWrite (frame : nat)
| TPanic.

#[export] Instance MutexId_eq_dec : EqDecision MutexId.
Proof. solve_decision. Defined.
#[export] Instance MutexState_eq_dec : EqDecision MutexState.
Proof. solve_decision. Defined.
#[export] Instance Token_eq_dec : EqDecision Token.
Proof. solve_decision. Defined.

(** The order in which mutexes are taken. *)
Definition rank (m : MutexId) : nat := match m with MTable => 0 | MFree => 1 | MIo => 2 end.

Definition token_frame (t : Token) : option nat :=
  match t with THold _ | TPanic => None | TPin i | TRead i | TWrite i => Some i end.

Definition cnt (t : Token) (l : list Token) : nat := length (filter (fun t' => t' = t) l).

Lemma cnt_app t l1 l2 : cnt t (l1 ++ l2) = (cnt t l1 + cnt t l2)%nat.
Proof. unfold cnt. by rewrite filter_app, length_app. Qed.
Lemma cnt_cons t t' l : cnt t (t' :: l) = (if decide (t' = t) then S (cnt t l) else cnt t l).
Proof. unfold cnt. rewrite filter_cons. by case_decide. Qed.
Lemma cnt_same t l : cnt t (t :: l) = S (cnt t l).
Proof. rewrite cnt_cons. by rewrite decide_True. Qed.
Lemma cnt_other t t' l : t' <> t -> cnt t (t' :: l) = cnt t l.
Proof. intros. rewrite cnt_cons. by rewrite decide_False. Qed.
Lemma cnt_perm t l l' : l ≡ₚ l' -> cnt t l = cnt t l'.
Proof. intros Hp. unfold cnt. by rewrite Hp. Qed.
Lemma cnt_pos t l : t ∈ l <-> (0 < cnt t l)%nat.
Proof.
  induction l as [|t' l IH]; [split; [by intros ?%elem_of_nil|by unfold cnt; simpl; lia]|].
  rewrite cnt_cons, elem_of_cons, IH. case_decide; subst; [split; [lia|by left]|].
  split; [intros [->|?]; [done|done]|by right].
Qed.
Lemma cnt_zero t l : t ∉ l <-> cnt t l = 0%nat.
Proof. rewrite cnt_pos. lia. Qed.

(** No mutex is held; those held come before [m]. *)
Definition no_mutex (l : list Token) : Prop := forall m, THold m ∉ l.
Definition below (m : MutexId) (l : list Token) : Prop := forall m', THold m' ∈ l -> (rank m' < rank m)%nat.

(** * The account *)

(** A reader-writer lock with [r] readers and [w] writers. *)
Definition rw_ok (l : RwState) (r w : nat) : Prop :=
  match l with
  | RwReaders n => r = n /\ w = 0%nat
  | RwWriter => r = 0%nat /\ w = 1%nat
  | RwPoisoned => r = 0%nat /\ w = 0%nat
  end.

Definition frame_ok (l : list Token) (i : nat) (f : Frame) : Prop :=
  frame_id f = i /\ frame_pins f = wrap 64 (Z.of_nat (cnt (TPin i) l))
  /\ rw_ok (frame_lock f) (cnt (TRead i) l) (cnt (TWrite i) l).

Lemma frame_ok_cnt l l' i f :
  (forall t, token_frame t = Some i -> cnt t l' = cnt t l) -> frame_ok l i f -> frame_ok l' i f.
Proof. unfold frame_ok. intros Hc. by rewrite !Hc. Qed.

Section Accounts.
Context {Ev C Tx Rx W : Type} `{EvictorLaws Ev, !Broadcast C Tx Rx, !PageStore W}.
#[local] Abbreviation Bpm := (BufferPoolManager Ev C Tx W).
#[local] Abbreviation bpmP := (prog Bpm BufferPoolError).

(** The number of frames. *)
Variable N : nat.

Definition pool_mutex (m : MutexId) : Mutex (S := Bpm) :=
  match m with MTable => page_table_mutex | MFree => free_frames_mutex | MIo => page_io_mutex end.

(** The shared state, when the threads together own [l]. *)
Record pool_ok (l : list Token) (s : Bpm) : Prop := {
  po_mutex : forall m,
    cnt (THold m) l = match mutex_get (pool_mutex m) s with Locked => 1%nat | _ => 0%nat end;
  po_ev : ev_inv (evictor s);
  po_cap : ev_capacity (evictor s) = N;
  po_len : length (frames s) = N;
  po_range : forall t i, t ∈ l -> token_frame t = Some i -> (i < N)%nat;
  po_frame : forall i f, frames s !! i = Some f -> frame_ok l i f;
  po_poison : (exists m, mutex_get (pool_mutex m) s = Poisoned)
              \/ (exists i f, frames s !! i = Some f /\ frame_lock f = RwPoisoned) -> TPanic ∈ l;
}.

(** A waiting thread waits for a mutex beyond those it holds, or holds none, or
    waits for a frame that is locked by a writer. *)
Definition pool_waits (l : list Token) (s : Bpm) : Prop :=
  (exists m, mutex_get (pool_mutex m) s = Locked /\ below m l)
  \/ no_mutex l
  \/ exists i f, frames s !! i = Some f /\ frame_lock f = RwWriter.

Lemma pool_ok_perm l l' s : l ≡ₚ l' -> pool_ok l s -> pool_ok l' s.
Proof.
  intros Hp [I1 I2 I3 I4 I5 I6 I7]. split; try done.
  - intros m. by rewrite <- (cnt_perm _ _ _ Hp).
  - intros t i Ht. apply I5. by rewrite Hp.
  - intros i f Hf. eapply frame_ok_cnt; [|by apply I6]. intros. symmetry. by apply cnt_perm.
  - intros Hpo. rewrite <- Hp. by apply I7.
Qed.

Lemma pool_waits_perm l l' s : l ≡ₚ l' -> pool_waits l s -> pool_waits l' s.
Proof. intros Hp. unfold pool_waits, below, no_mutex. by setoid_rewrite Hp. Qed.

#[local] Instance pool_accounts : Accounts Bpm Token := {
  acc_ok := pool_ok;
  acc_waits := pool_waits;
  acc_ok_perm := pool_ok_perm;
  acc_waits_perm := pool_waits_perm;
}.

(** A change of frame [i] and of its tokens. *)
Lemma pool_ok_upd i f f' l l' s :
  pool_ok l s -> frames s !! i = Some f -> frame_ok l' i f' ->
  (forall t, token_frame t <> Some i -> t <> TPanic -> cnt t l' = cnt t l) ->
  (TPanic ∈ l \/ frame_lock f' = RwPoisoned -> TPanic ∈ l') ->
  pool_ok l' (set_frames (<[i := f']> (frames s)) s).
Proof.
  intros [I1 I2 I3 I4 I5 I6 I7] Hf Hf' Hc Hpo. pose proof (lookup_lt_Some _ _ _ Hf) as Hlt. split; try done.
  - intros m. rewrite Hc by done. rewrite I1. by destruct m.
  - cbn. by rewrite length_insert.
  - intros t j Ht Hj. destruct (decide (i = j)) as [->|Hij]; [lia|]. apply (I5 t); [|done].
    apply cnt_pos. rewrite <- Hc by (congruence || by intros ->). by apply cnt_pos.
  - intros j g Hg. cbn in Hg. destruct (decide (i = j)) as [<-|Hij].
    + rewrite list_lookup_insert_eq in Hg by lia. by injection Hg as <-.
    + rewrite list_lookup_insert_ne in Hg by done. eapply frame_ok_cnt; [|by apply I6].
      intros t Ht. apply Hc; [congruence|by intros ->].
  - intros [[m Hm]|(j & g & Hg & Hl)].
    + apply Hpo. left. apply I7. left. exists m. by destruct m.
    + cbn in Hg. destruct (decide (i = j)) as [<-|Hij].
      * rewrite list_lookup_insert_eq in Hg by lia. injection Hg as <-. apply Hpo. by right.
      * rewrite list_lookup_insert_ne in Hg by done. apply Hpo. left. apply I7. right. by exists j, g.
Qed.

(** A change of frame [i] by a thread that owns [l], which does not poison it. *)
Lemma pool_ok_frame i f f' l l' rest s :
  pool_ok (l ++ rest) s -> frames s !! i = Some f -> frame_ok (l' ++ rest) i f' ->
  (forall t, token_frame t <> Some i -> cnt t l' = cnt t l) ->
  (frame_lock f' = RwPoisoned -> frame_lock f = RwPoisoned) ->
  pool_ok (l' ++ rest) (set_frames (<[i := f']> (frames s)) s).
Proof.
  intros Hok Hf Hf' Hc Hpo. assert (forall t, token_frame t <> Some i -> cnt t (l' ++ rest) = cnt t (l ++ rest)) as Hc'.
  { intros t Ht. by rewrite !cnt_app, Hc. }
  eapply pool_ok_upd; [done..|intros; by apply Hc'|]. intros Hp. rewrite cnt_pos, Hc', <- cnt_pos by done.
  destruct Hp as [Hp|Hp]; [done|]. apply (po_poison _ _ Hok). right. exists i, f. auto.
Qed.

(** The record of a panic. *)
Lemma pool_ok_panic l s : pool_ok l s -> pool_ok (TPanic :: l) s.
Proof.
  intros [I1 I2 I3 I4 I5 I6 I7]. split; try done.
  - intros t i [->|Ht]%elem_of_cons; [done|by apply I5].
  - intros _. by left.
Qed.

(** * Results

    A method that fails has released what it has taken, except perhaps pins. *)

Definition pins_of (ps : list nat) : list Token := TPin <$> ps.
Definition extends (b l : list Token) : Prop := exists ps, l ≡ₚ pins_of ps ++ b.

(** A panic may have poisoned what was locked. *)
Definition crashes (b l : list Token) : Prop := exists n, extends (replicate n TPanic ++ b) l.

Definition post {E A} (b : list Token) (F : A -> list Token -> Prop) (r : outcome E A) (l : list Token) : Prop :=
  match r with Ok a => F a l | Err _ => extends b l | Panic => crashes b l end.

(** [p] started with [l]; on failure what remains is [b] and pins. *)
Definition spec {E A} (b l : list Token) (p : prog Bpm E A) (F : A -> list Token -> Prop) : Prop :=
  safe l p (post b F).

Lemma extends_refl l : extends l l.
Proof. by exists []. Qed.
Lemma extends_pin i l : extends l (TPin i :: l).
Proof. by exists [i]. Qed.
Lemma extends_trans b l l' : extends b l -> extends l l' -> extends b l'.
Proof. intros [ps Hl] [ps' Hl']. exists (ps' ++ ps). rewrite Hl', Hl. unfold pins_of. by rewrite fmap_app, app_assoc. Qed.
Lemma extends_perm b b' l l' : b ≡ₚ b' -> l ≡ₚ l' -> extends b l -> extends b' l'.
Proof. intros Hb Hl [ps Hp]. exists ps. by rewrite <- Hl, <- Hb. Qed.
Lemma extends_cons t b l : extends b l -> extends (t :: b) (t :: l).
Proof. intros [ps Hp]. exists ps. rewrite Hp. by rewrite Permutation_middle. Qed.
Lemma extends_cons_inv t b l : extends (t :: b) (t :: l) -> extends b l.
Proof. intros [ps Hp]. exists ps. rewrite <- Permutation_middle in Hp. by apply Permutation_cons_inv in Hp. Qed.

Lemma extends_under t b l : extends (t :: b) l -> exists l', l ≡ₚ t :: l' /\ extends b l'.
Proof. intros [ps Hp]. exists (pins_of ps ++ b). split; [by rewrite Hp, Permutation_middle|by exists ps]. Qed.

(** No pin is a mutex. *)
Lemma extends_hold m b l : extends b l -> cnt (THold m) l = cnt (THold m) b.
Proof.
  intros [ps Hp]. rewrite (cnt_perm _ _ _ Hp), cnt_app. assert (cnt (THold m) (pins_of ps) = 0%nat) as ->; [|done].
  apply cnt_zero. unfold pins_of. by intros (? & ? & ?)%list_elem_of_fmap.
Qed.

Lemma extends_crashes b l : extends b l -> crashes b l.
Proof. by exists 0%nat. Qed.
Lemma extends_app l0 b l : extends b l -> extends (l0 ++ b) (l0 ++ l).
Proof. intros [ps Hp]. exists ps. rewrite Hp, !app_assoc. by rewrite (Permutation_app_comm l0). Qed.
Lemma crashes_trans b l l' : extends b l -> crashes l l' -> crashes b l'.
Proof. intros Hb [n Hl]. exists n. eapply extends_trans; [|exact Hl]. by apply extends_app. Qed.
Lemma crashes_under t b l : crashes (t :: b) l -> exists l', l ≡ₚ t :: l' /\ crashes b l'.
Proof.
  intros [n Hl]. destruct (extends_under t (replicate n TPanic ++ b) l) as (l' & ? & ?).
  - eapply extends_perm; [|done|exact Hl]. by rewrite Permutation_middle.
  - exists l'. split; [done|by exists n].
Qed.
Lemma crashes_panic b l : crashes b l -> crashes b (TPanic :: l).
Proof. intros [n Hl]. exists (S n). by apply extends_cons. Qed.
Lemma crashes_hold m b l : crashes b l -> cnt (THold m) l = cnt (THold m) b.
Proof.
  intros [n Hl]. rewrite (extends_hold m _ _ Hl), cnt_app. assert (cnt (THold m) (replicate n TPanic) = 0%nat) as ->; [|done].
  apply cnt_zero. intros [? _]%elem_of_replicate. done.
Qed.

Lemma spec_mono {E A} b l (p : prog Bpm E A) (F G : A -> list Token -> Prop) :
  (forall a l', F a l' -> G a l') -> spec b l p F -> spec b l p G.
Proof. intros HF. apply safe_conseq. intros [a|e|] l'; simpl; auto. Qed.

Lemma spec_perm {E A} b l l' (p : prog Bpm E A) F : l ≡ₚ l' -> spec b l p F -> spec b l' p F.
Proof. apply safe_perm. Qed.

(** A call, where more has been taken than is promised back. *)
Lemma spec_call {E A} b l (p : prog Bpm E A) (F : A -> list Token -> Prop) :
  extends b l -> spec l l p F -> spec b l p F.
Proof.
  intros Hb. apply safe_conseq. intros [a|e|] l'; simpl; [done|by apply extends_trans|by apply crashes_trans].
Qed.

Lemma spec_ret {E A} b l (a : A) (F : A -> list Token -> Prop) : F a l -> spec (E := E) b l (mret a) F.
Proof. intros. unfold spec, mret, prog_ret. by apply safe_done. Qed.

Lemma spec_err {E A} b l (e : E) (F : A -> list Token -> Prop) : extends b l -> spec b l (Done (Err e)) F.
Proof. intros. unfold spec. by apply safe_done. Qed.

Lemma spec_panic {E A} b l (F : A -> list Token -> Prop) : crashes b l -> spec (E := E) b l (Done Panic) F.
Proof. intros. unfold spec. by apply safe_done. Qed.

Lemma spec_bind {E A B} b l (p : prog Bpm E A) (k : A -> prog Bpm E B) F G :
  spec b l p F -> (forall a l', F a l' -> spec b l' (k a) G) -> spec b l (p ≫= k) G.
Proof.
  intros Hp Hk. apply safe_on_result. eapply safe_conseq; [|exact Hp].
  intros [a|e|] l' Hr; [by apply Hk|by apply spec_err|by apply spec_panic].
Qed.

Lemma spec_on_result {E E' A B} b b' l (p : prog Bpm E A) (k : outcome E A -> prog Bpm E' B) F G :
  spec b l p F -> (forall r l', post b F r l' -> spec b' l' (k r) G) -> spec b' l (on_result p k) G.
Proof. intros Hp Hk. apply safe_on_result. eapply safe_conseq; [|exact Hp]. exact Hk. Qed.

Lemma spec_map_err {E E' A} b l (p : prog Bpm E A) (g : E -> E') (F : A -> list Token -> Prop) :
  spec b l p F -> spec b l (prog_map_err g p) F.
Proof. intros Hp. apply safe_map_err. eapply safe_conseq; [|exact Hp]. by intros [a|e|] l'. Qed.

(** * Accesses *)

(** An access that keeps the account. *)
Definition neutral {E A} (m : stateM Bpm E A) : Prop := forall s l, pool_ok l s -> pool_ok l (m s).2.

Lemma spec_atomic {E A} b l (m : stateM Bpm E A) (F : A -> list Token -> Prop) :
  neutral m -> extends b l -> (forall a, F a l) -> spec b l (atomic m) F.
Proof.
  intros Hm Hb HF s rest Hok. specialize (Hm s _ Hok). simpl. destruct (m s) as [r s']. simpl in *.
  exists l. split; [done|]. apply safe_done.
  destruct r; simpl; [done|done|by apply extends_crashes].
Qed.

(** What the account looks at. *)
Definition core (s : Bpm) :=
  (free_frames_state s, page_io_state s, page_table_state s, evictor s, frames s).

Lemma neutral_core {E A} (m : stateM Bpm E A) : (forall s, core (m s).2 = core s) -> neutral m.
Proof.
  intros Hm s l [I1 I2 I3 I4 I5 I6 I7]. destruct (m s) as [r s'] eqn:E0. specialize (Hm s). rewrite E0 in Hm.
  unfold core in Hm. cbn in *. injection Hm as H1 H2 H3 H4 H5. assert (forall m, mutex_get (pool_mutex m) s' = mutex_get (pool_mutex m) s) as Hmx by (by intros []).
  split; rewrite ?H4, ?H5; try done; intros; rewrite ?Hmx; auto.
  apply I7. by setoid_rewrite Hmx in H6.
Qed.

Lemma spec_core {E A} b l (m : stateM Bpm E A) (F : A -> list Token -> Prop) :
  (forall s, core (m s).2 = core s) -> extends b l -> (forall a, F a l) -> spec b l (atomic m) F.
Proof. intros. by apply spec_atomic; [apply neutral_core|..]. Qed.

Lemma spec_channels {E A} b l (m : C -> A * C) (F : A -> list Token -> Prop) :
  extends b l -> (forall a, F a l) -> spec (E := E) b l (on_channels m) F.
Proof. apply spec_core. intros s. by destruct (m (channels s)). Qed.

Lemma spec_disk {A} b l (m : stateM W IoError A) (F : A -> list Token -> Prop) :
  extends b l -> (forall a, F a l) -> spec b l (on_disk m) F.
Proof. apply spec_core. intros s. unfold on_part. by destruct (m (disk_manager s)). Qed.

(** The evictor is asked for a victim, or told of a frame that exists. *)
Lemma pool_ok_evictor l ev' s :
  pool_ok l s -> ev_inv ev' -> ev_capacity ev' = ev_capacity (evictor s) -> pool_ok l (set_evictor ev' s).
Proof.
  intros [I1 I2 I3 I4 I5 I6 I7] Hi Hc. split; try done; [intros m; rewrite I1; by destruct m|cbn; congruence|].
  intros [[m Hm]|Hf]; apply I7; [left; exists m; by destruct m|by right].
Qed.

Lemma safe_evictor {E A} l (m : stateM Ev E A) (Q : outcome E A -> list Token -> Prop) :
  (forall ev, ev_inv ev -> ev_capacity ev = N ->
     exists a ev', m ev = (Ok a, ev') /\ ev_inv ev' /\ ev_capacity ev' = ev_capacity ev /\ Q (Ok a) l) ->
  safe l (on_evictor m) Q.
Proof.
  intros Hm s rest Hok. destruct (Hm (evictor s)) as (a & ev' & He & Hi & Hc & HF); [exact (po_ev _ _ Hok)|exact (po_cap _ _ Hok)|].
  cbn. unfold on_part. rewrite He. exists l. split; [by apply pool_ok_evictor|]. by apply safe_done.
Qed.

Lemma spec_victim {E} b l (F : option nat -> list Token -> Prop) :
  (forall v, F v l) -> spec (E := E) b l (on_evictor ev_victim) F.
Proof.
  intros HF. apply safe_evictor. intros ev Hi Hc.
  destruct (ev_victim_law E ev Hi) as (v & ev' & ? & ? & ? & _).
  exists v, ev'. split_and!; [done..|apply HF].
Qed.

Lemma safe_ev_remove {E} l i (Q : outcome E unit -> list Token -> Prop) :
  (i < N)%nat -> Q (Ok tt) l -> safe l (on_evictor (ev_remove i)) Q.
Proof.
  intros Hlt HF. apply safe_evictor. intros ev Hi Hc.
  destruct (ev_remove_law E ev i Hi) as (ev' & ? & ? & ? & _); [lia|]. by exists tt, ev'.
Qed.

Lemma safe_ev_add {E} l i (Q : outcome E unit -> list Token -> Prop) :
  (i < N)%nat -> Q (Ok tt) l -> safe l (on_evictor (ev_add i)) Q.
Proof.
  intros Hlt HF. apply safe_evictor. intros ev Hi Hc.
  destruct (ev_add_law E ev i Hi) as (ev' & ? & ? & ? & _); [lia|]. by exists tt, ev'.
Qed.

(** ** Frames *)

(** An access to frame [i] that takes the tokens [l] to [l']. *)
Lemma safe_frame {E A} l i (m : stateM Frame E A) (Q : outcome E A -> list Token -> Prop) :
  (forall f rest, frame_ok (l ++ rest) i f -> (i < N)%nat ->
     exists l', frame_ok (l' ++ rest) i (m f).2 /\ Q (m f).1 l'
       /\ (forall t, token_frame t <> Some i -> cnt t l' = cnt t l) /\ frame_lock (m f).2 = frame_lock f) ->
  ((forall t, t ∈ l -> token_frame t <> Some i) -> Q Panic l) -> safe l (on_frame i m) Q.
Proof.
  intros Hm Hb s rest Hok. cbn. destruct (frames s !! i) as [f|] eqn:Hf.
  - pose proof (lookup_lt_Some _ _ _ Hf) as Hlt. rewrite (po_len _ _ Hok) in Hlt.
    destruct (Hm f rest (po_frame _ _ Hok i f Hf) Hlt) as (l' & Hok' & Hpost & Hc & Hl).
    destruct (m f) as [r f'] eqn:Hmf. cbn in Hl. exists l'. split; [|by apply safe_done].
    eapply pool_ok_frame; [done..|congruence].
  - exists l. split; [done|]. apply safe_done, Hb. intros t Ht Hi. apply lookup_ge_None in Hf.
    rewrite (po_len _ _ Hok) in Hf. assert (i < N)%nat; [|lia].
    apply (po_range _ _ Hok t); [|done]. apply elem_of_app. by left.
Qed.

Lemma spec_frame {E A} b l i (m : stateM Frame E A) (F : A -> list Token -> Prop) :
  (forall f rest, frame_ok (l ++ rest) i f -> (i < N)%nat ->
     exists l', frame_ok (l' ++ rest) i (m f).2 /\ post b F (m f).1 l'
       /\ (forall t, token_frame t <> Some i -> cnt t l' = cnt t l) /\ frame_lock (m f).2 = frame_lock f) ->
  extends b l -> spec b l (on_frame i m) F.
Proof. intros. apply safe_frame; [done|]. intros _. by apply extends_crashes. Qed.

Definition frame_core (f : Frame) := (frame_id f, frame_pins f, frame_lock f).

Lemma spec_frame_keep {E A} b l i (m : stateM Frame E A) (F : A -> list Token -> Prop) :
  (forall f, frame_core (m f).2 = frame_core f) -> extends b l -> (forall a, F a l) ->
  spec b l (on_frame i m) F.
Proof.
  intros Hm Hb HF. apply spec_frame; [|done]. intros f rest (H1 & H2 & H3) _. exists l.
  specialize (Hm f). unfold frame_core in Hm. injection Hm as E1 E2 E3.
  split_and!; [unfold frame_ok; by rewrite E1, E2, E3| |done..].
  destruct (m f).1; simpl; [done..|by apply extends_crashes].
Qed.

Lemma wrap_succ n : wrap 64 (wrap 64 (Z.of_nat n) + 1) = wrap 64 (Z.of_nat (S n)).
Proof. unfold wrap. rewrite Zplus_mod_idemp_l. f_equal. lia. Qed.
Lemma wrap_pred n : wrap 64 (wrap 64 (Z.of_nat (S n)) - 1) = wrap 64 (Z.of_nat n).
Proof. unfold wrap. rewrite Zminus_mod_idemp_l. f_equal. lia. Qed.

(** Tokens of one frame are not those of another. *)
Lemma cnt_skip t t' l i : token_frame t = Some i -> token_frame t' <> Some i -> cnt t' (t :: l) = cnt t' l.
Proof. intros. apply cnt_other. congruence. Qed.

Lemma spec_increment {E} b l i (F : Z -> list Token -> Prop) :
  extends b l -> (forall prev, (i < N)%nat -> F prev (TPin i :: l)) ->
  spec (E := E) b l (on_frame i increment_pin_count) F.
Proof.
  intros Hb HF. apply spec_frame; [|done]. intros f rest (H1 & H2 & H3) Hi. exists (TPin i :: l).
  split_and!; [|by apply HF|intros t Ht; by apply (cnt_skip (TPin i) t _ i)|done].
  unfold frame_ok. cbn [increment_pin_count snd with_pins frame_id frame_pins frame_lock app].
  rewrite cnt_same, !(cnt_other _ (TPin i)) by done. split_and!; [done|by rewrite H2, wrap_succ|done].
Qed.

(** It fails only by a panic, and the pin is given back even then. *)
Lemma safe_decrement {E} l i (Q : outcome E Z -> list Token -> Prop) :
  ((i < N)%nat -> forall prev, Q (Ok prev) l) -> ((i < N)%nat -> Q Panic l) ->
  safe (TPin i :: l) (on_frame i decrement_pin_count) Q.
Proof.
  intros HF HP. apply safe_frame.
  - intros f rest (H1 & H2 & H3) Hi. exists l. cbn [app] in *.
    rewrite cnt_same in H2. rewrite !(cnt_other _ (TPin i)) in H3 by done.
    split_and!; [| |intros t Ht; symmetry; by apply (cnt_skip (TPin i) t _ i)|unfold decrement_pin_count; by case_match].
    + unfold frame_ok, decrement_pin_count. case_match; cbn [snd with_pins frame_id frame_pins frame_lock];
        (split_and!; [done|by rewrite H2, wrap_pred|done]).
    + unfold decrement_pin_count. case_match; simpl; [by apply HF|by apply HP].
  - intros Hno. destruct (Hno (TPin i)); [by left|done].
Qed.

Lemma spec_decrement {E} b l i (F : Z -> list Token -> Prop) :
  extends b l -> (forall prev, (i < N)%nat -> F prev l) ->
  spec (E := E) b (TPin i :: l) (on_frame i decrement_pin_count) F.
Proof. intros Hb HF. apply safe_decrement; [intros; by apply HF|intros; by apply extends_crashes]. Qed.

(** ** Pins *)

Lemma spec_pin_frame {E} b l i (F : unit -> list Token -> Prop) :
  extends b l -> F tt (TPin i :: l) -> spec (E := E) b l (pin_frame i) F.
Proof.
  intros Hb HF. unfold pin_frame.
  eapply (spec_bind _ _ _ _ (fun _ l' => l' = TPin i :: l /\ (i < N)%nat)); [by apply spec_increment|].
  intros prev l' [-> Hi]. case_match; [by apply safe_ev_remove|by apply spec_ret].
Qed.

Lemma spec_unpin_frame {E} b l i (F : unit -> list Token -> Prop) :
  extends b l -> F tt l -> spec (E := E) b (TPin i :: l) (unpin_frame i) F.
Proof.
  intros Hb HF. unfold unpin_frame.
  eapply (spec_bind _ _ _ _ (fun _ l' => l' = l /\ (i < N)%nat)); [by apply spec_decrement|].
  intros prev l' [-> Hi]. case_match; [by apply safe_ev_add|by apply spec_ret].
Qed.

(** ** Frame locks *)

Lemma spec_frame_lock {E A} b l i (m : Frame -> option (outcome E A * Frame)) (F : A -> list Token -> Prop) :
  (forall f rest, frame_ok (l ++ rest) i f ->
     match m f with
     | Some (r, f') => exists l', frame_ok (l' ++ rest) i f' /\ post b F r l'
                         /\ (forall t, token_frame t <> Some i -> cnt t l' = cnt t l)
                         /\ (frame_lock f' = RwPoisoned -> frame_lock f = RwPoisoned)
     | None => no_mutex l \/ frame_lock f = RwWriter
     end) ->
  extends b l -> spec b l (frame_lock_on i m) F.
Proof.
  intros Hm Hb s rest Hok. cbn. destruct (frames s !! i) as [f|] eqn:Hf.
  - specialize (Hm f rest (po_frame _ _ Hok i f Hf)). destruct (m f) as [[r f']|].
    + destruct Hm as (l' & Hok' & Hpost & Hc & Hl). exists l'. split; [|by apply safe_done].
      by eapply pool_ok_frame.
    + destruct Hm as [Hm|Hm]; [by right; left|]. right. right. by exists i, f.
  - exists l. split; [done|]. apply safe_done. by apply extends_crashes.
Qed.

Lemma spec_read_lock {E} b l i (F : unit -> list Token -> Prop) :
  extends b l -> F tt (TRead i :: l) -> spec (E := E) b l (frame_lock_on i read_data) F.
Proof.
  intros Hb HF. apply spec_frame_lock; [|done]. intros f rest (H1 & H2 & H3). unfold read_data, rw_read.
  destruct (frame_lock f) as [n| |] eqn:Hl; [|by right|].
  - exists (TRead i :: l). split_and!; [|done|intros t Ht; by apply (cnt_skip (TRead i) t _ i)|done].
    unfold frame_ok. cbn [with_rw frame_id frame_pins frame_lock app rw_ok].
    rewrite cnt_same, !(cnt_other _ (TRead i)) by done. destruct H3 as [-> ?]. done.
  - exists l. split_and!; [by split_and!|by apply extends_crashes|done|done].
Qed.

Lemma spec_write_lock {E} b l i (F : unit -> list Token -> Prop) :
  no_mutex l -> extends b l -> F tt (TWrite i :: l) ->
  spec (E := E) b l (frame_lock_on i write_data) F.
Proof.
  intros Hno Hb HF. apply spec_frame_lock; [|done]. intros f rest (H1 & H2 & H3). unfold write_data, rw_write.
  destruct (frame_lock f) as [[|n]| |] eqn:Hl; [|by left|by left|].
  - exists (TWrite i :: l). split_and!; [|done|intros t Ht; by apply (cnt_skip (TWrite i) t _ i)|done].
    unfold frame_ok. cbn [with_rw frame_id frame_pins frame_lock app rw_ok].
    rewrite cnt_same, !(cnt_other _ (TWrite i)) by done. destruct H3 as [? ->]. done.
  - exists l. split_and!; [by split_and!|by apply extends_crashes|done|done].
Qed.

(** What is left of [l] when a scope ends, maybe by a panic. *)
Definition aftermath (panicking : bool) (l : list Token) : list Token := if panicking then TPanic :: l else l.

Lemma aftermath_cnt b l t : t <> TPanic -> cnt t (aftermath b l) = cnt t l.
Proof. intros. destruct b; cbn; [by apply cnt_other|done]. Qed.
Lemma aftermath_panic b l : TPanic ∈ l \/ b = true -> TPanic ∈ aftermath b l.
Proof. destruct b; cbn; [by left|by intros [?|?]]. Qed.

Lemma pool_ok_release i g b t l s :
  pool_ok (t :: l) s -> token_frame t = Some i ->
  (forall f, frame_ok (t :: l) i f -> frame_ok l i (g f)
     /\ (frame_lock (g f) = RwPoisoned -> frame_lock f = RwPoisoned \/ b = true)) ->
  pool_ok (aftermath b l) (release_on i g s).
Proof.
  intros Hok Ht Hg. assert (i < length (frames s))%nat as Hlt.
  { rewrite (po_len _ _ Hok). apply (po_range _ _ Hok t); [by left|done]. }
  apply lookup_lt_is_Some_2 in Hlt as [f Hf]. unfold release_on. rewrite Hf.
  destruct (Hg f) as [Hf' Hpo]; [by apply (po_frame _ _ Hok)|].
  assert (TPanic ∈ t :: l -> TPanic ∈ l) as Hin by (intros [<-|?]%elem_of_cons; done).
  apply (pool_ok_upd i f _ (t :: l)); [done..| | |].
  - eapply frame_ok_cnt; [|exact Hf']. intros t' Ht'. apply aftermath_cnt. by intros ->.
  - intros t' Ht' Hne. rewrite aftermath_cnt by done. symmetry. by apply (cnt_skip t t' _ i).
  - intros [Hp|Hp]; apply aftermath_panic; [by left; apply Hin|].
    destruct (Hpo Hp); [left; apply Hin, (po_poison _ _ Hok); right; by exists i, f|by right].
Qed.

Lemma pool_ok_drop_read b i l s :
  pool_ok (TRead i :: l) s -> pool_ok (aftermath b l) (release_on i drop_read s).
Proof.
  intros Hok. eapply pool_ok_release; [done..|]. intros f (H1 & H2 & H3). unfold frame_ok, drop_read.
  cbn [with_rw frame_id frame_pins frame_lock]. rewrite cnt_same in H3. rewrite !(cnt_other _ (TRead i)) in * by done.
  destruct (frame_lock f) as [n| |]; cbn in *; [|lia|lia].
  destruct H3 as [<- ?]. split; [by split_and!|]. intros. by left.
Qed.

Lemma pool_ok_drop_write b i l s :
  pool_ok (TWrite i :: l) s -> pool_ok (aftermath b l) (release_on i (drop_write b) s).
Proof.
  intros Hok. eapply pool_ok_release; [done..|]. intros f (H1 & H2 & H3). unfold frame_ok, drop_write.
  cbn [with_rw frame_id frame_pins frame_lock]. rewrite cnt_same in H3. rewrite !(cnt_other _ (TWrite i)) in * by done.
  destruct (frame_lock f) as [n| |]; cbn in *; [lia| |lia].
  split; [split_and!; [done..|destruct b; cbn; lia]|]. destruct b; cbn; [by right|done].
Qed.

(** ** Mutexes and scopes *)

Lemma pool_ok_mutex m st l l' s :
  pool_ok l s -> cnt (THold m) l' = (if decide (st = Locked) then 1%nat else 0%nat) ->
  (forall t, t <> THold m -> t <> TPanic -> cnt t l' = cnt t l) ->
  (TPanic ∈ l \/ st = Poisoned -> TPanic ∈ l') -> pool_ok l' (mutex_set (pool_mutex m) st s).
Proof.
  intros [I1 I2 I3 I4 I5 I6 I7] Hm Hc Hpo. split; try by destruct m.
  - intros m'. destruct (decide (m' = m)) as [->|Hne].
    + rewrite Hm. case_decide; subst; destruct m; cbn; try done; by destruct st.
    + rewrite Hc by congruence. rewrite I1. by destruct m, m'.
  - intros t i Ht Hi. apply (I5 t); [|done]. apply cnt_pos. rewrite <- Hc; [by apply cnt_pos|by intros ->..].
  - intros i f Hf. eapply frame_ok_cnt; [|apply I6; by destruct m].
    intros t Ht. apply Hc; by intros ->.
  - intros [[m' Hm']|Hf]; apply Hpo; [|left; apply I7; right; by destruct m].
    destruct (decide (m' = m)) as [->|Hne]; [right; by destruct m|left; apply I7; left; exists m'; by destruct m, m'].
Qed.

Lemma pool_ok_unlock {E A} m l s (r : outcome E A) :
  pool_ok (THold m :: l) s -> pool_ok (aftermath (panicked r) l) (unlock (pool_mutex m) r s).
Proof.
  intros Hok. unfold unlock. apply (pool_ok_mutex m _ (THold m :: l)); [done| | |].
  - pose proof (po_mutex _ _ Hok m) as Hm. rewrite cnt_same in Hm. rewrite decide_False by (by destruct r).
    rewrite aftermath_cnt by done. destruct (mutex_get (pool_mutex m) s); lia.
  - intros t Ht Hne. rewrite aftermath_cnt by done. symmetry. apply cnt_other. congruence.
  - intros Hp. apply aftermath_panic. destruct Hp as [[?|?]%elem_of_cons|Hp]; [done|by left|right; by destruct r].
Qed.

(** [F] under one more token. *)
Definition under {A} (t : Token) (F : A -> list Token -> Prop) (a : A) (l : list Token) : Prop :=
  exists l', l ≡ₚ t :: l' /\ F a l'.

Lemma spec_finally {E A} t b l (p : prog Bpm E A) rel (F : A -> list Token -> Prop) :
  (forall (r : outcome E A) l s, pool_ok (t :: l) s -> pool_ok (aftermath (panicked r) l) (rel r s)) ->
  spec (t :: b) l p (under t F) -> spec b l (finally p rel) F.
Proof.
  intros Hrel Hp. apply safe_finally. eapply safe_conseq; [|exact Hp]. intros r l' Hpost s rest Hok.
  assert (exists l1, l' ≡ₚ t :: l1 /\ post b F r l1) as (l1 & Hl & HF).
  { destruct r as [a|e|]; cbn in *; [done|by apply extends_under|by apply crashes_under]. }
  exists (aftermath (panicked r) l1). split; [|destruct r; cbn in *; [done..|by apply crashes_panic]].
  eapply pool_ok_perm with (l := aftermath (panicked r) (l1 ++ rest)); [by destruct r|].
  apply Hrel. eapply pool_ok_perm; [|exact Hok]. by rewrite Hl.
Qed.

(** A scope whose end keeps the account. *)
Lemma spec_finally_core {E A} b l (p : prog Bpm E A) rel (F : A -> list Token -> Prop) :
  (forall (r : outcome E A) s, core (rel r s) = core s) -> spec b l p F -> spec b l (finally p rel) F.
Proof.
  intros Hrel Hp. apply safe_finally. eapply safe_conseq; [|exact Hp]. intros r l' Hpost s rest Hok.
  exists l'. split; [|done]. exact (neutral_core (fun s => (r, rel r s)) (Hrel r) s _ Hok).
Qed.

Lemma spec_lock {E} m b l (F : unit -> list Token -> Prop) :
  below m l -> extends b l -> F tt (THold m :: l) ->
  spec (E := E) b l (lock (pool_mutex m)) F.
Proof.
  intros Hord Hb HF s rest Hok. cbn. pose proof (po_mutex _ _ Hok m) as Hm.
  destruct (mutex_get (pool_mutex m) s) eqn:Hst.
  - exists (THold m :: l). split; [|by apply safe_done]. eapply pool_ok_mutex; [done| | |].
    + cbn [app]. rewrite cnt_same, Hm. by rewrite decide_True.
    + intros t Ht _. cbn [app]. apply cnt_other. congruence.
    + intros [Hp|?]; [|done]. cbn [app]. by right.
  - left. by exists m.
  - exists l. split; [done|]. apply safe_done. by apply extends_crashes.
Qed.

Lemma spec_with_lock {E A} m b l (body : prog Bpm E A) (F : A -> list Token -> Prop) :
  below m l -> extends b l ->
  spec (THold m :: b) (THold m :: l) body (under (THold m) F) -> spec b l (with_lock (pool_mutex m) body) F.
Proof.
  intros Hord Hb Hbody. unfold with_lock.
  eapply (spec_bind _ _ _ _ (fun _ l' => l' = THold m :: l)); [by apply spec_lock|].
  intros _ l' ->. eapply spec_finally; [|exact Hbody]. intros r l0 s. apply pool_ok_unlock.
Qed.
End Accounts.
