(* ===== verification/BufferPoolOwned.v ===== *)
(** What each method of the buffer pool takes and gives back, whatever the other
    threads do: a fetch and a creation give a pin and the lock of a guard, a
    guard's drop gives them back, and no method keeps a mutex. *)
From stdpp Require Import gmap.
From Stdlib Require Import String.
From S2P Require Import Prelude.
From S2P Require Import Bytes.
From S2P Require Import RustStr.
From S2P Require Import Page.
From S2P Require Import Evictor.
From S2P Require Import FileSystem.
From S2P Require Import PageStore.
From S2P Require Import Prog.
From S2P Require Import ProgLogic.
From S2P Require Import Frame.
From S2P Require Import Broadcast.
From S2P Require Import BufferPool.
From S2P Require Import BufferPoolSpec.
From S2P Require Import BufferPoolAccounts.

(** Nothing is taken or given. *)
Definition keeps {A} (l : list Token) (_ : A) (l' : list Token) : Prop := l' ≡ₚ l.

(** The tokens of a guard. *)
Definition guard_token (g : PageGuard) : Token :=
  match g with PageReadGuard i => TRead i | PageWriteGuard i => TWrite i end.
Definition guard_tokens (g : PageGuard) : list Token := [TPin (guard_frame g); guard_token g].

Lemma no_mutex_below m l : no_mutex l -> below m l.
Proof. intros Hno m' Hm'. by destruct (Hno m'). Qed.
Lemma no_mutex_cons t l : is_Some (token_frame t) -> no_mutex l -> no_mutex (t :: l).
Proof. intros [i Ht] Hno m [<-|Hm]%elem_of_cons; [done|by apply (Hno m)]. Qed.
Lemma below_cons_table m l : no_mutex l -> m <> MTable -> below m (THold MTable :: l).
Proof.
  intros Hno Hm m' [[= ->]|Hm']%elem_of_cons; [destruct m; cbn; (done || lia)|by destruct (Hno m')].
Qed.
Lemma below_pin m i l : below m l -> below m (TPin i :: l).
Proof. intros Hb m' [?|Hm']%elem_of_cons; [done|by apply Hb]. Qed.

Lemma keeps_refl {A} l (a : A) : keeps l a l.
Proof. by unfold keeps. Qed.

#[local] Hint Resolve keeps_refl extends_refl extends_crashes extends_pin no_mutex_below no_mutex_cons below_cons_table below_pin : core.
#[local] Hint Extern 1 (is_Some (token_frame _)) => by eexists : core.

Section Owned.
Context {Ev C Tx Rx W : Type} `{EvictorLaws Ev, !Broadcast C Tx Rx, !PageStore W}.
#[local] Abbreviation Bpm := (BufferPoolManager Ev C Tx W).
#[local] Abbreviation bpmP := (prog Bpm BufferPoolError).
Variable N : nat.
Variable show_io : IoError -> rstr.
Implicit Types (l b : list Token).

#[local] Abbreviation owned E b l p F := (spec (E := E) (Ev := Ev) (C := C) (Tx := Tx) (W := W) N b l p F).

(** A step that keeps what is owned, and what follows. *)
Lemma spec_then {E A B} b l (p : prog Bpm E A) (k : A -> prog Bpm E B) G :
  extends b l -> owned _ l l p (keeps l) -> (forall a, owned _ b l (k a) G) -> owned _ b l (p ≫= k) G.
Proof.
  intros Hb Hp Hk. eapply spec_bind; [by apply spec_call|]. intros a l' Hl.
  eapply spec_perm; [symmetry; exact Hl|done].
Qed.

Lemma spec_keep_ret {E A} l (a : A) : owned E l l (mret a : prog Bpm E A) (keeps l).
Proof. apply spec_ret. by unfold keeps. Qed.

(** A scope that holds [m]. *)
Lemma spec_scope {E A} m b l (body : prog Bpm E A) (F : A -> list Token -> Prop) G :
  below m l -> extends b l -> owned _ (THold m :: l) (THold m :: l) body G ->
  (forall a l', G a l' -> under (THold m) F a l') -> owned _ b l (with_lock (pool_mutex m) body) F.
Proof.
  intros Hm Hb Hbody HG. eapply spec_call; [done|]. eapply spec_with_lock; [done|apply extends_refl|].
  eapply spec_mono; [|exact Hbody]. exact HG.
Qed.

Lemma spec_keep_scope {E A} m l (body : prog Bpm E A) :
  below m l -> owned _ (THold m :: l) (THold m :: l) body (keeps (THold m :: l)) ->
  owned _ l l (with_lock (pool_mutex m) body) (keeps l).
Proof. intros Hm Hbody. eapply spec_scope; [done..|]. intros a l' Hl. by exists l. Qed.

(** * Accesses that keep everything *)

Ltac keep_access :=
  first [ apply spec_keep_ret
        | apply spec_core; [solve [done|intros s; cbn; by repeat case_match]|auto|done]
        | apply spec_frame_keep; [done|auto|done]
        | apply spec_channels; [auto|done]
        | apply spec_disk; [auto|done]
        | apply spec_victim; done ].
Ltac keep_step := eapply spec_then; [auto|solve [keep_access]|intros ?].

Lemma spec_guard_deref {E} l g : owned E l l (guard_deref g) (keeps l).
Proof. unfold guard_deref. keep_access. Qed.
Lemma spec_guard_deref_mut {E} l i d : owned E l l (guard_deref_mut i d) (keeps l).
Proof. unfold guard_deref_mut. keep_access. Qed.
Lemma spec_mark_dirty {E} l i : owned E l l (mark_dirty i) (keeps l).
Proof. unfold mark_dirty. keep_access. Qed.
Lemma spec_guard_page_id {E} l i : owned E l l (guard_page_id i) (keeps l).
Proof. unfold guard_page_id. keep_step. keep_access. Qed.

(** * Waiting *)

Lemma spec_subscribe_to {E} l which p :
  below MIo l -> owned E l l (subscribe_to which p) (keeps l).
Proof.
  intros Hb. unfold subscribe_to. apply (spec_keep_scope MIo); [done|]. keep_step.
  case_match; [keep_step|]; keep_access.
Qed.

Lemma spec_receive l p (rx : Rx) : no_mutex l -> owned _ l l (receive p rx) (keeps l).
Proof.
  intros Hno s rest Hok. cbn.
  assert (forall c, acc_ok (Accounts := pool_accounts N) (l ++ rest) (set_channels c s)) as Hc.
  { intros c. by apply (neutral_core N (fun s => (Ok tt : outcome unit unit, set_channels c s))). }
  destruct (bc_recv rx (channels s)) as [[[m|e|] c]|]; [exists l; split; [apply Hc|apply safe_done; simpl; auto]..|].
  by right; left.
Qed.

Lemma spec_wait_for_page_fetch l p : no_mutex l -> owned _ l l (wait_for_page_fetch p) (keeps l).
Proof.
  intros Hno. unfold wait_for_page_fetch. eapply spec_then; [auto|apply spec_subscribe_to; auto|].
  intros [rx|]; [by apply spec_receive|keep_access].
Qed.

Lemma spec_wait_for_page_flush l p : no_mutex l -> owned _ l l (wait_for_page_flush p) (keeps l).
Proof.
  intros Hno. unfold wait_for_page_flush. eapply spec_then; [auto|apply spec_subscribe_to; auto|].
  intros [rx|]; [by apply spec_receive|keep_access].
Qed.

(** * Eviction *)

(** The lock of a frame for the length of a scope. *)
Lemma spec_read_scope {E A B} b l i (p : prog Bpm E A) (k : A -> prog Bpm E B) G :
  extends b l -> (forall l, owned _ l l p (keeps l)) -> (forall a, owned _ b l (k a) G) ->
  owned _ b l (frame_lock_on i read_data;; a ← finally p (fun _ => release_on i drop_read); k a) G.
Proof.
  intros Hb Hp Hk. eapply (spec_bind _ _ _ _ _ (fun _ l' => l' = TRead i :: l)); [by apply spec_read_lock|].
  intros _ l' ->. eapply (spec_bind _ _ _ _ _ (keeps l)).
  - eapply spec_finally; [intros; by apply pool_ok_drop_read|].
    eapply spec_call; [by apply extends_cons|]. eapply spec_mono; [|apply Hp]. intros a l' Hl. by exists l.
  - intros a l' Hl. eapply spec_perm; [symmetry; exact Hl|done].
Qed.

Lemma spec_evict_page l : owned _ l l evict_page (keeps l).
Proof.
  unfold evict_page. keep_step. case_match; [|by apply spec_err].
  do 4 keep_step. case_match; [|keep_access].
  eapply spec_read_scope; [auto|intros; keep_access|]. intros d. do 2 keep_step. keep_access.
Qed.

Lemma spec_announce_flush {E} l i d : owned E l l (announce_flush i d) (keeps l).
Proof.
  unfold announce_flush. keep_step. case_match; [|keep_access]. do 2 keep_step. case_match.
  do 2 keep_step. keep_access.
Qed.

Lemma spec_finish l remove p :
  below MIo l -> (forall p s, core (remove p s).2 = core s) -> owned _ l l (finish remove p) (keeps l).
Proof.
  intros Hb Hr. unfold finish. apply (spec_keep_scope MIo); [done|].
  eapply spec_then; [auto| |intros o; case_match; keep_access].
  apply spec_core; [|auto|auto]. intros s. specialize (Hr p s). by destruct (remove p s).
Qed.

Lemma spec_finish_flush l p : below MIo l -> owned _ l l (finish remove_flush p) (keeps l).
Proof. intros. by apply spec_finish. Qed.
Lemma spec_finish_fetch l p : below MIo l -> owned _ l l (finish remove_fetch p) (keeps l).
Proof. intros. by apply spec_finish. Qed.

(** * Creating a page *)

Lemma spec_create_lookup l p :
  no_mutex l ->
  let l := THold MTable :: l in
  owned _ l l (create_lookup p) (fun r l' => l' ≡ₚ TPin r.1 :: l).
Proof.
  intros Hno l0. assert (below MFree l0) as Hfree by (by apply below_cons_table).
  assert (below MIo l0) as Hio by (by apply below_cons_table).
  unfold create_lookup.
  eapply (spec_bind _ _ _ _ _ (fun free l' => l' ≡ₚ match free with Some i => TPin i :: l0 | None => l0 end)).
  { eapply (spec_scope MFree); [done|auto| |].
    - instantiate (1 := fun free l' =>
        l' ≡ₚ THold MFree :: match free with Some i => TPin i :: l0 | None => l0 end).
      keep_step. case_match; [|by apply spec_ret].
      eapply (spec_bind _ _ _ _ _ (fun _ l' => l' = TPin _ :: _)); [apply spec_pin_frame; auto|].
      intros _ l' ->. apply spec_ret. by apply Permutation_swap.
    - intros free l' Hl. by eexists; split; [exact Hl|]. }
  intros free l1 Hl1. eapply spec_perm; [symmetry; exact Hl1|].
  eapply (spec_bind _ _ _ _ _ (fun r l' => l' ≡ₚ TPin r.1 :: l0)).
  { case_match; [by apply spec_ret|]. eapply (spec_scope MIo); [done|auto| |].
    - instantiate (1 := fun r l' => l' ≡ₚ THold MIo :: TPin r.1 :: l0).
      eapply (spec_bind _ _ _ _ _ (keeps (THold MIo :: l0))).
      { eapply spec_on_result; [apply spec_evict_page|]. intros r l' Hpost.
        apply safe_done. destruct r as [a|e|]; [exact Hpost|by apply extends_crashes|exact Hpost]. }
      intros [i d] l' Hl'. eapply spec_perm; [symmetry; exact Hl'|].
      eapply (spec_bind _ _ _ _ _ (fun _ l' => l' = TPin i :: _)); [apply spec_pin_frame; auto|].
      intros _ l2 ->. eapply spec_then; [auto|apply spec_announce_flush|]. intros _. apply spec_ret.
      by apply Permutation_swap.
    - intros r l' Hl. by eexists; split; [exact Hl|]. }
  intros [i d] l2 Hl2. cbn [fst] in Hl2. eapply spec_perm; [symmetry; exact Hl2|].
  do 2 keep_step. by apply spec_ret.
Qed.

Lemma no_mutex_crashes l l' : no_mutex l -> crashes l l' -> no_mutex l'.
Proof. intros Hno He m. rewrite cnt_zero, (crashes_hold m l l') by done. by apply cnt_zero. Qed.

(** A lock of the page table, taken when no mutex is held. *)
Lemma spec_table_scope {A} l (body : bpmP A) (f : A -> nat) :
  no_mutex l -> owned _ (THold MTable :: l) (THold MTable :: l) body (fun r l' => l' ≡ₚ TPin (f r) :: THold MTable :: l) ->
  owned _ l l (with_lock page_table_mutex body) (fun r l' => l' ≡ₚ TPin (f r) :: l).
Proof.
  intros Hno Hbody. eapply (spec_scope MTable); [auto..|exact Hbody|].
  intros r l' Hl. eexists. split; [rewrite Hl; apply Permutation_swap|done].
Qed.

Lemma spec_create_page l t :
  no_mutex l -> owned _ l l (create_page show_io t) (fun g l' => l' ≡ₚ guard_tokens g ++ l).
Proof.
  intros Hno. unfold create_page.
  eapply spec_then; [auto|apply spec_map_err; keep_access|]. intros p.
  eapply spec_bind; [apply (spec_table_scope _ _ fst); [done|by apply spec_create_lookup]|].
  intros [i d] l' Hl. cbn [fst] in Hl. eapply spec_perm; [symmetry; exact Hl|].
  eapply spec_then; [auto| |intros _].
  { case_match; [|keep_access]. case_match. eapply spec_then; [auto|apply spec_map_err; keep_access|].
    intros _. apply spec_finish_flush. auto. }
  eapply (spec_bind _ _ _ _ _ (fun _ l' => l' = TWrite i :: TPin i :: l)); [by apply spec_write_lock; auto 6|].
  intros _ l2 ->. apply spec_ret. cbn. by apply Permutation_swap.
Qed.

(** * Fetching a page *)

Lemma spec_fetch_frame l :
  no_mutex l ->
  let l := THold MTable :: l in
  owned _ l l fetch_frame (fun o l' => match o with Some _ => l' ≡ₚ l | None => extends l l' end).
Proof.
  intros Hno l0. assert (below MFree l0) as Hfree by (by apply below_cons_table).
  assert (below MIo l0) as Hio by (by apply below_cons_table). unfold fetch_frame.
  eapply spec_then; [auto|apply (spec_keep_scope MFree); [done|keep_access]|].
  intros [i|]; [by apply spec_ret|].
  eapply (spec_scope MIo); [done|auto| |].
  - instantiate (1 := fun o l' => match o with Some _ => l' ≡ₚ THold MIo :: l0 | None => extends (THold MIo :: l0) l' end).
    eapply spec_on_result; [apply spec_evict_page|].
    intros [[i d]|e|] l' Hpost; cbn in Hpost; [|by apply spec_ret|by apply spec_panic].
    eapply spec_perm; [symmetry; exact Hpost|].
    eapply spec_then; [auto|apply spec_announce_flush|]. intros _. by apply spec_ret.
  - intros [r|] l' Hl; [by eexists|]. by apply extends_under in Hl.
Qed.

Lemma spec_announce_fetch l p : below MIo l -> owned _ l l (announce_fetch p) (keeps l).
Proof.
  intros Hb. unfold announce_fetch. apply (spec_keep_scope MIo); [done|].
  keep_step. case_match. do 2 keep_step. keep_access.
Qed.

Definition plan_frame (plan : FetchPlan (Tx := Tx)) : nat :=
  match plan with Hit i => i | Miss i _ _ => i end.

Lemma spec_fetch_lookup l p :
  no_mutex l ->
  let l := THold MTable :: l in
  owned _ l l (fetch_lookup p) (fun plan l' => l' ≡ₚ TPin (plan_frame plan) :: l).
Proof.
  intros Hno l0. assert (below MIo l0) as Hio by (by apply below_cons_table). unfold fetch_lookup.
  keep_step. case_match.
  { eapply (spec_bind _ _ _ _ _ (fun _ l' => l' = TPin _ :: l0)); [by apply spec_pin_frame; auto|].
    intros _ l' ->. by apply spec_ret. }
  eapply spec_bind; [by apply spec_fetch_frame|]. intros [[i d]|] l' Hl; [|by apply spec_err].
  eapply spec_perm; [symmetry; exact Hl|]. do 3 keep_step.
  eapply (spec_bind _ _ _ _ _ (fun _ l' => l' = TPin i :: l0)); [by apply spec_pin_frame; auto|].
  intros _ l2 ->. eapply spec_then; [auto|apply spec_announce_fetch; auto|]. intros tx. by apply spec_ret.
Qed.

Lemma spec_flush_evicted l p d : no_mutex l -> owned _ l l (flush_evicted show_io p d) (keeps l).
Proof.
  intros Hno. unfold flush_evicted.
  eapply (spec_on_result _ l _ _ _ _ (keeps l)); [keep_access|]. intros r l' Hpost.
  destruct r as [a|e|]; cbn in Hpost; [| |by apply spec_panic].
  - eapply spec_perm; [symmetry; exact Hpost|]. apply spec_finish_flush. auto.
  - eapply spec_then; [done|apply spec_finish_flush; eauto using no_mutex_crashes|]. intros _. by apply spec_err.
Qed.

Lemma spec_fetch_load l p i d : no_mutex l -> owned _ l l (fetch_load show_io p i d) (keeps l).
Proof.
  intros Hno. unfold fetch_load. eapply spec_then; [auto|by apply spec_wait_for_page_flush|]. intros _.
  eapply spec_then; [auto|apply spec_map_err; keep_access|]. intros buf.
  eapply (spec_bind _ _ _ _ _ (fun _ l' => l' = TWrite i :: l)); [by apply spec_write_lock; auto 6|].
  intros _ l' ->. eapply spec_finally; [intros; by apply pool_ok_drop_write|].
  eapply (spec_mono _ _ _ _ (keeps (TWrite i :: l))); [intros a l' Hl; by exists l|].
  assert (no_mutex (TWrite i :: l)) by auto.
  keep_step. eapply spec_then; [auto|apply spec_finish_fetch; auto|]. intros _.
  case_match; [|keep_access]. case_match. by apply spec_flush_evicted.
Qed.

Lemma spec_fetch_and_pin_frame l p :
  no_mutex l -> owned _ l l (fetch_and_pin_frame show_io p) (fun i l' => l' ≡ₚ TPin i :: l).
Proof.
  intros Hno. unfold fetch_and_pin_frame.
  eapply spec_bind; [apply (spec_table_scope _ _ plan_frame); [done|by apply spec_fetch_lookup]|].
  intros [i|i d tx] l' Hl; cbn [plan_frame] in Hl; (eapply spec_perm; [symmetry; exact Hl|]).
  - eapply spec_on_result; [apply spec_wait_for_page_fetch; auto|].
    intros [a|e|] l2 Hpost; cbn in Hpost.
    + by apply spec_ret.
    + apply extends_under in Hpost as (l3 & Hl3 & He). eapply spec_perm; [symmetry; exact Hl3|].
      eapply (spec_bind _ _ _ _ _ (fun _ l' => l' = l3)); [by apply spec_unpin_frame|].
      intros _ l4 ->. by apply spec_err.
    + apply spec_panic. eapply crashes_trans; [apply extends_pin|done].
  - eapply spec_then; [auto| |intros _; by apply spec_ret].
    apply spec_finally_core; [done|]. apply spec_fetch_load. auto.
Qed.

Lemma spec_fetch_page_read l p :
  no_mutex l -> owned _ l l (fetch_page_read show_io p) (fun g l' => l' ≡ₚ guard_tokens g ++ l).
Proof.
  intros Hno. unfold fetch_page_read. eapply spec_on_result; [by apply spec_fetch_and_pin_frame|].
  intros [i|e|] l' Hpost; cbn in Hpost; [|by apply spec_err|by apply spec_panic].
  eapply spec_perm; [symmetry; exact Hpost|].
  eapply (spec_bind _ _ _ _ _ (fun _ l' => l' = TRead i :: TPin i :: l)); [by apply spec_read_lock; auto|].
  intros _ l2 ->. apply spec_ret. cbn. by apply Permutation_swap.
Qed.

Lemma spec_fetch_page_write l p :
  no_mutex l -> owned _ l l (fetch_page_write show_io p) (fun g l' => l' ≡ₚ guard_tokens g ++ l).
Proof.
  intros Hno. unfold fetch_page_write. eapply spec_on_result; [by apply spec_fetch_and_pin_frame|].
  intros [i|e|] l' Hpost; cbn in Hpost; [|by apply spec_err|by apply spec_panic].
  eapply spec_perm; [symmetry; exact Hpost|].
  eapply (spec_bind _ _ _ _ _ (fun _ l' => l' = TWrite i :: TPin i :: l)); [by apply spec_write_lock; auto 6|].
  intros _ l2 ->. apply spec_ret. cbn. by apply Permutation_swap.
Qed.

(** * Dropping a guard *)

Lemma safe_guard_drop {E} l g :
  safe (H := pool_accounts N) (guard_tokens g ++ l) (guard_drop g : prog Bpm E unit)
    (fun r l' => (forall e, r <> Err e) /\ l' = aftermath (panicked r) l).
Proof.
  unfold guard_drop. apply safe_finally. cbn [guard_tokens app]. set (i := guard_frame g).
  eapply safe_conseq with (Q := fun r l' => (forall e, r <> Err e) /\ l' = guard_token g :: l).
  - intros r l' [Hr ->] s rest Hok. exists (aftermath (panicked r) l). split; [|done]. subst i.
    eapply pool_ok_perm with (l := aftermath (panicked r) (l ++ rest)); [by destruct r|].
    destruct g as [i|i]; cbn in *; [by apply pool_ok_drop_read|by apply pool_ok_drop_write].
  - apply safe_on_result. apply safe_decrement; intros Hi; [|by apply safe_done].
    intros prev. case_match; [|by apply safe_done].
    apply safe_on_result, safe_frame; [|by intros; apply safe_done].
    intros f rest (E1 & E2 & E3) _. exists (guard_token g :: l). split_and!; [by split_and!| |done|done].
    cbn [get_id sget fst]. rewrite E1. by apply safe_ev_add.
Qed.
End Owned.
