(* ===== verification/BufferPoolThreads.v ===== *)
(** Any number of callers of the buffer pool at once, their steps interleaved in
    any way: locks, guards and pins always add up, and the mutexes alone never
    bring the pool to a standstill. *)
From stdpp Require Import gmap relations.
From Stdlib Require Import String.
From S2P Require Import Prelude.
From S2P Require Import Bytes.
From S2P Require Import RustStr.
From S2P Require Import Page.
From S2P Require Import Evictor.
From S2P Require Import FileSystem.
From S2P Require Import FileSystemProps.
From S2P Require Import DiskManager.
From S2P Require Import PageStore.
From S2P Require Import Prog.
From S2P Require Import ProgLogic.
From S2P Require Import Frame.
From S2P Require Import Broadcast.
From S2P Require Import BufferPool.
From S2P Require Import BufferPoolSpec.
From S2P Require Import BufferPoolCreate.
From S2P Require Import BufferPoolHistory.
From S2P Require Import BufferPoolAccounts.
From S2P Require Import BufferPoolOwned.

(** * What guards own *)

Definition guards_tokens (gs : list PageGuard) : list Token := mjoin (guard_tokens <$> gs).

Lemma guards_tokens_cons g gs : guards_tokens (g :: gs) = guard_tokens g ++ guards_tokens gs.
Proof. done. Qed.

Lemma guards_tokens_app gs1 gs2 : guards_tokens (gs1 ++ gs2) = guards_tokens gs1 ++ guards_tokens gs2.
Proof. unfold guards_tokens. by rewrite fmap_app, join_app. Qed.

Lemma guards_tokens_delete k g gs :
  gs !! k = Some g -> guards_tokens gs ≡ₚ guard_tokens g ++ guards_tokens (delete k gs).
Proof.
  revert k. induction gs as [|g' gs IH]; intros [|k] Hk; simplify_eq/=; [done|].
  rewrite !guards_tokens_cons, (IH k) by done. apply (Permutation_app_swap_app (guard_tokens g') (guard_tokens g)).
Qed.

Lemma guards_tokens_global gs t : token_frame t = None -> cnt t (guards_tokens gs) = 0%nat.
Proof.
  intros Ht. apply cnt_zero. unfold guards_tokens. intros (l & Hin & Hl)%list_elem_of_join.
  apply list_elem_of_fmap in Hl as ([i|i] & -> & _); cbn in Hin; set_solver.
Qed.

(** The pins and the locks of the guards on a frame. *)
Definition one_if (b : bool) : nat := if b then 1 else 0.

Lemma guard_tokens_cnt g i :
  let on := bool_decide (guard_frame g = i) in
  cnt (TPin i) (guard_tokens g) = one_if on
  /\ cnt (TRead i) (guard_tokens g) = one_if (on && negb (is_writer g))
  /\ cnt (TWrite i) (guard_tokens g) = one_if (on && is_writer g).
Proof.
  destruct g as [j|j]; cbn zeta; unfold guard_tokens; cbn [guard_frame guard_token is_writer];
    rewrite !cnt_cons; case_bool_decide; subst; repeat case_decide; simplify_eq; done.
Qed.

Lemma guards_tokens_pins gs i : cnt (TPin i) (guards_tokens gs) = length (guards_on gs i).
Proof.
  induction gs as [|g gs IH]; [done|]. rewrite guards_tokens_cons, cnt_app, IH, guards_on_cons.
  destruct (guard_tokens_cnt g i) as (-> & _). case_bool_decide; [by rewrite decide_True|by rewrite decide_False].
Qed.

Lemma guards_tokens_locks gs i :
  (cnt (TRead i) (guards_tokens gs) + cnt (TWrite i) (guards_tokens gs) = length (guards_on gs i))%nat
  /\ existsb is_writer (guards_on gs i) = negb (cnt (TWrite i) (guards_tokens gs) =? 0)%nat.
Proof.
  induction gs as [|g gs [IH1 IH2]]; [done|]. rewrite guards_tokens_cons, !cnt_app, guards_on_cons.
  destruct (guard_tokens_cnt g i) as (_ & -> & ->).
  case_bool_decide; [rewrite decide_True by done|rewrite decide_False by done; split; [simpl; lia|done]].
  cbn [length existsb]. rewrite IH2. destruct (is_writer g); simpl; split; (done || lia).
Qed.

(** A frame whose tokens are those of guards is locked as by these guards. *)
Lemma guards_lock gs i f l :
  cnt (TRead i) l = cnt (TRead i) (guards_tokens gs) -> cnt (TWrite i) l = cnt (TWrite i) (guards_tokens gs) ->
  frame_ok l i f -> frame_lock f <> RwPoisoned ->
  frame_lock f = lock_of (guards_on gs i) /\ compatible (guards_on gs i).
Proof.
  intros Hr Hw (_ & _ & Hl) Hnp. rewrite Hr, Hw in Hl. destruct (guards_tokens_locks gs i) as [Hlen Hex].
  unfold lock_of, compatible. rewrite Hex. destruct (frame_lock f) as [n| |]; cbn in Hl; [| |done];
    destruct Hl as [E1 E2]; rewrite E2 in *; cbn; (split; [|intros; (done || lia)]); [|done].
  f_equal. lia.
Qed.

(** * Callers *)

Section Threads.
Context {Ev C Tx Rx W : Type} `{EvictorLaws Ev, !Broadcast C Tx Rx, !PageStore W}.
#[local] Abbreviation Bpm := (BufferPoolManager Ev C Tx W).
#[local] Abbreviation bpmP := (prog Bpm BufferPoolError).
Variable show_io : IoError -> rstr.

(** A caller makes its calls one after the other, going on after an error; in
    the end it has the guards it has not dropped, and the errors. *)
Fixpoint client (ops : list Op) (gs : list PageGuard) : bpmP (list PageGuard * list BufferPoolError) :=
  match ops with
  | [] => mret (gs, [])
  | op :: ops =>
      on_result (client_op show_io op gs) (fun r =>
        match r with
        | Ok (_, gs') => client ops gs'
        | Err e => '(gs', es) ← client ops gs; mret (gs', e :: es)
        | Panic => Done Panic
        end)
  end.

(** A pool that nobody uses. *)
Record idle (s : Bpm) : Prop := {
  id_mutex : forall m, mutex_get (pool_mutex m) s = Unlocked;
  id_ev : ev_inv (evictor s);
  id_cap : ev_capacity (evictor s) = length (frames s);
  id_frame : forall i f, frames s !! i = Some f ->
    frame_id f = i /\ frame_pins f = 0 /\ frame_lock f = RwReaders 0;
}.

Lemma idle_ok s : idle s -> pool_ok (length (frames s)) [] s.
Proof.
  intros [I1 I2 I3 I4]. split; try done.
  - intros m. by rewrite I1.
  - intros t i Ht. by apply elem_of_nil in Ht.
  - intros i f Hf. destruct (I4 i f Hf) as (? & ? & Hl). by split_and!; [..|rewrite Hl].
  - intros [[m Hm]|(i & f & Hf & Hl)]; [by rewrite I1 in Hm|]. destruct (I4 i f Hf) as (_ & _ & Hl'). congruence.
Qed.

Variable N : nat.
#[local] Existing Instance pool_accounts.
#[local] Abbreviation thread_safe := (safe (H := pool_accounts N)).

(** What a caller owns between two calls. *)
Definition owns (gs : list PageGuard) (l : list Token) : Prop := exists ps, l ≡ₚ pins_of ps ++ guards_tokens gs.

Lemma owns_no_mutex gs l : owns gs l -> no_mutex l.
Proof.
  intros Ho m. rewrite cnt_zero, (extends_hold m (guards_tokens gs) l) by done. by apply guards_tokens_global.
Qed.

(** After a call: the pins lost so far stay the same unless it fails. *)
Definition call_post gs ps (r : outcome BufferPoolError (Event * list PageGuard)) (l : list Token) : Prop :=
  match r with
  | Ok (_, gs') => l ≡ₚ pins_of ps ++ guards_tokens gs'
  | Err _ => owns gs l
  | Panic => no_mutex l
  end.

Lemma owns_extends gs l l' : owns gs l -> extends l l' -> owns gs l'.
Proof. apply extends_trans. Qed.

(** Accesses through a guard never return an error. *)
Lemma safe_frame_ok {E A} l i (m : stateM Frame E A) (Q : outcome E A -> list Token -> Prop) :
  (forall f, frame_core (m f).2 = frame_core f /\ exists a, (m f).1 = Ok a) ->
  (forall a, Q (Ok a) l) -> Q Panic l -> thread_safe l (on_frame i m : prog Bpm E A) Q.
Proof.
  intros Hm HQ HP. apply safe_frame; [|done]. intros f rest (E1 & E2 & E3) _. exists l.
  destruct (Hm f) as [Hc [a ->]]. unfold frame_core in Hc. injection Hc as C1 C2 C3.
  split_and!; [unfold frame_ok; by rewrite C1, C2, C3|done..].
Qed.

Lemma safe_unwrap {E A} l (o : option A) (Q : outcome E A -> list Token -> Prop) :
  (forall a, Q (Ok a) l) -> Q Panic l -> thread_safe l (atomic (slift (unwrap_opt o)) : prog Bpm E A) Q.
Proof. intros HQ HP s rest Hok. exists l. split; [done|]. apply safe_done. destruct o; [apply HQ|exact HP]. Qed.

Lemma call_fetch gs ps l (fetch : bpmP PageGuard) p :
  l ≡ₚ pins_of ps ++ guards_tokens gs -> spec N l l fetch (fun g l' => l' ≡ₚ guard_tokens g ++ l) ->
  thread_safe l (client_fetch fetch p gs) (call_post gs ps).
Proof.
  intros Hl Hf. assert (owns gs l) as Ho by (by exists ps).
  apply safe_on_result. eapply safe_conseq; [|exact Hf]. intros [g|e|] l1 Hp; cbn in Hp.
  - assert (l1 ≡ₚ pins_of ps ++ guards_tokens (g :: gs)) as Hl1.
    { rewrite Hp, Hl, guards_tokens_cons. apply (Permutation_app_swap_app (guard_tokens g)). }
    apply safe_on_result. apply safe_frame_ok; [intros f; split; [done|by eexists]| |].
    + intros d. by apply safe_done.
    + apply safe_done. apply (owns_no_mutex (g :: gs)). by exists ps.
  - apply safe_done. by eapply owns_extends.
  - apply safe_done. eapply no_mutex_crashes; [|exact Hp]. by eapply owns_no_mutex.
Qed.

Lemma safe_client_op op gs ps l :
  l ≡ₚ pins_of ps ++ guards_tokens gs -> thread_safe l (client_op show_io op gs) (call_post gs ps).
Proof.
  intros Hl. assert (owns gs l) as Ho by (by exists ps). pose proof (owns_no_mutex _ _ Ho) as Hno.
  destruct op as [t|p|p|k data|k]; cbn [client_op].
  - apply safe_on_result. eapply safe_conseq; [|by apply spec_create_page]. intros [g|e|] l1 Hp; cbn in Hp.
    + assert (l1 ≡ₚ pins_of ps ++ guards_tokens (g :: gs)) as Hl1.
      { rewrite Hp, Hl, guards_tokens_cons. apply (Permutation_app_swap_app (guard_tokens g)). }
      assert (no_mutex l1) as Hno1 by (apply (owns_no_mutex (g :: gs)); by exists ps).
      apply safe_on_result, safe_on_result. apply safe_frame_ok; [intros f; split; [done|by eexists]| |].
      * intros o. apply safe_unwrap; [intros a|by apply safe_done]. apply safe_on_result.
        apply safe_frame_ok; [intros f; split; [done|by eexists]| |by apply safe_done].
        intros d. by apply safe_done.
      * apply safe_done. by apply safe_done.
    + apply safe_done. by eapply owns_extends.
    + apply safe_done. by eapply no_mutex_crashes.
  - apply call_fetch; [done|by apply spec_fetch_page_read].
  - apply call_fetch; [done|by apply spec_fetch_page_write].
  - destruct (gs !! k) as [[i|i]|]; [by apply safe_done| |by apply safe_done].
    apply safe_on_result, safe_on_result. apply safe_frame_ok; [intros f; split; [done|by eexists]| |].
    + intros o. apply safe_unwrap; [|by apply safe_done]. intros q.
      apply safe_on_result, safe_on_result. apply safe_frame_ok; [intros f; split; [done|by eexists]| |].
      * intros _. apply safe_frame_ok; [intros f; split; [done|by eexists]| |by apply safe_done].
        intros _. by apply safe_done.
      * apply safe_done. by apply safe_done.
    + apply safe_done. by apply safe_done.
  - destruct (gs !! k) as [g|] eqn:Hk; [|by apply safe_done].
    apply safe_on_result.
    apply (safe_perm (guard_tokens g ++ (pins_of ps ++ guards_tokens (delete k gs)))).
    { rewrite Hl, (guards_tokens_delete k g gs) by done. apply Permutation_app_swap_app. }
    eapply safe_conseq; [|apply safe_guard_drop]. intros [[]|e|] l1 [Hne ->]; cbn.
    + by eexists.
    + by destruct (Hne e).
    + eexists; split; [done|]. intros m [?|Hm]%elem_of_cons; [done|].
      apply (owns_no_mutex (delete k gs) (pins_of ps ++ guards_tokens (delete k gs)) ltac:(by exists ps) m Hm).
Qed.

(** After all the calls of a caller: the pins it has lost are [ps], or more if
    some call has failed. *)
Definition client_post ps (r : outcome BufferPoolError (list PageGuard * list BufferPoolError)) (l : list Token) : Prop :=
  match r with
  | Ok (gs, es) => exists ps', l ≡ₚ pins_of ps' ++ guards_tokens gs /\ (es = [] -> ps' = ps)
  | Err _ => False
  | Panic => no_mutex l
  end.

Lemma safe_client ops gs ps l :
  l ≡ₚ pins_of ps ++ guards_tokens gs -> thread_safe l (client ops gs) (client_post ps).
Proof.
  revert gs ps l. induction ops as [|op ops IH]; intros gs ps l Hl; cbn [client].
  { apply safe_done. by exists ps. }
  apply safe_on_result. eapply safe_conseq; [|by apply safe_client_op].
  intros [[ev gs']|e|] l1 Hp; cbn in Hp; [by apply IH| |by apply safe_done].
  destruct Hp as [ps' Hp]. apply safe_on_result. eapply safe_conseq; [|by apply IH].
  intros [[gs' es]|e'|] l2 Hq; cbn in Hq; [|done|by apply safe_done].
  destruct Hq as (ps2 & Hq & _). apply safe_done. by exists ps2.
Qed.

(** ** Progress *)

(** A mutex that is locked, last in the order. *)
Lemma last_locked (s : Bpm) :
  (exists m, mutex_get (pool_mutex m) s = Locked) ->
  exists m, mutex_get (pool_mutex m) s = Locked
    /\ forall m', mutex_get (pool_mutex m') s = Locked -> (rank m' <= rank m)%nat.
Proof.
  intros [m Hm]. destruct (decide (mutex_get (pool_mutex MIo) s = Locked)) as [Hio|Hio].
  { exists MIo. split; [done|]. intros [] _; cbn; lia. }
  destruct (decide (mutex_get (pool_mutex MFree) s = Locked)) as [Hfr|Hfr].
  { exists MFree. split; [done|]. intros [] ?; cbn; (done || lia). }
  exists MTable. split; [by destruct m|]. by intros [] ?; cbn.
Qed.

Lemma step_or_not {E A} (ts : list (prog Bpm E A)) s :
  (exists c', interleave (ts, s) c') \/ forall c', ~ interleave (ts, s) c'.
Proof.
  destruct (decide (Exists (fun j => is_Some (thread_step j (ts, s))) (seq 0 (length ts)))) as [He|Hn].
  - left. apply Exists_exists in He as (j & _ & [c' Hc]). exists c'. by econstructor.
  - right. intros c' Hi. inversion Hi as [j ? ? Hs]; subst. apply Hn, Exists_exists. exists j. split; [|by eexists].
    apply elem_of_seq. split; [lia|]. unfold thread_step in Hs. cbn in Hs.
    destruct (ts !! j) eqn:Hj; [|done]. apply lookup_lt_Some in Hj. lia.
Qed.

Lemma threads_progress ps (ts : list (prog Bpm BufferPoolError _)) s :
  threads_safe (H := pool_accounts N) (client_post ps) (ts, s) ->
  (exists m, mutex_get (pool_mutex m) s = Locked) -> (forall c', ~ interleave (ts, s) c') ->
  exists i f, frames s !! i = Some f /\ frame_lock f = RwWriter.
Proof.
  intros (ls & Hls & Hok) Hm Hno. cbn [fst snd] in *. apply last_locked in Hm as (m & Hm & Hmax).
  pose proof (po_mutex _ _ _ Hok m) as Hc. rewrite Hm in Hc.
  assert (THold m ∈ mjoin ls) as Hin by (apply cnt_pos; lia).
  apply list_elem_of_join in Hin as (l & Hin & Hl).
  apply list_elem_of_split in Hl as (ls1 & ls2 & ->).
  destruct (Forall2_lookup_l _ _ _ (length ls1) l Hls) as (p & Hp & Hsafe); [by apply list_lookup_middle|].
  destruct (threads_safe_blocked (H := pool_accounts N) (client_post ps) ts s l (mjoin (ls1 ++ ls2)) p (length ls1)) as [(r & -> & l' & Hl & Hr)|Hw];
    [done|done| |done| |].
  - eapply acc_ok_perm; [apply mjoin_middle|exact Hok].
  - assert (no_mutex l') as Hnm; [|by destruct (Hnm m); rewrite <- Hl].
    destruct r as [[gs es]|e|]; cbn in Hr; [|done|done]. destruct Hr as (ps' & Hr & _).
    apply (owns_no_mutex gs). by exists ps'.
  - destruct Hw as [(m2 & Hm2 & Hb)|[Hb|Hf]]; [|by destruct (Hb m)|done].
    specialize (Hb m Hin). specialize (Hmax m2 Hm2). lia.
Qed.

(** ** The end *)

Lemma threads_end (rs : list (list PageGuard * list BufferPoolError)) (s : Bpm) :
  threads_safe (H := pool_accounts N) (client_post []) ((fun r => Done (Ok r)) <$> rs, s) ->
  exists ps, pool_ok N (pins_of ps ++ guards_tokens (mjoin (fst <$> rs))) s
    /\ (mjoin (snd <$> rs) = [] -> ps = []).
Proof.
  intros (ls & Hls & Hok). cbn [fst snd] in *.
  assert (exists ps, mjoin ls ≡ₚ pins_of ps ++ guards_tokens (mjoin (fst <$> rs)) /\ (mjoin (snd <$> rs) = [] -> ps = []))
    as (ps & Hp & He); [|exists ps; split; [by eapply pool_ok_perm|done]].
  clear Hok. revert ls Hls. induction rs as [|[gs es] rs IH]; intros ls Hls.
  { apply Forall2_nil_inv_r in Hls as ->. by exists []. }
  rewrite fmap_cons in Hls. apply Forall2_cons_inv_r in Hls as (l & ls' & Hl & Hls & ->).
  destruct (IH ls' Hls) as (ps & Hp & He). destruct Hl as (l' & Hl & ps' & Hl' & He').
  exists (ps' ++ ps). split.
  - cbn [mjoin list_join fmap list_fmap fst]. rewrite Hp, Hl, Hl', guards_tokens_app. unfold pins_of.
    rewrite fmap_app, <- !app_assoc. apply Permutation_app_head, Permutation_app_swap_app.
  - cbn [mjoin list_join fmap list_fmap snd]. intros [E1 E2]%app_eq_nil. by rewrite He, He'.
Qed.
End Threads.

(** * Properties *)

Lemma join_nils {A B} (l : list A) : mjoin ((fun _ => []) <$> l) = ([] : list B).
Proof. by induction l. Qed.

Section Interleavings.
Context {Ev C Tx Rx W : Type} `{EvictorLaws Ev, !Broadcast C Tx Rx, !PageStore W}.
#[local] Abbreviation Bpm := (BufferPoolManager Ev C Tx W).
Variable show_io : IoError -> rstr.

Lemma clients_safe clients (s : Bpm) ts s' :
  idle s -> rtc interleave ((fun ops => client show_io ops []) <$> clients, s) (ts, s') ->
  threads_safe (H := pool_accounts (length (frames s))) (client_post []) (ts, s').
Proof.
  intros Hidle Hsteps. eapply threads_safe_steps; [exact Hsteps|].
  exists ((fun _ => []) <$> clients). cbn [fst snd]. split.
  - apply Forall2_fmap, Forall_Forall2_diag, Forall_forall. intros ops _.
    by apply (safe_client show_io _ ops [] [] []).
  - rewrite join_nils.
    by apply idle_ok.
Qed.

(** C2: Any number of callers, each making any calls, their accesses to the
    shared state interleaved in any way: whenever a mutex is held some thread
    can go on, unless a frame is locked by a writer; and when all callers are
    done, however their calls were interleaved and whatever was evicted, the
    mutexes are free, no two of the guards they still hold are in conflict, each
    frame is locked exactly as these guards say, and its pin count is the number
    of guards on it, or more by the pins that calls which failed have lost. *)
Theorem pool_interleavings clients (s : Bpm) ts s' :
  idle s -> rtc interleave ((fun ops => client show_io ops []) <$> clients, s) (ts, s') ->
  ((exists m, mutex_get (pool_mutex m) s' = Locked) ->
     (exists c', interleave (ts, s') c') \/ exists i f, frames s' !! i = Some f /\ frame_lock f = RwWriter)
  /\ forall rs, ts = (fun r => Done (Ok r)) <$> rs ->
     let gs := mjoin (fst <$> rs) in
     (forall m, mutex_get (pool_mutex m) s' = Unlocked)
     /\ forall i f, frames s' !! i = Some f ->
          compatible (guards_on gs i) /\ frame_lock f = lock_of (guards_on gs i)
          /\ exists lost : nat, frame_pins f = wrap 64 (zlen (guards_on gs i) + Z.of_nat lost)
               /\ (mjoin (snd <$> rs) = [] -> lost = 0%nat).
Proof.
  intros Hidle Hsteps. pose proof (clients_safe clients s ts s' Hidle Hsteps) as Hsafe. split.
  - intros Hm. destruct (step_or_not ts s') as [Hs|Hno]; [by left|right].
    by apply (threads_progress (length (frames s)) [] ts s' Hsafe).
  - intros rs ->. cbv zeta. apply threads_end in Hsafe as (ps & Hok & Hps).
    set (gs := mjoin (fst <$> rs)) in *.
    assert (forall t, token_frame t = None -> cnt t (pins_of ps ++ guards_tokens gs) = 0%nat) as Hnone.
    { intros t Ht. rewrite cnt_app, guards_tokens_global by done. rewrite Nat.add_0_r. apply cnt_zero.
      intros (? & -> & _)%list_elem_of_fmap. done. }
    assert (TPanic ∉ pins_of ps ++ guards_tokens gs) as Hnp by (by apply cnt_zero, Hnone).
    split.
    + intros m. pose proof (po_mutex _ _ _ Hok m) as Hm. rewrite Hnone in Hm by done.
      destruct (mutex_get (pool_mutex m) s') eqn:E; [done|done|].
      destruct Hnp. apply (po_poison _ _ _ Hok). left. by exists m.
    + intros i f Hf. pose proof (po_frame _ _ _ Hok i f Hf) as Hfr.
      assert (forall t, (forall j, t <> TPin j) -> cnt t (pins_of ps ++ guards_tokens gs) = cnt t (guards_tokens gs)) as Hl.
      { intros t Ht. rewrite cnt_app. assert (cnt t (pins_of ps) = 0%nat) as ->; [|done].
        apply cnt_zero. intros (j & -> & _)%list_elem_of_fmap. by destruct (Ht j). }
      destruct (guards_lock gs i f _ (Hl (TRead i) ltac:(done)) (Hl (TWrite i) ltac:(done)) Hfr) as [Hlock Hcomp].
      { intros Hp. apply Hnp, (po_poison _ _ _ Hok). right. by exists i, f. }
      split_and!; [done..|]. exists (cnt (TPin i) (pins_of ps)). destruct Hfr as (_ & -> & _).
      rewrite cnt_app, guards_tokens_pins. split; [f_equal; unfold zlen; lia|]. intros He. by rewrite Hps.
Qed.
End Interleavings.

(** A reader that drops its guard, and a writer of another page that keeps its
    own. *)
#[local] Abbreviation MemBpm := (BufferPoolManager ClockEvictorState Channels nat (DiskManager MemFile * MemFs)).
#[local] Abbreviation mem_client ops := (client (Ev := ClockEvictorState) (C := Channels) (Tx := nat)
  (Rx := nat * nat) (W := DiskManager MemFile * MemFs) (fun _ => []) ops []).

Definition two_clients : list (list Op) :=
  [[OpRead (mkPageId 7 0); OpDrop 0]; [OpWrite (mkPageId 7 1)]].

Lemma mem_pool_idle n : idle (mem_pool n : MemBpm).
Proof.
  destruct (clock_new_inv n) as [Hi _]. split; [by intros []|done| |].
  - cbn. by rewrite length_replicate, length_fmap, length_seq.
  - intros i f Hf. cbn in Hf. rewrite list_lookup_fmap in Hf.
    destruct (seq 0 n !! i) as [j|] eqn:Hj; [|done]. injection Hf as <-.
    apply lookup_seq in Hj as [-> _]. done.
Qed.

Lemma pool_interleavings_witness :
  exists s' : MemBpm, (forall m, mutex_get (pool_mutex m) s' = Unlocked)
    /\ forall i f, frames s' !! i = Some f ->
         frame_lock f = lock_of (guards_on [PageWriteGuard 0] i)
         /\ frame_pins f = wrap 64 (zlen (guards_on [PageWriteGuard 0] i)).
Proof.
  assert (match run (mem_client [OpRead (mkPageId 7 0); OpDrop 0]) (mem_pool 2) with
          | Some (r, s1) =>
              match run (mem_client [OpWrite (mkPageId 7 1)]) s1 with
              | Some (r', _) => Some (r, r')
              | None => None
              end
          | None => None
          end = Some (Ok ([], []), Ok ([PageWriteGuard 0], []))) as Hrun by (by vm_compute).
  destruct (run (mem_client [OpRead (mkPageId 7 0); OpDrop 0]) (mem_pool 2)) as [[r s1]|] eqn:E1; [|done].
  destruct (run (mem_client [OpWrite (mkPageId 7 1)]) s1) as [[r' s2]|] eqn:E2; [|done].
  injection Hrun as -> ->.
  destruct (pool_interleavings (fun _ => []) two_clients (mem_pool 2)
    [Done (Ok ([], [])); Done (Ok ([PageWriteGuard 0], []))] s2) as [_ Hend].
  - apply mem_pool_idle.
  - etrans; [exact (run_interleave (_ <$> two_clients) 0%nat _ _ _ _ eq_refl E1)|].
    exact (run_interleave [Done (Ok ([], [])); _] 1%nat _ _ _ _ eq_refl E2).
  - destruct (Hend [([], []); ([PageWriteGuard 0], [])] eq_refl) as [Hm Hf]. exists s2. split; [exact Hm|].
    intros i f Hi. destruct (Hf i f Hi) as (_ & Hl & n & Hp & Hn). split; [exact Hl|].
    rewrite Hn in Hp by done. by rewrite Z.add_0_r in Hp.
Defined.
